(* ===== verification/_CoqProject ===== *)
-Q . S2P
Prelude.v
GoStrings.v
GoErr.v
RateLimiter.v
Program.v
RunGroup.v
Types.v
Constants.v
Permissions.v
Hash.v
ResourceGraph.v
ResourceGraphFacts.v
ResourceGraphSpec.v
World.v
Fga.v
Tuples.v
TuplesFacts.v
PolicyReconciler.v
PolicyReconcilerFacts.v
Indexes.v
RefK8s.v
PolicyReconcilerSpec.v
AuthModel.v
AuthModelFacts.v
AuthModelSpec.v
PRCache.v
ModelIDWatcher.v
Discovery.v
Authorizer.v
AuthorizerSpec.v
Http.v
EndToEnd.v
RoleGraph.v
RoleGraphFacts.v
RoleGraphSpec.v
ControllerEnv.v
TargetHold.v
RefObjects.v
ObjectTuples.v
ObjectTuplesFacts.v
ObjectTuplesSpec.v
HoldProtocol.v
ResourceOwnerHierarchy.v
ResourceOwnerHierarchySpec.v
GroupMembership.v
GroupMembershipSpec.v
SystemGroup.v
SystemGroupSpec.v
AuthModelController.v
AuthModelControllerSpec.v
RoleController.v
RoleControllerSpec.v
PolicyBindingController.v
PolicyBindingFacts.v
PolicyBindingControllerSpec.v
PolicyBindingRequeue.v
HoldEffects.v
HoldRefinement.v
HoldSystem.v
WakeUps.v
Setup.v
SetupSpec.v
Libraries.v
Managers.v
WebhookServer.v
Commands.v
CommandsSpec.v
