(* ===== verification/Prelude.v ===== *)
(** * OpenFGA auth provider: a verification library

    The program is the provider that lets a Milo control plane authorize with
    OpenFGA. It has two halves, joined by the OpenFGA store. The controllers
    (internal/controller, internal/openfga) turn ProtectedResources into the
    store's authorization model, and Roles, PolicyBindings, GroupMemberships,
    Projects, Organizations, Users and ServiceAccounts into its tuples. The webhook
    (internal/webhook) answers SubjectAccessReviews by asking the store. This
    library models both halves as executable functions and proves what each
    promises, and that what one writes is what the other reads.

    ** How the model reads

    Go code that can fail is a computation [M W A] (GoErr.v): from a world [W] to
    an [outcome], [Ok], [Err] with the Go error's structure and text, or
    [OutOfFuel], and the next world. A controller's world ([World], World.v) is the
    OpenFGA server's state, the Kubernetes API server's state and the cached model
    ID; the webhook's ([WebhookWorld], Authorizer.v) adds discovery and the informer
    cache, which may change between any two reads. A handler is one definition with
    the code's guards and early returns in the code's order; [try] is the point
    where the code inspects an error, [wrapf] an [fmt.Errorf] with [%w]. The commands
    and the set-up methods, which only put library values together, are programs of
    library calls instead ([program], Program.v): what they do is the calls they make,
    for every answer.

    Code outside the repository is a parameter: a class of operations and a class
    of the laws its documentation gives, with a reference instance that runs the
    examples. They are the OpenFGA service ([FgaClient], [FgaLaws], [RefStore] in
    Fga.v), the Kubernetes client by kind ([KClient], [KReadLaws] in World.v,
    [KWriter], [KStatusLaws] in ControllerEnv.v, [RefK8s]), its client for objects
    known by their metadata ([KDynamic], [KDynamicLaws], RefObjects.v),
    controller-runtime's finalizers, apimachinery's conditions and semantic
    equality, the REST mapper, the scheme, ConfigMap writes, go-cmp, discovery, the
    JSON codec and selector parsing. The Go standard library is modelled directly
    (GoStrings.v, and FNV in Hash.v). Map iteration has no order in Go: what
    depends on it is stated by membership, or sorted as the code sorts it.

    ** Files

    - GoStrings, GoErr, Types, Constants: strings, errors and computations, the
      objects and messages (fields under the code's names), the type names.
    - Permissions, Hash: internal/permissions; the hashed relation names.
    - ResourceGraph, ResourceGraphFacts, ResourceGraphSpec: resources.go. The
      abstract specification is reachability along the registrations' edges.
    - World, Fga, RefK8s, ControllerEnv, RefObjects: the interfaces above.
    - Tuples, TuplesFacts, Indexes: index.go, tuples.go, errors.go, model_id.go,
      model_transition.go, the manager's field indexes.
    - PolicyReconciler, PolicyReconcilerFacts, PolicyReconcilerSpec:
      policy_reconciler.go.
    - AuthModel, AuthModelFacts, AuthModelSpec: authorization_model_reconciler.go;
      AuthModelController, AuthModelControllerSpec: authorizationmodel_controller.go.
    - PolicyBindingController, PolicyBindingFacts, PolicyBindingControllerSpec,
      PolicyBindingRequeue: policybinding_controller.go, which runs the policy
      reconciler.
    - RoleGraph, RoleGraphFacts, RoleGraphSpec, RoleController,
      RoleControllerSpec: role_inheritance.go, role_controller.go,
      role_reconciler.go.
    - TargetHold, ObjectTuples, ObjectTuplesFacts, ObjectTuplesSpec: target_hold.go,
      object_tuples.go; ResourceOwnerHierarchy, ResourceOwnerHierarchySpec:
      resourceownerhierarchy_controller.go and organization_controller.go;
      HoldProtocol: the locks these and the PolicyBinding controller share.
    - GroupMembership, GroupMembershipSpec: groupmembership_controller.go and
      group_member_reconciler.go; SystemGroup, SystemGroupSpec:
      systemgroup_controller.go.
    - HoldEffects, HoldRefinement, HoldSystem: the handlers' definitions as runs of
      the steps of HoldProtocol.
    - Setup: what each controller watches, with the predicates and options of its
      [SetupWithManager]; WakeUps, SetupSpec: which requests an event's watches add,
      against what the event makes stale. RateLimiter: rate_limiter.go.
    - Program: programs of calls, their runs, and what a property notes of a run.
      Libraries: the calls of the commands; Managers: the [SetupWithManager] methods,
      config.go, the watchers' constructors and cmd/manager.go; RunGroup:
      [runUntilManagerStops]; WebhookServer: cmd/webhook.go, tracer.go, context.go;
      Commands: the flags; CommandsSpec: what every run of the commands does.
    - PRCache, ModelIDWatcher, Discovery: protectedresource_cache.go,
      model_id_watcher.go, discovery.go; Authorizer, AuthorizerSpec:
      subjectaccessreview_authorizer.go; Http: http.go, webhook.go, response.go.
    - EndToEnd: the policy reconciler and the authorizer over one store.

    Definitions keep the Go names; where two controllers use one name, a prefix
    tells them apart ([role_Reconcile], [membership_Reconcile],
    [policybinding_Reconcile], [authorizationmodel_Reconcile], [project_Reconcile],
    [organization_Reconcile]).

    ** What the theorems show

    The webhook: Allow is given only for a registered permission that OpenFGA grants
    on the resource or what contains it, an admitted request is decided by OpenFGA
    alone, and every HTTP response fails closed, whatever informer events come in
    between.

    PolicyBindings: a reconcile adds only tuples that the role grants, on a target
    and for subjects it validated, under the target's hold; when it says Ready the
    store holds exactly what the binding and its siblings want; deletion revokes
    before it releases; a missing role revokes; every run ends. End to end, a
    subject of a reconciled binding is allowed what the role grants.

    The model: every rewrite of the expected model refers to what is defined, but for a
    declared parent that is not registered; the tuples the policy reconciler writes
    are of relations the model defines, wherever it filters the role's permissions;
    the merge keeps other systems' types, reconciling again writes nothing, after a reconcile the latest
    model has exactly the types the registrations reach, and a deleted
    registration's type goes before the registration does. When there is a root, the
    graph is built exactly when the registrations are acyclic below their roots; it
    does not depend on their order.

    Roles: effective permissions are those reachable through inheritance, cycles
    included; the roles woken by a change are exactly those that can reach it; the
    status tells what was found; a deleted role is released without tuples.

    Wake-ups: a binding, a role or a membership that the watches of its controller
    enqueue no request for, after an event of a Role, a ProtectedResource, a User or
    a Group, would be given by a reconcile what it has, the events that predicates
    drop included; so would a Project after an update its predicate drops. The
    exceptions are stated: memberships of a group in another namespace, and, without
    subresources, bindings on the parents of a changed registration. Nothing watches
    targets and subjects: a binding that waits for one asks to be run again.

    Lifetimes: a Project or an Organization is released only when no tuple names it,
    under every interleaving of writers, its controller and others, and the release
    is always possible; parent tuples follow owner references; memberships and
    system:authenticated tuples follow their objects and are gone before them. The
    handlers' definitions of the PolicyBinding, Project, Organization,
    GroupMembership and system-group controllers refine the protocol, so that in
    every state their runs reach a tuple that names a held object names one that
    exists and is held. The protocol itself is an abstract specification: its states
    and steps are no code's.

    The commands: whatever the libraries answer, the manager runs only when every
    controller is registered, each with the fields it is written to have: the one
    connection, to the address and with the credentials of the flags, their store, one
    lock pool; the webhook serves only when its cache and its watcher are fed, with a
    probe that passes once the caches have synced; what is opened is closed in reverse
    order; and the process ends once its manager does.

    The rest: permission parsing and printing are inverse, batches of deletes stay
    within the service's limit, a write is retried only in a model transition, the
    cache answers as its specification, the watcher keeps the last announced model.

    ** Bounds and fuel

    Loops over pages take fuel; more fuel than the store has tuples is enough, as a
    page that is not the last has at least one tuple. The recursion over the
    resource graph has as much fuel as there are registered types, plus one, and
    that over roles as there are roles; [getResourceGraph_terminates],
    [reconcilePolicy_terminates] and the [_fuel] lemmas prove that it is enough.
    Hashes are 32 bits wide and wrap as Go's do.

    ** Assumptions that are not laws of a class

    [not_found_is_end]: OpenFGA does not answer gRPC NotFound to a Read while tuples
    are left (the code takes that answer for the end of the data).
    [write_errors_true]: an error that says a tuple exists, or does not, is true.
    [members_are_stored]: a Check of a group membership tells whether its tuple is
    stored. [names_target]: the binding's resource has a name (without one, OpenFGA
    reads every object of the type). [cmp_ignores_id], [cmp_same_types]: what the
    options given to go-cmp say. [SeparateKinds]: writing one kind of object leaves
    the others alone. [distinct_types]: live registrations are of different types.
    [HeldKindsLaws]: the held kinds are cluster-scoped and served in one version, and
    a write to one object leaves the others. [SeparateMemberships]: writing a
    membership leaves the objects tuples name. [SeparatePrincipals]: Users and
    ServiceAccounts are not of a held kind. [role_event], [registration_event] and
    [reference_event]: one object changes at a time, its generation goes up with its
    spec, and an update keeps the object's UID unless the generation changes. Retries
    are bounded for delays of the wrapped limiter up to 2^62 nanoseconds.

    ** Not modelled

    The generated deep copies and the scheme registration of internal/config, the
    parsing of flags, tracing spans, logs, Kubernetes events, Prometheus collectors
    and latencies (decision counts are modelled), the performance test's generator:
    none of them decides what is written or answered. Conditions have no transition
    time. The caches behind the Kubernetes client are not told apart from the API
    server, except in HoldProtocol.v, where reads may be stale. Locks are modelled
    there; the definitions of the handlers run without them, one at a time. What
    [finalizeWhenClear] does under its lock is a definition of its own, of which
    [releaseUnderLock_checks] holds from any world, whatever others wrote while the
    lock was awaited. The programs of the
    commands run their deferred calls and their goroutines' starts, not the
    goroutines themselves, except in RunGroup.v. *)

From stdpp Require Export base option list strings gmap fin_maps sorting.
From Stdlib Require Export ZArith Lia.

(** ** Proof automation shared by every file *)

(** The hint database of the development: membership and lookup facts. *)
Create HintDb fga discriminated.
Create Rewrite HintDb fga.

(** Splits conjunctions and existentials in the context, and uses equations
    between constructors. *)
Ltac decomp :=
  repeat match goal with
  | H : _ ∧ _ |- _ => destruct H
  | H : ∃ _, _ |- _ => destruct H
  end; simplify_eq/=.

(** Case analysis on the first boolean test or [match] found in the goal. *)
Ltac case_goal :=
  match goal with
  | |- context [ if ?b then _ else _ ] => destruct b eqn:?
  | |- context [ match ?x with _ => _ end ] => destruct x eqn:?
  end.

(** The same on a hypothesis. *)
Ltac case_in H :=
  match type of H with
  | context [ if ?b then _ else _ ] => destruct b eqn:?
  | context [ match ?x with _ => _ end ] => destruct x eqn:?
  end.

(** Turns boolean equations into propositions. *)
Ltac bool_prop :=
  repeat match goal with
  | H : _ && _ = true |- _ => apply andb_true_iff in H as [? ?]
  | H : _ || _ = false |- _ => apply orb_false_iff in H as [? ?]
  | H : negb _ = true |- _ => apply negb_true_iff in H
  | H : negb _ = false |- _ => apply negb_false_iff in H
  | H : bool_decide _ = true |- _ => apply bool_decide_eq_true in H
  | H : bool_decide _ = false |- _ => apply bool_decide_eq_false in H
  end.

(** ** Generic list lemmas *)

Section existsb_lemmas.
Context {A : Type} (f : A → bool).

(** Go's search loop with a [found] flag and a [break] is [existsb]. *)
Lemma existsb_elem (l : list A) : existsb f l = true ↔ ∃ x, x ∈ l ∧ f x = true.
Proof. rewrite existsb_exists. by setoid_rewrite list_elem_of_In. Qed.

Lemma existsb_not_elem (l : list A) : existsb f l = false ↔ ∀ x, x ∈ l → f x = false.
Proof.
  rewrite <- not_true_iff_false, existsb_elem. split.
  - intros H x Hx. apply not_true_iff_false. eauto.
  - intros H (x & Hx & Hf). by rewrite H in Hf.
Qed.
Lemma forallb_elem (l : list A) : forallb f l = true ↔ ∀ x, x ∈ l → f x = true.
Proof. rewrite forallb_forall. by setoid_rewrite list_elem_of_In. Qed.
End existsb_lemmas.

Lemma list_empty_iff {A} (l : list A) : (∀ x, x ∉ l) → l = [].
Proof. destruct l as [|x l]; [done|]. intros H. destruct (H x). left. Qed.

Lemma elem_of_perm {A} (l1 l2 : list A) x : l1 ≡ₚ l2 → x ∈ l1 ↔ x ∈ l2.
Proof. intros P. by rewrite P. Qed.

Lemma elem_of_flat_map {A B} (f : A → list B) l y : y ∈ flat_map f l ↔ ∃ x, x ∈ l ∧ y ∈ f x.
Proof. rewrite list_elem_of_In, in_flat_map. by setoid_rewrite list_elem_of_In. Qed.

Lemma ex_elem_cons {A} (x : A) l (P : A → Prop) :
  (∃ y, y ∈ x :: l ∧ P y) ↔ P x ∨ ∃ y, y ∈ l ∧ P y.
Proof. setoid_rewrite elem_of_cons. naive_solver. Qed.

Lemma elem_of_map {A B} (f : A → B) l y : y ∈ map f l ↔ ∃ x, x ∈ l ∧ y = f x.
Proof. rewrite list_elem_of_In, in_map_iff. setoid_rewrite list_elem_of_In. naive_solver. Qed.

Lemma elem_of_List_filter {A} (f : A → bool) l x : x ∈ List.filter f l ↔ x ∈ l ∧ f x = true.
Proof. by rewrite list_elem_of_In, filter_In, <- list_elem_of_In. Qed.

(** A test that all values of a map pass. *)
Lemma lookup_forallb `{Countable K} {A} (f : A → bool) (m : gmap K A) k x :
  forallb (λ kx, f kx.2) (map_to_list m) = true → m !! k = Some x → f x = true.
Proof.
  rewrite forallb_forall. intros HA Hk. apply (HA (k, x)), list_elem_of_In. by apply elem_of_map_to_list.
Qed.

(** Membership of a string in a slice, as the loops [for _, x := range l { if x == s ... }]. *)
Definition str_in (s : string) (l : list string) : bool := existsb (String.eqb s) l.

Lemma str_in_elem s l : str_in s l = true ↔ s ∈ l.
Proof.
  unfold str_in. rewrite existsb_elem. split.
  - intros (x & Hx & E). apply String.eqb_eq in E. by subst.
  - intros H. exists s. by rewrite String.eqb_refl.
Qed.

Lemma str_in_not_elem s l : str_in s l = false ↔ s ∉ l.
Proof. rewrite <- str_in_elem. by destruct (str_in s l). Qed.

#[export] Hint Rewrite str_in_elem str_in_not_elem @elem_of_List_filter : fga.

(** ** Reachability and sizes *)

Lemma rtc_iff {A} (R S : A → A → Prop) x y : (∀ a b, R a b ↔ S a b) → rtc R x y ↔ rtc S x y.
Proof. intros E. split; apply rtc_subrel; intros ? ?; apply E. Qed.

Lemma rtc_flip {A} (R : A → A → Prop) x y : rtc (λ a b, R b a) x y ↔ rtc R y x.
Proof. split; induction 1; [done|by eapply rtc_r|done|by eapply rtc_r]. Qed.

(** Two relations that agree outside [c] reach the same from where [c] is not
    reached. *)
Lemma rtc_agree {A} (R S : A → A → Prop) c x y :
  (∀ a b, a ≠ c → R a b ↔ S a b) → ¬ rtc S x c → rtc R x y ↔ rtc S x y.
Proof.
  intros HE Hn. split; revert y; apply rtc_ind_r; try apply rtc_refl.
  - intros y z _ Hyz Hy. eapply rtc_r; [done|]. apply HE; [congruence|done].
  - intros y z Hxy Hyz Hy. eapply rtc_r; [done|]. apply HE; [congruence|done].
Qed.

Lemma size_list_to_set_le `{Countable A} (l : list A) : size (list_to_set l : gset A) ≤ length l.
Proof.
  induction l as [|x l IH]; [done|]. simpl. rewrite size_union_alt, size_singleton.
  pose proof (subseteq_size (list_to_set l ∖ {[ x ]}) (list_to_set l : gset A)). set_solver by lia.
Qed.

(** ** Sorting strings: [sort.Strings] *)

(** Go compares strings byte by byte, as [String.leb] does. The order is total
    and antisymmetric, so every sorting algorithm returns the same list. *)
Definition sort_Strings (l : list string) : list string := merge_sort String.le l.

#[export] Instance string_le_total : Total String.le.
Proof. apply _. Qed.

Lemma sort_Strings_perm l : sort_Strings l ≡ₚ l.
Proof. apply merge_sort_Permutation. Qed.

Lemma sort_Strings_sorted l : StronglySorted String.le (sort_Strings l).
Proof. apply (StronglySorted_merge_sort _). Qed.

Lemma elem_of_sort_Strings s l : s ∈ sort_Strings l ↔ s ∈ l.
Proof. by rewrite sort_Strings_perm. Qed.

Lemma NoDup_sort_Strings l : NoDup (sort_Strings l) ↔ NoDup l.
Proof. by rewrite sort_Strings_perm. Qed.

Lemma length_sort_Strings l : length (sort_Strings l) = length l.
Proof. by rewrite sort_Strings_perm. Qed.

(** A sorted list without duplicates is determined by its members. *)
Lemma sort_Strings_ext l1 l2 :
  NoDup l1 → NoDup l2 → (∀ x, x ∈ l1 ↔ x ∈ l2) → sort_Strings l1 = sort_Strings l2.
Proof.
  intros N1 N2 E. apply (StronglySorted_unique String.le).
  - apply sort_Strings_sorted.
  - apply sort_Strings_sorted.
  - rewrite !sort_Strings_perm. by apply NoDup_Permutation.
Qed.

(** Sorting forgets the order its input came in. *)
Lemma sort_Strings_Permutation l1 l2 : l1 ≡ₚ l2 → sort_Strings l1 = sort_Strings l2.
Proof.
  intros P. apply (StronglySorted_unique String.le).
  - apply sort_Strings_sorted.
  - apply sort_Strings_sorted.
  - by rewrite !sort_Strings_perm.
Qed.

#[export] Hint Rewrite elem_of_sort_Strings : fga.
