(* ===== verification/GoStrings.v ===== *)
(** * Go's [strings] package, as far as the provider uses it

    A Go string is a sequence of bytes: [String.string]. Indices are Go's
    [int]s, with -1 for "not found". *)

From S2P Require Import Prelude.
From Stdlib Require Import Ascii.
Local Open Scope Z_scope.

Abbreviation slen s := (Z.of_nat (String.length s)).

(** [s[i:]] and [s[i:j]]. *)
Definition slice_from (s : string) (i : Z) : string :=
  String.substring (Z.to_nat i) (String.length s - Z.to_nat i) s.
Definition slice (s : string) (i j : Z) : string :=
  String.substring (Z.to_nat i) (Z.to_nat (j - i)) s.

(** [strings.HasPrefix]. *)
Definition HasPrefix (s p : string) : bool := String.prefix p s.

(** [strings.Contains]. *)
Fixpoint Contains (s sub : string) : bool :=
  String.prefix sub s ||
  match s with
  | EmptyString => false
  | String _ s' => Contains s' sub
  end.

(** [strings.IndexByte]. *)
Fixpoint IndexByte (s : string) (c : ascii) : Z :=
  match s with
  | EmptyString => -1
  | String d s' =>
    if Ascii.eqb d c then 0
    else let i := IndexByte s' c in if i <? 0 then -1 else i + 1
  end.

(** [strings.Split] on a one-byte separator. *)
Fixpoint Split (s : string) (sep : ascii) : list string :=
  match s with
  | EmptyString => [EmptyString]
  | String d s' =>
    if Ascii.eqb d sep then EmptyString :: Split s' sep
    else match Split s' sep with
         | [] => [String d EmptyString]
         | h :: t => String d h :: t
         end
  end.

(** [strings.Cut] on a one-byte separator: before, after, found. *)
Definition Cut (s : string) (sep : ascii) : string * string * bool :=
  let i := IndexByte s sep in
  if i <? 0 then (s, EmptyString, false)
  else (slice s 0 i, slice_from s (i + 1), true).

(** [strings.ReplaceAll] of one byte by another. *)
Fixpoint ReplaceAll (s : string) (old new : ascii) : string :=
  match s with
  | EmptyString => EmptyString
  | String d s' => String (if Ascii.eqb d old then new else d) (ReplaceAll s' old new)
  end.

(** [strings.Join]. *)
Fixpoint Join (l : list string) (sep : string) : string :=
  match l with
  | [] => EmptyString
  | [s] => s
  | s :: l' => s +:+ sep +:+ Join l' sep
  end.

(** [strings.ToLower] of ASCII letters; the others are kept. *)
Definition lower_ascii (c : ascii) : ascii :=
  let n := N_of_ascii c in if ((65 <=? n) && (n <=? 90))%N then ascii_of_N (n + 32) else c.
Fixpoint ToLower (s : string) : string :=
  match s with EmptyString => EmptyString | String c s => String (lower_ascii c) (ToLower s) end.

(** [%d] of a non-negative integer. *)
Definition digit (n : N) : ascii := ascii_of_N (48 + n).
Fixpoint format_dec_aux (fuel : nat) (n : N) (acc : string) : string :=
  match fuel with
  | O => acc
  | S fuel' =>
    let acc' := String (digit (n mod 10)) acc in
    if (n / 10 =? 0)%N then acc' else format_dec_aux fuel' (n / 10) acc'
  end.
Definition format_dec (n : nat) : string := format_dec_aux (S n) (N.of_nat n) EmptyString.

(** The byte occurs in the string. *)
Fixpoint has_byte (c : ascii) (s : string) : bool :=
  match s with
  | EmptyString => false
  | String d s' => Ascii.eqb d c || has_byte c s'
  end.

(** ** Appending *)

Lemma app_cons c s t : String c s +:+ t = String c (s +:+ t).
Proof. reflexivity. Qed.
Lemma app_nil_l s : EmptyString +:+ s = s.
Proof. reflexivity. Qed.
Lemma app_nil_r s : s +:+ EmptyString = s.
Proof. induction s as [|c s IH]; [done|]. rewrite app_cons. by f_equal. Qed.
Lemma app_assoc s t u : (s +:+ t) +:+ u = s +:+ (t +:+ u).
Proof. induction s as [|c s IH]; [done|]. rewrite !app_cons. by f_equal. Qed.
Lemma length_app_str s t : String.length (s +:+ t) = (String.length s + String.length t)%nat.
Proof. induction s as [|c s IH]; [done|]. rewrite app_cons. simpl. by rewrite IH. Qed.
Create Rewrite HintDb gostr.
#[export] Hint Rewrite app_cons app_nil_l app_nil_r app_assoc length_app_str : gostr.

Lemma app_inj_l s t u : s +:+ t = s +:+ u → t = u.
Proof. induction s as [|c s IH]; [done|]. rewrite !app_cons. intros [= E]. auto. Qed.

Lemma app_inj_len s1 t1 s2 t2 :
  String.length s1 = String.length s2 → s1 +:+ t1 = s2 +:+ t2 → s1 = s2 ∧ t1 = t2.
Proof.
  revert s2. induction s1 as [|c s1 IH]; intros [|d s2]; simpl; try done.
  intros [= L]. rewrite !app_cons. intros [= -> E]. apply IH in E as [-> ->]; done.
Qed.

(** A string splits in one way at the first occurrence of a byte. *)
Lemma app_byte_inj c s1 t1 s2 t2 :
  has_byte c s1 = false → has_byte c s2 = false →
  s1 +:+ String c t1 = s2 +:+ String c t2 → s1 = s2 ∧ t1 = t2.
Proof.
  revert s2. induction s1 as [|d s1 IH]; intros [|e s2]; simpl; rewrite ?app_cons, ?app_nil_l.
  - by intros _ _ [= ->].
  - intros _ H [= -> E]. by rewrite Ascii.eqb_refl in H.
  - intros H _ [= -> E]. by rewrite Ascii.eqb_refl in H.
  - intros H1 H2 [= -> E]. bool_prop. apply IH in E as [-> ->]; done.
Qed.

Lemma has_byte_app c s t : has_byte c (s +:+ t) = has_byte c s || has_byte c t.
Proof.
  induction s as [|d s IH]; [done|]. rewrite app_cons. simpl. by rewrite IH, orb_assoc.
Qed.

(** The separator that occurs once splits a string one way. *)
Lemma app_byte_unique c s1 t1 s2 t2 :
  has_byte c s2 = false → has_byte c t2 = false →
  s1 +:+ String c t1 = s2 +:+ String c t2 → s1 = s2 ∧ t1 = t2.
Proof.
  intros H2 Ht E. assert (has_byte c s1 = false) as H1; [|by apply (app_byte_inj c)].
  revert s2 H2 E. induction s1 as [|d s1 IH]; intros [|e s2]; rewrite ?app_cons, ?app_nil_l; [done|done| |].
  - intros _ [= -> E]. rewrite <- E, has_byte_app in Ht. simpl in Ht. by rewrite Ascii.eqb_refl, orb_true_r in Ht.
  - simpl. intros [H2 H3]%orb_false_iff [= -> E]. rewrite H2. simpl. by apply (IH s2).
Qed.
#[export] Hint Rewrite has_byte_app : gostr.

(** ** Slices *)

Lemma substring_0_len s t : String.substring 0 (String.length s) (s +:+ t) = s.
Proof. induction s as [|c s IH]; [by destruct t|]. rewrite app_cons. simpl. by rewrite IH. Qed.

Lemma substring_all s : String.substring 0 (String.length s) s = s.
Proof. rewrite <- (app_nil_r s) at 2. apply substring_0_len. Qed.

Lemma substring_app_skip s t n :
  String.substring (String.length s) n (s +:+ t) = String.substring 0 n t.
Proof. induction s as [|c s IH]; [done|]. rewrite app_cons. simpl. apply IH. Qed.

Lemma slice_prefix s t : slice (s +:+ t) 0 (slen s) = s.
Proof.
  unfold slice. rewrite Z.sub_0_r, Nat2Z.id. apply substring_0_len.
Qed.

Lemma slice_from_app s t i : i = slen s → slice_from (s +:+ t) i = t.
Proof.
  intros ->. unfold slice_from. rewrite Nat2Z.id, length_app_str, substring_app_skip.
  rewrite Nat.add_comm, Nat.add_sub. apply substring_all.
Qed.

Lemma slice_from_app_byte s c t : slice_from (s +:+ String c t) (slen s + 1) = t.
Proof.
  change (String c t) with (String c EmptyString +:+ t). rewrite <- app_assoc.
  apply slice_from_app. rewrite length_app_str. simpl. lia.
Qed.

Lemma slice_mid s c t u : slice (s +:+ String c (t +:+ u)) (slen s + 1) (slen s + 1 + slen t) = t.
Proof.
  unfold slice. replace (Z.to_nat (slen s + 1 + slen t - (slen s + 1))) with (String.length t) by lia.
  replace (Z.to_nat (slen s + 1)) with (String.length (s +:+ String c EmptyString))
    by (rewrite length_app_str; simpl; lia).
  change (String c (t +:+ u)) with (String c EmptyString +:+ (t +:+ u)). rewrite <- app_assoc.
  rewrite substring_app_skip. apply substring_0_len.
Qed.

(** ** [IndexByte] *)

Lemma IndexByte_range s c : -1 ≤ IndexByte s c < slen s.
Proof.
  induction s as [|d s IH]; simpl; [lia|].
  destruct (Ascii.eqb d c); [lia|]. destruct (Z.ltb_spec (IndexByte s c) 0); lia.
Qed.

Lemma IndexByte_app s c t : has_byte c s = false → IndexByte (s +:+ String c t) c = slen s.
Proof.
  induction s as [|d s IH]; simpl; rewrite ?app_cons, ?app_nil_l; simpl.
  - by rewrite Ascii.eqb_refl.
  - intros H. bool_prop. rewrite H, IH by done.
    destruct (Z.ltb_spec (slen s) 0); lia.
Qed.

Lemma IndexByte_none s c : IndexByte s c < 0 ↔ has_byte c s = false.
Proof.
  induction s as [|d s IH]; simpl; [lia|].
  destruct (Ascii.eqb d c); simpl; [split; [lia|done]|].
  rewrite <- IH. pose proof (IndexByte_range s c).
  destruct (Z.ltb_spec (IndexByte s c) 0); lia.
Qed.

(** The index splits the string at the byte's first occurrence. *)
Lemma IndexByte_split s c :
  0 ≤ IndexByte s c →
  ∃ a b, s = a +:+ String c b ∧ has_byte c a = false ∧ IndexByte s c = slen a.
Proof.
  induction s as [|d s IH]; simpl; [lia|].
  destruct (Ascii.eqb d c) eqn:E.
  - intros _. apply Ascii.eqb_eq in E as ->. by exists EmptyString, s.
  - destruct (Z.ltb_spec (IndexByte s c) 0); [lia|]. intros _.
    destruct IH as (a & b & -> & Ha & Hi); [done|].
    exists (String d a), b. rewrite app_cons. simpl. rewrite E, Ha. split_and!; [done..|].
    rewrite Hi. lia.
Qed.

(** ** [Split] *)

Lemma Split_nonnil s c : Split s c ≠ [].
Proof. destruct s; simpl; [done|]. destruct (Ascii.eqb _ _); [done|]. by destruct (Split s c). Qed.

Lemma Split_none s c : has_byte c s = false → Split s c = [s].
Proof.
  induction s as [|d s IH]; simpl; [done|]. intros H. bool_prop. by rewrite H, IH.
Qed.

Lemma Split_app s c t : has_byte c s = false → Split (s +:+ String c t) c = s :: Split t c.
Proof.
  induction s as [|d s IH]; simpl; rewrite ?app_cons, ?app_nil_l; simpl.
  - by rewrite Ascii.eqb_refl.
  - intros H. bool_prop. by rewrite H, IH.
Qed.

(** Joining the parts gives the string back, and no part holds the separator. *)
Lemma Split_Join s c : Join (Split s c) (String c EmptyString) = s.
Proof.
  induction s as [|d s IH]; [done|]. simpl. destruct (Ascii.eqb d c) eqn:E.
  - apply Ascii.eqb_eq in E as ->. pose proof (Split_nonnil s c).
    simpl. destruct (Split s c); [done|]. by rewrite IH.
  - pose proof (Split_nonnil s c). destruct (Split s c) as [|h [|h' t]]; [done|..]; simpl in *.
    + by f_equal.
    + by rewrite app_cons, IH.
Qed.

Lemma Split_parts s c p : p ∈ Split s c → has_byte c p = false.
Proof.
  revert p. induction s as [|d s IH]; intros p; simpl.
  - rewrite list_elem_of_singleton. by intros ->.
  - destruct (Ascii.eqb d c) eqn:E.
    + rewrite elem_of_cons. intros [->|H]; auto.
    + destruct (Split s c) as [|h t]; rewrite elem_of_cons.
      * intros [->|H]; [simpl; by rewrite E|set_solver].
      * intros [->|H]; [simpl; rewrite E; apply IH; set_solver|apply IH; set_solver].
Qed.

(** [Split] into exactly two parts. *)
Lemma Split_two s c a b : Split s c = [a; b] → s = a +:+ String c b.
Proof. intros E. rewrite <- (Split_Join s c), E. simpl. by rewrite app_cons, app_nil_l. Qed.

(** ** [Cut] *)

Lemma Cut_app s c t : has_byte c s = false → Cut (s +:+ String c t) c = (s, t, true).
Proof.
  intros H. unfold Cut. rewrite IndexByte_app by done.
  destruct (Z.ltb_spec (slen s) 0); [lia|]. by rewrite slice_prefix, slice_from_app_byte.
Qed.

(** ** [Contains] *)

Lemma prefix_app p s : String.prefix p (p +:+ s) = true.
Proof.
  induction p as [|c p IH]; [by destruct s|]. rewrite app_cons. simpl.
  destruct (ascii_dec c c); done.
Qed.

Lemma Contains_prefix s sub : String.prefix sub s = true → Contains s sub = true.
Proof. by destruct s; simpl; intros ->. Qed.

Lemma Contains_app_r a sub b : Contains (a +:+ (sub +:+ b)) sub = true.
Proof.
  induction a as [|c a IH]; rewrite ?app_cons, ?app_nil_l.
  - apply Contains_prefix, prefix_app.
  - simpl. rewrite IH. apply orb_true_r.
Qed.

Lemma Contains_cons c s sub : Contains s sub = true → Contains (String c s) sub = true.
Proof. simpl. intros ->. apply orb_true_r. Qed.

Lemma Contains_prepend a s sub : Contains s sub = true → Contains (a +:+ s) sub = true.
Proof.
  intros H. induction a as [|c a IH]; [done|]. rewrite app_cons. by apply Contains_cons.
Qed.

(** A one-byte pattern is a byte. *)
Lemma Contains_byte s c : Contains s (String c EmptyString) = has_byte c s.
Proof.
  induction s as [|d s IH]; [done|]. simpl. rewrite IH.
  destruct (ascii_dec c d) as [->|N].
  - rewrite (proj2 (Ascii.eqb_eq d d)) by done. by destruct s.
  - destruct (Ascii.eqb_spec d c); [congruence|done].
Qed.

(** ** [ReplaceAll] *)

Lemma ReplaceAll_no_byte s old new : old ≠ new → has_byte old (ReplaceAll s old new) = false.
Proof.
  intros N. induction s as [|d s IH]; simpl; [done|]. rewrite IH, orb_false_r.
  destruct (Ascii.eqb_spec d old) as [->|M]; by apply Ascii.eqb_neq.
Qed.

Lemma ReplaceAll_id s old new : has_byte old s = false → ReplaceAll s old new = s.
Proof.
  induction s as [|d s IH]; simpl; [done|]. intros H. bool_prop. by rewrite H, IH.
Qed.
