(* ===== verification/GoErr.v ===== *)
(** * Go errors and effectful code

    [goerr] is the error values the provider inspects; [M W A] is a computation
    that reads and changes the external world [W] (the Kubernetes API server and
    the OpenFGA server) and returns a value or an error. *)

From S2P Require Import Prelude GoStrings.
Local Open Scope Z_scope.

(** The reasons of a Kubernetes API error that the provider tells apart. *)
Inductive StatusReason := StatusReasonNotFound | StatusReasonConflict | StatusReasonOther.

#[export] Instance StatusReason_eq_dec : EqDecision StatusReason.
Proof. solve_decision. Defined.

(** Error values. A constructor of a library's error carries the text the
    library gives it. *)
Inductive goerr :=
| ErrText (msg : string)                         (* errors.New, fmt.Errorf without %w *)
| ErrWrap (prefix : string) (inner : goerr)      (* fmt.Errorf with a final %w *)
| ErrGRPC (code : Z) (msg : string)              (* a gRPC status error *)
| ErrAPI (reason : StatusReason) (msg : string)  (* a Kubernetes API status error *)
| ErrNoMatch (msg : string)                      (* meta.NoKindMatchError and kin *)
| MissingNamespaceError (GroupKind Name : string)
| TargetNotHeldError (Reason : string)
| ErrGroupDiscoveryFailed (Groups : list (string * string)) (msg : string)
| ErrCanceled.                                   (* context.Canceled *)

(** [err.Error()]. *)
Fixpoint Error (e : goerr) : string :=
  match e with
  | ErrText msg => msg
  | ErrWrap prefix inner => prefix +:+ Error inner
  | ErrGRPC _ msg | ErrAPI _ msg | ErrNoMatch msg | ErrGroupDiscoveryFailed _ msg => msg
  | MissingNamespaceError gk name =>
    "namespace is required for namespaced kind '" +:+ gk +:+
    "' but was not provided for resource '" +:+ name +:+ "'"
  | TargetNotHeldError reason => "no permissions written: " +:+ reason
  | ErrCanceled => "context canceled"
  end.

(** [errors.Unwrap] to the innermost error: every wrapper of the provider is a
    [%w] of one error, so [errors.As] looks along this chain. *)
Fixpoint cause (e : goerr) : goerr :=
  match e with
  | ErrWrap _ inner => cause inner
  | _ => e
  end.

(** [apierrors.IsNotFound]: looks through wrapping. *)
Definition IsNotFound (e : goerr) : bool :=
  match cause e with
  | ErrAPI StatusReasonNotFound _ => true
  | _ => false
  end.

(** [meta.IsNoMatchError]: looks through wrapping. *)
Definition IsNoMatchError (e : goerr) : bool :=
  match cause e with
  | ErrNoMatch _ => true
  | _ => false
  end.

(** [status.FromError]: the gRPC code of the error, looking through wrapping. *)
Definition status_FromError (e : goerr) : option Z :=
  match cause e with
  | ErrGRPC code _ => Some code
  | _ => None
  end.

(** [errors.As] on a [*TargetNotHeldError]. *)
Definition as_TargetNotHeld (e : goerr) : option string :=
  match cause e with
  | TargetNotHeldError reason => Some reason
  | _ => None
  end.

(** [errors.Is(err, context.Canceled)]. *)
Definition IsCanceled (e : goerr) : bool :=
  match cause e with
  | ErrCanceled => true
  | _ => false
  end.

(** ** Results and computations *)

(** [OutOfFuel] marks a loop cut off by the model's fuel; no Go code sees it. *)
Inductive outcome (A : Type) :=
| Ok (a : A)
| Err (e : goerr)
| OutOfFuel.
Arguments Ok {_} _.
Arguments Err {_} _.
Arguments OutOfFuel {_}.

#[export] Instance outcome_ret : MRet outcome := λ A a, Ok a.
#[export] Instance outcome_bind : MBind outcome := λ A B f m,
  match m with
  | Ok a => f a
  | Err e => Err e
  | OutOfFuel => OutOfFuel
  end.

(** Wraps the error, if any: [return fmt.Errorf("...: %w", err)]. *)
Definition outcome_map_err {A} (f : goerr → goerr) (m : outcome A) : outcome A :=
  match m with
  | Err e => Err (f e)
  | _ => m
  end.

(** A computation over the world [W]. *)
Definition M (W A : Type) : Type := W → outcome A * W.

#[export] Instance M_ret W : MRet (M W) := λ A a w, (Ok a, w).
#[export] Instance M_bind W : MBind (M W) := λ A B f m w,
  match m w with
  | (Ok a, w') => f a w'
  | (Err e, w') => (Err e, w')
  | (OutOfFuel, w') => (OutOfFuel, w')
  end.

Definition throw {W A} (e : goerr) : M W A := λ w, (Err e, w).
Definition lift {W A} (o : outcome A) : M W A := λ w, (o, w).

(** [if err != nil { return ..., f(err) }]. *)
Definition map_err {W A} (f : goerr → goerr) (m : M W A) : M W A := λ w,
  match m w with
  | (Err e, w') => (Err (f e), w')
  | r => r
  end.

Definition wrapf {W A} (prefix : string) (m : M W A) : M W A := map_err (ErrWrap prefix) m.

(** Runs [m] and hands its value or its error to the code that inspects it. *)
Definition try {W A} (m : M W A) : M W (A + goerr) := λ w,
  match m w with
  | (Ok a, w') => (Ok (inl a), w')
  | (Err e, w') => (Ok (inr e), w')
  | (OutOfFuel, w') => (OutOfFuel, w')
  end.

(** A [for] loop over a slice that may return early with an error. *)
Fixpoint for_each {W A} (l : list A) (f : A → M W unit) : M W unit :=
  match l with
  | [] => mret tt
  | x :: l' => f x ;; for_each l' f
  end.

(** A [for] loop that appends to a slice: [None] is a [continue]. *)
Fixpoint append_loop {A B} (f : A → outcome (option B)) (l : list A) : outcome (list B) :=
  match l with
  | [] => Ok []
  | x :: l' =>
    o ← f x;
    r ← append_loop f l';
    Ok (match o with Some b => b :: r | None => r end)
  end.

(** The same in a computation over the world. *)
Fixpoint append_loopM {W A B} (f : A → M W (list B)) (l : list A) : M W (list B) :=
  match l with
  | [] => mret []
  | x :: l' => r1 ← f x; r2 ← append_loopM f l'; mret (r1 ++ r2)
  end.

(** Whether a result is a value, for running examples. *)
Definition is_ok {A} (o : outcome A) : bool :=
  match o with Ok _ => true | _ => false end.

Lemma outcome_not_err {W A} (r : outcome A * W) e w : is_ok r.1 = true → r ≠ (Err e, w).
Proof. by intros H ->. Qed.

Lemma ok_run {W} (m : M W unit) w : is_ok (m w).1 = true → m w = (Ok tt, (m w).2).
Proof. destruct (m w) as [[[]|e|] w']; done. Qed.

(** The value of a computation known to succeed. *)
Definition ex_ok {A} (d : A) (o : outcome A) : A := match o with Ok a => a | _ => d end.
Lemma ex_ok_eq {A} (d : A) (o : outcome A) : is_ok o = true → o = Ok (ex_ok d o).
Proof. by destruct o. Qed.

Lemma run_ok {W A} (r : outcome A * W) a : r.1 = Ok a → r = (Ok a, r.2).
Proof. destruct r. simpl. by intros ->. Qed.

(** ** Reasoning about computations *)

Lemma outcome_bind_Ok {A B} (m : outcome A) (f : A → outcome B) b :
  m ≫= f = Ok b ↔ ∃ a, m = Ok a ∧ f a = Ok b.
Proof. destruct m; simpl; naive_solver. Qed.

Lemma outcome_bind_fuel {A B} (m : outcome A) (f : A → outcome B) :
  m ≫= f = OutOfFuel ↔ m = OutOfFuel ∨ ∃ a, m = Ok a ∧ f a = OutOfFuel.
Proof. destruct m; simpl; naive_solver. Qed.

Lemma outcome_map_err_Ok {A} g (m : outcome A) a : outcome_map_err g m = Ok a ↔ m = Ok a.
Proof. destruct m; simpl; naive_solver. Qed.

Lemma outcome_map_err_fuel {A} g (m : outcome A) : outcome_map_err g m = OutOfFuel ↔ m = OutOfFuel.
Proof. destruct m; simpl; naive_solver. Qed.

Lemma append_loop_Ok {A B} (f : A → outcome (option B)) l r :
  append_loop f l = Ok r ↔ ∃ os, Forall2 (λ x o, f x = Ok o) l os ∧ r = omap id os.
Proof.
  revert r. induction l as [|x l IH]; intros r; simpl.
  - split; [intros [= <-]; exists []; auto|]. intros (os & H & ->). by inversion H.
  - rewrite outcome_bind_Ok. setoid_rewrite outcome_bind_Ok. split.
    + intros (o & Ho & r' & Hr & [= <-]). apply IH in Hr as (os & Hos & ->).
      exists (o :: os). split; [by constructor|]. by destruct o.
    + intros (os & H & ->). inversion H as [|? o ? os' Ho Hos]; subst.
      exists o. split; [done|]. exists (omap id os'). split; [apply IH; eauto|]. by destruct o.
Qed.

Lemma append_loop_fuel {A B} (f : A → outcome (option B)) l :
  append_loop f l = OutOfFuel → ∃ x, x ∈ l ∧ f x = OutOfFuel.
Proof.
  induction l as [|x l IH]; simpl; [done|]. rewrite outcome_bind_fuel.
  intros [H|(o & _ & H)]; [exists x; split; [left|done]|].
  apply outcome_bind_fuel in H as [H|(r & _ & H)]; [|done].
  destruct (IH H) as (y & ? & ?). exists y. split; [by right|done].
Qed.

Section M_lemmas.
Context {W : Type}.

Lemma bind_Ok {A B} (m : M W A) (f : A → M W B) w b w' :
  (m ≫= f) w = (Ok b, w') ↔ ∃ a w1, m w = (Ok a, w1) ∧ f a w1 = (Ok b, w').
Proof. unfold mbind, M_bind. destruct (m w) as [[a|e|] w1]; naive_solver. Qed.

Lemma bind_Err {A B} (m : M W A) (f : A → M W B) w e w' :
  (m ≫= f) w = (Err e, w') ↔
  m w = (Err e, w') ∨ ∃ a w1, m w = (Ok a, w1) ∧ f a w1 = (Err e, w').
Proof. unfold mbind, M_bind. destruct (m w) as [[a|e'|] w1]; naive_solver. Qed.

Lemma map_err_Ok {A} f (m : M W A) w a w' :
  map_err f m w = (Ok a, w') ↔ m w = (Ok a, w').
Proof. unfold map_err. destruct (m w) as [[?|?|] ?]; naive_solver. Qed.

Lemma map_err_Err {A} f (m : M W A) w e w' :
  map_err f m w = (Err e, w') ↔ ∃ e', m w = (Err e', w') ∧ e = f e'.
Proof. unfold map_err. destruct (m w) as [[?|?|] ?]; naive_solver. Qed.

Lemma wrapf_Ok {A} p (m : M W A) w a w' : wrapf p m w = (Ok a, w') ↔ m w = (Ok a, w').
Proof. apply map_err_Ok. Qed.

Lemma try_inl {A} (m : M W A) w a w' :
  try m w = (Ok (inl a), w') ↔ m w = (Ok a, w').
Proof. unfold try. destruct (m w) as [[?|?|] ?]; naive_solver. Qed.

Lemma try_inr {A} (m : M W A) w e w' :
  try m w = (Ok (inr e), w') ↔ m w = (Err e, w').
Proof. unfold try. destruct (m w) as [[?|?|] ?]; naive_solver. Qed.

Lemma mret_run {A} (a : A) (w : W) r w' : mret (M := M W) a w = (r, w') ↔ r = Ok a ∧ w' = w.
Proof. split; [by intros [= <- <-]|by intros [-> ->]]. Qed.

Lemma try_not_Err {A} (m : M W A) w e w' : try m w ≠ (Err e, w').
Proof. unfold try. by destruct (m w) as [[?|?|] ?]. Qed.

Lemma try_lift_bind {A B} (v : outcome A) (f : A + goerr → M W B) w :
  (try (lift v) ≫= f) w =
  match v with Ok a => f (inl a) w | Err e => f (inr e) w | OutOfFuel => (OutOfFuel, w) end.
Proof. by destruct v. Qed.

(** Running a computation whose first part is known. *)
Lemma bind_run_Ok {A B} (m : M W A) (f : A → M W B) w a w1 :
  m w = (Ok a, w1) → (m ≫= f) w = f a w1.
Proof. unfold mbind, M_bind. by intros ->. Qed.

Lemma bind_run_Err {A B} (m : M W A) (f : A → M W B) w e w1 :
  m w = (Err e, w1) → (m ≫= f) w = (Err e, w1).
Proof. unfold mbind, M_bind. by intros ->. Qed.

Lemma wrapf_run {A} p (m : M W A) w :
  wrapf p m w = match m w with (Err e, w') => (Err (ErrWrap p e), w') | r => r end.
Proof. reflexivity. Qed.

(** The monad's laws, at each world. *)
Lemma bind_ret_l {A B} (a : A) (f : A → M W B) w : (mret a ≫= f) w = f a w.
Proof. reflexivity. Qed.

Lemma bind_bind {A B C} (m : M W A) (f : A → M W B) (g : B → M W C) w :
  ((m ≫= f) ≫= g) w = (m ≫= (λ a, f a ≫= g)) w.
Proof. unfold mbind, M_bind. by destruct (m w) as [[?|?|] ?]. Qed.
End M_lemmas.

(** Inverts runs of computations in the context, one bind at a time. *)
Ltac run_inv :=
  repeat match goal with
  | H : (_ ≫= _) _ = (Ok _, _) |- _ => apply bind_Ok in H as (? & ? & ? & ?)
  | H : wrapf _ _ _ = (Ok _, _) |- _ => apply wrapf_Ok in H
  | H : map_err _ _ _ = (Ok _, _) |- _ => apply map_err_Ok in H
  | H : try _ _ = (Ok (inl _), _) |- _ => apply try_inl in H
  | H : try _ _ = (Ok (inr _), _) |- _ => apply try_inr in H
  | H : try _ _ = (Err _, _) |- _ => by apply try_not_Err in H
  | H : ?f _ = (_, _) |- _ =>
    lazymatch f with @mret _ _ _ _ => apply mret_run in H as [? ?]; subst end
  | H : throw _ _ = (Ok _, _) |- _ => discriminate H
  | H : throw _ _ = (Err _, _) |- _ => injection H as ? ?; subst
  | H : lift _ _ = (_, _) |- _ => injection H as ? ?; subst
  | H : (_, _) = (_, _) |- _ => injection H as ? ?; subst
  | H : Ok _ = Ok _ |- _ => injection H as ?; subst
  end.

(** Case analysis on the test a computation starts with. *)
Ltac head_if :=
  match goal with
  | |- context [ (if ?b then _ else _) ?w ] => destruct b eqn:?
  end.
Ltac head_if_in H :=
  match type of H with
  | (if ?b then _ else _) _ = _ => destruct b eqn:?
  end.

(** ** Error facts *)

Lemma IsNotFound_wrap p e : IsNotFound (ErrWrap p e) = IsNotFound e.
Proof. reflexivity. Qed.
Lemma as_TargetNotHeld_wrap p e : as_TargetNotHeld (ErrWrap p e) = as_TargetNotHeld e.
Proof. reflexivity. Qed.
Lemma status_FromError_wrap p e : status_FromError (ErrWrap p e) = status_FromError e.
Proof. reflexivity. Qed.
#[export] Hint Rewrite IsNotFound_wrap as_TargetNotHeld_wrap status_FromError_wrap : fga.
