(* ===== verification/RateLimiter.v ===== *)
(** * [internal/controller/rate_limiter.go]: spreading retries out

    The queues' rate limiter: the library's exponential backoff with random jitter. *)

From S2P Require Import Prelude GoStrings GoErr.
Local Open Scope Z_scope.

(** [time.Duration], nanoseconds in 64 bits, and its sum. *)
Definition int64 (z : Z) : Z := (z + 2 ^ 63) mod 2 ^ 64 - 2 ^ 63.

(** [rand.Int63n], from the state the source of randomness is in. *)
Class Rand (S : Type) := Int63n : Z → S → Z * S.
Class RandLaws (S : Type) `{Rand S} := Int63n_range n s : 0 < n → 0 ≤ (Int63n n s).1 < n.

(** [workqueue.TypedRateLimiter]: [When] gives an item's next delay and counts its
    failure in the limiter's own state. *)
Record TypedRateLimiter (T : Type) := mkRateLimiter {
  rl_state : Type;
  rl_When : T → rl_state → Z * rl_state
}.
Arguments mkRateLimiter {_} _ _.
Arguments rl_state {_} _.
Arguments rl_When {_} _ _ _.

(** [workqueue.DefaultTypedControllerRateLimiter]: a backoff per item, and a bucket
    of tokens for all. *)
Class DefaultRateLimiter := DefaultTypedControllerRateLimiter : ∀ T, TypedRateLimiter T.

Section jitter.
Context {S : Type} `{Rand S}.

Definition jitter (d : Z) (s : S) : Z * S :=
  if d <=? 0 then (d, s)
  else let (x, s') := Int63n d s in (int64 (Z.quot d 2 + x), s').

(** [jitteredRateLimiter]; its state is the wrapped limiter's, and the source's. *)
Definition jitteredRateLimiter {T} (inner : TypedRateLimiter T) : TypedRateLimiter T :=
  mkRateLimiter (rl_state inner * S) (λ item ls,
    let (d, l) := rl_When inner item ls.1 in
    let (delay, s) := jitter d ls.2 in
    (delay, (l, s))).

Definition newJitteredRateLimiter `{DefaultRateLimiter} (T : Type) : TypedRateLimiter T :=
  jitteredRateLimiter (DefaultTypedControllerRateLimiter T).
End jitter.

(** [enablePriorityQueue]: a pointer to true. *)
Definition enablePriorityQueue : option bool := Some true.

(** ** Facts *)

Lemma int64_id z : - 2 ^ 63 ≤ z < 2 ^ 63 → int64 z = z.
Proof. intros Hz. unfold int64. rewrite Z.mod_small; lia. Qed.

Section facts.
Context {S : Type} `{RandLaws S}.
Implicit Types s : S.

(** A delay that the sum does not overflow is spread by half of it either way. *)
Lemma jitter_range d s :
  0 < d ≤ 2 ^ 62 → Z.quot d 2 ≤ (jitter d s).1 < Z.quot d 2 + d.
Proof.
  intros Hd. unfold jitter. rewrite (proj2 (Z.leb_gt d 0)) by lia.
  pose proof (Int63n_range d s) as Hr. destruct (Int63n d s) as [x s']. simpl in *.
  assert (0 ≤ Z.quot d 2 ≤ d) as Hq by (rewrite Z.quot_div_nonneg by lia; split; [apply Z.div_pos; lia|apply Z.div_le_upper_bound; lia]).
  rewrite int64_id; lia.
Qed.

Lemma jitter_nonpos d s : d ≤ 0 → jitter d s = (d, s).
Proof. intros Hd. unfold jitter. by rewrite (proj2 (Z.leb_le d 0)). Qed.

(** Retries are spread, never lost. For every delay of the wrapped limiter up to
    2^62 nanoseconds (146 years), whatever the random source draws, the sum of two
    int64 does not overflow: a delay that is not positive is kept, a positive one
    becomes one between half of it and one and a half times it, never negative; and
    the wrapped limiter's state moves as it would without the jitter. *)
Theorem jittered_delay_bounds {T} (inner : TypedRateLimiter T) (item : T) (l : rl_state inner) s :
  let d := (rl_When inner item l).1 in
  let '(delay, (l', _)) := rl_When (jitteredRateLimiter inner) item (l, s) in
  l' = (rl_When inner item l).2 ∧
  (d ≤ 0 → delay = d) ∧
  (0 < d ≤ 2 ^ 62 → 0 ≤ delay ∧ d - 1 ≤ 2 * delay < 3 * d).
Proof.
  unfold jitteredRateLimiter. cbn [rl_When fst snd].
  destruct (rl_When inner item l) as [d l']. cbn [fst snd]. destruct (jitter d s) as [delay s'] eqn:Ej.
  split_and!; [done|intros Hd; rewrite jitter_nonpos in Ej by done; by injection Ej|].
  intros Hd. pose proof (jitter_range d s Hd) as Hr. rewrite Ej in Hr. cbn [fst] in Hr.
  pose proof (Z.quot_rem d 2 ltac:(lia)) as Hqr. pose proof (Z.rem_bound_pos d 2 ltac:(lia) ltac:(lia)) as Hrem. lia.
Qed.
End facts.

(** ** An example: a source that draws the largest value *)

#[export] Instance ref_Rand : Rand unit := λ n s, (n - 1, s).
#[export] Instance ref_RandLaws : RandLaws unit.
Proof. intros n s Hn. unfold Int63n, ref_Rand. simpl. lia. Qed.

#[export] Instance ref_DefaultRateLimiter : DefaultRateLimiter := λ T, mkRateLimiter unit (λ _ s, (5 * 10 ^ 6, s)).

Example jitter_5ms : (jitter (5 * 10 ^ 6) tt).1 = 7499999.
Proof. reflexivity. Qed.
(** Past the bound the sum wraps around: the item would be retried at once. *)
Example jitter_overflow : (jitter (2 ^ 63 - 1) tt).1 < 0.
Proof. reflexivity. Qed.

Lemma jittered_delay_bounds_witness :
  let delay := (rl_When (jitteredRateLimiter (S := unit) (ref_DefaultRateLimiter string)) "item" (tt, tt)).1 in
  0 ≤ delay ∧ 5 * 10 ^ 6 - 1 ≤ 2 * delay < 3 * (5 * 10 ^ 6).
Proof.
  destruct (jittered_delay_bounds (S := unit) (ref_DefaultRateLimiter string) "item" tt tt) as (_ & _ & HB).
  apply HB. split; [reflexivity|discriminate].
Defined.
