(* ===== verification/Program.v ===== *)
(** * Programs of library calls

    The commands of cmd/ and the [SetupWithManager] methods are sequences of calls
    into libraries, whose answers they branch on. A [program] is such code, for every
    answer at once: a call, and what is done with each answer. [runs] says which
    calls a run makes, [wp] what holds of every run. *)

From S2P Require Import Prelude GoStrings GoErr.

(** [Returned]: the function returned a value without an error; [Failed]: it returned
    the error; [Exited]: the process ended inside it, as in [os.Exit]. *)
Inductive ended (A : Type) := Returned (a : A) | Failed (e : goerr) | Exited.
Arguments Returned {_} _.
Arguments Failed {_} _.
Arguments Exited {_}.

Section program.
Context {Call : Type} {answer : Call → Type}.

Inductive program (A : Type) :=
| Ret (a : A)
| Do (c : Call) (next : answer c → program A).
Arguments Ret {_} _.
Arguments Do {_} _ _.

Fixpoint program_bind {A B} (f : A → program B) (p : program A) : program B :=
  match p with
  | Ret a => f a
  | Do c next => Do c (λ x, program_bind f (next x))
  end.

(** A call that was made, and its answer. *)
Record called := mkCalled { the_call : Call; got : answer the_call }.

Fixpoint runs {A} (p : program A) (tr : list called) (a : A) : Prop :=
  match p with
  | Ret b => tr = [] ∧ a = b
  | Do c next => ∃ x tr', tr = mkCalled c x :: tr' ∧ runs (next x) tr' a
  end.

(** [Q] holds of the calls and the result of every run. *)
Fixpoint wp {A} (p : program A) (Q : list called → A → Prop) : Prop :=
  match p with
  | Ret a => Q [] a
  | Do c next => ∀ x, wp (next x) (λ tr, Q (mkCalled c x :: tr))
  end.

Lemma wp_runs {A} (p : program A) Q : wp p Q ↔ ∀ tr a, runs p tr a → Q tr a.
Proof.
  revert Q. induction p as [b|c next IH]; intros Q; simpl.
  - split; [by intros HQ tr a [-> ->]|]. intros HQ. by apply HQ.
  - setoid_rewrite IH. split.
    + intros HQ tr a (x & tr' & -> & Hr). by apply HQ.
    + intros HQ x tr a Hr. apply HQ. eauto.
Qed.

Lemma wp_mono {A} (p : program A) (Q R : list called → A → Prop) : (∀ tr a, Q tr a → R tr a) → wp p Q → wp p R.
Proof. rewrite !wp_runs. auto. Qed.

Lemma wp_bind {A B} (p : program A) (f : A → program B) Q :
  wp (program_bind f p) Q ↔ wp p (λ tr a, wp (f a) (λ tr', Q (tr ++ tr'))).
Proof.
  revert Q. induction p as [a|c next IH]; intros Q; simpl; [done|]. by setoid_rewrite IH.
Qed.

(** The run in which the calls are answered by [h]. *)
Fixpoint run_with {A} (h : ∀ c, answer c) (p : program A) : list called * A :=
  match p with
  | Ret a => ([], a)
  | Do c next => let (tr, a) := run_with h (next (h c)) in (mkCalled c (h c) :: tr, a)
  end.

Lemma run_with_runs {A} h (p : program A) : runs p (run_with h p).1 (run_with h p).2.
Proof.
  induction p as [a|c next IH]; [done|]. simpl. specialize (IH (h c)). destruct (run_with h (next (h c))) as [tr a].
  by exists (h c), tr.
Qed.

(** ** Functions that return an error *)

Definition go (A : Type) : Type := program (ended A).

#[global] Instance go_ret : MRet go := λ A a, Ret (Returned a).
#[global] Instance go_bind : MBind go := λ A B f m,
  program_bind (λ o, match o with
                     | Returned a => f a
                     | Failed e => Ret (Failed e)
                     | Exited => Ret Exited
                     end) m.

(** A call that cannot fail. *)
Definition perform (c : Call) : go (answer c) := Do c (λ x, Ret (Returned x)).

Definition fail {A} (e : goerr) : go A := Ret (Failed e).
Definition exit {A} : go A := Ret Exited.

(** What a call that can fail answers. *)
Definition of_result {A} (x : A + goerr) : go A :=
  match x with inl a => mret a | inr e => fail e end.
Definition of_error (x : option goerr) : go unit :=
  match x with None => mret tt | Some e => fail e end.

(** [if err != nil { return fmt.Errorf(f(err)) }]. *)
Definition on_error {A} (f : goerr → goerr) (m : go A) : go A :=
  program_bind (λ o, match o with Failed e => Ret (Failed (f e)) | _ => Ret o end) m.
Definition returning {A} (prefix : string) (m : go A) : go A := on_error (ErrWrap prefix) m.

(** [defer]: [cleanup] runs when the body returns, whatever it returns; it does not
    when the process exits. *)
Definition deferred {A} (cleanup : program unit) (body : go A) : go A :=
  program_bind (λ o, match o with
                     | Exited => Ret Exited
                     | _ => program_bind (λ _, Ret o) cleanup
                     end) body.
Definition ignoring (c : Call) : program unit := Do c (λ _, Ret tt).

(** ** What a property notes of a run *)

Section notes.
Context {N : Type} (note : called → option N).

Definition notes (tr : list called) : list N := omap note tr.

(** [Q] holds of the notes and the result of every run. *)
Definition noting {A} (m : program A) (Q : list N → A → Prop) : Prop := wp m (λ tr, Q (notes tr)).

(** No run leaves a note. *)
Definition quiet {A} (m : program A) : Prop := noting m (λ n _, n = []).

Lemma noting_runs {A} (m : program A) Q : noting m Q ↔ ∀ tr a, runs m tr a → Q (notes tr) a.
Proof. apply wp_runs. Qed.

Lemma noting_mono {A} (m : program A) (Q R : list N → A → Prop) : noting m Q → (∀ n a, Q n a → R n a) → noting m R.
Proof. intros HQ HR. eapply wp_mono; [|exact HQ]. auto. Qed.

Lemma noting_program_bind {A B} (p : program A) (f : A → program B) (P : list N → A → Prop) Q :
  noting p P → (∀ n a, P n a → noting (f a) (λ n', Q (n ++ n'))) → noting (program_bind f p) Q.
Proof.
  intros HP HQ. unfold noting. rewrite wp_bind. eapply wp_mono; [|exact HP]. intros tr a Htr.
  eapply wp_mono; [|exact (HQ _ _ Htr)]. intros tr' b. unfold notes. by rewrite omap_app.
Qed.

(** A sequence: what the first part noted comes before what the second notes. *)
Lemma noting_bind {A B} (m : go A) (f : A → go B) (P : list N → ended A → Prop) Q :
  noting m P → (∀ n a, P n (Returned a) → noting (f a) (λ n', Q (n ++ n'))) →
  (∀ n e, P n (Failed e) → Q n (Failed e)) → (∀ n, P n Exited → Q n Exited) → noting (m ≫= f) Q.
Proof.
  intros HP HR HF HX. eapply noting_program_bind; [exact HP|].
  intros n [a|e|] Hn; [by apply HR|..]; unfold noting; simpl; rewrite (right_id_L [] (++)); auto.
Qed.

Lemma noting_quiet {A B} (m : go A) (f : A → go B) Q :
  quiet m → (∀ a, noting (f a) Q) → (∀ e, Q [] (Failed e)) → Q [] Exited → noting (m ≫= f) Q.
Proof. intros Hm HR HF HX. eapply noting_bind; [exact Hm|..]; by intros n ? ->|| intros n ->. Qed.

Lemma noting_perform {B} c (f : answer c → go B) Q :
  (∀ x, noting (f x) (λ n, Q (option_list (note (mkCalled c x)) ++ n))) → noting (perform c ≫= f) Q.
Proof.
  intros Hf x. specialize (Hf x). eapply wp_mono; [|exact Hf]. intros tr b. simpl. by destruct (note _).
Qed.

Lemma noting_on_error {A} f (m : go A) Q :
  noting m (λ n o, Q n match o with Failed e => Failed (f e) | _ => o end) → noting (on_error f m) Q.
Proof.
  intros Hm. eapply noting_program_bind; [exact Hm|]. intros n [a|e|] Hn; simpl; unfold noting; simpl;
    by rewrite (right_id_L [] (++)).
Qed.

Lemma noting_deferred {A} cleanup (body : go A) (P : list N → ended A → Prop) (C : list N → unit → Prop) Q :
  noting body P → noting cleanup C → (∀ n, P n Exited → Q n Exited) →
  (∀ n o n', o ≠ Exited → P n o → C n' tt → Q (n ++ n') o) → noting (deferred cleanup body) Q.
Proof.
  intros HP HC HX HQ. eapply noting_program_bind; [exact HP|].
  intros n o Hn. destruct o as [a|e|]; [..|unfold noting; simpl; rewrite (right_id_L [] (++)); auto];
    (eapply noting_program_bind; [exact HC|]); intros n' [] Hn'; unfold noting; simpl; rewrite (right_id_L [] (++)); by apply HQ.
Qed.

Lemma quiet_ret {A} (a : A) : quiet (Ret a).
Proof. done. Qed.
Lemma quiet_of_result {A} (x : A + goerr) : quiet (of_result x).
Proof. by destruct x. Qed.
Lemma quiet_of_error x : quiet (of_error x).
Proof. by destruct x. Qed.
Lemma quiet_bind {A B} (m : go A) (f : A → go B) : quiet m → (∀ a, quiet (f a)) → quiet (m ≫= f).
Proof. intros Hm Hf. by apply noting_quiet. Qed.
Lemma quiet_perform c : (∀ x, note (mkCalled c x) = None) → quiet (perform c).
Proof. intros Hc x. unfold notes. simpl. by rewrite Hc. Qed.
Lemma quiet_on_error {A} f (m : go A) : quiet m → quiet (on_error f m).
Proof. intros Hm. by apply noting_on_error. Qed.
End notes.
End program.
Arguments program : clear implicits.
Arguments Ret {_ _ _} _.
Arguments Do {_ _ _} _ _.
Arguments called : clear implicits.
Arguments go : clear implicits.

Create HintDb quiet.
#[export] Hint Resolve quiet_ret quiet_of_result quiet_of_error quiet_on_error : quiet.

(** A program of calls that leave no note. *)
Ltac solve_quiet :=
  repeat first
    [ progress eauto with quiet
    | apply quiet_bind; [|intros ?]
    | apply quiet_on_error
    | match goal with |- quiet _ (perform ?c) => refine (quiet_perform _ c _); intros ?; reflexivity end
    | progress unfold returning
    | case_match ].
