(* ===== verification/RunGroup.v ===== *)
(** * Running and stopping the managers

    [runUntilManagerStops] and its helpers of cmd/manager.go: the manager and the
    workers run side by side in an [errgroup]; when one fails, the manager returns or
    a signal arrives, the context they share is cancelled, and the process ends when
    every one of them has returned. *)

From S2P Require Import Prelude GoStrings GoErr.

Definition ignoreCanceled (err : option goerr) : option goerr :=
  match err with
  | Some e => if IsCanceled e then None else Some e
  | None => None
  end.

(** [localManagerRunnable.Start]: blocked, [None], until the primary manager is
    elected; then the local manager's [Start]. *)
Definition localManager_Start (elected : bool) (start : option goerr) : option (option goerr) :=
  if elected then Some start else None.

(** [errgroup.Group], from the answers of its functions in the order they returned:
    what [Wait] answers when all have, and whether its context is cancelled. *)
Class ErrGroup := {
  Group_Wait : list (option goerr) → option goerr;
  Group_Done : list (option goerr) → bool
}.
Class ErrGroupLaws `{ErrGroup} := {
  (** [Wait] returns the first error, if any. *)
  Group_Wait_first answers : Group_Wait answers = head (omap id answers);
  (** The first error cancels the context. *)
  Group_Done_iff answers : Group_Done answers = existsb (λ a, match a with Some _ => true | None => false end) answers
}.

Section run.
Context `{ErrGroup}.

(** The tasks are the workers, [0] to [n - 1], and the manager, [n]. A state is
    whether a signal has arrived, and the tasks that have returned, in order. *)
Record run_state := mkRun { signalled : bool; returned : list (nat * option goerr) }.
Definition run_start : run_state := mkRun false [].

(** The context of the tasks is cancelled: by a signal, by the [cancel] deferred in
    the manager's function, or by the group. *)
Definition stopped (n : nat) (st : run_state) : bool :=
  signalled st || existsb (λ r, Nat.eqb r.1 n) (returned st) || Group_Done (map (λ r, ignoreCanceled r.2) (returned st)).

(** [may_return i done e]: task [i] may return [e], its context being done or not. *)
Inductive run_step (n : nat) (may_return : nat → bool → option goerr → Prop) : run_state → run_state → Prop :=
| step_signal h : run_step n may_return (mkRun false h) (mkRun true h)
| step_return i e st :
    i ≤ n → i ∉ map fst (returned st) → may_return i (stopped n st) e →
    run_step n may_return st (mkRun (signalled st) (returned st ++ [(i, e)])).

Definition all_returned (n : nat) (st : run_state) : bool :=
  forallb (λ i, bool_decide (i ∈ map fst (returned st))) (seq 0 (S n)).

(** [g.Wait()], when it returns. *)
Definition runUntilManagerStops (n : nat) (st : run_state) : option (option goerr) :=
  if all_returned n st then Some (Group_Wait (map (λ r, ignoreCanceled r.2) (returned st))) else None.
End run.

(** ** The run ends *)

Section facts.
Context `{ErrGroupLaws} (n : nat) (may_return : nat → bool → option goerr → Prop).
Abbreviation step := (run_step n may_return).

Lemma step_stopped st st' : step st st' → stopped n st = true → stopped n st' = true.
Proof.
  unfold stopped. intros [h|i e st0 Hi Hn Hm] Hs; [done|]. cbn [signalled returned].
  rewrite map_app, existsb_app. rewrite Group_Done_iff in *. rewrite existsb_app.
  destruct (signalled st0); [done|]. simpl in Hs |- *. apply orb_true_iff in Hs as [->| ->]; simpl; [done|].
  by rewrite orb_true_r.
Qed.

Lemma steps_stopped st st' : rtc step st st' → stopped n st = true → stopped n st' = true.
Proof. induction 1 as [|st st1 st' Hs _ IH]; [done|]. intros Hst. by apply IH, (step_stopped st). Qed.

(** A state of a run: each task has returned at most once. *)
Definition run_wf (st : run_state) : Prop := NoDup (map fst (returned st)) ∧ ∀ i, i ∈ map fst (returned st) → i ≤ n.

Lemma step_wf st st' : step st st' → run_wf st → run_wf st'.
Proof.
  intros [h|i e st0 Hi Hn _] [HN Hle]; [done|]. unfold run_wf. cbn [returned]. rewrite map_app. simpl. split.
  - apply NoDup_app. split_and!; [done| |apply NoDup_singleton].
    intros x Hx Hin. apply list_elem_of_singleton in Hin as ->. done.
  - intros x [Hx| ->%list_elem_of_singleton]%elem_of_app; auto.
Qed.

Lemma steps_wf st st' : rtc step st st' → run_wf st → run_wf st'.
Proof. induction 1; eauto using step_wf. Qed.

Lemma run_wf_length st : run_wf st → length (returned st) ≤ S n.
Proof.
  intros [HN Hle]. rewrite <- (length_map fst), <- (length_seq (S n) 0). apply submseteq_length, NoDup_submseteq; [done|].
  intros i Hi. apply list_elem_of_In, in_seq. specialize (Hle i Hi). lia.
Qed.

(** What is left of a run: the signal, and the tasks that run. *)
Definition left_over (st : run_state) : nat := (if signalled st then 0 else 1) + (S n - length (returned st)).

Lemma step_left_over st st' : step st st' → run_wf st → left_over st' < left_over st.
Proof.
  intros Hs Hwf. pose proof (run_wf_length _ (step_wf _ _ Hs Hwf)) as Hl. destruct Hs as [h|i e st0 _ _ _]; unfold left_over; simpl in *; [lia|].
  rewrite length_app in *. simpl in *. destruct (signalled st0); lia.
Qed.

Lemma all_returned_iff st : all_returned n st = true ↔ ∀ i, i ≤ n → i ∈ map fst (returned st).
Proof.
  unfold all_returned. rewrite forallb_elem. split.
  - intros HA i Hi. apply (bool_decide_eq_true_1 _), HA. apply list_elem_of_In, in_seq. lia.
  - intros HA i Hi. apply (bool_decide_eq_true_2 _), HA. apply list_elem_of_In, in_seq in Hi. lia.
Qed.

(** A task that still runs once the context is cancelled can return. *)
Lemma stopped_steps st :
  (∀ i, i ≤ n → ∃ e, may_return i true e) → stopped n st = true → all_returned n st = false → ∃ st', step st st'.
Proof.
  intros HR Hs Ha. unfold all_returned in Ha. apply not_true_iff_false in Ha. rewrite forallb_elem in Ha.
  destruct (decide (Exists (λ i, i ∉ map fst (returned st)) (seq 0 (S n)))) as [(i & Hi & Hn)%Exists_exists|Hn].
  - assert (i ≤ n) as Hle by (apply list_elem_of_In, in_seq in Hi; lia). destruct (HR i Hle) as [e He].
    eexists. apply (step_return n may_return i e st); [done..|]. by rewrite Hs.
  - destruct Ha. intros i Hi. apply (bool_decide_eq_true_2 _). destruct (decide (i ∈ map fst (returned st))); [done|].
    destruct Hn. apply Exists_exists. eauto.
Qed.

(** What ends a run: the manager's return, with an error or without; any task's failure
    but by the cancellation itself; a signal. *)
Definition ending (st : run_state) : Prop :=
  (∃ e, (n, e) ∈ returned st) ∨ (∃ i e, (i, e) ∈ returned st ∧ is_Some (ignoreCanceled e)) ∨ signalled st = true.

Lemma ending_stopped st : ending st → stopped n st = true.
Proof.
  unfold stopped. rewrite Group_Done_iff, !orb_true_iff, !existsb_exists. intros [(e & He)|[(i & e & He & Hs)|Hs]].
  - left; right. exists (n, e). split; [by apply list_elem_of_In|apply Nat.eqb_refl].
  - right. exists (ignoreCanceled e). split; [apply in_map_iff; exists (i, e); by rewrite <- list_elem_of_In|].
    by destruct Hs as [x ->].
  - by left; left.
Qed.

(** One of the [n + 2] events of a run, the signal and the returns, is past. *)
Lemma ending_left_over st : ending st → left_over st ≤ n + 1.
Proof.
  assert (∀ x, x ∈ returned st → length (returned st) ≠ 0) as Hl.
  { intros x Hx. destruct (returned st); [by apply elem_of_nil in Hx|done]. }
  unfold left_over. intros [(e & He)|[(i & e & He & _)|Hs]].
  - specialize (Hl _ He). destruct (signalled st); lia.
  - specialize (Hl _ He). destruct (signalled st); lia.
  - rewrite Hs. lia.
Qed.

(** C36: The process ends with its manager. Once the manager has returned, even without
    an error, a worker has failed or a signal has arrived, the shared context is
    cancelled for good; and when every task returns after its context is cancelled, a
    step is left as long as a task runs, whatever the interleaving, at most [n + 1] of
    them, and the answer, when all have returned, is the first error a task returned
    other than the cancellation itself. *)
Theorem run_ends_with_manager st (Hreach : rtc step run_start st)
    (Hending : ending st) (Hresponsive : ∀ i, i ≤ n → ∃ e, may_return i true e) :
  (∀ k st', nsteps step k st st' → k ≤ n + 1) ∧
  (∀ st', rtc step st st' →
     stopped n st' = true ∧
     (runUntilManagerStops n st' = None → ∃ st'', step st' st'') ∧
     ∀ answer, runUntilManagerStops n st' = Some answer →
       (∀ i, i ≤ n → i ∈ map fst (returned st')) ∧
       answer = head (omap (λ r, ignoreCanceled r.2) (returned st'))).
Proof.
  assert (run_wf st) as Hwf by (apply (steps_wf _ _ Hreach); split; [constructor|by intros i ?%elem_of_nil]). split.
  - assert (∀ k st1 st2, nsteps step k st1 st2 → run_wf st1 → k ≤ left_over st1) as HB.
    { induction 1 as [|k st1 st2 st3 Hs _ IH]; intros Hw; [lia|].
      pose proof (step_left_over _ _ Hs Hw). pose proof (IH (step_wf _ _ Hs Hw)). lia. }
    intros k st' Hk. pose proof (HB _ _ _ Hk Hwf) as Hl. pose proof (ending_left_over st Hending). lia.
  - intros st' Hr. pose proof (steps_stopped _ _ Hr (ending_stopped st Hending)) as Hs. split; [done|].
    unfold runUntilManagerStops. destruct (all_returned n st') eqn:Ea; (split; [try done; intros _; by apply stopped_steps|]).
    + intros answer [= <-]. split; [by apply all_returned_iff|]. rewrite Group_Wait_first. f_equal.
      induction (returned st') as [|[i e] h IH]; [done|]. csimpl. destruct (ignoreCanceled e); simpl; [f_equal|]; exact IH.
    + done.
Qed.
End facts.

(** ** An example: the manager is done while a worker waits *)

#[export] Instance ref_ErrGroup : ErrGroup := {
  Group_Wait answers := head (omap id answers);
  Group_Done answers := existsb (λ a, match a with Some _ => true | None => false end) answers
}.
#[export] Instance ref_ErrGroupLaws : ErrGroupLaws.
Proof. by split. Qed.

(** The worker returns the cancellation, once its context is done; the manager returns
    without an error. *)
Definition ex_may_return (i : nat) (done : bool) (e : option goerr) : Prop :=
  (i = 0 ∧ done = true ∧ e = Some ErrCanceled) ∨ (i = 1 ∧ e = None).
Definition ex_manager_gone : run_state := mkRun false [(1, None)].
Definition ex_run_over : run_state := mkRun false [(1, None); (0, Some ErrCanceled)].

Lemma run_ends_with_manager_witness :
  runUntilManagerStops 1 ex_run_over = Some None ∧ (∀ i, i ≤ 1 → i ∈ map fst (returned ex_run_over)).
Proof.
  split; [reflexivity|].
  destruct (run_ends_with_manager 1 ex_may_return ex_manager_gone) as [_ HR].
  - apply rtc_once. apply (step_return 1 ex_may_return 1 None run_start); [lia|by intros ?%elem_of_nil|by right].
  - left. exists None. left.
  - intros [|[|i]] Hi; [exists (Some ErrCanceled); by left|exists None; by right|lia].
  - destruct (HR ex_run_over) as (_ & _ & HA).
    + apply rtc_once. apply (step_return 1 ex_may_return 0 (Some ErrCanceled) ex_manager_gone); [lia| |by left].
      apply (bool_decide_unpack _). vm_compute. exact I.
    + by destruct (HA None eq_refl).
Defined.

(** A worker that returns without an error, or with the cancellation, ends nothing. *)
Example worker_done_goes_on : stopped 1 (mkRun false [(0, None)]) = false ∧ stopped 1 (mkRun false [(0, Some ErrCanceled)]) = false.
Proof. split; reflexivity. Qed.
