(* ===== verification/Types.v ===== *)
(** * The Kubernetes objects and OpenFGA messages the provider reads and writes

    The types are declared outside this repository (Milo's API packages, the
    Kubernetes API machinery and OpenFGA's protocol buffers). Each record below
    has the fields the provider uses, under the names it uses them by. *)

From S2P Require Import Prelude.

(** ** Object metadata *)

Record OwnerReference := mkOwnerReference {
  or_APIVersion : string;
  or_Kind : string;
  or_Name : string;
  or_UID : string
}.

Record ObjectMeta := mkObjectMeta {
  om_Name : string;
  om_Namespace : string;
  om_UID : string;
  om_Generation : Z;
  om_DeletionTimestamp : option Z;
  om_Finalizers : list string;
  om_OwnerReferences : list OwnerReference
}.

(** [types.NamespacedName], also [client.ObjectKey]. *)
Record NamespacedName := mkNN { nn_Namespace : string; nn_Name : string }.

Definition key_of (m : ObjectMeta) : NamespacedName := mkNN (om_Namespace m) (om_Name m).

(** [schema.GroupVersionKind] and [schema.GroupKind]. *)
Record GroupVersionKind := mkGVK { gvk_Group : string; gvk_Version : string; gvk_Kind : string }.
Record GroupKind := mkGK { gk_Group : string; gk_Kind : string }.
Definition gvk_GroupKind (gvk : GroupVersionKind) : GroupKind := mkGK (gvk_Group gvk) (gvk_Kind gvk).

(** An object of which only the metadata matters: an [unstructured.Unstructured],
    a Project, an Organization, a User, a Group or a ServiceAccount. *)
Record KObject := mkKObject {
  obj_GVK : GroupVersionKind;
  obj_Meta : ObjectMeta;
  obj_ResourceVersion : string
}.

(** [metav1.Condition], without its transition time. *)
Inductive ConditionStatus := ConditionTrue | ConditionFalse.
Record Condition := mkCondition {
  c_Type : string;
  c_Status : ConditionStatus;
  c_Reason : string;
  c_Message : string;
  c_ObservedGeneration : Z
}.

(** ** [ProtectedResource] *)

Record ParentResourceRef := mkParentRef { prr_APIGroup : string; prr_Kind : string }.
Record SubresourceSpec := mkSubresource { sub_Name : string; sub_Permissions : list string }.

Record ProtectedResourceSpec := mkPRSpec {
  prs_ServiceRef_Name : string;
  prs_Kind : string;
  prs_Plural : string;
  prs_Permissions : list string;
  prs_Subresources : list SubresourceSpec;
  prs_ParentResources : list ParentResourceRef
}.

Record ProtectedResourceStatus := mkPRStatus {
  prst_ObservedGeneration : Z;
  prst_Conditions : list Condition
}.

Record ProtectedResource := mkPR {
  pr_Meta : ObjectMeta;
  pr_Spec : ProtectedResourceSpec;
  pr_Status : ProtectedResourceStatus
}.

(** ** [Role] *)

Record RoleReference := mkRoleRef { rr_Name : string; rr_Namespace : string }.

Record RoleSpec := mkRoleSpec {
  rs_IncludedPermissions : list string;
  rs_InheritedRoles : list RoleReference
}.

Record RoleStatus := mkRoleStatus {
  rst_EffectivePermissions : list string;
  rst_ObservedGeneration : Z;
  rst_Conditions : list Condition
}.

Record Role := mkRole {
  role_Meta : ObjectMeta;
  role_Spec : RoleSpec;
  role_Status : RoleStatus
}.

(** ** [PolicyBinding] *)

Record ResourceRef := mkResourceRef {
  ref_APIGroup : string;
  ref_Kind : string;
  ref_Name : string;
  ref_UID : string;
  ref_Namespace : string
}.
Record ResourceKind := mkResourceKind { rk_APIGroup : string; rk_Kind : string }.

Record ResourceSelector := mkSelector {
  sel_ResourceRef : option ResourceRef;
  sel_ResourceKind : option ResourceKind
}.

Record Subject := mkSubject {
  subj_Kind : string;
  subj_Name : string;
  subj_UID : string;
  subj_Namespace : string
}.

Record PolicyBindingSpec := mkPBSpec {
  pbs_RoleRef : RoleReference;
  pbs_Subjects : list Subject;
  pbs_ResourceSelector : ResourceSelector
}.

Record PolicyBindingStatus := mkPBStatus {
  pbst_ObservedGeneration : Z;
  pbst_Conditions : list Condition
}.

Record PolicyBinding := mkPB {
  pb_Meta : ObjectMeta;
  pb_Spec : PolicyBindingSpec;
  pb_Status : PolicyBindingStatus
}.

(** ** [GroupMembership] *)

Record GroupMembershipSpec := mkGMSpec {
  gms_UserRef_Name : string;
  gms_GroupRef_Name : string;
  gms_GroupRef_Namespace : string
}.

Record GroupMembershipStatus := mkGMStatus { gmst_Conditions : list Condition }.

Record GroupMembership := mkGM {
  gm_Meta : ObjectMeta;
  gm_Spec : GroupMembershipSpec;
  gm_Status : GroupMembershipStatus
}.

(** ** OpenFGA messages *)

(** A tuple's condition: its name and its context's serialized bytes. *)
Record RelationshipCondition := mkRelCond { rc_Name : string; rc_Context : string }.

Record TupleKey := mkTuple {
  User : string;
  Relation : string;
  Object : string;
  TupleCondition : option RelationshipCondition
}.

Record TupleKeyWithoutCondition := mkTupleWC {
  wc_User : string;
  wc_Relation : string;
  wc_Object : string
}.

(** The filter of a Read: an empty field matches everything. *)
Record ReadRequestTupleKey := mkReadKey {
  rk_User : string;
  rk_Relation : string;
  rk_Object : string
}.

Record WriteRequestWrites := mkWrites {
  w_TupleKeys : list TupleKey;
  w_OnDuplicate : string
}.
Record WriteRequestDeletes := mkDeletes {
  d_TupleKeys : list TupleKeyWithoutCondition;
  d_OnMissing : string
}.
Record WriteRequest := mkWrite {
  wr_StoreId : string;
  wr_AuthorizationModelId : string;
  wr_Writes : option WriteRequestWrites;
  wr_Deletes : option WriteRequestDeletes
}.

Record ReadRequest := mkRead {
  rd_StoreId : string;
  rd_ContinuationToken : string;
  rd_PageSize : option Z;
  rd_TupleKey : ReadRequestTupleKey
}.
Record ReadResponse := mkReadResp {
  rd_Tuples : list TupleKey;
  rd_NextToken : string
}.

Record CheckRequestTupleKey := mkCheckKey {
  ck_User : string;
  ck_Relation : string;
  ck_Object : string
}.
Record CheckRequest := mkCheck {
  ck_StoreId : string;
  ck_AuthorizationModelId : string;
  ck_TupleKey : CheckRequestTupleKey
}.
Record BatchCheckItem := mkItem {
  bi_TupleKey : CheckRequestTupleKey;
  bi_CorrelationId : string
}.
Record BatchCheckRequest := mkBatch {
  bc_StoreId : string;
  bc_AuthorizationModelId : string;
  bc_Checks : list BatchCheckItem
}.

(** ** Authorization models *)

(** A relation's rewrite. [Userset_This None] is the [Userset_This] whose inner
    message is left nil. *)
Inductive Userset :=
| Userset_This (This : option unit)
| Userset_ComputedUserset (relation : string)
| Userset_TupleToUserset (tupleset computed : string)
| Userset_Union (children : list Userset).

Record RelationReference := mkRelRef {
  relref_Type : string;
  relref_Relation : option string
}.
Record RelationMetadata := mkRelMeta { DirectlyRelatedUserTypes : list RelationReference }.

Record Metadata := mkMetadata {
  md_Relations : gmap string RelationMetadata;
  md_SourceFile : string;
  md_Module : string
}.

Record TypeDefinition := mkTypeDef {
  td_Type : string;
  td_Metadata : Metadata;
  td_Relations : gmap string Userset
}.

Record AuthorizationModel := mkModel {
  am_Id : string;
  am_SchemaVersion : string;
  am_TypeDefinitions : list TypeDefinition;
  am_Conditions : list (string * string)
}.

(** ** Decidable equality *)

#[export] Instance NamespacedName_eq_dec : EqDecision NamespacedName.
Proof. solve_decision. Defined.
#[export] Instance NamespacedName_countable : Countable NamespacedName.
Proof.
  refine (inj_countable' (λ k, (nn_Namespace k, nn_Name k)) (λ '(a, b), mkNN a b) _).
  by intros [].
Defined.

#[export] Instance GroupVersionKind_eq_dec : EqDecision GroupVersionKind.
Proof. solve_decision. Defined.
#[export] Instance GroupVersionKind_countable : Countable GroupVersionKind.
Proof.
  refine (inj_countable' (λ k, (gvk_Group k, gvk_Version k, gvk_Kind k)) (λ '(a, b, c), mkGVK a b c) _).
  by intros [].
Defined.

#[export] Instance OwnerReference_eq_dec : EqDecision OwnerReference.
Proof. solve_decision. Defined.
#[export] Instance ObjectMeta_eq_dec : EqDecision ObjectMeta.
Proof. solve_decision. Defined.
#[export] Instance ConditionStatus_eq_dec : EqDecision ConditionStatus.
Proof. solve_decision. Defined.
#[export] Instance Condition_eq_dec : EqDecision Condition.
Proof. solve_decision. Defined.
#[export] Instance RoleReference_eq_dec : EqDecision RoleReference.
Proof. solve_decision. Defined.
#[export] Instance RoleStatus_eq_dec : EqDecision RoleStatus.
Proof. solve_decision. Defined.
#[export] Instance ProtectedResourceStatus_eq_dec : EqDecision ProtectedResourceStatus.
Proof. solve_decision. Defined.
#[export] Instance Subject_eq_dec : EqDecision Subject.
Proof. solve_decision. Defined.
#[export] Instance PolicyBindingStatus_eq_dec : EqDecision PolicyBindingStatus.
Proof. solve_decision. Defined.
#[export] Instance GroupMembershipStatus_eq_dec : EqDecision GroupMembershipStatus.
Proof. solve_decision. Defined.
#[export] Instance RelationshipCondition_eq_dec : EqDecision RelationshipCondition.
Proof. solve_decision. Defined.
#[export] Instance TupleKey_eq_dec : EqDecision TupleKey.
Proof. solve_decision. Defined.
#[export] Instance TupleKeyWithoutCondition_eq_dec : EqDecision TupleKeyWithoutCondition.
Proof. solve_decision. Defined.

(** ** Informer events *)

(** What an informer hands to an event handler: an object of the kind, a
    tombstone with the last state it knew, if it knew one, or anything else. *)
Inductive informer_obj (T : Type) :=
| IObj (x : T)
| ITombstone (last : option T)
| IOther.
Arguments IObj {_} _.
Arguments ITombstone {_} _.
Arguments IOther {_}.

Inductive informer_event (T : Type) :=
| EvAdd (obj : informer_obj T)
| EvUpdate (oldObj newObj : informer_obj T)
| EvDelete (obj : informer_obj T).
Arguments EvAdd {_} _.
Arguments EvUpdate {_} _ _.
Arguments EvDelete {_} _.

(** A ConfigMap: its metadata and its data. *)
Record ConfigMap := mkConfigMap {
  cm_Meta : ObjectMeta;
  cm_Data : gmap string string
}.
