(* ===== verification/Constants.v ===== *)
(** * [internal/openfga/constants.go] *)

From S2P Require Import Prelude.

Definition TypeInternalUser : string := "iam.miloapis.com/InternalUser".
Definition TypeInternalUserGroup : string := "iam.miloapis.com/InternalUserGroup".
Definition TypeInternalRole : string := "iam.miloapis.com/InternalRole".
Definition TypeRoot : string := "iam.miloapis.com/Root".

Definition RelationMember : string := "member".
Definition RelationAssignee : string := "assignee".
Definition RelationParent : string := "parent".

Definition SourceFile : string := "dynamically_managed_iam_datumapis_com.fga".
Definition Module_ : string := "iam.miloapis.com".

(** Reasons the controllers' conditions share (policybinding_controller.go). *)
Definition ReasonValidationSuccessful : string := "ValidationSuccessful".
Definition ReasonValidationFailed : string := "ValidationFailed".
