(* ===== verification/Permissions.v ===== *)
(** * [internal/permissions]: the canonical IAM permission identity

    A permission is printed [group/resource.verb] or
    [group/resource/subresource.verb]. [Parse] reads one back, [Defined] says
    whether a ProtectedResource declares it, [Enumerate] lists all it declares. *)

From S2P Require Import Prelude GoStrings Types.
From Stdlib Require Import Ascii.
Local Open Scope Z_scope.

Abbreviation slash_byte := "/"%char.
Abbreviation dot_byte := "."%char.

Record Permission := mkPermission {
  p_APIGroup : string;
  p_Resource : string;
  p_Subresource : string;
  p_Verb : string
}.

#[export] Instance Permission_eq_dec : EqDecision Permission.
Proof. solve_decision. Defined.

Definition Permission_String (p : Permission) : string :=
  let resource :=
    if negb (String.eqb (p_Subresource p) "")
    then p_Resource p +:+ "/" +:+ p_Subresource p
    else p_Resource p in
  p_APIGroup p +:+ "/" +:+ resource +:+ "." +:+ p_Verb p.

(** The second component is Go's [ok]; the failing cases return the zero value. *)
Definition Parse (value : string) : Permission * bool :=
  let zero := mkPermission "" "" "" "" in
  let slash := IndexByte value slash_byte in
  let dot :=
    if slash >=? 0 then
      let offset := IndexByte (slice_from value (slash + 1)) dot_byte in
      if offset >=? 0 then slash + 1 + offset else -1
    else -1 in
  if (slash <=? 0) || (dot <=? slash + 1) || (dot =? slen value - 1) then (zero, false)
  else
    let path := Split (slice value (slash + 1) dot) slash_byte in
    if ((length path <? 1)%nat || (2 <? length path)%nat) then (zero, false)
    else if existsb (λ part, String.eqb part "" || Contains part ".") path then (zero, false)
    else
      let verb := slice_from value (dot + 1) in
      let p := mkPermission (slice value 0 slash) (nth 0 path "") "" verb in
      (if (length path =? 2)%nat
       then mkPermission (p_APIGroup p) (p_Resource p) (nth 1 path "") (p_Verb p)
       else p, true).

Definition permissions_Defined (spec : ProtectedResourceSpec) (p : Permission) (enableSubresources : bool) : bool :=
  if negb (String.eqb (p_APIGroup p) (prs_ServiceRef_Name spec))
     || negb (String.eqb (p_Resource p) (prs_Plural spec)) then false
  else
    let verbs :=
      if negb (String.eqb (p_Subresource p) "") then
        if negb enableSubresources then None
        else Some match find (λ sub, String.eqb (sub_Name sub) (p_Subresource p)) (prs_Subresources spec) with
                  | Some sub => sub_Permissions sub
                  | None => []
                  end
      else Some (prs_Permissions spec) in
    match verbs with
    | None => false
    | Some verbs => existsb (λ verb, String.eqb verb (p_Verb p)) verbs
    end.

Definition Enumerate (spec : ProtectedResourceSpec) (enableSubresources : bool) : list string :=
  if String.eqb (prs_Plural spec) "" then []
  else
    map (λ verb, Permission_String (mkPermission (prs_ServiceRef_Name spec) (prs_Plural spec) "" verb))
      (prs_Permissions spec) ++
    (if enableSubresources then
       flat_map (λ sub,
         map (λ verb, Permission_String
                (mkPermission (prs_ServiceRef_Name spec) (prs_Plural spec) (sub_Name sub) verb))
           (sub_Permissions sub)) (prs_Subresources spec)
     else []).

(** ** Well-formed permissions *)

(** A path component: not empty, without ['/'] and ['.']. *)
Definition wf_part (s : string) : Prop :=
  s ≠ "" ∧ has_byte slash_byte s = false ∧ has_byte dot_byte s = false.

Definition wf_permission (p : Permission) : Prop :=
  p_APIGroup p ≠ "" ∧ has_byte slash_byte (p_APIGroup p) = false ∧
  wf_part (p_Resource p) ∧
  (p_Subresource p = "" ∨ wf_part (p_Subresource p)) ∧
  p_Verb p ≠ "".

(** The path between the first slash and the first dot after it. *)
Definition permission_path (p : Permission) : string :=
  if String.eqb (p_Subresource p) "" then p_Resource p
  else p_Resource p +:+ String slash_byte (p_Subresource p).

Lemma Permission_String_path p :
  Permission_String p =
  p_APIGroup p +:+ String slash_byte (permission_path p +:+ String dot_byte (p_Verb p)).
Proof.
  unfold Permission_String, permission_path.
  destruct (String.eqb (p_Subresource p) ""); simpl; by autorewrite with gostr.
Qed.

Lemma permission_path_no_dot p : wf_permission p → has_byte dot_byte (permission_path p) = false.
Proof.
  intros (_ & _ & (_ & _ & Hr) & Hs & _). unfold permission_path.
  destruct (String.eqb_spec (p_Subresource p) ""); [done|].
  destruct Hs as [|(_ & _ & Hd)]; [done|]. autorewrite with gostr. simpl. by rewrite Hr, Hd.
Qed.

Lemma permission_path_nonempty p : wf_permission p → 0 < slen (permission_path p).
Proof.
  intros (_ & _ & (Hr & _) & _). unfold permission_path.
  destruct (p_Resource p) as [|c r]; [done|].
  destruct (String.eqb _ _); autorewrite with gostr; simpl; lia.
Qed.

Lemma permission_path_split p :
  wf_permission p →
  Split (permission_path p) slash_byte =
    if String.eqb (p_Subresource p) "" then [p_Resource p] else [p_Resource p; p_Subresource p].
Proof.
  intros (_ & _ & (_ & Hr & _) & Hs & _). unfold permission_path.
  destruct (String.eqb_spec (p_Subresource p) ""); [by apply Split_none|].
  destruct Hs as [|(_ & Hd & _)]; [done|]. rewrite Split_app by done. by rewrite Split_none.
Qed.

Lemma part_test_wf s : (String.eqb s "" || Contains s ".") = false ↔ s ≠ "" ∧ has_byte dot_byte s = false.
Proof. by rewrite orb_false_iff, String.eqb_neq, Contains_byte. Qed.

Lemma slen_pos s : s ≠ "" → 0 < slen s.
Proof. destruct s; simpl; [done|lia]. Qed.

(** What the indices of [Parse] are on a string of the right shape. *)
Lemma Parse_shape g path v :
  g ≠ "" → has_byte slash_byte g = false →
  path ≠ "" → has_byte dot_byte path = false → v ≠ "" →
  Parse (g +:+ String slash_byte (path +:+ String dot_byte v)) =
    (let parts := Split path slash_byte in
     if ((length parts <? 1)%nat || (2 <? length parts)%nat) then (mkPermission "" "" "" "", false)
     else if existsb (λ part, String.eqb part "" || Contains part ".") parts
     then (mkPermission "" "" "" "", false)
     else (if (length parts =? 2)%nat
           then mkPermission g (nth 0 parts "") (nth 1 parts "") v
           else mkPermission g (nth 0 parts "") "" v, true)).
Proof.
  intros Hg Gs Hp Pd Hv. set (value := g +:+ _).
  assert (IndexByte value slash_byte = slen g) as Hs by by apply IndexByte_app.
  assert (slice_from value (slen g + 1) = path +:+ String dot_byte v) as Hf
    by apply slice_from_app_byte.
  assert (slen value = slen g + 1 + slen path + 1 + slen v) as Hl.
  { unfold value. autorewrite with gostr. simpl. autorewrite with gostr. simpl. lia. }
  pose proof (slen_pos _ Hg). pose proof (slen_pos _ Hp). pose proof (slen_pos _ Hv).
  unfold Parse. rewrite Hs, Hf, IndexByte_app by done.
  destruct (Z.geb_spec (slen g) 0); [|lia]. destruct (Z.geb_spec (slen path) 0); [|lia].
  destruct (Z.leb_spec (slen g) 0); [lia|].
  destruct (Z.leb_spec (slen g + 1 + slen path) (slen g + 1)); [lia|].
  destruct (Z.eqb_spec (slen g + 1 + slen path) (slen value - 1)); [lia|].
  assert (slice value 0 (slen g) = g) as -> by apply slice_prefix.
  assert (slice value (slen g + 1) (slen g + 1 + slen path) = path) as -> by apply slice_mid.
  replace (slice_from value (slen g + 1 + slen path + 1)) with v; [done|].
  unfold value. symmetry.
  change (g +:+ String slash_byte (path +:+ String dot_byte v))
    with (g +:+ (String slash_byte EmptyString +:+ (path +:+ (String dot_byte EmptyString +:+ v)))).
  rewrite <- !app_assoc. apply slice_from_app. autorewrite with gostr. simpl. lia.
Qed.

(** [Parse] accepts only strings of that shape. *)
Lemma Parse_inv value :
  snd (Parse value) = true →
  ∃ g path v, value = g +:+ String slash_byte (path +:+ String dot_byte v) ∧
    g ≠ "" ∧ has_byte slash_byte g = false ∧
    path ≠ "" ∧ has_byte dot_byte path = false ∧ v ≠ "".
Proof.
  unfold Parse. destruct (Z.geb_spec (IndexByte value slash_byte) 0) as [Hs|Hs].
  2: { destruct (Z.leb_spec (IndexByte value slash_byte) 0); [done|lia]. }
  destruct (IndexByte_split _ _ Hs) as (g & b & -> & Hg & Hi).
  rewrite Hi, slice_from_app_byte.
  destruct (Z.geb_spec (IndexByte b dot_byte) 0) as [Hd|Hd].
  2: { destruct (Z.leb_spec (-1) (slen g + 1)); [|lia]. by rewrite orb_true_r. }
  destruct (IndexByte_split _ _ Hd) as (path & v & -> & Hp & Hj).
  rewrite Hj.
  set (value := g +:+ _).
  assert (slen value = slen g + 1 + slen path + 1 + slen v) as Hl.
  { unfold value. autorewrite with gostr. simpl. autorewrite with gostr. simpl. lia. }
  destruct (Z.leb_spec (slen g) 0); [done|].
  destruct (Z.leb_spec (slen g + 1 + slen path) (slen g + 1)); [done|].
  destruct (Z.eqb_spec (slen g + 1 + slen path) (slen value - 1)); [done|].
  intros _. exists g, path, v. split_and!; try done; intros ->; simpl in *; lia.
Qed.

(** What the remaining tests of [Parse] accept. *)
Lemma Parse_shape_wf g path v p :
  g ≠ "" → has_byte slash_byte g = false →
  path ≠ "" → has_byte dot_byte path = false → v ≠ "" →
  Parse (g +:+ String slash_byte (path +:+ String dot_byte v)) = (p, true) →
  wf_permission p ∧ p_APIGroup p = g ∧ permission_path p = path ∧ p_Verb p = v.
Proof.
  intros Hg Gs Hp Pd Hv. rewrite Parse_shape by done.
  pose proof (Split_parts path slash_byte) as Hparts.
  pose proof (Split_Join path slash_byte) as Hjoin.
  destruct (Split path slash_byte) as [|r [|s [|? ?]]]; simpl; try done.
  - destruct (_ || _) eqn:Er; [done|]. intros [= <-].
    rewrite orb_false_r in Er. apply part_test_wf in Er as [Er Ed].
    unfold wf_permission, wf_part, permission_path; simpl in *. split_and!; auto.
    apply Hparts. set_solver.
  - destruct (_ || _) eqn:Er; [done|]. intros [= <-].
    apply orb_false_iff in Er as [Er Es]. rewrite orb_false_r in Es.
    apply part_test_wf in Er as [Er Ed]. apply part_test_wf in Es as [Es Esd].
    unfold wf_permission, wf_part, permission_path; simpl in *.
    rewrite (proj2 (String.eqb_neq s "") Es).
    split_and!; auto.
    + apply Hparts; set_solver.
    + right. split_and!; auto. apply Hparts. set_solver.
Qed.

Lemma Parse_String_aux p : wf_permission p → Parse (Permission_String p) = (p, true).
Proof.
  intros Hwf. pose proof Hwf as (Hg & Gs & (Hr & Rs & Rd) & Hs & Hv).
  rewrite Permission_String_path, Parse_shape; auto.
  - rewrite permission_path_split by done. destruct p as [g r s v]; simpl in *.
    assert ((String.eqb r "" || Contains r ".") = false) as Er by by apply part_test_wf.
    destruct (String.eqb_spec s "") as [->|Ns]; simpl; rewrite Er; [done|].
    destruct Hs as [|(_ & _ & Sd)]; [done|].
    by assert ((String.eqb s "" || Contains s ".") = false) as -> by by apply part_test_wf.
  - intros E. pose proof (permission_path_nonempty _ Hwf). rewrite E in *. simpl in *. lia.
  - by apply permission_path_no_dot.
Qed.

Lemma Parse_true_inv value p :
  Parse value = (p, true) → wf_permission p ∧ Permission_String p = value.
Proof.
  intros E. destruct (Parse_inv value) as (g & path & v & -> & ? & ? & ? & ? & ?); [by rewrite E|].
  apply Parse_shape_wf in E as (Hwf & <- & <- & <-); try done.
  by rewrite Permission_String_path.
Qed.

Lemma Permission_String_inj p q :
  wf_permission p → wf_permission q → Permission_String p = Permission_String q → p = q.
Proof.
  intros Hp Hq E. apply Parse_String_aux in Hp, Hq. congruence.
Qed.

(** ** [Defined] and [Enumerate] *)

(** The names of a registration are path components, so that its permissions
    are well formed, and no subresource is declared twice. *)
Definition wf_spec (spec : ProtectedResourceSpec) : Prop :=
  prs_ServiceRef_Name spec ≠ "" ∧ has_byte slash_byte (prs_ServiceRef_Name spec) = false ∧
  wf_part (prs_Plural spec) ∧ Forall (λ v, v ≠ "") (prs_Permissions spec) ∧
  Forall (λ sub, wf_part (sub_Name sub) ∧ Forall (λ v, v ≠ "") (sub_Permissions sub))
    (prs_Subresources spec) ∧
  NoDup (map sub_Name (prs_Subresources spec)).

Lemma verb_loop v verbs : existsb (λ verb, String.eqb verb v) verbs = true ↔ v ∈ verbs.
Proof.
  rewrite existsb_elem. setoid_rewrite String.eqb_eq. naive_solver.
Qed.

(** [Defined] in words: the base verbs, or the first matching subresource's. *)
Lemma permissions_Defined_iff spec p en :
  permissions_Defined spec p en = true ↔
  p_APIGroup p = prs_ServiceRef_Name spec ∧ p_Resource p = prs_Plural spec ∧
  (p_Subresource p = "" ∧ p_Verb p ∈ prs_Permissions spec ∨
   p_Subresource p ≠ "" ∧ en = true ∧
   ∃ sub, find (λ sub, String.eqb (sub_Name sub) (p_Subresource p)) (prs_Subresources spec) = Some sub ∧
     p_Verb p ∈ sub_Permissions sub).
Proof.
  unfold permissions_Defined.
  destruct (String.eqb_spec (p_APIGroup p) (prs_ServiceRef_Name spec)); simpl; [|naive_solver].
  destruct (String.eqb_spec (p_Resource p) (prs_Plural spec)); simpl; [|naive_solver].
  destruct (String.eqb_spec (p_Subresource p) ""); simpl.
  - rewrite verb_loop. naive_solver.
  - destruct en; simpl; [|naive_solver]. rewrite verb_loop.
    destruct (find _ _) eqn:F; [naive_solver|].
    split; [by intros ?%elem_of_nil|naive_solver].
Qed.

Lemma elem_of_Enumerate spec en s :
  s ∈ Enumerate spec en ↔
  prs_Plural spec ≠ "" ∧
  ((∃ v, v ∈ prs_Permissions spec ∧
      s = Permission_String (mkPermission (prs_ServiceRef_Name spec) (prs_Plural spec) "" v)) ∨
   en = true ∧ ∃ sub v, sub ∈ prs_Subresources spec ∧ v ∈ sub_Permissions sub ∧
      s = Permission_String (mkPermission (prs_ServiceRef_Name spec) (prs_Plural spec) (sub_Name sub) v)).
Proof.
  unfold Enumerate. destruct (String.eqb_spec (prs_Plural spec) "") as [->|N].
  { set_solver. }
  rewrite elem_of_app, list_elem_of_In, in_map_iff. setoid_rewrite <- list_elem_of_In.
  destruct en.
  - rewrite (list_elem_of_In (flat_map _ _) s), in_flat_map. setoid_rewrite in_map_iff.
    setoid_rewrite <- list_elem_of_In. naive_solver.
  - rewrite elem_of_nil. naive_solver.
Qed.

Lemma find_sub_NoDup subs sub :
  NoDup (map sub_Name subs) → sub ∈ subs →
  find (λ s, String.eqb (sub_Name s) (sub_Name sub)) subs = Some sub.
Proof.
  induction subs as [|s subs IH]; simpl; [by intros _ ?%elem_of_nil|].
  intros [Hn Hd]%NoDup_cons. rewrite elem_of_cons. intros [->|Hin].
  - by rewrite String.eqb_refl.
  - destruct (String.eqb_spec (sub_Name s) (sub_Name sub)) as [E|]; [|auto].
    exfalso. apply Hn. rewrite E. apply list_elem_of_In, in_map. by apply list_elem_of_In.
Qed.

(** What a permission needs to be defined makes it well formed. *)
Lemma Defined_wf spec p en :
  wf_spec spec → permissions_Defined spec p en = true → wf_permission p.
Proof.
  intros (Hs & Hss & Hp & Hv & Hsub & _) (Eg & Er & Hd)%permissions_Defined_iff.
  unfold wf_permission. rewrite Eg, Er. split_and!; auto.
  - destruct Hd as [[? _]|(_ & _ & sub & F & _)]; [by left|right].
    apply find_some in F as [F E]. apply String.eqb_eq in E as <-.
    rewrite <- list_elem_of_In in F. rewrite Forall_forall in Hsub. by apply Hsub.
  - rewrite Forall_forall in Hv. rewrite Forall_forall in Hsub.
    destruct Hd as [[_ H]|(_ & _ & sub & F & H)]; [by apply Hv|].
    apply find_some in F as [F _]. rewrite <- list_elem_of_In in F.
    destruct (Hsub _ F) as [_ Hf]. rewrite Forall_forall in Hf. by apply Hf.
Qed.

Lemma Defined_Enumerate_aux spec en p :
  wf_spec spec →
  (permissions_Defined spec p en = true ↔
   wf_permission p ∧ Permission_String p ∈ Enumerate spec en).
Proof.
  intros Hwf. split.
  - intros H. split; [by eapply Defined_wf|].
    apply permissions_Defined_iff in H as (Eg & Er & Hd).
    apply elem_of_Enumerate. destruct Hwf as (_ & _ & (Hp & _) & _). split; [done|].
    destruct p as [g r s v]; simpl in *; subst.
    destruct Hd as [[-> ?]|(? & -> & sub & F & ?)]; [eauto|right; split; [done|]].
    apply find_some in F as [F E]. apply String.eqb_eq in E as <-.
    rewrite <- list_elem_of_In in F. eauto.
  - intros [Wp H]. apply elem_of_Enumerate in H as [Hp H].
    pose proof Hwf as (Hs & Hss & Hpp & Hv & Hsub & Hnd). rewrite Forall_forall in Hv. rewrite Forall_forall in Hsub.
    apply permissions_Defined_iff.
    destruct H as [(v & Hin & E)|(-> & sub & v & Hin & Hvin & E)].
    + apply Permission_String_inj in E; [subst; simpl; auto|done|].
      unfold wf_permission; simpl. split_and!; auto.
    + destruct (Hsub _ Hin) as [Ws Wv]. rewrite Forall_forall in Wv.
      apply Permission_String_inj in E; [subst; simpl|done|].
      * split_and!; auto. right. destruct Ws as [? _]. split_and!; auto.
        exists sub. split; [by apply find_sub_NoDup|done].
      * unfold wf_permission; simpl. split_and!; auto.
Qed.

(** C39: [Parse] accepts exactly the printed form of the well-formed permissions,
    and gives back the permission that was printed; so two well-formed
    permissions never share a string. *)
Theorem Parse_accepts_exactly value p :
  Parse value = (p, true) ↔ wf_permission p ∧ value = Permission_String p.
Proof.
  split.
  - intros [Hwf <-]%Parse_true_inv. done.
  - intros [Hwf ->]. by apply Parse_String_aux.
Qed.

(** A permission is [Defined] by a registration exactly when it is well
    formed and its string is one of those the registration enumerates: the
    webhook's test and the authorization model's relations agree. *)
Theorem Defined_iff_Enumerate spec en p :
  wf_spec spec →
  (permissions_Defined spec p en = true ↔
   wf_permission p ∧ Permission_String p ∈ Enumerate spec en).
Proof. intros Hwf. by apply Defined_Enumerate_aux. Qed.

(** A registration with a subresource. *)
Definition example_spec : ProtectedResourceSpec :=
  mkPRSpec "rm.miloapis.com" "Project" "projects" ["get"; "list"]
    [mkSubresource "status" ["update"]] [].

Lemma example_spec_wf : wf_spec example_spec.
Proof.
  unfold wf_spec, wf_part; simpl.
  repeat match goal with
  | |- _ ∧ _ => split
  | |- Forall _ _ => constructor
  | |- NoDup _ => constructor
  | |- _ ∉ _ => apply not_elem_of_nil
  | |- _ = _ => reflexivity
  | |- _ ≠ _ => discriminate
  end.
Qed.

Lemma Defined_iff_Enumerate_witness :
  Permission_String (mkPermission "rm.miloapis.com" "projects" "status" "update")
    ∈ Enumerate example_spec true.
Proof.
  apply (Defined_iff_Enumerate example_spec true
    (mkPermission "rm.miloapis.com" "projects" "status" "update") example_spec_wf).
  vm_compute. reflexivity.
Defined.
