(* ===== verification/Hash.v ===== *)
(** * [hashPermission]: a permission's OpenFGA relation name

    The 32-bit FNV-1a hash of the permission string ([hash/fnv]), its four bytes
    big-endian ([hash.Hash.Sum]) in lower-case hexadecimal ([encoding/hex]). *)

From S2P Require Import Prelude GoStrings Types Permissions.
From Stdlib Require Import Ascii.
Local Open Scope Z_scope.

Definition offset32 : Z := 2166136261.
Definition prime32 : Z := 16777619.
Definition uint32 (x : Z) : Z := x mod 2 ^ 32.

(** One step of [sum32a.Write]: [hash ^= uint32(c); hash *= prime32]. *)
Definition fnv_step (hash : Z) (c : ascii) : Z :=
  uint32 (Z.lxor hash (Z.of_N (N_of_ascii c)) * prime32).

Fixpoint fnv_write (hash : Z) (data : string) : Z :=
  match data with
  | EmptyString => hash
  | String c data' => fnv_write (fnv_step hash c) data'
  end.

Definition New32a_Sum32 (data : string) : Z := fnv_write offset32 data.

(** [Sum(nil)]: the bytes of the hash, most significant first. *)
Definition big_endian (h : Z) : list Z :=
  [Z.land (Z.shiftr h 24) 255; Z.land (Z.shiftr h 16) 255; Z.land (Z.shiftr h 8) 255; Z.land h 255].

Definition hextable : list ascii :=
  ["0"; "1"; "2"; "3"; "4"; "5"; "6"; "7"; "8"; "9"; "a"; "b"; "c"; "d"; "e"; "f"]%char.
Definition hex_digit (d : Z) : ascii := nth (Z.to_nat d) hextable "0"%char.

Fixpoint hex_EncodeToString (bs : list Z) : string :=
  match bs with
  | [] => EmptyString
  | b :: bs' => String (hex_digit (Z.shiftr b 4)) (String (hex_digit (Z.land b 15)) (hex_EncodeToString bs'))
  end.

Definition hashPermission (permission : string) : string :=
  hex_EncodeToString (big_endian (New32a_Sum32 permission)).

(** The exported name, for the webhook. *)
Definition HashPermission (permission : string) : string := hashPermission permission.

(** ** Bounds *)

Lemma fnv_step_bounds h c : 0 ≤ fnv_step h c < 2 ^ 32.
Proof. apply Z.mod_pos_bound. lia. Qed.

Lemma fnv_write_bounds h s : 0 ≤ h < 2 ^ 32 → 0 ≤ fnv_write h s < 2 ^ 32.
Proof.
  revert h. induction s as [|c s IH]; simpl; [done|]. intros h _. apply IH, fnv_step_bounds.
Qed.

Lemma Sum32_bounds s : 0 ≤ New32a_Sum32 s < 2 ^ 32.
Proof. apply fnv_write_bounds. unfold offset32. lia. Qed.

(** ** The bytes determine the hash *)

Lemma land_255 x : Z.land x 255 = x mod 2 ^ 8.
Proof. change 255 with (Z.ones 8). apply Z.land_ones. lia. Qed.

Lemma land_15 x : Z.land x 15 = x mod 2 ^ 4.
Proof. change 15 with (Z.ones 4). apply Z.land_ones. lia. Qed.

Lemma big_endian_bytes h : Forall (λ b, 0 ≤ b < 256) (big_endian h).
Proof.
  unfold big_endian. rewrite !land_255. change (2 ^ 8) with 256.
  repeat apply Forall_cons_2; try apply Z.mod_pos_bound; done.
Qed.

Lemma big_endian_inj h1 h2 :
  0 ≤ h1 < 2 ^ 32 → 0 ≤ h2 < 2 ^ 32 → big_endian h1 = big_endian h2 → h1 = h2.
Proof.
  intros B1 B2. unfold big_endian. rewrite !land_255, !Z.shiftr_div_pow2 by lia.
  change (2 ^ 8) with 256. change (2 ^ 16) with 65536. change (2 ^ 24) with 16777216.
  change (2 ^ 32) with 4294967296 in *.
  intros [= E1 E2 E3 E4].
  Z.div_mod_to_equations. lia.
Qed.

(** ** Hexadecimal digits *)

Lemma nibble_cases d :
  0 ≤ d < 16 →
  d = 0 ∨ d = 1 ∨ d = 2 ∨ d = 3 ∨ d = 4 ∨ d = 5 ∨ d = 6 ∨ d = 7 ∨ d = 8 ∨ d = 9 ∨
  d = 10 ∨ d = 11 ∨ d = 12 ∨ d = 13 ∨ d = 14 ∨ d = 15.
Proof. lia. Qed.

(** Replaces a variable between 0 and 15 by each of its values. *)
Ltac each_nibble B := apply nibble_cases in B; destruct_or! B; subst.

Lemma hex_digit_inj d e : 0 ≤ d < 16 → 0 ≤ e < 16 → hex_digit d = hex_digit e → d = e.
Proof. intros Bd Be. each_nibble Bd; each_nibble Be; done. Qed.

Lemma byte_nibbles b c :
  0 ≤ b < 256 → 0 ≤ c < 256 → Z.shiftr b 4 = Z.shiftr c 4 → Z.land b 15 = Z.land c 15 → b = c.
Proof.
  intros Bb Bc. rewrite !land_15, !Z.shiftr_div_pow2 by lia. change (2 ^ 4) with 16.
  intros. Z.div_mod_to_equations. lia.
Qed.

Lemma byte_nibble_bounds b : 0 ≤ b < 256 → 0 ≤ Z.shiftr b 4 < 16 ∧ 0 ≤ Z.land b 15 < 16.
Proof.
  intros B. rewrite land_15, Z.shiftr_div_pow2 by lia. change (2 ^ 4) with 16.
  Z.div_mod_to_equations. lia.
Qed.

Lemma hex_inj bs cs :
  Forall (λ b, 0 ≤ b < 256) bs → Forall (λ b, 0 ≤ b < 256) cs →
  hex_EncodeToString bs = hex_EncodeToString cs → bs = cs.
Proof.
  intros Hb. revert cs. induction Hb as [|b bs Bb _ IH]; intros cs Hc; destruct Hc as [|c cs Bc Hc]; try done.
  simpl. intros [= E1 E2 E3].
  destruct (byte_nibble_bounds _ Bb), (byte_nibble_bounds _ Bc).
  apply hex_digit_inj in E1, E2; auto.
  f_equal; [by apply byte_nibbles|auto].
Qed.

Lemma hashPermission_Sum32 p q :
  hashPermission p = hashPermission q ↔ New32a_Sum32 p = New32a_Sum32 q.
Proof.
  unfold hashPermission. split; [|congruence].
  intros E. apply hex_inj in E; [|apply big_endian_bytes..].
  apply big_endian_inj in E; auto using Sum32_bounds.
Qed.

(** ** Relation names *)

(** OpenFGA's relation names: 1 to 50 bytes, none of [: # @ space]. *)
Definition valid_relation_byte (c : ascii) : bool :=
  negb (existsb (Ascii.eqb c) [":"; "#"; "@"; " "; "009"; "010"; "011"; "012"; "013"]%char).
Fixpoint all_bytes (f : ascii → bool) (s : string) : bool :=
  match s with
  | EmptyString => true
  | String c s' => f c && all_bytes f s'
  end.
Definition valid_relation_name (s : string) : bool :=
  (1 <=? String.length s)%nat && (String.length s <=? 50)%nat && all_bytes valid_relation_byte s.

Lemma hex_digit_valid d : 0 ≤ d < 16 → valid_relation_byte (hex_digit d) = true.
Proof. intros B. by each_nibble B. Qed.

Lemma hex_valid bs : Forall (λ b, 0 ≤ b < 256) bs → all_bytes valid_relation_byte (hex_EncodeToString bs) = true.
Proof.
  induction 1 as [|b bs B _ IH]; [done|]. simpl. rewrite IH.
  destruct (byte_nibble_bounds _ B). by rewrite !hex_digit_valid.
Qed.

(** Every permission string hashes to a name OpenFGA accepts for a relation:
    eight hexadecimal digits. *)
Theorem hashPermission_valid p :
  String.length (hashPermission p) = 8%nat ∧ valid_relation_name (hashPermission p) = true.
Proof.
  split; [reflexivity|]. apply andb_true_iff. split; [reflexivity|].
  apply hex_valid, big_endian_bytes.
Qed.

(** The hash is not injective on well-formed permissions: these two share a
    relation, so on an object whose type carries both, a tuple that grants one
    grants the other. *)
Theorem hashPermission_collision :
  ∃ p q, wf_permission p ∧ wf_permission q ∧ p ≠ q ∧
    hashPermission (Permission_String p) = hashPermission (Permission_String q).
Proof.
  exists (mkPermission "compute.miloapis.com" "schedules" "" "list").
  exists (mkPermission "quota.miloapis.com" "bindings" "" "manage").
  split; [|split; [|split]].
  - unfold wf_permission, wf_part; simpl; intuition discriminate.
  - unfold wf_permission, wf_part; simpl; intuition discriminate.
  - discriminate.
  - vm_compute. reflexivity.
Qed.

Example hash_vectors :
  hashPermission "" = "811c9dc5" ∧ hashPermission "a" = "e40c292c" ∧
  hashPermission "resourcemanager.miloapis.com/projects.get" = "289b8f3c".
Proof. repeat split; vm_compute; reflexivity. Qed.
