(* ===== verification/ResourceGraph.v ===== *)
(** * [internal/openfga/resources.go]: the graph of protected resources

    [getResourceGraph] arranges the registered resource types in a tree under
    the root type, a child once under each of its parents;
    [calculateHierarchicalPermissions] (authorization_model_reconciler.go) gives
    each type its own permissions and its descendants'. *)

From S2P Require Import Prelude GoStrings GoErr Types Permissions Constants.

(** ** Data *)

Inductive resourceGraphNode := Node {
  ResourceType : string;
  DirectPermissions : list string;
  ParentResources : list string;
  ChildResources : list resourceGraphNode
}.

(** An entry of the [resources] map. *)
Record resourceData := mkResourceData {
  rd_res : ProtectedResourceSpec;
  rd_serviceAPIGroup : string
}.

(** The variables of [getResourceGraph]'s loop over the ProtectedResources. *)
Record graphState := mkGraphState {
  gs_rootResourceIdentifiers : list string;
  gs_directChildren : gmap string (list string);
  gs_resources : gmap string resourceData
}.

Definition mapList (m : gmap string (list string)) (k : string) : list string := default [] (m !! k).

(** ** [getResourceGraph] *)

Definition fqResourceType (spec : ProtectedResourceSpec) : string :=
  prs_ServiceRef_Name spec +:+ "/" +:+ prs_Kind spec.

(** [append] unless the value is listed already. *)
Definition append_new (l : list string) (s : string) : list string :=
  if str_in s l then l else l ++ [s].

(** The parents named by [spec.ParentResources], less those with an empty part. *)
Definition parentFQNs (spec : ProtectedResourceSpec) : list string :=
  flat_map (λ ref, if String.eqb (prr_APIGroup ref) "" || String.eqb (prr_Kind ref) "" then []
                   else [prr_APIGroup ref +:+ "/" +:+ prr_Kind ref]) (prs_ParentResources spec).

Definition effectiveParentResources (spec : ProtectedResourceSpec) : list string :=
  let ps := parentFQNs spec in
  if str_in TypeRoot ps then ps else ps ++ [TypeRoot].

Definition addChild (fq : string) (dc : gmap string (list string)) (parentFQN : string)
    : gmap string (list string) :=
  if String.eqb parentFQN "" then dc
  else if String.eqb parentFQN fq then dc
  else <[parentFQN := append_new (mapList dc parentFQN) fq]> dc.

(** One iteration of the loop over the ProtectedResources. *)
Definition graph_step (st : graphState) (pr : ProtectedResource) : graphState :=
  match om_DeletionTimestamp (pr_Meta pr) with
  | Some _ => st
  | None =>
    let spec := pr_Spec pr in
    if String.eqb (prs_ServiceRef_Name spec) "" then st
    else if String.eqb (prs_Kind spec) "" then st
    else
      let fq := fqResourceType spec in
      mkGraphState
        (match prs_ParentResources spec with
         | [] => append_new (gs_rootResourceIdentifiers st) fq
         | _ => gs_rootResourceIdentifiers st
         end)
        (foldl (addChild fq) (gs_directChildren st) (effectiveParentResources spec))
        (<[fq := mkResourceData spec (prs_ServiceRef_Name spec)]> (gs_resources st))
  end.

Definition graph_tables (prs : list ProtectedResource) : graphState :=
  let st := foldl graph_step (mkGraphState [] ∅ ∅) prs in
  mkGraphState (sort_Strings (gs_rootResourceIdentifiers st))
    (sort_Strings <$> gs_directChildren st) (gs_resources st).

(** [visited] is the set of types on the path from the root of the recursion: Go
    copies it for each child and deletes the node's own entry on return. *)
Fixpoint getResourceGraphNode (fuel : nat) (fq : string) (resourceSpec : ProtectedResourceSpec)
    (allResources : gmap string resourceData) (directChildren : gmap string (list string))
    (visited : gset string) (enableSubresources : bool) : outcome resourceGraphNode :=
  match fuel with
  | O => OutOfFuel
  | S fuel' =>
    if bool_decide (fq ∈ visited) then
      Err (ErrText ("cycle detected: resource " +:+ fq +:+ " already visited in current path"))
    else
      let newVisited := {[fq]} ∪ visited in
      childNodes ← append_loop (λ childFQN,
        if String.eqb childFQN "" then Ok None
        else match allResources !! childFQN with
             | None => Err (ErrText ("did not find child resource data of type '" +:+ childFQN +:+
                                     "' for parent '" +:+ fq +:+ "'"))
             | Some childData =>
               childNode ← outcome_map_err
                 (ErrWrap ("failed to create graph node for child resource '" +:+ childFQN +:+
                           "' of '" +:+ fq +:+ "': "))
                 (getResourceGraphNode fuel' childFQN (rd_res childData) allResources
                    directChildren newVisited enableSubresources);
               Ok (Some childNode)
             end) (mapList directChildren fq);
      if negb (length (Split fq slash_byte) =? 2)%nat then
        Err (ErrText ("invalid fully qualified type for resource, expected format `<service_apigroup>/<Kind>`: type "
                      +:+ fq))
      else Ok (Node fq (sort_Strings (Enumerate resourceSpec enableSubresources))
                 (sort_Strings (parentFQNs resourceSpec)) childNodes)
  end.

(** The loop over the root resources; each is processed once. *)
Fixpoint rootNodes (st : graphState) (enableSubresources : bool) (fuel : nat)
    (processed : gset string) (ids : list string) : outcome (list resourceGraphNode) :=
  match ids with
  | [] => Ok []
  | fq :: ids' =>
    if bool_decide (fq ∈ processed) then rootNodes st enableSubresources fuel processed ids'
    else match gs_resources st !! fq with
         | None => Err (ErrText ("root resource " +:+ fq +:+
                                 " not found in processed map during graph construction"))
         | Some data =>
           node ← outcome_map_err
             (λ e, ErrText ("could not get root graph node for " +:+ fq +:+ ": " +:+ Error e))
             (getResourceGraphNode fuel fq (rd_res data) (gs_resources st)
                (gs_directChildren st) ∅ enableSubresources);
           rest ← rootNodes st enableSubresources fuel ({[fq]} ∪ processed) ids';
           Ok (node :: rest)
         end
  end.

(** A path visits each registered type once, so one more than their number is
    fuel enough. *)
Definition getResourceGraph (protectedResources : list ProtectedResource) (enableSubresources : bool)
    : outcome resourceGraphNode :=
  match protectedResources with
  | [] => Ok (Node TypeRoot [] [] [])
  | _ =>
    let st := graph_tables protectedResources in
    nodes ← rootNodes st enableSubresources (S (size (gs_resources st))) ∅
              (gs_rootResourceIdentifiers st);
    Ok (Node TypeRoot [] [] nodes)
  end.

(** ** [calculateHierarchicalPermissions] *)

Fixpoint removeDuplicates (seen : gset string) (l : list string) : list string :=
  match l with
  | [] => []
  | p :: l' => if bool_decide (p ∈ seen) then removeDuplicates seen l'
               else p :: removeDuplicates ({[p]} ∪ seen) l'
  end.
Definition removeDuplicatePermissions (permissions : list string) : list string :=
  removeDuplicates ∅ permissions.

(** Returns the node's permissions and the updated [permissionsMap]. *)
Fixpoint calculatePermissionsForNode (node : resourceGraphNode) (permissionsMap : gmap string (list string))
    : list string * gmap string (list string) :=
  match node with
  | Node ty direct _ children =>
    if String.eqb ty TypeRoot then
      ([], foldl (λ m child, (calculatePermissionsForNode child m).2) permissionsMap children)
    else match permissionsMap !! ty with
         | Some permissions => (permissions, permissionsMap)
         | None =>
           let r := foldl (λ acc child,
                      let r := calculatePermissionsForNode child acc.2 in
                      (acc.1 ++ r.1, r.2)) (direct, permissionsMap) children in
           let nodePermissions := sort_Strings (removeDuplicatePermissions r.1) in
           (nodePermissions, <[ty := nodePermissions]> r.2)
         end
  end.

Definition calculateHierarchicalPermissions (rootNode : resourceGraphNode) : gmap string (list string) :=
  (calculatePermissionsForNode rootNode ∅).2.
