(* ===== verification/ResourceGraphFacts.v ===== *)
(** * Facts about the resource graph

    Termination of the graph's construction, the shape of the tree it returns,
    and the permissions [calculateHierarchicalPermissions] reads off it. *)

From S2P Require Import Prelude GoStrings GoErr Types Permissions Constants ResourceGraph.

(** ** Induction on trees *)

Section node_induction.
Variable P : resourceGraphNode → Prop.
Hypothesis step : ∀ ty d p ch, Forall P ch → P (Node ty d p ch).

Fixpoint node_induction (n : resourceGraphNode) : P n :=
  match n with
  | Node ty d p ch =>
    step ty d p ch ((fix go l : Forall P l :=
      match l with
      | [] => Forall_nil_2 P
      | c :: l' => Forall_cons_2 P c l' (node_induction c) (go l')
      end) ch)
  end.
End node_induction.

Definition child_of (n c : resourceGraphNode) : Prop := c ∈ ChildResources n.
Abbreviation subnode := (rtc child_of).

(** ** The construction terminates *)

Lemma node_no_fuel_error all dc en fuel fq spec (visited : gset string) :
  is_Some (all !! fq) → visited ⊆ dom all → size (dom all) - size visited < fuel →
  getResourceGraphNode fuel fq spec all dc visited en ≠ OutOfFuel.
Proof.
  revert fq spec visited. induction fuel as [|fuel IH]; intros fq spec visited Hfq Hv Hs; [lia|].
  simpl. case_bool_decide as Hin; [done|]. rewrite outcome_bind_fuel.
  intros [H|(kids & _ & Hk)]; [|by case_match].
  apply append_loop_fuel in H as (c & _ & H).
  destruct (String.eqb c ""); [done|]. destruct (all !! c) eqn:Hc; [|done].
  apply outcome_bind_fuel in H as [H|(? & _ & H)]; [|done].
  rewrite outcome_map_err_fuel in H. revert H. apply IH; [eauto|..].
  - apply elem_of_dom in Hfq. set_solver.
  - assert (size ({[fq]} ∪ visited) ≤ size (dom all)) as Hle.
    { apply subseteq_size. apply elem_of_dom in Hfq. set_solver. }
    rewrite size_union, size_singleton in * by set_solver. lia.
Qed.

Lemma rootNodes_no_fuel_error st en processed ids :
  rootNodes st en (S (size (gs_resources st))) processed ids ≠ OutOfFuel.
Proof.
  revert processed. induction ids as [|fq ids IH]; intros processed; [done|].
  cbn [rootNodes]. case_bool_decide as Hin; [apply IH|]. destruct (gs_resources st !! fq) eqn:E; [|done].
  rewrite outcome_bind_fuel. intros [H|(n & _ & H)].
  - rewrite outcome_map_err_fuel in H. revert H. apply node_no_fuel_error; [eauto|set_solver|].
    rewrite size_empty, size_dom. lia.
  - apply outcome_bind_fuel in H as [H|(? & _ & H)]; [by apply IH in H|done].
Qed.

Lemma getResourceGraph_no_fuel_error prs en : getResourceGraph prs en ≠ OutOfFuel.
Proof.
  unfold getResourceGraph. destruct prs as [|pr prs]; [done|]. rewrite outcome_bind_fuel.
  intros [H|(n & _ & H)]; [|done]. by apply rootNodes_no_fuel_error in H.
Qed.

(** ** The shape of the tree *)

Section tree.
Context (all : gmap string resourceData) (dc : gmap string (list string)) (en : bool).

Definition named_children (fq : string) : list string := filter (λ c, c ≠ "") (mapList dc fq).

(** A tree of the graph: every node carries its registration's data, and its
    children are the types listed under it. *)
Inductive is_tree : resourceGraphNode → Prop :=
| is_tree_node fq data kids :
    all !! fq = Some data →
    length (Split fq slash_byte) = 2 →
    map ResourceType kids = named_children fq →
    Forall is_tree kids →
    is_tree (Node fq (sort_Strings (Enumerate (rd_res data) en))
               (sort_Strings (parentFQNs (rd_res data))) kids).

Definition edge (a b : string) : Prop := b ∈ named_children a.

Lemma getResourceGraphNode_tree fuel fq data visited n :
  all !! fq = Some data →
  getResourceGraphNode fuel fq (rd_res data) all dc visited en = Ok n →
  is_tree n ∧ ResourceType n = fq.
Proof.
  revert fq data visited n. induction fuel as [|fuel IH]; intros fq data visited n Hall H; [done|].
  simpl in H. case_bool_decide; [done|]. apply outcome_bind_Ok in H as (kids & Hk & H).
  case_match eqn:Hlen; [done|]. injection H as <-. bool_prop. apply Nat.eqb_eq in Hlen.
  split; [|done]. apply append_loop_Ok in Hk as (os & Hos & ->).
  assert (map ResourceType (omap id os) = named_children fq ∧ Forall is_tree (omap id os)) as [? ?].
  { unfold named_children. induction Hos as [|c o l os Ho Hos [IHt IHf]]; [by split|].
    destruct (String.eqb_spec c "") as [->|Hne].
    - injection Ho as <-. rewrite filter_cons_False by (by intros ?). by split.
    - destruct (all !! c) as [cd|] eqn:Hc; [|done].
      apply outcome_bind_Ok in Ho as (k & Hk & [= <-]). apply outcome_map_err_Ok in Hk.
      apply IH in Hk as [Ht <-]; [|done]. rewrite filter_cons_True by done. simpl. split; [by f_equal|].
      by constructor. }
  by constructor.
Qed.

Lemma is_tree_inv n :
  is_tree n → ∃ data, all !! ResourceType n = Some data ∧
    length (Split (ResourceType n) slash_byte) = 2 ∧
    DirectPermissions n = sort_Strings (Enumerate (rd_res data) en) ∧
    ParentResources n = sort_Strings (parentFQNs (rd_res data)) ∧
    map ResourceType (ChildResources n) = named_children (ResourceType n) ∧
    Forall is_tree (ChildResources n).
Proof. intros []. simpl. eauto 10. Qed.

Lemma is_tree_child n c : is_tree n → child_of n c → is_tree c.
Proof.
  intros (_ & _ & _ & _ & _ & _ & Hf)%is_tree_inv Hc. rewrite Forall_forall in Hf. by apply Hf.
Qed.

Lemma is_tree_edge n t :
  is_tree n → edge (ResourceType n) t ↔ ∃ c, child_of n c ∧ ResourceType c = t.
Proof.
  intros (_ & _ & _ & _ & _ & Hm & _)%is_tree_inv. unfold edge, child_of.
  rewrite <- Hm, list_elem_of_In, in_map_iff. setoid_rewrite <- list_elem_of_In. naive_solver.
Qed.

Lemma is_tree_fun n1 n2 : is_tree n1 → is_tree n2 → ResourceType n1 = ResourceType n2 → n1 = n2.
Proof.
  revert n2. induction n1 as [ty d p ch IH] using node_induction. intros [ty2 d2 p2 ch2] H1 H2 E.
  apply is_tree_inv in H1 as (data & E1 & _ & D1 & P1 & M1 & F1).
  apply is_tree_inv in H2 as (data2 & E2 & _ & D2 & P2 & M2 & F2). simpl in *. subst.
  rewrite E1 in E2. injection E2 as <-. f_equal. rewrite <- M2 in M1. clear E1 M2.
  revert ch2 F2 M1. induction ch as [|c ch IHch]; intros [|k kids] F2 M1; try done.
  simpl in M1. injection M1 as Ec Em. inversion IH; inversion F1; inversion F2; subst. f_equal; auto.
Qed.

Lemma is_tree_sub n m : is_tree n → subnode n m → is_tree m.
Proof. intros Hn Hs. induction Hs; eauto using is_tree_child. Qed.

Lemma is_tree_registered n : is_tree n → is_Some (all !! ResourceType n).
Proof. intros (data & ? & _)%is_tree_inv. eauto. Qed.

Lemma subnode_edges n m : is_tree n → subnode n m → rtc edge (ResourceType n) (ResourceType m).
Proof.
  intros Hn Hs. induction Hs as [n|n c m Hc _ IH]; [done|].
  eapply rtc_l; [apply is_tree_edge; eauto|]. eauto using is_tree_child.
Qed.

Lemma edges_subnode n t : is_tree n → rtc edge (ResourceType n) t → ∃ m, subnode n m ∧ ResourceType m = t.
Proof.
  intros Hn H. remember (ResourceType n) as a eqn:Ea. revert n Hn Ea.
  induction H as [a|a b t Hab _ IH]; intros n Hn ->; [by exists n|].
  apply is_tree_edge in Hab as (k & Hk & <-); [|done].
  destruct (IH k) as (m & Hkm & <-); [by eapply is_tree_child|done|].
  exists m. split; [|done]. by eapply rtc_l.
Qed.

Lemma is_tree_permissions n data :
  is_tree n → all !! ResourceType n = Some data →
  DirectPermissions n = sort_Strings (Enumerate (rd_res data) en).
Proof. intros (d & E & _ & D & _)%is_tree_inv E'. congruence. Qed.

(** No type of a finite tree is its own proper descendant. *)
Fixpoint tree_size (n : resourceGraphNode) : nat :=
  S (list_sum (map tree_size (ChildResources n))).

Lemma child_smaller n c : child_of n c → tree_size c < tree_size n.
Proof.
  destruct n as [ty d p ch]. unfold child_of. simpl. induction 1 as [|? x l ? IH]; simpl; lia.
Qed.

Lemma subnode_smaller n m : subnode n m → tree_size m ≤ tree_size n.
Proof. induction 1 as [|n c m H%child_smaller]; lia. Qed.

Lemma is_tree_acyclic n t : is_tree n → edge (ResourceType n) t → ¬ rtc edge t (ResourceType n).
Proof.
  intros Hn He Hr. apply is_tree_edge in He as (k & Hk & <-); [|done].
  assert (is_tree k) as Htk by by eapply is_tree_child.
  apply edges_subnode in Hr as (m & Hs & Ht); [|done].
  assert (is_tree m) as Hm by by eapply is_tree_sub.
  apply (is_tree_fun m n) in Ht; [|done..]. subst m.
  apply subnode_smaller in Hs. apply child_smaller in Hk. lia.
Qed.
End tree.

(** ** Hierarchical permissions of a tree *)

(** All permissions of a node and its descendants. *)
Fixpoint subtree_permissions (n : resourceGraphNode) : list string :=
  DirectPermissions n ++ flat_map subtree_permissions (ChildResources n).

(** The reference definition: without duplicates, sorted. *)
Definition canonical_permissions (n : resourceGraphNode) : list string :=
  sort_Strings (removeDuplicatePermissions (subtree_permissions n)).

Lemma elem_of_removeDuplicates seen l p : p ∈ removeDuplicates seen l ↔ p ∈ l ∧ p ∉ seen.
Proof.
  revert seen. induction l as [|q l IH]; intros seen; simpl; [set_solver|].
  case_bool_decide.
  - rewrite IH. set_solver.
  - rewrite elem_of_cons, IH, elem_of_cons, not_elem_of_union, not_elem_of_singleton.
    destruct (decide (p = q)); set_solver.
Qed.

Lemma elem_of_removeDuplicatePermissions l p : p ∈ removeDuplicatePermissions l ↔ p ∈ l.
Proof. unfold removeDuplicatePermissions. rewrite elem_of_removeDuplicates. set_solver. Qed.

Lemma NoDup_removeDuplicates seen l : NoDup (removeDuplicates seen l).
Proof.
  revert seen. induction l as [|q l IH]; intros seen; simpl; [constructor|].
  case_bool_decide; [auto|]. constructor; [|auto]. rewrite elem_of_removeDuplicates. set_solver.
Qed.

Lemma NoDup_removeDuplicatePermissions l : NoDup (removeDuplicatePermissions l).
Proof. apply NoDup_removeDuplicates. Qed.

#[export] Hint Rewrite elem_of_removeDuplicatePermissions : fga.
#[export] Hint Resolve NoDup_removeDuplicatePermissions : fga.

Lemma canonical_ext l1 l2 :
  (∀ p, p ∈ l1 ↔ p ∈ l2) →
  sort_Strings (removeDuplicatePermissions l1) = sort_Strings (removeDuplicatePermissions l2).
Proof. intros E. apply sort_Strings_ext; auto with fga. intros p. by autorewrite with fga. Qed.

Lemma elem_of_canonical n p : p ∈ canonical_permissions n ↔ p ∈ subtree_permissions n.
Proof. unfold canonical_permissions. by autorewrite with fga. Qed.

Lemma elem_of_subtree n p :
  p ∈ subtree_permissions n ↔ ∃ m, subnode n m ∧ p ∈ DirectPermissions m.
Proof.
  induction n as [ty d pa ch IH] using node_induction. simpl. rewrite elem_of_app, elem_of_flat_map.
  rewrite Forall_forall in IH. split.
  - intros [H|(c & Hc & Hp)].
    + by exists (Node ty d pa ch).
    + apply IH in Hp as (m & Hm & ?); [|done]. exists m. split; [|done]. by eapply rtc_l; [|exact Hm].
  - intros (m & Hm & Hp). inversion Hm as [|? c ? Hc Hcm]; subst; [by left|].
    right. exists c. split; [exact Hc|]. apply IH; [exact Hc|]. eauto.
Qed.

(** The memo table is right on a set of nodes closed under children in which a
    type has one node. *)
Section memo.
Context (U : resourceGraphNode → Prop).
Hypothesis U_child : ∀ n c, U n → child_of n c → U c.
Hypothesis U_type : ∀ a b, U a → U b → ResourceType a = ResourceType b → a = b.
Hypothesis U_not_root : ∀ a, U a → ResourceType a ≠ TypeRoot.

Definition memo_ok (m : gmap string (list string)) : Prop :=
  ∀ ty ps, m !! ty = Some ps → ∃ n, U n ∧ ResourceType n = ty ∧ ps = canonical_permissions n ∧
    ∀ c, child_of n c → is_Some (m !! ResourceType c).

Definition calc_ok n := ∀ m, U n → memo_ok m →
  let r := calculatePermissionsForNode n m in
  r.1 = canonical_permissions n ∧ memo_ok r.2 ∧ dom m ⊆ dom r.2 ∧ ResourceType n ∈ dom r.2.

(** One child of the loop in [calculatePermissionsForNode]. *)
Definition calc_step (acc : list string * gmap string (list string)) (child : resourceGraphNode) :=
  (acc.1 ++ (calculatePermissionsForNode child acc.2).1, (calculatePermissionsForNode child acc.2).2).

Lemma calc_children ch acc m :
  Forall calc_ok ch → Forall U ch → memo_ok m →
  let r := foldl calc_step (acc, m) ch in
  r.1 = acc ++ flat_map canonical_permissions ch ∧ memo_ok r.2 ∧ dom m ⊆ dom r.2 ∧
  ∀ c, c ∈ ch → ResourceType c ∈ dom r.2.
Proof.
  revert acc m. induction ch as [|c ch IH]; intros acc m Hc HU Hm r.
  - simpl in r. subst r. simpl. rewrite (right_id_L [] (++)). split_and!; [done..|]. by intros ? ?%elem_of_nil.
  - inversion Hc as [|? ? Hc1 Hc2]; inversion HU as [|? ? HU1 HU2]; subst.
    destruct (Hc1 m HU1 Hm) as (E1 & M1 & D1 & T1).
    destruct (IH (acc ++ (calculatePermissionsForNode c m).1) _ Hc2 HU2 M1) as (E2 & M2 & D2 & T2).
    change (acc ++ (calculatePermissionsForNode c m).1, (calculatePermissionsForNode c m).2)
      with (calc_step (acc, m) c) in *.
    change (foldl calc_step (calc_step (acc, m) c) ch) with r in *. cbn [flat_map]. split_and!.
    + rewrite E2, E1, <- (assoc_L (++)). done.
    + done.
    + set_solver.
    + intros x [->|Hx]%elem_of_cons; [set_solver|by apply T2].
Qed.

Lemma calc_node n : calc_ok n.
Proof.
  induction n as [ty d pa ch IH] using node_induction. intros m HU Hm. cbn [calculatePermissionsForNode].
  destruct (String.eqb_spec ty TypeRoot) as [->|]; [by destruct (U_not_root _ HU)|].
  destruct (m !! ty) as [ps|] eqn:E.
  - destruct (Hm _ _ E) as (n' & HU' & Ht & -> & _). rewrite (U_type _ _ HU' HU Ht). simpl.
    split_and!; [done..|]. apply elem_of_dom. eauto.
  - assert (Forall U ch) as HUch by (apply Forall_forall; intros c Hc; by eapply U_child).
    destruct (calc_children ch d m IH HUch Hm) as (E1 & M1 & D1 & T1). change (foldl _ (d, m) ch) with (foldl calc_step (d, m) ch). cbv zeta.
    revert E1 M1 D1 T1. generalize (foldl calc_step (d, m) ch). intros r E1 M1 D1 T1. simpl.
    assert (sort_Strings (removeDuplicatePermissions r.1) = canonical_permissions (Node ty d pa ch)) as Ec.
    { apply canonical_ext. intros p. rewrite E1. simpl. rewrite !elem_of_app, !elem_of_flat_map.
      by setoid_rewrite elem_of_canonical. }
    split_and!; [done|..].
    + intros ty' ps. rewrite lookup_insert. case_decide as Hd.
      * intros [= <-]. subst ty'. exists (Node ty d pa ch). split_and!; [done..|].
        intros c Hc. destruct (decide (ResourceType c = ty)) as [Hd|Hd].
        -- rewrite Hd, lookup_insert_eq. eauto.
        -- rewrite lookup_insert_ne by done. apply elem_of_dom, T1, Hc.
      * intros (n' & ? & ? & ? & Hk)%M1. exists n'. split_and!; [done..|]. intros c Hc.
        destruct (decide (ty = ResourceType c)) as [->|Hd']; [rewrite lookup_insert_eq; eauto|].
        rewrite lookup_insert_ne by done. by apply Hk.
    + rewrite dom_insert_L. set_solver.
    + rewrite dom_insert_L. set_solver.
Qed.

Lemma memo_closed m n k : memo_ok m → U n → ResourceType n ∈ dom m → subnode n k → ResourceType k ∈ dom m.
Proof.
  intros Hm HU Hn Hs. induction Hs as [n|n c k Hc _ IH]; [done|]. apply IH; [by eapply U_child|].
  apply elem_of_dom in Hn as [ps Hps]. destruct (Hm _ _ Hps) as (n' & HU' & Ht & _ & Hk).
  rewrite (U_type _ _ HU' HU Ht) in Hk. apply elem_of_dom. by apply Hk.
Qed.
End memo.

(** The whole computation, on the root node's children. *)
Lemma calculateHierarchical_spec roots :
  let U n := ∃ r, r ∈ roots ∧ subnode r n in
  (∀ a b, U a → U b → ResourceType a = ResourceType b → a = b) →
  (∀ a, U a → ResourceType a ≠ TypeRoot) →
  ∀ ty ps, calculateHierarchicalPermissions (Node TypeRoot [] [] roots) !! ty = Some ps ↔
    ∃ n, U n ∧ ResourceType n = ty ∧ ps = canonical_permissions n.
Proof.
  intros U HT HR ty ps. unfold calculateHierarchicalPermissions. cbn [calculatePermissionsForNode].
  rewrite String.eqb_refl. simpl.
  assert (HC : ∀ n c, U n → child_of n c → U c).
  { intros n c (r & Hr & Hs) Hc. exists r. split; [done|]. by eapply rtc_r. }
  assert (∀ l m, Forall U l → memo_ok U m →
    let m' := foldl (λ m child, (calculatePermissionsForNode child m).2) m l in
    memo_ok U m' ∧ dom m ⊆ dom m' ∧ ∀ r, r ∈ l → ResourceType r ∈ dom m') as Hloop.
  { induction l as [|r l IH]; intros m Hl Hm; simpl; [split_and!; [done..|by intros ? ?%elem_of_nil]|].
    inversion Hl; subst. destruct (calc_node U HC HT HR r m) as (_ & M1 & D1 & T1); [done..|].
    destruct (IH _ ltac:(done) M1) as (M2 & D2 & T2). split_and!; [done|set_solver|].
    intros x [->|Hx]%elem_of_cons; [set_solver|by apply T2]. }
  destruct (Hloop roots ∅) as (M & _ & T).
  { apply Forall_forall. intros r Hr. exists r. split; [done|apply rtc_refl]. }
  { intros ? ? E. by rewrite lookup_empty in E. }
  split.
  - intros (n & ? & ? & ? & _)%M. eauto.
  - intros (n & HU & <- & ->). pose proof HU as (r & Hr & Hs).
    assert (ResourceType n ∈ dom (foldl (λ m child, (calculatePermissionsForNode child m).2) ∅ roots)) as Hd.
    { eapply (memo_closed U HC HT); [done| |by apply T|done]. exists r. split; [done|apply rtc_refl]. }
    apply elem_of_dom in Hd as [ps Hps]. rewrite Hps. destruct (M _ _ Hps) as (n' & HU' & Ht & -> & _).
    by rewrite (HT _ _ HU' HU Ht).
Qed.
