(* ===== verification/ResourceGraphSpec.v ===== *)
(** * What the resource graph means, in terms of the registrations

    The abstract specification: an edge from each effective parent to each
    registered type, roots without declared parents. [getResourceGraph] and
    [calculateHierarchicalPermissions] compute reachability along these edges. *)

From S2P Require Import Prelude GoStrings GoErr Types Permissions Constants ResourceGraph.
From S2P Require Import ResourceGraphFacts.

(** ** Specification *)

(** A registration the graph takes in: not being deleted, with a service and a kind. *)
Definition live (pr : ProtectedResource) : bool :=
  match om_DeletionTimestamp (pr_Meta pr) with
  | Some _ => false
  | None => negb (String.eqb (prs_ServiceRef_Name (pr_Spec pr)) "") &&
            negb (String.eqb (prs_Kind (pr_Spec pr)) "")
  end.

Definition pr_type (pr : ProtectedResource) : string := fqResourceType (pr_Spec pr).

Definition live_types (prs : list ProtectedResource) : list string :=
  map pr_type (List.filter live prs).

Definition pr_edge (prs : list ProtectedResource) (a b : string) : Prop :=
  ∃ pr, pr ∈ prs ∧ live pr = true ∧ pr_type pr = b ∧
    a ∈ effectiveParentResources (pr_Spec pr) ∧ a ≠ b.

Definition pr_root (prs : list ProtectedResource) (a : string) : Prop :=
  ∃ pr, pr ∈ prs ∧ live pr = true ∧ pr_type pr = a ∧ prs_ParentResources (pr_Spec pr) = [].

(** Reached from a root. *)
Definition pr_reachable (prs : list ProtectedResource) (ty : string) : Prop :=
  ∃ r, pr_root prs r ∧ rtc (pr_edge prs) r ty.

(** ** The tables of [getResourceGraph] *)

Lemma elem_of_append_new l s x : x ∈ append_new l s ↔ x ∈ l ∨ x = s.
Proof.
  unfold append_new. destruct (str_in s l) eqn:E; autorewrite with fga in E; set_solver.
Qed.

Lemma NoDup_append_new l s : NoDup l → NoDup (append_new l s).
Proof.
  unfold append_new. destruct (str_in s l) eqn:E; autorewrite with fga in E; [done|].
  intros H. apply NoDup_app. split_and!; [done|set_solver|apply NoDup_singleton].
Qed.

Lemma append_new_nonnil l s : append_new l s ≠ [].
Proof.
  unfold append_new. destruct (str_in s l) eqn:E; autorewrite with fga in E.
  - intros ->. set_solver.
  - by destruct l.
Qed.

Lemma append_slash_nonempty a b : a +:+ "/" +:+ b ≠ "".
Proof. by destruct a. Qed.

Lemma fq_nonempty spec : fqResourceType spec ≠ "".
Proof. apply append_slash_nonempty. Qed.

Lemma effective_nonempty spec a : a ∈ effectiveParentResources spec → a ≠ "".
Proof.
  unfold effectiveParentResources. intros H.
  assert (a ∈ parentFQNs spec ∨ a = TypeRoot) as [H'| ->].
  { case_in H; set_solver. }
  - unfold parentFQNs in H'. apply elem_of_flat_map in H' as (ref & _ & H').
    case_in H'; [by apply elem_of_nil in H'|]. apply list_elem_of_singleton in H' as ->.
    apply append_slash_nonempty.
  - done.
Qed.

(** What every table satisfies. *)
Definition tables_wf (st : graphState) : Prop :=
  NoDup (gs_rootResourceIdentifiers st) ∧
  ∀ a l, gs_directChildren st !! a = Some l → NoDup l ∧ l ≠ [].

Lemma addChild_edges fq dc a b :
  b ∈ mapList (addChild fq dc a) a ↔ b ∈ mapList dc a ∨ (a ≠ "" ∧ a ≠ fq ∧ b = fq).
Proof.
  unfold addChild. destruct (String.eqb_spec a ""); [naive_solver|].
  destruct (String.eqb_spec a fq); [naive_solver|].
  unfold mapList at 1. rewrite lookup_insert_eq. simpl. rewrite elem_of_append_new. naive_solver.
Qed.

Lemma addChild_other fq dc a a' : a ≠ a' → mapList (addChild fq dc a) a' = mapList dc a'.
Proof.
  intros N. unfold addChild. destruct (String.eqb a ""); [done|].
  destruct (String.eqb a fq); [done|]. unfold mapList. by rewrite lookup_insert_ne.
Qed.

Lemma addChildren_edges fq ps dc a b :
  b ∈ mapList (foldl (addChild fq) dc ps) a ↔ b ∈ mapList dc a ∨ (a ∈ ps ∧ a ≠ "" ∧ a ≠ fq ∧ b = fq).
Proof.
  revert dc. induction ps as [|p ps IH]; intros dc; simpl; [set_solver|].
  rewrite IH, elem_of_cons. destruct (decide (p = a)) as [->|N].
  - rewrite addChild_edges. naive_solver.
  - rewrite addChild_other by done. naive_solver.
Qed.

Lemma addChildren_wf fq ps (dc : gmap string (list string)) :
  (∀ a l, dc !! a = Some l → NoDup l ∧ l ≠ []) →
  ∀ a l, foldl (addChild fq) dc ps !! a = Some l → NoDup l ∧ l ≠ [].
Proof.
  revert dc. induction ps as [|p ps IH]; intros dc H; simpl; [done|]. apply IH.
  intros a l. unfold addChild. destruct (String.eqb p ""); [apply H|].
  destruct (String.eqb p fq); [apply H|]. rewrite lookup_insert. case_decide; [|apply H].
  intros [= <-]. split; [|apply append_new_nonnil]. apply NoDup_append_new.
  unfold mapList. destruct (dc !! p) eqn:E; [by apply (H _ _ E)|constructor].
Qed.

(** One step, on a registration that is taken in or skipped. *)
Lemma graph_step_live st pr :
  live pr = true →
  graph_step st pr = mkGraphState
    (match prs_ParentResources (pr_Spec pr) with
     | [] => append_new (gs_rootResourceIdentifiers st) (pr_type pr)
     | _ => gs_rootResourceIdentifiers st end)
    (foldl (addChild (pr_type pr)) (gs_directChildren st) (effectiveParentResources (pr_Spec pr)))
    (<[pr_type pr := mkResourceData (pr_Spec pr) (prs_ServiceRef_Name (pr_Spec pr))]> (gs_resources st)).
Proof.
  unfold live, graph_step. destruct (om_DeletionTimestamp _); [done|].
  intros [E1%negb_true_iff E2%negb_true_iff]%andb_true_iff. by rewrite E1, E2.
Qed.

Lemma graph_step_skip st pr : live pr = false → graph_step st pr = st.
Proof.
  unfold live, graph_step. destruct (om_DeletionTimestamp _); [done|]. intros [E%negb_false_iff|E%negb_false_iff]%andb_false_iff.
  - by rewrite E.
  - rewrite E. by destruct (String.eqb (prs_ServiceRef_Name (pr_Spec pr)) "").
Qed.

Lemma fold_edges prs st a b :
  b ∈ mapList (gs_directChildren (foldl graph_step st prs)) a ↔
  b ∈ mapList (gs_directChildren st) a ∨ pr_edge prs a b.
Proof.
  revert st. induction prs as [|pr prs IH]; intros st; simpl.
  - unfold pr_edge. set_solver.
  - rewrite IH. unfold pr_edge. rewrite ex_elem_cons. destruct (live pr) eqn:L.
    + rewrite graph_step_live by done. simpl. rewrite addChildren_edges.
      pose proof (effective_nonempty (pr_Spec pr) a). clear -H. naive_solver.
    + rewrite graph_step_skip by done. naive_solver.
Qed.

Lemma fold_roots prs st a :
  a ∈ gs_rootResourceIdentifiers (foldl graph_step st prs) ↔
  a ∈ gs_rootResourceIdentifiers st ∨ pr_root prs a.
Proof.
  revert st. induction prs as [|pr prs IH]; intros st; simpl.
  - unfold pr_root. set_solver.
  - rewrite IH. unfold pr_root. rewrite ex_elem_cons. destruct (live pr) eqn:L.
    + rewrite graph_step_live by done. simpl.
      destruct (prs_ParentResources (pr_Spec pr)) eqn:E; [rewrite elem_of_append_new|]; naive_solver.
    + rewrite graph_step_skip by done. naive_solver.
Qed.

Lemma fold_wf prs st : tables_wf st → tables_wf (foldl graph_step st prs).
Proof.
  revert st. induction prs as [|pr prs IH]; intros st Hwf; simpl; [done|]. apply IH.
  destruct (live pr) eqn:L; [|by rewrite graph_step_skip].
  rewrite graph_step_live by done. destruct Hwf as [Hr Hc]. split; simpl.
  - case_match; [|done]. by apply NoDup_append_new.
  - by apply addChildren_wf.
Qed.

Lemma elem_of_live_types prs ty :
  ty ∈ live_types prs ↔ ∃ pr, pr ∈ prs ∧ live pr = true ∧ pr_type pr = ty.
Proof.
  unfold live_types. rewrite list_elem_of_In, in_map_iff. setoid_rewrite filter_In.
  setoid_rewrite <- list_elem_of_In. naive_solver.
Qed.

Lemma live_types_cons pr prs :
  live_types (pr :: prs) = if live pr then pr_type pr :: live_types prs else live_types prs.
Proof. unfold live_types. simpl. by destruct (live pr). Qed.

Definition entry (pr : ProtectedResource) : resourceData :=
  mkResourceData (pr_Spec pr) (prs_ServiceRef_Name (pr_Spec pr)).

(** With one registration per type, the table holds each. *)
Lemma fold_resources prs st ty d :
  NoDup (live_types prs) →
  (gs_resources (foldl graph_step st prs) !! ty = Some d) ↔
  (∃ pr, pr ∈ prs ∧ live pr = true ∧ pr_type pr = ty ∧ d = entry pr) ∨
  ((ty ∉ live_types prs) ∧ gs_resources st !! ty = Some d).
Proof.
  revert st. induction prs as [|pr prs IH]; intros st ND; cbn [foldl].
  - unfold live_types. set_solver.
  - rewrite live_types_cons in *. rewrite ex_elem_cons. destruct (live pr) eqn:L.
    + apply NoDup_cons in ND as [Hn ND]. rewrite IH, graph_step_live by done. simpl.
      rewrite lookup_insert, elem_of_cons. case_decide as Hd.
      * subst ty. split.
        -- intros [?|[_ [= <-]]]; [by left; right|]. by left; left.
        -- intros [[(_ & _ & ->)|(q & Hq & Lq & Tq & ->)]|[Hq _]]; [by right| |naive_solver].
           destruct Hn. apply elem_of_live_types. eauto.
      * naive_solver.
    + rewrite IH, graph_step_skip by done. naive_solver.
Qed.

Definition empty_state : graphState := mkGraphState [] ∅ ∅.

Lemma empty_wf : tables_wf empty_state.
Proof. split; [constructor|]. intros a l E. simpl in E. by rewrite lookup_empty in E. Qed.

(** ** The tables of a list of registrations *)

Lemma mapList_sorted (dc : gmap string (list string)) a :
  mapList (sort_Strings <$> dc) a = sort_Strings (mapList dc a).
Proof. unfold mapList. rewrite lookup_fmap. by destruct (dc !! a). Qed.

Lemma tables_edge prs a b :
  edge (gs_directChildren (graph_tables prs)) a b ↔ pr_edge prs a b.
Proof.
  unfold edge, named_children. rewrite list_elem_of_filter. simpl.
  rewrite mapList_sorted, elem_of_sort_Strings, fold_edges.
  unfold mapList at 1. simpl. rewrite lookup_empty. simpl.
  split; [set_solver|]. intros H. split; [|by right].
  destruct H as (pr & _ & _ & <- & _). apply fq_nonempty.
Qed.

Lemma tables_root prs a : a ∈ gs_rootResourceIdentifiers (graph_tables prs) ↔ pr_root prs a.
Proof. simpl. rewrite elem_of_sort_Strings, fold_roots. simpl. set_solver. Qed.

Lemma tables_roots_NoDup prs : NoDup (gs_rootResourceIdentifiers (graph_tables prs)).
Proof. simpl. rewrite NoDup_sort_Strings. by apply (fold_wf prs empty_state empty_wf). Qed.

Lemma tables_resources prs ty d :
  NoDup (live_types prs) →
  (gs_resources (graph_tables prs) !! ty = Some d) ↔
  ∃ pr, pr ∈ prs ∧ live pr = true ∧ pr_type pr = ty ∧ d = entry pr.
Proof.
  intros ND. simpl. rewrite (fold_resources prs empty_state) by done. simpl.
  rewrite lookup_empty. naive_solver.
Qed.

Lemma live_unique prs p q :
  NoDup (live_types prs) → p ∈ prs → live p = true → q ∈ prs → live q = true → pr_type q = pr_type p → q = p.
Proof.
  intros ND Hp Lp Hq Lq E. revert ND. induction prs as [|x l IH]; [set_solver|].
  rewrite live_types_cons. apply elem_of_cons in Hq as [->|Hq], Hp as [->|Hp]; [done|..];
    intros ND; [rewrite Lq in ND|rewrite Lp in ND|].
  - apply NoDup_cons in ND as [[] _]. apply elem_of_live_types. eauto.
  - apply NoDup_cons in ND as [[] _]. apply elem_of_live_types. eauto.
  - apply IH; [done..|]. destruct (live x); [by apply NoDup_cons in ND as [_ ND]|done].
Qed.

(** ** Order independence *)

Lemma live_types_perm prs1 prs2 : prs1 ≡ₚ prs2 → live_types prs1 ≡ₚ live_types prs2.
Proof.
  intros P. unfold live_types. apply Permutation_map.
  induction P; simpl; repeat case_match; eauto using Permutation.
Qed.

Lemma graph_tables_perm prs1 prs2 :
  prs1 ≡ₚ prs2 → NoDup (live_types prs1) → graph_tables prs1 = graph_tables prs2.
Proof.
  intros P ND.
  assert (NoDup (live_types prs2)) as ND2 by by rewrite <- (live_types_perm _ _ P).
  destruct (fold_wf prs1 empty_state empty_wf) as [R1 C1].
  destruct (fold_wf prs2 empty_state empty_wf) as [R2 C2].
  unfold graph_tables. f_equal.
  - apply sort_Strings_ext; [done..|]. intros x. rewrite !fold_roots.
    unfold pr_root. setoid_rewrite (elem_of_perm _ _ _ P). done.
  - apply map_eq. intros a. rewrite !lookup_fmap.
    assert (∀ b, b ∈ mapList (gs_directChildren (foldl graph_step empty_state prs1)) a ↔
                 b ∈ mapList (gs_directChildren (foldl graph_step empty_state prs2)) a) as E.
    { intros b. rewrite !fold_edges. unfold pr_edge.
      setoid_rewrite (elem_of_perm _ _ _ P). done. }
    specialize (C1 a). specialize (C2 a). unfold mapList in E. fold empty_state.
    destruct (gs_directChildren (foldl graph_step empty_state prs1) !! a) as [l1|],
      (gs_directChildren (foldl graph_step empty_state prs2) !! a) as [l2|]; simpl in *; [| | |done].
    + f_equal. apply sort_Strings_ext; [by apply C1|by apply C2|done].
    + destruct (C1 l1 eq_refl) as [_ []]. destruct l1; [done|]. set_solver.
    + destruct (C2 l2 eq_refl) as [_ []]. destruct l2; [done|]. set_solver.
  - apply map_eq. intros ty. apply option_eq. intros d.
    rewrite !(fold_resources _ empty_state) by done. simpl. rewrite lookup_empty.
    setoid_rewrite (elem_of_perm _ _ _ P). naive_solver.
Qed.

(** ** The graph *)

Abbreviation registry_tree prs en :=
  (is_tree (gs_resources (graph_tables prs)) (gs_directChildren (graph_tables prs)) en).

Lemma rootNodes_Ok st en fuel processed ids nodes :
  NoDup ids → (∀ x, x ∈ ids → x ∉ processed) →
  rootNodes st en fuel processed ids = Ok nodes →
  map ResourceType nodes = ids ∧
  Forall (is_tree (gs_resources st) (gs_directChildren st) en) nodes.
Proof.
  revert processed nodes. induction ids as [|fq ids IH]; intros processed nodes ND Hp H.
  - injection H as <-. by split.
  - apply NoDup_cons in ND as [Hn ND]. cbn [rootNodes] in H.
    rewrite bool_decide_eq_false_2 in H by (apply Hp; left).
    destruct (gs_resources st !! fq) as [data|] eqn:E; [|done].
    apply outcome_bind_Ok in H as (n & Hnode & H). apply outcome_map_err_Ok in Hnode.
    apply outcome_bind_Ok in H as (rest & Hrest & [= <-]).
    apply getResourceGraphNode_tree in Hnode as [Ht <-]; [|done].
    apply IH in Hrest as [<- Hf]; [|done|].
    + split; [done|by constructor].
    + intros x Hx. apply not_elem_of_union. split; [|apply Hp; by right].
      intros ->%elem_of_singleton. done.
Qed.

Lemma getResourceGraph_Ok prs en g :
  getResourceGraph prs en = Ok g →
  ∃ nodes, g = Node TypeRoot [] [] nodes ∧ Forall (registry_tree prs en) nodes ∧
    ∀ r, r ∈ map ResourceType nodes ↔ pr_root prs r.
Proof.
  unfold getResourceGraph. destruct prs as [|pr prs].
  - intros [= <-]. exists []. split_and!; [done..|]. unfold pr_root. set_solver.
  - intros (nodes & Hn & [= <-])%outcome_bind_Ok. exists nodes. split; [done|].
    apply rootNodes_Ok in Hn as [Hm Hf]; [|apply tables_roots_NoDup|set_solver].
    split; [done|]. intros r. rewrite Hm. apply tables_root.
Qed.

(** The nodes under the root are the trees of the reachable types. *)
Definition graph_node (nodes : list resourceGraphNode) (n : resourceGraphNode) : Prop :=
  ∃ r, r ∈ nodes ∧ subnode r n.

Lemma graph_node_tree prs en nodes n :
  Forall (registry_tree prs en) nodes → graph_node nodes n → registry_tree prs en n.
Proof.
  intros Hf (r & Hr & Hs). rewrite Forall_forall in Hf. eapply is_tree_sub; [|done]. by apply Hf.
Qed.

Lemma tables_rtc prs a b :
  rtc (edge (gs_directChildren (graph_tables prs))) a b ↔ rtc (pr_edge prs) a b.
Proof. apply rtc_iff. apply tables_edge. Qed.

Lemma graph_node_reachable prs en nodes ty :
  Forall (registry_tree prs en) nodes → (∀ r, r ∈ map ResourceType nodes ↔ pr_root prs r) →
  (∃ n, graph_node nodes n ∧ ResourceType n = ty) ↔ pr_reachable prs ty.
Proof.
  intros Hf Hr. rewrite Forall_forall in Hf. split.
  - intros (n & (r & Hin & Hs) & <-). exists (ResourceType r). split.
    + apply Hr. apply list_elem_of_In, in_map. by apply list_elem_of_In.
    + apply tables_rtc. eapply subnode_edges; eauto.
  - intros (t & Ht & Hp). apply Hr, list_elem_of_In, in_map_iff in Ht as (r & <- & Hin%list_elem_of_In).
    apply tables_rtc in Hp. eapply edges_subnode in Hp as (m & Hs & <-); [|by apply Hf].
    exists m. split; [|done]. by exists r.
Qed.

Lemma registered_live prs ty :
  NoDup (live_types prs) → is_Some (gs_resources (graph_tables prs) !! ty) ↔ ty ∈ live_types prs.
Proof.
  intros ND. unfold is_Some. setoid_rewrite tables_resources; [|done].
  rewrite elem_of_live_types. naive_solver.
Qed.

(** ** Hierarchical permissions *)

(** The specification: the permissions of every type reached from [ty]. *)
Definition hierarchical (prs : list ProtectedResource) (en : bool) (ty p : string) : Prop :=
  ∃ pr, pr ∈ prs ∧ live pr = true ∧ rtc (pr_edge prs) ty (pr_type pr) ∧ p ∈ Enumerate (pr_Spec pr) en.

Lemma canonical_hierarchical prs en n p :
  NoDup (live_types prs) → registry_tree prs en n →
  p ∈ canonical_permissions n ↔ hierarchical prs en (ResourceType n) p.
Proof.
  intros ND Ht. rewrite elem_of_canonical, elem_of_subtree. split.
  - intros (m & Hs & Hp). pose proof (is_tree_sub _ _ _ _ _ Ht Hs) as Hm.
    destruct (is_tree_registered _ _ _ _ Hm) as [d Hd].
    rewrite (is_tree_permissions _ _ _ _ _ Hm Hd), elem_of_sort_Strings in Hp.
    apply tables_resources in Hd as (pr & Hin & L & Et & ->); [|done].
    exists pr. split_and!; [done..| |done]. rewrite Et. apply tables_rtc. by eapply subnode_edges.
  - intros (pr & Hin & L & Hr & Hp). apply tables_rtc in Hr.
    eapply edges_subnode in Hr as (m & Hs & Em); [|done]. exists m. split; [done|].
    pose proof (is_tree_sub _ _ _ _ _ Ht Hs) as Hm.
    rewrite (is_tree_permissions _ _ _ m (entry pr) Hm); [by rewrite elem_of_sort_Strings|].
    apply tables_resources; [done|]. rewrite Em. eauto.
Qed.

Lemma hierarchical_aux prs en g :
  getResourceGraph prs en = Ok g → NoDup (live_types prs) → (TypeRoot ∉ live_types prs) →
  let H := calculateHierarchicalPermissions g in
  (∀ ty, is_Some (H !! ty) ↔ pr_reachable prs ty) ∧
  (∀ ty ps, H !! ty = Some ps →
     NoDup ps ∧ StronglySorted String.le ps ∧ ∀ p, p ∈ ps ↔ hierarchical prs en ty p).
Proof.
  intros Hg ND HR. apply getResourceGraph_Ok in Hg as (nodes & -> & Hf & Hr). intros H.
  assert (∀ ty ps, H !! ty = Some ps ↔
    ∃ n, graph_node nodes n ∧ ResourceType n = ty ∧ ps = canonical_permissions n) as Hspec.
  { apply calculateHierarchical_spec.
    - intros a b Ha Hb. apply (is_tree_fun (gs_resources (graph_tables prs)) (gs_directChildren (graph_tables prs)) en);
        by eapply graph_node_tree.
    - intros a Ha Et. apply HR. rewrite <- Et. apply registered_live; [done|].
      eapply is_tree_registered. by eapply graph_node_tree. }
  split.
  - intros ty. rewrite <- (graph_node_reachable prs en nodes) by done. unfold is_Some.
    setoid_rewrite Hspec. naive_solver.
  - intros ty ps (n & Hn & <- & ->)%Hspec. split_and!.
    + apply NoDup_sort_Strings, NoDup_removeDuplicatePermissions.
    + apply sort_Strings_sorted.
    + intros p. apply canonical_hierarchical; [done|by eapply graph_node_tree].
Qed.

(** What a parent may grant includes what its child may. *)
Lemma hierarchical_mono prs en a b p : rtc (pr_edge prs) a b → hierarchical prs en b p → hierarchical prs en a p.
Proof. intros R (pr & ? & ? & ? & ?). exists pr. split_and!; [done..| |done]. by etrans. Qed.

Lemma getResourceGraph_perm prs1 prs2 en :
  prs1 ≡ₚ prs2 → NoDup (live_types prs1) → getResourceGraph prs1 en = getResourceGraph prs2 en.
Proof.
  intros P ND. unfold getResourceGraph. rewrite (graph_tables_perm _ _ P ND).
  destruct prs1, prs2; [done|..].
  - by apply Permutation_nil_cons in P.
  - by apply symmetry, Permutation_nil_cons in P.
  - done.
Qed.

(** ** When the graph is built *)

(** The registered names are group/Kind with no further slash. *)
Definition valid_type (ty : string) : Prop := length (Split ty slash_byte) = 2.

Lemma append_loop_succeeds {A B} (f : A → outcome (option B)) l :
  (∀ x, x ∈ l → ∃ o, f x = Ok o) → ∃ r, append_loop f l = Ok r.
Proof.
  induction l as [|x l IH]; intros H; simpl; [eauto|].
  destruct (H x) as [o ->]; [left|]. destruct IH as [r ->]; [intros y Hy; apply H; by right|].
  simpl. eauto.
Qed.

Lemma node_succeeds (all : gmap string resourceData) dc en fuel fq spec (visited : gset string) :
  (∀ a b, edge dc a b → is_Some (all !! b)) → (∀ a, is_Some (all !! a) → valid_type a) →
  (∀ a b, rtc (edge dc) fq a → edge dc a b → ¬ rtc (edge dc) b a) →
  (∀ v, v ∈ visited → ∃ b, edge dc v b ∧ rtc (edge dc) b fq) →
  is_Some (all !! fq) → visited ⊆ dom all → size (dom all) - size visited < fuel →
  ∃ n, getResourceGraphNode fuel fq spec all dc visited en = Ok n.
Proof.
  intros Hreg Hval. revert fq spec visited.
  induction fuel as [|fuel IH]; intros fq spec visited Hac Hv Hfq Hd Hs; [lia|].
  simpl in *. case_bool_decide as Hin.
  { destruct (Hv _ Hin) as (b & He & Hr). by destruct (Hac fq b (rtc_refl _ _) He). }
  match goal with |- context [append_loop ?f ?l] => destruct (append_loop_succeeds f l) as [r Hr] end.
  - intros c Hc. destruct (String.eqb_spec c "") as [|Hne]; [eauto|].
    assert (edge dc fq c) as Hedge by by apply list_elem_of_filter.
    destruct (Hreg _ _ Hedge) as [d Hcd]. rewrite Hcd.
    destruct (IH c (rd_res d) ({[fq]} ∪ visited)) as [n ->]; [..|simpl; eauto].
    + intros a b Ha. apply Hac. by eapply rtc_l.
    + intros v [->%elem_of_singleton|Hvv]%elem_of_union; [eauto using rtc_refl|].
      destruct (Hv _ Hvv) as (b & ? & ?). exists b. split; [done|]. by eapply rtc_r.
    + by rewrite Hcd.
    + apply elem_of_dom in Hfq. set_solver.
    + assert (size ({[fq]} ∪ visited) ≤ size (dom all)) as Hle.
      { apply subseteq_size. apply elem_of_dom in Hfq. set_solver. }
      rewrite size_union, size_singleton in * by set_solver. lia.
  - rewrite Hr. simpl. rewrite (Hval fq Hfq). simpl. eauto.
Qed.

Lemma rootNodes_succeeds st en processed ids :
  (∀ a b, edge (gs_directChildren st) a b → is_Some (gs_resources st !! b)) →
  (∀ a, is_Some (gs_resources st !! a) → valid_type a) →
  (∀ r a b, r ∈ ids → rtc (edge (gs_directChildren st)) r a → edge (gs_directChildren st) a b →
     ¬ rtc (edge (gs_directChildren st)) b a) →
  (∀ r, r ∈ ids → is_Some (gs_resources st !! r)) →
  ∃ nodes, rootNodes st en (S (size (gs_resources st))) processed ids = Ok nodes.
Proof.
  intros Hreg Hval. revert processed. induction ids as [|r ids IH]; intros processed Hac Hr; [simpl; eauto|].
  cbn [rootNodes]. case_bool_decide; [apply IH; intros; [eapply Hac|apply Hr]; eauto; by right|].
  destruct (Hr r) as [d Hd]; [left|]. rewrite Hd.
  destruct (node_succeeds (gs_resources st) (gs_directChildren st) en (S (size (gs_resources st))) r
    (rd_res d) ∅) as [n ->]; [done|done| |set_solver|by rewrite Hd|set_solver| |].
  - intros a b. apply (Hac r). left.
  - rewrite size_empty, size_dom. lia.
  - destruct (IH ({[r]} ∪ processed)) as [rest Hrest].
    + intros r' a b Hin. apply Hac. by right.
    + intros r' Hin. apply Hr. by right.
    + simpl. rewrite Hrest. simpl. eauto.
Qed.

(** No type reached from a root is its own proper ancestor. *)
Definition acyclic_below_roots (prs : list ProtectedResource) : Prop :=
  ∀ a b, pr_reachable prs a → pr_edge prs a b → ¬ rtc (pr_edge prs) b a.

Lemma getResourceGraph_succeeds prs en :
  NoDup (live_types prs) → Forall valid_type (live_types prs) → acyclic_below_roots prs →
  ∃ g, getResourceGraph prs en = Ok g.
Proof.
  intros ND Hval Hac. rewrite Forall_forall in Hval. unfold getResourceGraph.
  destruct prs as [|pr prs']; [eauto|]. revert ND Hval Hac. generalize (pr :: prs'). clear pr prs'.
  intros prs ND Hval Hac.
  destruct (rootNodes_succeeds (graph_tables prs) en ∅ (gs_rootResourceIdentifiers (graph_tables prs)))
    as [nodes Hn].
  - intros a b (q & ? & ? & <- & _)%tables_edge. apply registered_live, elem_of_live_types; eauto.
  - intros a Ha%registered_live; auto.
  - intros r a b Hr%tables_root Hra%tables_rtc He%tables_edge Hb%tables_rtc.
    eapply Hac; [by exists r|done|done].
  - intros r (q & ? & ? & <- & _)%tables_root. apply registered_live, elem_of_live_types; eauto.
  - rewrite Hn. simpl. eauto.
Qed.

(** ** Theorems *)

(** Building the graph always ends, with a graph or an error, whatever the
    registrations (cycles included): no path is longer than the number of
    registered types. *)
Theorem getResourceGraph_terminates prs en :
  (∃ g, getResourceGraph prs en = Ok g) ∨ (∃ e, getResourceGraph prs en = Err e).
Proof.
  pose proof (getResourceGraph_no_fuel_error prs en) as H.
  destruct (getResourceGraph prs en); [left; eauto|right; eauto|done].
Qed.

(** C32: hierarchical permissions are reachability. When the graph is built, the
    types that get permissions are exactly those reached from a root along
    parent edges, and each gets, sorted and without duplicates, exactly the
    permissions that it and the types reached from it enumerate: the memoised
    traversal agrees with the specification. *)
Theorem hierarchical_permissions_spec prs en g :
  getResourceGraph prs en = Ok g → NoDup (live_types prs) → (TypeRoot ∉ live_types prs) →
  let H := calculateHierarchicalPermissions g in
  (∀ ty, is_Some (H !! ty) ↔ pr_reachable prs ty) ∧
  (∀ ty ps, H !! ty = Some ps →
     NoDup ps ∧ StronglySorted String.le ps ∧ ∀ p, p ∈ ps ↔ hierarchical prs en ty p).
Proof. apply hierarchical_aux. Qed.

(** The graph does not depend on the order in which the API server lists the
    registrations, so the policy reconciler, which does not sort them, and the
    model builder, which does, work with the same permissions. *)
Theorem getResourceGraph_order_independent prs1 prs2 en :
  prs1 ≡ₚ prs2 → NoDup (live_types prs1) → getResourceGraph prs1 en = getResourceGraph prs2 en.
Proof. apply getResourceGraph_perm. Qed.

(** C33: when some registration declares no parents, the graph is returned, with
    nodes under the root, exactly when no type reached from a root is its own
    ancestor; a cycle below a root fails the whole model with an error, and a cycle
    no root reaches is left out without one. *)
Theorem getResourceGraph_ok_iff_acyclic prs en :
  (∃ ty, pr_root prs ty) → NoDup (live_types prs) → Forall valid_type (live_types prs) →
  ((∃ g, getResourceGraph prs en = Ok g ∧ ChildResources g ≠ []) ↔ acyclic_below_roots prs) ∧
  (¬ acyclic_below_roots prs → ∃ e, getResourceGraph prs en = Err e).
Proof.
  intros [ty Hroot] ND Hval.
  assert (∀ g, getResourceGraph prs en = Ok g → acyclic_below_roots prs) as Hac.
  { intros g Hg a b Ha He Hr. apply getResourceGraph_Ok in Hg as (nodes & _ & Hf & Hroots).
    apply (graph_node_reachable _ en nodes) in Ha as (n & Hn & <-); [|done..].
    apply tables_edge in He. apply tables_rtc in Hr. revert He Hr.
    apply is_tree_acyclic with (en := en) (all := gs_resources (graph_tables prs)).
    by eapply graph_node_tree. }
  split; [split|].
  - intros (g & Hg & _). by eapply Hac.
  - intros H. destruct (getResourceGraph_succeeds prs en ND Hval H) as [g Hg]. exists g. split; [done|].
    apply getResourceGraph_Ok in Hg as (nodes & -> & _ & Hroots). apply Hroots in Hroot. by destruct nodes; [apply elem_of_nil in Hroot|].
  - intros Hno. pose proof (getResourceGraph_no_fuel_error prs en) as Hf.
    destruct (getResourceGraph prs en) as [g|e|] eqn:E; [by destruct Hno; apply (Hac g)|eauto|done].
Qed.

(** Without a root the answer is the root type alone, not the error the comment on
    [getResourceGraph] announces. *)
Lemma getResourceGraph_no_roots prs en :
  (∀ ty, ¬ pr_root prs ty) → getResourceGraph prs en = Ok (Node TypeRoot [] [] []).
Proof.
  intros Hno. unfold getResourceGraph. destruct prs as [|pr prs]; [done|].
  assert (gs_rootResourceIdentifiers (graph_tables (pr :: prs)) = []) as ->; [|done].
  apply elem_of_nil_inv. intros ty Hty. by apply (Hno ty), tables_root.
Qed.

(** A registration that declares parents of which none is registered is
    dropped without an error: its type gets no permissions, although it is given
    the root type as a parent "so permissions can be bound to the root resource". *)
Theorem orphan_type_dropped prs en g pr :
  getResourceGraph prs en = Ok g → NoDup (live_types prs) → (TypeRoot ∉ live_types prs) →
  pr ∈ prs → live pr = true → prs_ParentResources (pr_Spec pr) ≠ [] →
  (∀ a, a ∈ parentFQNs (pr_Spec pr) → a ∉ live_types prs) →
  calculateHierarchicalPermissions g !! pr_type pr = None.
Proof.
  intros Hg ND HR Hpr L Hp Hno. apply eq_None_not_Some. intros Hs.
  apply (hierarchical_aux prs en g Hg ND HR) in Hs as (r & (q & Hq & Lq & <- & Hqp) & Hrtc).
  assert (∀ q, q ∈ prs → live q = true → pr_type q = pr_type pr → q = pr) as Huniq.
  { intros q' Hq' Lq' Et. by eapply live_unique. }
  apply rtc_inv_r in Hrtc as [E|(a & Hra & (q' & Hq' & Lq' & Eq' & Ha & _))].
  - apply Huniq in E; [|done..]. congruence.
  - apply Huniq in Eq'; [|done..]. subst q'.
    assert (a ∈ live_types prs) as Hreg.
    { apply rtc_inv_r in Hra as [<-|(b & _ & (q2 & ? & ? & <- & _))]; apply elem_of_live_types; eauto. }
    unfold effectiveParentResources in Ha. case_in Ha; [by apply Hno in Ha|].
    apply elem_of_app in Ha as [Ha| ->%list_elem_of_singleton]; [by apply Hno in Ha|done].
Qed.

(** ** Witnesses: organizations, their projects, the projects' workloads *)

Definition example_pr (svc kind plural : string) (perms : list string)
    (parents : list ParentResourceRef) : ProtectedResource :=
  mkPR (mkObjectMeta plural "" plural 1 None [] []) (mkPRSpec svc kind plural perms [] parents)
    (mkPRStatus 0 []).

Definition example_org := example_pr "rm" "Organization" "organizations" ["get"] [].
Definition example_project := example_pr "rm" "Project" "projects" ["get"; "list"] [mkParentRef "rm" "Organization"].
Definition example_workload := example_pr "compute" "Workload" "workloads" ["create"] [mkParentRef "rm" "Project"].
Definition example_orphan := example_pr "dns" "Zone" "zones" ["get"] [mkParentRef "dns" "Missing"].

Definition example_prs : list ProtectedResource := [example_workload; example_org; example_orphan; example_project].

Definition graph_of (prs : list ProtectedResource) : resourceGraphNode :=
  match getResourceGraph prs true with Ok g => g | _ => Node "" [] [] [] end.

Lemma example_types_NoDup : NoDup (live_types example_prs).
Proof. apply (bool_decide_unpack _). vm_compute. exact I. Qed.

Lemma example_root_free : TypeRoot ∉ live_types example_prs.
Proof. apply (bool_decide_unpack _). vm_compute. exact I. Qed.

Lemma example_graph : getResourceGraph example_prs true = Ok (graph_of example_prs).
Proof. vm_compute. reflexivity. Qed.

Lemma hierarchical_permissions_spec_witness :
  hierarchical example_prs true "rm/Organization" "compute/workloads.create".
Proof.
  destruct (hierarchical_permissions_spec example_prs true (graph_of example_prs)
    example_graph example_types_NoDup example_root_free) as [_ H].
  apply (H "rm/Organization" ["compute/workloads.create"; "rm/organizations.get"; "rm/projects.get"; "rm/projects.list"]).
  - vm_compute. reflexivity.
  - left.
Defined.

Lemma getResourceGraph_order_independent_witness :
  getResourceGraph example_prs true = getResourceGraph (reverse example_prs) true.
Proof.
  apply getResourceGraph_order_independent; [symmetry; apply reverse_Permutation|exact example_types_NoDup].
Defined.

Lemma getResourceGraph_ok_iff_acyclic_witness : acyclic_below_roots example_prs.
Proof.
  apply (getResourceGraph_ok_iff_acyclic example_prs true).
  - exists "rm/Organization", example_org. split_and!; [right; left|reflexivity..].
  - exact example_types_NoDup.
  - apply (bool_decide_unpack _). vm_compute. exact I.
  - exists (graph_of example_prs). split; [exact example_graph|vm_compute; discriminate].
Defined.

Lemma orphan_type_dropped_witness :
  calculateHierarchicalPermissions (graph_of example_prs) !! "dns/Zone" = None.
Proof.
  apply (orphan_type_dropped example_prs true (graph_of example_prs) example_orphan
    example_graph example_types_NoDup example_root_free).
  - right; right; left.
  - reflexivity.
  - discriminate.
  - intros a [->|Ha]%elem_of_cons; [|by apply elem_of_nil in Ha].
    apply (bool_decide_unpack _). vm_compute. exact I.
Defined.
