(* ===== verification/World.v ===== *)
(** * The world the provider acts on

    The OpenFGA server's state [F], the Kubernetes API server's state [K], and
    the model ID cached in the process. [KClient] is the typed Kubernetes client
    for one kind of object; [KReadLaws] states that reads change nothing and
    return the API server's objects. *)

From S2P Require Import Prelude GoStrings GoErr Types.

(** The optional [ModelIDProvider]: its current ID, and whether it also has
    [SetModelID]. *)
Record ModelIDProvider := mkProvider {
  mp_GetModelID : string;
  mp_isUpdater : bool
}.

Record World (F K : Type) := mkWorld {
  w_fga : F;
  w_k8s : K;
  w_provider : option ModelIDProvider
}.
Arguments mkWorld {_ _}.
Arguments w_fga {_ _}.
Arguments w_k8s {_ _}.
Arguments w_provider {_ _}.

Definition on_fga {F K A} (m : M F A) : M (World F K) A := λ w,
  let r := m (w_fga w) in (r.1, mkWorld r.2 (w_k8s w) (w_provider w)).

Definition on_k8s {F K A} (m : M K A) : M (World F K) A := λ w,
  let r := m (w_k8s w) in (r.1, mkWorld (w_fga w) r.2 (w_provider w)).

Definition get_world {F K} : M (World F K) (World F K) := λ w, (Ok w, w).

(** [ModelIDFrom] (model_id.go). *)
Definition ModelIDFrom (p : option ModelIDProvider) : string :=
  match p with
  | None => ""
  | Some p => mp_GetModelID p
  end.

Definition getModelID {F K} : M (World F K) string := λ w, (Ok (ModelIDFrom (w_provider w)), w).

Definition setModelID {F K} (id : string) : M (World F K) unit := λ w,
  (Ok tt, mkWorld (w_fga w) (w_k8s w)
    (match w_provider w with
     | Some p => Some (mkProvider id (mp_isUpdater p))
     | None => None
     end)).

(** ** Kubernetes *)

(** [client.Client], at one kind. [k_ListField field value] lists with
    [client.MatchingFields]. *)
Class KClient (K T : Type) := {
  k_Get : NamespacedName → M K T;
  k_List : M K (list T);
  k_ListField : string → string → M K (list T)
}.

(** The text of [apierrors.NewNotFound] for a resource and a name. *)
Class ApiErrors := NewNotFound_text : string → string → string.
Definition NewNotFound `{ApiErrors} (resource name : string) : goerr :=
  ErrAPI StatusReasonNotFound (NewNotFound_text resource name).

(** [k_view] is the API server's objects of the kind, by key; [k_index] the
    values an object has in a field index. *)
Class KReadLaws (K T : Type) `{KClient K T} := {
  k_view : K → gmap NamespacedName T;
  k_index : string → T → list string;
  k_Get_world key k : (k_Get key k).2 = k;
  k_Get_result key k : (k_Get key k).1 ≠ OutOfFuel;
  k_Get_Ok key k x : (k_Get key k).1 = Ok x → k_view k !! key = Some x;
  k_Get_NotFound key k e : (k_Get key k).1 = Err e → IsNotFound e = true → k_view k !! key = None;
  k_List_world k : (k_List k).2 = k;
  k_List_result k : (k_List k).1 ≠ OutOfFuel;
  k_List_Ok k l : (k_List k).1 = Ok l → l ≡ₚ map snd (map_to_list (k_view k));
  k_ListField_world field v k : (k_ListField field v k).2 = k;
  k_ListField_result field v k : (k_ListField field v k).1 ≠ OutOfFuel;
  k_ListField_Ok field v k l : (k_ListField field v k).1 = Ok l →
    ∀ x, x ∈ l ↔ (∃ key, k_view k !! key = Some x) ∧ v ∈ k_index field x
}.

(** ** Lifting *)

Section lifting.
Context {F K : Type}.

Lemma on_fga_run {A} (m : M F A) (w w' : World F K) r :
  on_fga m w = (r, w') ↔ ∃ f', m (w_fga w) = (r, f') ∧ w' = mkWorld f' (w_k8s w) (w_provider w).
Proof.
  unfold on_fga. destruct (m (w_fga w)) as [r1 f1]. simpl. split; [|naive_solver].
  intros [= -> <-]. eauto.
Qed.

Lemma on_k8s_run {A} (m : M K A) (w w' : World F K) r :
  on_k8s m w = (r, w') ↔ ∃ k', m (w_k8s w) = (r, k') ∧ w' = mkWorld (w_fga w) k' (w_provider w).
Proof.
  unfold on_k8s. destruct (m (w_k8s w)) as [r1 k1]. simpl. split; [|naive_solver].
  intros [= -> <-]. eauto.
Qed.

Lemma mkWorld_eta (w : World F K) : mkWorld (w_fga w) (w_k8s w) (w_provider w) = w.
Proof. by destruct w. Qed.

(** A computation that leaves the state as it is. *)
Definition reads {W A} (m : M W A) : Prop := ∀ w, (m w).2 = w.

Lemma reads_inv {W A} (m : M W A) w w' r : reads m → m w = (r, w') → w' = w ∧ (m w).1 = r.
Proof. intros H E. specialize (H w). rewrite E in *. by simpl in *. Qed.

Lemma reads_mret {W A} (a : A) : reads (mret a : M W A).
Proof. done. Qed.

Lemma reads_throw {W A} e : reads (throw e : M W A).
Proof. done. Qed.

Lemma reads_lift {W A} (o : outcome A) : reads (lift o : M W A).
Proof. done. Qed.

Lemma reads_bind {W A B} (m : M W A) (f : A → M W B) :
  reads m → (∀ a, reads (f a)) → reads (m ≫= f).
Proof.
  intros Hm Hf w. unfold mbind, M_bind. specialize (Hm w).
  destruct (m w) as [[a|e|] w1]; simpl in *; subst; [apply Hf|done..].
Qed.

Lemma reads_map_err {W A} g (m : M W A) : reads m → reads (map_err g m).
Proof. intros Hm w. unfold map_err. specialize (Hm w). by destruct (m w) as [[]]. Qed.

Lemma reads_try {W A} (m : M W A) : reads m → reads (try m).
Proof. intros Hm w. unfold try. specialize (Hm w). by destruct (m w) as [[]]. Qed.

Lemma reads_append_loopM {W A B} (f : A → M W (list B)) l : (∀ x, reads (f x)) → reads (append_loopM f l).
Proof.
  intros Hf. induction l as [|x l IH]; [apply reads_mret|]. simpl.
  apply reads_bind; [apply Hf|]. intros r1. apply reads_bind; [done|]. intros r2. apply reads_mret.
Qed.

Lemma reads_on_fga {A} (m : M F A) : reads m → reads (on_fga m : M (World F K) A).
Proof. intros Hm w. unfold on_fga. simpl. rewrite (Hm (w_fga w)). apply mkWorld_eta. Qed.

Lemma reads_on_k8s {A} (m : M K A) : reads m → reads (on_k8s m : M (World F K) A).
Proof. intros Hm w. unfold on_k8s. simpl. rewrite (Hm (w_k8s w)). apply mkWorld_eta. Qed.

(** Running a bind whose first part only reads. *)
Lemma bind_reads_inv {W A B} (m : M W A) (f : A → M W B) w o w' :
  reads m → (m ≫= f) w = (o, w') →
  (∃ a, (m w).1 = Ok a ∧ f a w = (o, w')) ∨
  (w' = w ∧ ((∃ e, o = Err e ∧ (m w).1 = Err e) ∨ o = OutOfFuel ∧ (m w).1 = OutOfFuel)).
Proof.
  intros Hm. specialize (Hm w). unfold mbind, M_bind. destruct (m w) as [[a|e|] w1]; simpl in *; subst.
  - intros E. left. eauto.
  - intros [= <- <-]. right. eauto.
  - intros [= <- <-]. right. eauto.
Qed.

Lemma map_err_fuel {W A} g (m : M W A) w : (map_err g m w).1 = OutOfFuel ↔ (m w).1 = OutOfFuel.
Proof. unfold map_err. by destruct (m w) as [[]]. Qed.

Lemma try_fuel {W A} (m : M W A) w : (try m w).1 = OutOfFuel ↔ (m w).1 = OutOfFuel.
Proof. unfold try. by destruct (m w) as [[]]. Qed.

Lemma bind_fuel {W A B} (m : M W A) (f : A → M W B) w :
  (m w).1 ≠ OutOfFuel → (∀ a w1, m w = (Ok a, w1) → (f a w1).1 ≠ OutOfFuel) → ((m ≫= f) w).1 ≠ OutOfFuel.
Proof. unfold mbind, M_bind. destruct (m w) as [[a|e|] w1]; simpl; intros H1 H2; [by apply H2|done..]. Qed.

Lemma append_loopM_fuel {W A B} (f : A → M W (list B)) l w :
  (∀ x w, x ∈ l → (f x w).1 ≠ OutOfFuel) → (append_loopM f l w).1 ≠ OutOfFuel.
Proof.
  revert w. induction l as [|x l IH]; intros w Hf; [done|]. simpl. apply bind_fuel; [apply Hf; left|].
  intros a w1 _. apply bind_fuel; [|done]. apply IH. intros y w2 Hy. apply Hf. by right.
Qed.

Lemma bind_Ok_l {W A B} (m : M W A) (f : A → M W B) w a w1 r :
  (m ≫= f) w = r → m w = (Ok a, w1) → f a w1 = r.
Proof. unfold mbind, M_bind. by intros <- ->. Qed.

(** Running a bind. *)
Lemma bind_inv {W A B} (m : M W A) (f : A → M W B) w o w' :
  (m ≫= f) w = (o, w') →
  ∃ o1 w1, m w = (o1, w1) ∧
    ((∃ a, o1 = Ok a ∧ f a w1 = (o, w')) ∨ ((∀ b, o ≠ Ok b) ∧ w' = w1)).
Proof.
  unfold mbind, M_bind. destruct (m w) as [[a|e|] w1]; intros E.
  - eauto 10.
  - injection E as <- <-. exists (Err e), w1. split; [done|]. by right.
  - injection E as <- <-. exists OutOfFuel, w1. split; [done|]. by right.
Qed.

Lemma map_err_fst {W A} g (m : M W A) w a : (map_err g m w).1 = Ok a ↔ (m w).1 = Ok a.
Proof. unfold map_err. destruct (m w) as [[]]; simpl; naive_solver. Qed.

Lemma map_err_snd {W A} g (m : M W A) w : (map_err g m w).2 = (m w).2.
Proof. unfold map_err. by destruct (m w) as [[]]. Qed.

Lemma try_snd {W A} (m : M W A) w : (try m w).2 = (m w).2.
Proof. unfold try. by destruct (m w) as [[]]. Qed.

Lemma wrapf_fst {W A} p (m : M W A) w a : (wrapf p m w).1 = Ok a ↔ (m w).1 = Ok a.
Proof. apply map_err_fst. Qed.

Lemma try_fst {W A} (m : M W A) w a :
  (try m w).1 = Ok a ↔ match a with inl x => (m w).1 = Ok x | inr e => (m w).1 = Err e end.
Proof. unfold try. destruct (m w) as [[]], a; simpl; naive_solver. Qed.

Lemma bind_fst_reads {W A B} (m : M W A) (f : A → M W B) w b :
  reads m → ((m ≫= f) w).1 = Ok b ↔ ∃ a, (m w).1 = Ok a ∧ (f a w).1 = Ok b.
Proof.
  intros Hm. specialize (Hm w). unfold mbind, M_bind. destruct (m w) as [[a|e|] w1]; simpl in *; subst; naive_solver.
Qed.

Lemma append_loopM_reads {W A B} (f : A → M W (list B)) l w r :
  (∀ x, reads (f x)) → (append_loopM f l w).1 = Ok r →
  (∀ x, x ∈ l → ∃ rx, (f x w).1 = Ok rx) ∧
  ∀ y, y ∈ r ↔ ∃ x rx, x ∈ l ∧ (f x w).1 = Ok rx ∧ y ∈ rx.
Proof.
  intros Hf. revert r. induction l as [|x l IH]; intros r; simpl.
  - intros [= <-]. split; [by intros ? ?%elem_of_nil|]. set_solver.
  - rewrite bind_fst_reads by done. intros (r1 & E1 & E2).
    apply bind_fst_reads in E2 as (r2 & E2 & [= <-]); [|by apply reads_append_loopM].
    apply IH in E2 as [HA HB]. split.
    + intros z [->|Hz]%elem_of_cons; eauto.
    + intros y. rewrite elem_of_app, HB. split.
      * intros [Hy|(z & rz & ? & ? & ?)]; [exists x, r1|exists z, rz]; set_solver.
      * intros (z & rz & [->|Hz]%elem_of_cons & Ez & Hy); [left; congruence|right; eauto].
Qed.

Lemma lift_fst {W A} (o : outcome A) (w : W) : (lift o w).1 = o.
Proof. done. Qed.

Lemma on_fga_fst {A} (m : M F A) (w : World F K) : (on_fga m w).1 = (m (w_fga w)).1.
Proof. done. Qed.

Lemma on_k8s_fst {A} (m : M K A) (w : World F K) : (on_k8s m w).1 = (m (w_k8s w)).1.
Proof. done. Qed.

(** The answer depends on Kubernetes alone. *)
Definition k8s_only {A} (m : M (World F K) A) : Prop :=
  reads m ∧ ∀ w1 w2, w_k8s w1 = w_k8s w2 → (m w1).1 = (m w2).1.

Lemma k8s_only_on_k8s {A} (m : M K A) : reads m → k8s_only (on_k8s m).
Proof. intros Hm. split; [by apply reads_on_k8s|]. intros w1 w2 E. rewrite !on_k8s_fst. by rewrite E. Qed.

Lemma k8s_only_mret {A} (a : A) : k8s_only (mret a).
Proof. by split. Qed.
Lemma k8s_only_throw {A} e : k8s_only (throw e : M _ A).
Proof. by split. Qed.
Lemma k8s_only_lift {A} (o : outcome A) : k8s_only (lift o).
Proof. by split. Qed.

Lemma k8s_only_bind {A B} (m : M (World F K) A) (f : A → M (World F K) B) :
  k8s_only m → (∀ a, k8s_only (f a)) → k8s_only (m ≫= f).
Proof.
  intros [Rm Hm] Hf. split; [apply reads_bind; [done|intros a; apply Hf]|].
  intros w1 w2 E. specialize (Hm w1 w2 E). pose proof (Rm w1) as R1. pose proof (Rm w2) as R2.
  unfold mbind, M_bind. destruct (m w1) as [o1 v1], (m w2) as [o2 v2]. simpl in *. subst.
  destruct o2; [by apply Hf|done..].
Qed.

Lemma k8s_only_map_err {A} g (m : M (World F K) A) : k8s_only m → k8s_only (map_err g m).
Proof.
  intros [Rm Hm]. split; [by apply reads_map_err|]. intros w1 w2 E. specialize (Hm w1 w2 E).
  unfold map_err. destruct (m w1) as [o1 v1], (m w2) as [o2 v2]. simpl in *. subst. by destruct o2.
Qed.

Lemma k8s_only_try {A} (m : M (World F K) A) : k8s_only m → k8s_only (try m).
Proof.
  intros [Rm Hm]. split; [by apply reads_try|]. intros w1 w2 E. specialize (Hm w1 w2 E).
  unfold try. destruct (m w1) as [o1 v1], (m w2) as [o2 v2]. simpl in *. subst. by destruct o2.
Qed.

Lemma k8s_only_append_loopM {A B} (f : A → M (World F K) (list B)) l :
  (∀ x, k8s_only (f x)) → k8s_only (append_loopM f l).
Proof.
  intros Hf. induction l as [|x l IH]; [apply k8s_only_mret|]. simpl.
  apply k8s_only_bind; [apply Hf|]. intros r1. apply k8s_only_bind; [done|]. intros r2. apply k8s_only_mret.
Qed.

Lemma reads_getModelID : reads (getModelID : M (World F K) string).
Proof. done. Qed.
End lifting.

Create HintDb reads discriminated.
#[export] Hint Resolve reads_mret reads_throw reads_lift reads_bind reads_map_err reads_try
  reads_append_loopM reads_on_fga reads_on_k8s reads_getModelID : reads.
#[export] Hint Unfold wrapf : reads.

Ltac solve_k8s_only :=
  repeat first
    [ assumption
    | progress intros
    | apply k8s_only_bind | apply k8s_only_mret | apply k8s_only_throw | apply k8s_only_lift
    | apply k8s_only_map_err | apply k8s_only_try | apply k8s_only_append_loopM
    | apply k8s_only_on_k8s; solve [eauto with reads]
    | case_match ].

Section k8s_reads.
Context {K T : Type} `{KReadLaws K T}.

Lemma reads_k_Get key : reads (k_Get key : M K T).
Proof. intros k. apply k_Get_world. Qed.
Lemma reads_k_List : reads (k_List : M K (list T)).
Proof. intros k. apply k_List_world. Qed.
Lemma reads_k_ListField field v : reads (k_ListField field v : M K (list T)).
Proof. intros k. apply k_ListField_world. Qed.
End k8s_reads.
#[export] Hint Resolve reads_k_Get reads_k_List reads_k_ListField : reads.

(** Shows that a computation only reads. *)
Ltac solve_reads :=
  repeat first
    [ assumption
    | progress intros
    | apply reads_bind | apply reads_mret | apply reads_throw | apply reads_lift
    | apply reads_map_err | apply reads_try | apply reads_append_loopM
    | apply reads_on_fga | apply reads_on_k8s | apply reads_getModelID
    | solve [eauto with reads]
    | case_match ].
