(* ===== verification/Fga.v ===== *)
(** * The interface of the OpenFGA service

    The service's client is outside this repository. [FgaClient] is the
    operations the provider calls; [FgaLaws] states what it relies on: reads
    change nothing and return the store's tuples page by page, a write is one
    transaction, models are listed newest first, every item of a batch check is
    answered for its own tuple. [fga_allows f store model key] is what the service
    decides about a tuple key under a model. [RefStore] is a small store
    that satisfies the laws, for running the definitions on examples. *)

From S2P Require Import Prelude GoStrings GoErr Types.
From Stdlib Require Import Ascii.

#[export] Instance TupleKeyWithoutCondition_countable : Countable TupleKeyWithoutCondition.
Proof.
  refine (inj_countable' (λ t, (wc_User t, wc_Relation t, wc_Object t))
    (λ '(u, r, o), mkTupleWC u r o) _).
  by intros [].
Defined.

(** The tuples of a store: each with its condition, if it has one. *)
Abbreviation tuple_map := (gmap TupleKeyWithoutCondition (option RelationshipCondition)).

Record WriteAuthorizationModelRequest := mkWriteModel {
  wm_StoreId : string;
  wm_SchemaVersion : string;
  wm_TypeDefinitions : list TypeDefinition;
  wm_Conditions : list (string * string)
}.

(** A BatchCheck result: allowed, or an error's message. *)
Inductive BatchCheckSingleResult :=
| SingleAllowed (allowed : bool)
| SingleError (message : string).

Class FgaClient (F : Type) := {
  fga_Write : WriteRequest → M F unit;
  fga_Read : ReadRequest → M F ReadResponse;
  fga_Check : CheckRequest → M F bool;
  fga_BatchCheck : BatchCheckRequest → M F (gmap string BatchCheckSingleResult);
  fga_ReadAuthorizationModels : string → Z → M F (list AuthorizationModel);
  fga_ReadAuthorizationModel : string → string → M F (option AuthorizationModel);
  fga_WriteAuthorizationModel : WriteAuthorizationModelRequest → M F string
}.

Definition wc_of (t : TupleKey) : TupleKeyWithoutCondition :=
  mkTupleWC (User t) (Relation t) (Object t).
Definition tuple_of (k : TupleKeyWithoutCondition) (c : option RelationshipCondition) : TupleKey :=
  mkTuple (wc_User k) (wc_Relation k) (wc_Object k) c.

(** A filter's object may leave out the name: ["type:"], whose first colon ends it,
    stands for every object of the type. *)
Fixpoint type_only (s : string) : bool :=
  match s with
  | EmptyString => false
  | String c s' => if Ascii.eqb c ":"%char then String.eqb s' "" else type_only s'
  end.

(** A Read's filter. *)
Definition matches (f : ReadRequestTupleKey) (k : TupleKeyWithoutCondition) : bool :=
  (String.eqb (rk_User f) "" || String.eqb (rk_User f) (wc_User k)) &&
  (String.eqb (rk_Relation f) "" || String.eqb (rk_Relation f) (wc_Relation k)) &&
  (String.eqb (rk_Object f) "" ||
   if type_only (rk_Object f) then HasPrefix (wc_Object k) (rk_Object f)
   else String.eqb (rk_Object f) (wc_Object k)).

Definition matching (ts : tuple_map) (f : ReadRequestTupleKey) : list TupleKey :=
  map (λ kc, tuple_of kc.1 kc.2) (List.filter (λ kc, matches f kc.1) (map_to_list ts)).

Definition write_keys (req : WriteRequest) : list TupleKey :=
  match wr_Writes req with Some w => w_TupleKeys w | None => [] end.
Definition delete_keys (req : WriteRequest) : list TupleKeyWithoutCondition :=
  match wr_Deletes req with Some d => d_TupleKeys d | None => [] end.

(** The store after a write is carried out. *)
Definition apply_write (req : WriteRequest) (ts : tuple_map) : tuple_map :=
  foldl (λ ts t, <[wc_of t := TupleCondition t]> ts)
    (foldl (λ ts k, delete k ts) ts (delete_keys req)) (write_keys req).

(** [fga_cursor f s key token rest]: in the server's state [f], [token] stands for
    the tuples [rest] that a Read of [key] has yet to return. *)
Class FgaLaws (F : Type) `{FgaClient F} := {
  fga_tuples : F → string → tuple_map;
  fga_models : F → string → list AuthorizationModel;
  fga_cursor : F → string → ReadRequestTupleKey → string → list TupleKey → Prop;
  fga_allows : F → string → string → CheckRequestTupleKey → Prop;

  fga_Write_Ok req f f' :
    fga_Write req f = (Ok tt, f') →
    fga_tuples f' (wr_StoreId req) = apply_write req (fga_tuples f (wr_StoreId req)) ∧
    fga_models f' = fga_models f;
  fga_Write_Err req f e f' :
    fga_Write req f = (Err e, f') →
    (fga_tuples f' = fga_tuples f ∨
     fga_tuples f' (wr_StoreId req) = apply_write req (fga_tuples f (wr_StoreId req))) ∧
    fga_models f' = fga_models f;
  fga_Write_result req f : (fga_Write req f).1 ≠ OutOfFuel;

  fga_Read_world req f : (fga_Read req f).2 = f;
  fga_Read_result req f : (fga_Read req f).1 ≠ OutOfFuel;
  fga_Read_start f s key : ∃ l, fga_cursor f s key "" l ∧ l ≡ₚ matching (fga_tuples f s) key;
  fga_Read_page req f rest resp :
    fga_cursor f (rd_StoreId req) (rd_TupleKey req) (rd_ContinuationToken req) rest →
    (fga_Read req f).1 = Ok resp →
    ∃ later, rest = rd_Tuples resp ++ later ∧
      (rd_NextToken resp = "" ∧ later = [] ∨
       rd_NextToken resp ≠ "" ∧ rd_Tuples resp ≠ [] ∧
       fga_cursor f (rd_StoreId req) (rd_TupleKey req) (rd_NextToken resp) later);

  fga_Check_world req f : (fga_Check req f).2 = f;
  fga_Check_result req f : (fga_Check req f).1 ≠ OutOfFuel;
  fga_Check_Ok req f b :
    (fga_Check req f).1 = Ok b →
    (b = true ↔ fga_allows f (ck_StoreId req) (ck_AuthorizationModelId req) (ck_TupleKey req));
  fga_BatchCheck_world req f : (fga_BatchCheck req f).2 = f;
  fga_BatchCheck_result req f : (fga_BatchCheck req f).1 ≠ OutOfFuel;
  fga_BatchCheck_Ok req f res :
    (fga_BatchCheck req f).1 = Ok res → NoDup (map bi_CorrelationId (bc_Checks req)) →
    ∀ id r, res !! id = Some r →
      ∃ item, item ∈ bc_Checks req ∧ bi_CorrelationId item = id ∧
        match r with
        | SingleAllowed b =>
          b = true ↔ fga_allows f (bc_StoreId req) (bc_AuthorizationModelId req) (bi_TupleKey item)
        | SingleError _ => True
        end;
  fga_BatchCheck_all req f res :
    (fga_BatchCheck req f).1 = Ok res → NoDup (map bi_CorrelationId (bc_Checks req)) →
    ∀ item, item ∈ bc_Checks req → is_Some (res !! bi_CorrelationId item);

  fga_ReadModels_world s n f : (fga_ReadAuthorizationModels s n f).2 = f;
  fga_ReadModels_result s n f : (fga_ReadAuthorizationModels s n f).1 ≠ OutOfFuel;
  fga_ReadModels_Ok s n f l :
    (fga_ReadAuthorizationModels s n f).1 = Ok l → (1 ≤ n)%Z → head l = head (fga_models f s);
  fga_ReadModel_world s id f : (fga_ReadAuthorizationModel s id f).2 = f;
  fga_ReadModel_result s id f : (fga_ReadAuthorizationModel s id f).1 ≠ OutOfFuel;
  fga_ReadModel_Ok s id f o :
    (fga_ReadAuthorizationModel s id f).1 = Ok o → o = find (λ m, String.eqb (am_Id m) id) (fga_models f s);
  fga_WriteModel_Ok req f id f' :
    fga_WriteAuthorizationModel req f = (Ok id, f') →
    fga_models f' (wm_StoreId req) =
      mkModel id (wm_SchemaVersion req) (wm_TypeDefinitions req) (wm_Conditions req)
        :: fga_models f (wm_StoreId req) ∧
    fga_tuples f' = fga_tuples f;
  fga_WriteModel_Err req f e f' :
    fga_WriteAuthorizationModel req f = (Err e, f') → fga_tuples f' = fga_tuples f;
  fga_WriteModel_result req f : (fga_WriteAuthorizationModel req f).1 ≠ OutOfFuel
}.

(** ** Facts about writes *)

Lemma foldl_delete_lookup (ks : list TupleKeyWithoutCondition) (ts : tuple_map) k :
  foldl (λ ts k, delete k ts) ts ks !! k = if bool_decide (k ∈ ks) then None else ts !! k.
Proof.
  revert ts. induction ks as [|k' ks IH]; intros ts; cbn [foldl]; [by rewrite bool_decide_eq_false_2 by set_solver|].
  rewrite IH. destruct (decide (k ∈ ks)).
  - rewrite !bool_decide_eq_true_2 by set_solver. done.
  - rewrite bool_decide_eq_false_2 by done. destruct (decide (k' = k)) as [->|].
    + rewrite bool_decide_eq_true_2 by set_solver. apply lookup_delete_eq.
    + rewrite bool_decide_eq_false_2 by set_solver. by apply lookup_delete_ne.
Qed.

Lemma apply_write_dom req (ts : tuple_map) k :
  k ∈ dom (apply_write req ts) ↔
  k ∈ map wc_of (write_keys req) ∨ (k ∈ dom ts ∧ k ∉ delete_keys req).
Proof.
  unfold apply_write.
  assert (∀ (ws : list TupleKey) (ts : tuple_map),
    k ∈ dom (foldl (λ ts t, <[wc_of t := TupleCondition t]> ts) ts ws) ↔ k ∈ map wc_of ws ∨ k ∈ dom ts) as ->.
  { induction ws as [|w ws IH]; intros ts'; cbn [foldl map]; [set_solver|].
    rewrite IH, dom_insert_L. set_solver. }
  f_equiv. rewrite !elem_of_dom, foldl_delete_lookup. case_bool_decide; [|naive_solver].
  split; [by intros []|naive_solver].
Qed.

(** The writes as one map; a later write of the same tuple wins. *)
Definition writes_map (ws : list TupleKey) : tuple_map :=
  list_to_map (reverse (map (λ t, (wc_of t, TupleCondition t)) ws)).

Lemma foldl_insert_union ws (ts : tuple_map) :
  foldl (λ ts t, <[wc_of t := TupleCondition t]> ts) ts ws = writes_map ws ∪ ts.
Proof.
  revert ts. induction ws as [|t ws IH]; intros ts; cbn [foldl].
  - unfold writes_map. simpl. by rewrite (left_id_L ∅ (∪)).
  - rewrite IH. unfold writes_map. cbn [map]. rewrite reverse_cons, list_to_map_app. simpl.
    rewrite <- (assoc_L (∪)), <- insert_union_l, (left_id_L ∅ (∪)). done.
Qed.

Lemma apply_write_eq req ts :
  apply_write req ts = writes_map (write_keys req) ∪ foldl (λ ts k, delete k ts) ts (delete_keys req).
Proof. apply foldl_insert_union. Qed.

Lemma writes_map_unconditional ws k c :
  (∀ t, t ∈ ws → TupleCondition t = None) → writes_map ws !! k = Some c → c = None ∧ k ∈ map wc_of ws.
Proof.
  intros Hc Hl. apply elem_of_list_to_map_2 in Hl. rewrite elem_of_reverse in Hl.
  apply elem_of_map in Hl as (t & Ht & [= -> ->]). split; [by apply Hc|].
  apply elem_of_map. eauto.
Qed.

Lemma writes_map_dom ws k : is_Some (writes_map ws !! k) ↔ k ∈ map wc_of ws.
Proof.
  rewrite <- elem_of_dom. unfold writes_map. rewrite dom_list_to_map, elem_of_list_to_set.
  rewrite list_elem_of_fmap. setoid_rewrite elem_of_reverse. rewrite elem_of_map. split.
  - intros ([k' c] & -> & (t & Ht & [= -> ->])%elem_of_map). eauto.
  - intros (t & Ht & ->). exists (wc_of t, TupleCondition t). split; [done|]. apply elem_of_map. eauto.
Qed.

Lemma elem_of_matching ts f t :
  t ∈ matching ts f ↔ ts !! wc_of t = Some (TupleCondition t) ∧ matches f (wc_of t) = true.
Proof.
  unfold matching. rewrite list_elem_of_In, in_map_iff. setoid_rewrite filter_In.
  setoid_rewrite <- list_elem_of_In. split.
  - intros ([k c] & <- & Hk%elem_of_map_to_list & Hm). by destruct k.
  - intros [Hl Hm]. exists (wc_of t, TupleCondition t).
    rewrite elem_of_map_to_list. by destruct t.
Qed.

(** A filter that names a user, a relation and one object matches that tuple alone. *)
Lemma matches_exact u r o k :
  u ≠ "" → r ≠ "" → o ≠ "" → type_only o = false →
  matches (mkReadKey u r o) k = true ↔ k = mkTupleWC u r o.
Proof.
  intros Hu Hr Ho Ht. unfold matches. cbn [rk_User rk_Relation rk_Object].
  rewrite Ht, (proj2 (String.eqb_neq u "") Hu), (proj2 (String.eqb_neq r "") Hr), (proj2 (String.eqb_neq o "") Ho).
  cbn [orb]. rewrite !andb_true_iff, !String.eqb_eq. destruct k. cbn. naive_solver.
Qed.

(** ** A reference store *)

(** [rs_page] is the number of tuples the server puts in a page, [rs_down] makes
    every call fail. *)
Record RefStore := mkRefStore {
  rs_tuples : tuple_map;
  rs_models : list AuthorizationModel;
  rs_page : nat;
  rs_down : option goerr
}.

Fixpoint stars (n : nat) : string :=
  match n with O => EmptyString | S n' => String "x"%char (stars n') end.

Lemma length_stars n : String.length (stars n) = n.
Proof. induction n; simpl; congruence. Qed.

Definition rs_up {A} (f : RefStore) (r : A * RefStore) : outcome A * RefStore :=
  match rs_down f with
  | Some e => (Err e, f)
  | None => (Ok r.1, r.2)
  end.

(** A continuation token is as long as the tuples already returned. *)
Definition rs_read (req : ReadRequest) (f : RefStore) : ReadResponse :=
  let rest := drop (String.length (rd_ContinuationToken req)) (matching (rs_tuples f) (rd_TupleKey req)) in
  let page := S (rs_page f) in
  mkReadResp (take page rest)
    (match drop page rest with
     | [] => ""
     | _ => stars (String.length (rd_ContinuationToken req) + page)
     end).

#[export] Instance RefStore_client : FgaClient RefStore := {|
  fga_Write req f := rs_up f (tt, mkRefStore (apply_write req (rs_tuples f)) (rs_models f) (rs_page f) (rs_down f));
  fga_Read req f := rs_up f (rs_read req f, f);
  fga_Check req f := rs_up f
    (let k := ck_TupleKey req in
     bool_decide (mkTupleWC (ck_User k) (ck_Relation k) (ck_Object k) ∈ dom (rs_tuples f)), f);
  fga_BatchCheck req f := rs_up f
    (list_to_map (map (λ i, (bi_CorrelationId i,
       let k := bi_TupleKey i in
       SingleAllowed (bool_decide (mkTupleWC (ck_User k) (ck_Relation k) (ck_Object k) ∈ dom (rs_tuples f)))))
       (bc_Checks req)), f);
  fga_ReadAuthorizationModels s n f := rs_up f (take (Z.to_nat n) (rs_models f), f);
  fga_ReadAuthorizationModel s id f := rs_up f (find (λ m, String.eqb (am_Id m) id) (rs_models f), f);
  fga_WriteAuthorizationModel req f :=
    let id := format_dec (length (rs_models f)) in
    rs_up f (id, mkRefStore (rs_tuples f)
      (mkModel id (wm_SchemaVersion req) (wm_TypeDefinitions req) (wm_Conditions req) :: rs_models f)
      (rs_page f) (rs_down f))
|}.

#[export] Instance RefStore_laws : FgaLaws RefStore.
Proof.
  refine {|
    fga_tuples f _ := rs_tuples f;
    fga_models f _ := rs_models f;
    fga_cursor f _ key tok rest := rest = drop (String.length tok) (matching (rs_tuples f) key);
    fga_allows f _ _ k := mkTupleWC (ck_User k) (ck_Relation k) (ck_Object k) ∈ dom (rs_tuples f)
  |}; unfold fga_Write, fga_Read, fga_Check, fga_BatchCheck, fga_ReadAuthorizationModels, fga_ReadAuthorizationModel,
      fga_WriteAuthorizationModel, RefStore_client, rs_up.
  all: try (intros; destruct (rs_down f); simpl in *; simplify_eq/=; by auto).
  - intros f s key. eexists. split; [done|]. by simpl.
  - intros req f rest resp -> H. destruct (rs_down f); [done|]. injection H as <-. unfold rs_read. simpl.
    set (l := drop _ _). exists (drop (S (rs_page f)) l). split; [by rewrite take_drop|].
    destruct (drop (S (rs_page f)) l) eqn:E; [by left|right]. split_and!.
    + by rewrite Nat.add_succ_r.
    + destruct l; [by rewrite drop_nil in E|done].
    + rewrite length_stars, <- E. unfold l. by rewrite drop_drop.
  - intros req f b H. destruct (rs_down f); [done|]. injection H as <-. by rewrite bool_decide_eq_true.
  - intros req f res H N id r Hr. destruct (rs_down f); [done|]. injection H as <-.
    apply elem_of_list_to_map_2, elem_of_map in Hr as (i & Hi & [= -> ->]).
    exists i. split_and!; [done..|]. by rewrite bool_decide_eq_true.
  - intros req f res H N i Hi. destruct (rs_down f); [done|]. injection H as <-.
    apply elem_of_dom. rewrite dom_list_to_map_L, elem_of_list_to_set, map_map. cbn.
    rewrite elem_of_map. by exists i.
  - intros s n f l H Hn. destruct (rs_down f); [done|]. injection H as <-.
    destruct (Z.to_nat n) eqn:E; [lia|]. by destruct (rs_models f).
Defined.
