(* ===== verification/Tuples.v ===== *)
(** * [internal/openfga]: tuples

    Object and index names (index.go), error classes (errors.go), batched deletes
    (tuples.go), the write that survives a model change (model_transition.go),
    and the tuple helpers of policy_reconciler.go. *)

From S2P Require Import Prelude GoStrings GoErr Types Constants World Fga.
From Stdlib Require Import Ascii.
Local Open Scope Z_scope.

(** ** index.go *)

Definition TargetObjectIndexField : string := "openfga.targetObject".
Definition TargetKindIndexField : string := "openfga.targetKind".
Definition RoleRefIndexField : string := "openfga.roleRef".

Definition ObjectName (group kind name : string) : string :=
  group +:+ "/" +:+ kind +:+ ":" +:+ name.

Definition selector_error : goerr :=
  ErrText "resourceSelector must specify either resourceRef or resourceKind".

Definition TargetObjectFromResourceSelector (selector : ResourceSelector) : outcome string :=
  match sel_ResourceRef selector with
  | Some ref => Ok (ObjectName (ref_APIGroup ref) (ref_Kind ref) (ref_Name ref))
  | None =>
    match sel_ResourceKind selector with
    | Some rk => Ok (TypeRoot +:+ ":" +:+ rk_APIGroup rk +:+ "/" +:+ rk_Kind rk)
    | None => Err selector_error
    end
  end.

Definition TargetKindFromResourceSelector (selector : ResourceSelector) : outcome string :=
  match sel_ResourceRef selector with
  | Some ref => Ok (ref_APIGroup ref +:+ "/" +:+ ref_Kind ref)
  | None =>
    match sel_ResourceKind selector with
    | Some rk => Ok (rk_APIGroup rk +:+ "/" +:+ rk_Kind rk)
    | None => Err selector_error
    end
  end.

Definition RoleRefIndexKey (policyBindingNamespace : string) (roleRef : RoleReference) : string :=
  let namespace := if String.eqb (rr_Namespace roleRef) "" then policyBindingNamespace
                   else rr_Namespace roleRef in
  namespace +:+ "/" +:+ rr_Name roleRef.

(** ** errors.go *)

Definition IsAlreadyExistsErr (err : goerr) : bool :=
  match status_FromError err with
  | Some code => code =? 2017
  | None => Contains (Error err) "already exists"
  end.

Definition IsTupleNotFoundErr (err : goerr) : bool :=
  match status_FromError err with
  | Some code => (code =? 2017) || (code =? 2018)
  | None => Contains (Error err) "cannot delete a tuple which does not exist" ||
            Contains (Error err) "not found"
  end.

(** ** Tuples of policy_reconciler.go *)

Definition convertTuplesForDelete (tuples : list TupleKey) : list TupleKeyWithoutCondition :=
  map wc_of tuples.

Definition tupleKeyEqual (a b : TupleKey) : bool :=
  String.eqb (User a) (User b) && String.eqb (Relation a) (Relation b) &&
  String.eqb (Object a) (Object b) && bool_decide (TupleCondition a = TupleCondition b).

(** The tuples to add and to remove. *)
Definition diffTuples (existing current : list TupleKey) : list TupleKey * list TupleKey :=
  (List.filter (λ c, negb (existsb (tupleKeyEqual c) existing)) current,
   List.filter (λ e, negb (existsb (tupleKeyEqual e) current)) existing).

Definition getTupleUser (subject : Subject) : outcome string :=
  if String.eqb (subj_Kind subject) "User" then
    if String.eqb (subj_UID subject) "" then Err (ErrText "user subject must have a UID")
    else Ok (TypeInternalUser +:+ ":" +:+ subj_Name subject)
  else if String.eqb (subj_Kind subject) "ServiceAccount" then
    if String.eqb (subj_UID subject) "" then Err (ErrText "serviceaccount subject must have a UID")
    else Ok (TypeInternalUser +:+ ":" +:+ subj_UID subject)
  else if String.eqb (subj_Kind subject) "Group" then
    if HasPrefix (subj_Name subject) "system:" then
      Ok (TypeInternalUserGroup +:+ ":" +:+ ReplaceAll (subj_Name subject) ":"%char "_"%char +:+ "#member")
    else if String.eqb (subj_UID subject) "" then Err (ErrText "group subject must have a UID")
    else Ok (TypeInternalUserGroup +:+ ":" +:+ subj_UID subject +:+ "#member")
  else Err (ErrText ("unsupported subject kind: " +:+ subj_Kind subject)).

Section service.
Context {F : Type} `{FgaClient F}.

(** The loop of [getTupleKeys]; each round reads one page. *)
Fixpoint getTupleKeys_loop (fuel : nat) (storeID : string) (tuple : ReadRequestTupleKey)
    (tupleKeys : list TupleKey) (continuationToken : string) : M F (list TupleKey) :=
  match fuel with
  | O => lift OutOfFuel
  | S fuel' =>
    resp ← wrapf "failed to read existing tuples: "
      (fga_Read (mkRead storeID continuationToken (Some 100) tuple));
    let tupleKeys' := tupleKeys ++ rd_Tuples resp in
    if String.eqb (rd_NextToken resp) "" then mret tupleKeys'
    else getTupleKeys_loop fuel' storeID tuple tupleKeys' (rd_NextToken resp)
  end.

Definition getTupleKeys (fuel : nat) (storeID : string) (tuple : ReadRequestTupleKey) : M F (list TupleKey) :=
  getTupleKeys_loop fuel storeID tuple [] "".

(** ** [DeleteTuples] (tuples.go) *)

Definition MaxTuplesPerWrite : nat := 100.
Definition onMissingIgnore : string := "ignore".
Definition onDuplicateIgnore : string := "ignore".

(** [ctx_Err] is [ctx.Err()] as the calls so far leave it; [deadline_exceeded]
    is OpenFGA's own deadline code. *)
Context (ctx_Err : F → option goerr) (deadline_exceeded : Z).

Definition codes_DeadlineExceeded : Z := 4.
Definition status_Code (err : goerr) : Z :=
  match status_FromError err with
  | Some code => code
  | None => 2
  end.

Definition delete_request (storeID modelID : string) (batch : list TupleKey) : WriteRequest :=
  mkWrite storeID modelID None (Some (mkDeletes (convertTuplesForDelete batch) onMissingIgnore)).

(** [rest] is [tuples[start:]]. *)
Fixpoint DeleteTuples_loop (fuel : nat) (storeID modelID : string) (batchSize : nat)
    (rest : list TupleKey) : M F unit :=
  match rest with
  | [] => mret tt
  | _ =>
    match fuel with
    | O => lift OutOfFuel
    | S fuel' => λ f,
      match ctx_Err f with
      | Some err => throw (ErrWrap "failed to delete tuples: " err) f
      | None =>
        let batch := take batchSize rest in
        (r ← try (fga_Write (delete_request storeID modelID batch));
         match r with
         | inl _ => DeleteTuples_loop fuel' storeID modelID batchSize (drop batchSize rest)
         | inr err => λ f',
           let code := status_Code err in
           if bool_decide (ctx_Err f' = None) && (1 <? length batch)%nat &&
              ((code =? codes_DeadlineExceeded) || (code =? deadline_exceeded))
           then DeleteTuples_loop fuel' storeID modelID (Nat.div2 (length batch)) rest f'
           else throw (ErrWrap "failed to delete tuples: " err) f'
         end) f
      end
    end
  end.

(** Every round deletes a tuple or shrinks the batch. *)
Definition DeleteTuples (storeID modelID : string) (tuples : list TupleKey) : M F unit :=
  DeleteTuples_loop (length tuples + MaxTuplesPerWrite) storeID modelID MaxTuplesPerWrite tuples.

(** ** [latestAuthorizationModel] (authorization_model_reconciler.go) *)

Definition latestAuthorizationModel (storeID : string) : M F (option AuthorizationModel) :=
  models ← wrapf "failed to list authorization models: " (fga_ReadAuthorizationModels storeID 1);
  match models with
  | [] => mret None
  | m :: _ => wrapf "failed to get authorization model: " (fga_ReadAuthorizationModel storeID (am_Id m))
  end.
End service.

(** ** model_transition.go *)

Definition mayBeModelTransition (request : WriteRequest) (err : goerr) : bool :=
  negb (String.eqb (wr_AuthorizationModelId request) "") &&
  (0 <? length (write_keys request))%nat &&
  match wr_Deletes request with None => true | Some _ => false end &&
  Contains (Error err) "Invalid tuple".

(** [relationsByType]; the last definition of a type wins. *)
Definition relationsByType (model : AuthorizationModel) : gmap string (gset string) :=
  foldl (λ m td, <[td_Type td := dom (td_Relations td)]> m) ∅ (am_TypeDefinitions model).

Definition modelSupportsTupleWrites (model : option AuthorizationModel) (tupleKeys : list TupleKey) : bool :=
  match model with
  | None => false
  | Some model =>
    forallb (λ t,
      match Cut (Object t) ":"%char with
      | (objectType, _, true) =>
        bool_decide (Relation t ∈ default ∅ (relationsByType model !! objectType))
      | _ => false
      end) tupleKeys
  end.

(** Go's [%q], for a string without quotes, backslashes and control bytes. *)
Definition quoted (s : string) : string := String "034" (s +:+ String "034" EmptyString).

Section transition.
Context {F K : Type} `{FgaClient F}.

Definition writeWithModelTransitionRetry (request : WriteRequest) : M (World F K) unit :=
  r ← try (on_fga (fga_Write request));
  match r with
  | inl _ => mret tt
  | inr err =>
    if negb (mayBeModelTransition request err) then throw err
    else
      latestModel ← wrapf "failed to read the latest authorization model after a tuple write failed: "
        (on_fga (latestAuthorizationModel (wr_StoreId request)));
      let latestModelID := match latestModel with Some m => am_Id m | None => "" end in
      if String.eqb latestModelID "" || String.eqb latestModelID (wr_AuthorizationModelId request) then throw err
      else if negb (modelSupportsTupleWrites latestModel (write_keys request)) then throw err
      else
        w ← get_world;
        (match w_provider w with
         | Some p =>
           if mp_isUpdater p && String.eqb (mp_GetModelID p) (wr_AuthorizationModelId request)
           then setModelID latestModelID else mret tt
         | None => mret tt
         end) ;;
        wrapf ("failed to write permission tuples with latest authorization model " +:+
               quoted latestModelID +:+ ": ")
          (on_fga (fga_Write (mkWrite (wr_StoreId request) latestModelID (wr_Writes request) (wr_Deletes request))))
  end.
End transition.
