(* ===== verification/TuplesFacts.v ===== *)
(** * Facts about tuple reads, diffs, deletes and writes *)

From S2P Require Import Prelude GoStrings GoErr Types Constants World Fga Tuples.
From Stdlib Require Import Ascii.

(** ** [diffTuples] *)

Lemma tupleKeyEqual_eq a b : tupleKeyEqual a b = true ↔ a = b.
Proof.
  unfold tupleKeyEqual. rewrite !andb_true_iff, !String.eqb_eq, bool_decide_eq_true.
  destruct a, b; simpl. naive_solver.
Qed.

Lemma found_elem t l : existsb (tupleKeyEqual t) l = true ↔ t ∈ l.
Proof. rewrite existsb_elem. setoid_rewrite tupleKeyEqual_eq. naive_solver. Qed.

Lemma not_found_elem t l : negb (existsb (tupleKeyEqual t) l) = true ↔ t ∉ l.
Proof. rewrite negb_true_iff, <- not_true_iff_false. by rewrite found_elem. Qed.

Lemma diffTuples_added existing current t :
  t ∈ (diffTuples existing current).1 ↔ t ∈ current ∧ t ∉ existing.
Proof. simpl. by rewrite elem_of_List_filter, not_found_elem. Qed.

Lemma diffTuples_removed existing current t :
  t ∈ (diffTuples existing current).2 ↔ t ∈ existing ∧ t ∉ current.
Proof. simpl. by rewrite elem_of_List_filter, not_found_elem. Qed.

#[export] Hint Rewrite diffTuples_added diffTuples_removed : fga.

Lemma wc_tuple_of k c : wc_of (tuple_of k c) = k.
Proof. by destruct k. Qed.

(** An object filter that stands for one object. *)
Definition names_object (o : string) : Prop := o ≠ "" ∧ type_only o = false.

Lemma type_only_app a b : type_only (a +:+ ":" +:+ b) = true → b = "".
Proof.
  induction a as [|c a IH]; simpl; [by rewrite String.eqb_eq|].
  destruct (Ascii.eqb c ":"); [|done]. by destruct a.
Qed.

Lemma names_object_intro a b : b ≠ "" → names_object (a +:+ ":" +:+ b).
Proof.
  intros Hb. split; [by destruct a|]. apply not_true_iff_false. by intros ?%type_only_app.
Qed.

Lemma names_ObjectName g k n : n ≠ "" → names_object (ObjectName g k n).
Proof.
  intros Hn. unfold ObjectName. replace (g +:+ "/" +:+ k +:+ ":" +:+ n) with ((g +:+ "/" +:+ k) +:+ ":" +:+ n)
    by by rewrite !app_assoc.
  by apply names_object_intro.
Qed.

(** The filter on a user and an object. *)
Lemma elem_of_matching_user_object ts u o t :
  u ≠ "" → names_object o →
  t ∈ matching ts (mkReadKey u "" o) ↔
  ts !! wc_of t = Some (TupleCondition t) ∧ User t = u ∧ Object t = o.
Proof.
  intros Hu [Ho Hn]. rewrite elem_of_matching. unfold matches. simpl. rewrite Hn.
  rewrite (proj2 (String.eqb_neq u "") Hu), (proj2 (String.eqb_neq o "") Ho). simpl.
  rewrite andb_true_r, andb_true_iff, !String.eqb_eq. naive_solver.
Qed.

(** ** Reading all pages *)

Section reading.
Context {F : Type} `{FgaLaws F}.

Lemma getTupleKeys_loop_step fuel s key acc tok f :
  getTupleKeys_loop (S fuel) s key acc tok f =
  match fga_Read (mkRead s tok (Some 100%Z) key) f with
  | (Ok resp, f') =>
    if String.eqb (rd_NextToken resp) "" then (Ok (acc ++ rd_Tuples resp), f')
    else getTupleKeys_loop fuel s key (acc ++ rd_Tuples resp) (rd_NextToken resp) f'
  | (Err e, f') => (Err (ErrWrap "failed to read existing tuples: " e), f')
  | (OutOfFuel, f') => (OutOfFuel, f')
  end.
Proof.
  cbn [getTupleKeys_loop]. unfold mbind, M_bind, wrapf, map_err.
  destruct (fga_Read _ f) as [[resp|e|] f']; [|done..]. by destruct (String.eqb _ _).
Qed.

Lemma getTupleKeys_loop_spec fuel s key acc tok rest f :
  fga_cursor f s key tok rest → length rest < fuel →
  (∃ e, getTupleKeys_loop fuel s key acc tok f = (Err e, f)) ∨
  getTupleKeys_loop fuel s key acc tok f = (Ok (acc ++ rest), f).
Proof.
  revert acc tok rest. induction fuel as [|fuel IH]; intros acc tok rest Hc Hf; [lia|].
  rewrite getTupleKeys_loop_step.
  pose proof (fga_Read_world (mkRead s tok (Some 100%Z) key) f) as Hw.
  pose proof (fga_Read_result (mkRead s tok (Some 100%Z) key) f) as Hr.
  destruct (fga_Read _ f) as [[resp|e|] f'] eqn:E; simpl in *; subst; [|eauto|done].
  destruct (fga_Read_page (mkRead s tok (Some 100%Z) key) f rest resp Hc) as (later & -> & Hn);
    [by rewrite E|].
  destruct Hn as [[-> ->]|(Hne & Hnil & Hc')].
  - right. simpl. by rewrite (right_id_L [] (++)).
  - destruct (String.eqb_spec (rd_NextToken resp) ""); [done|].
    destruct (IH (acc ++ rd_Tuples resp) _ _ Hc') as [?|E'].
    + rewrite length_app in Hf. destruct (rd_Tuples resp); [done|]. simpl in Hf. lia.
    + by left.
    + right. by rewrite E', <- (assoc_L (++)).
Qed.

(** Fuel for the tuples that the Read matches is enough. *)
Lemma getTupleKeys_spec fuel s key f :
  length (matching (fga_tuples f s) key) < fuel →
  (∃ e, getTupleKeys fuel s key f = (Err e, f)) ∨
  ∃ l, getTupleKeys fuel s key f = (Ok l, f) ∧ l ≡ₚ matching (fga_tuples f s) key.
Proof.
  intros Hf. destruct (fga_Read_start f s key) as (l & Hc & Hl).
  destruct (getTupleKeys_loop_spec fuel s key [] "" l f Hc) as [[e E]|E].
  - by rewrite Hl.
  - left. by exists e.
  - right. exists l. split; [exact E|done].
Qed.

Lemma matching_length ts key : length (matching ts key) ≤ size ts.
Proof.
  unfold matching. rewrite length_map. etrans; [apply List.filter_length_le|].
  by rewrite length_map_to_list.
Qed.

(** With any fuel: what is returned is all that matches. *)
Lemma getTupleKeys_reads fuel s key : reads (getTupleKeys fuel s key).
Proof.
  unfold getTupleKeys. generalize (@nil TupleKey) "". induction fuel as [|fuel IH]; intros acc tok; [done|].
  simpl. apply reads_bind; [apply reads_map_err; intros f; apply fga_Read_world|].
  intros resp. by case_match.
Qed.

Lemma getTupleKeys_loop_Ok fuel s key acc tok rest f l :
  fga_cursor f s key tok rest → (getTupleKeys_loop fuel s key acc tok f).1 = Ok l → l = acc ++ rest.
Proof.
  revert acc tok rest. induction fuel as [|fuel IH]; intros acc tok rest Hc; [done|].
  rewrite getTupleKeys_loop_step.
  pose proof (fga_Read_world (mkRead s tok (Some 100%Z) key) f) as Hw.
  destruct (fga_Read _ f) as [[resp|e|] f'] eqn:E; simpl in *; subst; [|done..].
  destruct (fga_Read_page (mkRead s tok (Some 100%Z) key) f rest resp Hc) as (later & -> & Hn);
    [by rewrite E|].
  destruct Hn as [[-> ->]|(Hne & Hnil & Hc')].
  - simpl. intros [= <-]. by rewrite (right_id_L [] (++)).
  - destruct (String.eqb_spec (rd_NextToken resp) ""); [done|].
    intros ->%(IH _ _ _ Hc'). by rewrite (assoc_L (++)).
Qed.

Lemma getTupleKeys_Ok fuel s key f l :
  (getTupleKeys fuel s key f).1 = Ok l → l ≡ₚ matching (fga_tuples f s) key.
Proof.
  intros E. destruct (fga_Read_start f s key) as (l' & Hc & <-).
  by rewrite (getTupleKeys_loop_Ok _ _ _ _ _ _ _ _ Hc E).
Qed.

(** The keys of the tuples a filter matches. *)
Lemma elem_of_matched_keys ts f k :
  k ∈ convertTuplesForDelete (matching ts f) ↔ k ∈ dom ts ∧ matches f k = true.
Proof.
  unfold convertTuplesForDelete. rewrite elem_of_map. split.
  - intros (t & Ht & ->). apply elem_of_matching in Ht as [Hk Hm]. split; [|done]. apply elem_of_dom. eauto.
  - intros [[c Hc]%elem_of_dom Hm]. exists (tuple_of k c). rewrite elem_of_matching. by destruct k.
Qed.

Lemma convertTuples_perm l1 l2 k : l1 ≡ₚ l2 → k ∈ convertTuplesForDelete l1 ↔ k ∈ convertTuplesForDelete l2.
Proof. intros HP. unfold convertTuplesForDelete. by rewrite HP. Qed.

Lemma matches_object o k : names_object o → matches (mkReadKey "" "" o) k = true ↔ wc_Object k = o.
Proof.
  intros [Ho Hn]. unfold matches. simpl. rewrite Hn, (proj2 (String.eqb_neq o "") Ho). simpl.
  rewrite String.eqb_eq. naive_solver.
Qed.

(** ** [DeleteTuples] *)

Lemma apply_delete_request s m batch (ts : tuple_map) k :
  k ∈ dom (apply_write (delete_request s m batch) ts) ↔ k ∈ dom ts ∧ k ∉ convertTuplesForDelete batch.
Proof. rewrite apply_write_dom. simpl. set_solver. Qed.

Context (ctx_Err : F → option goerr) (deadline : Z).

Lemma DeleteTuples_loop_fuel fuel s m n rest f :
  1 ≤ n → length rest + n ≤ S fuel →
  (DeleteTuples_loop ctx_Err deadline fuel s m n rest f).1 ≠ OutOfFuel.
Proof.
  revert n rest f. induction fuel as [|fuel IH]; intros n rest f Hn Hf.
  { destruct rest; [done|]. simpl in Hf. lia. }
  cbn [DeleteTuples_loop]. destruct rest as [|t rest]; [done|].
  destruct (ctx_Err f); [done|]. unfold mbind, M_bind, try.
  pose proof (fga_Write_result (delete_request s m (take n (t :: rest))) f) as Hr.
  destruct (fga_Write _ f) as [[[]|e|] f'] eqn:E; simpl in Hr; [| |done].
  - apply IH; [done|]. rewrite length_drop. simpl in *. lia.
  - destruct (bool_decide (ctx_Err f' = None) && (1 <? length (take n (t :: rest)))%nat) eqn:Eb; simpl; [|done].
    apply andb_true_iff in Eb as [_ Eb%Nat.ltb_lt].
    case_match; [|done]. clear H1.
    assert (length (take n (t :: rest)) ≤ n) as Hle by (rewrite length_take; lia).
    revert Eb Hle. generalize (length (take n (t :: rest))). intros b Hb Hle.
    pose proof (Nat.lt_div2 b ltac:(lia)) as Hlt.
    assert (1 ≤ Nat.div2 b) as Hh by (destruct b as [|[|b]]; [lia|lia|apply le_n_S, Nat.le_0_l]).
    revert Hlt Hh. generalize (Nat.div2 b). intros h Hlt Hh. simpl in Hf. apply IH; simpl; lia.
Qed.

Lemma take_drop_elem {A} n (l : list A) x : x ∈ l ↔ x ∈ take n l ∨ x ∈ drop n l.
Proof. rewrite <- (take_drop n l) at 1. by rewrite elem_of_app. Qed.

Lemma DeleteTuples_loop_Ok fuel s m n rest f f' :
  DeleteTuples_loop ctx_Err deadline fuel s m n rest f = (Ok tt, f') →
  (∀ k, k ∈ dom (fga_tuples f' s) → k ∈ dom (fga_tuples f s) ∧ k ∉ convertTuplesForDelete rest) ∧
  (∀ k, k ∈ dom (fga_tuples f s) → k ∉ convertTuplesForDelete rest → k ∈ dom (fga_tuples f' s)) ∧
  fga_models f' = fga_models f.
Proof.
  revert n rest f. induction fuel as [|fuel IH]; intros n rest f; destruct rest as [|t rest];
    cbn [DeleteTuples_loop]; try done; try by (intros [= <-]; split_and!; [set_solver|done|done]).
  destruct (ctx_Err f); [done|]. unfold mbind, M_bind, try.
  destruct (fga_Write _ f) as [[[]|e|] f1] eqn:E; [| |done].
  - intros (HA & HB & HC)%IH. apply fga_Write_Ok in E as [E ->%eq_sym]. simpl in E.
    rewrite <- HC. split_and!; [| |congruence]; unfold convertTuplesForDelete in *.
    + intros k Hk. destruct (HA k Hk) as [Hk1 Hk2]. rewrite E, apply_delete_request in Hk1.
      destruct Hk1 as [Hk1 Hk3]. split; [done|]. revert Hk2 Hk3. unfold convertTuplesForDelete.
      rewrite !elem_of_map. setoid_rewrite (take_drop_elem n (t :: rest)). naive_solver.
    + intros k Hk Hn. apply HB.
      * rewrite E, apply_delete_request. split; [done|]. intros Hin. apply Hn.
        unfold convertTuplesForDelete in *. rewrite elem_of_map in *. setoid_rewrite (take_drop_elem n (t :: rest)). naive_solver.
      * intros Hin. apply Hn. rewrite elem_of_map in *. setoid_rewrite (take_drop_elem n (t :: rest)). naive_solver.
  - case_match; [|done]. intros (HA & HB & HC)%IH. apply fga_Write_Err in E as [E Em].
    rewrite <- Em. destruct E as [E|E]; [rewrite E in *; done|]. simpl in E. rewrite E in *.
    split_and!; [| |done].
    + intros k [Hk ?]%HA. rewrite apply_delete_request in Hk. naive_solver.
    + intros k Hk Hn. apply HB; [|done]. rewrite apply_delete_request. split; [done|].
      intros Hin. apply Hn. unfold convertTuplesForDelete in *. rewrite elem_of_map in *.
      setoid_rewrite (take_drop_elem n (t :: rest)). naive_solver.
Qed.

End reading.

(** ** Batches *)

(** A server that refuses a write of more than [n] tuples. *)
Definition limit_writes {F} (c : FgaClient F) (n : nat) : FgaClient F := {|
  fga_Write req f :=
    if (n <? length (write_keys req) + length (delete_keys req))%nat
    then (Err (ErrGRPC 2028 "exceeded entity limit"), f) else @fga_Write F c req f;
  fga_Read := @fga_Read F c;
  fga_Check := @fga_Check F c;
  fga_BatchCheck := @fga_BatchCheck F c;
  fga_ReadAuthorizationModels := @fga_ReadAuthorizationModels F c;
  fga_ReadAuthorizationModel := @fga_ReadAuthorizationModel F c;
  fga_WriteAuthorizationModel := @fga_WriteAuthorizationModel F c
|}.

Lemma DeleteTuples_loop_limited {F} (c : FgaClient F) ctx_Err deadline fuel s m n rest f :
  n ≤ MaxTuplesPerWrite →
  @DeleteTuples_loop F (limit_writes c MaxTuplesPerWrite) ctx_Err deadline fuel s m n rest f =
  @DeleteTuples_loop F c ctx_Err deadline fuel s m n rest f.
Proof.
  revert n rest f. induction fuel as [|fuel IH]; intros n rest f Hn; [by destruct rest|].
  cbn [DeleteTuples_loop]. destruct rest as [|t rest]; [done|]. destruct (ctx_Err f); [done|].
  unfold mbind, M_bind, try, limit_writes. simpl fga_Write.
  assert (length (convertTuplesForDelete (take n (t :: rest))) ≤ MaxTuplesPerWrite) as Hl.
  { unfold convertTuplesForDelete. rewrite length_map, length_take. lia. }
  assert ((MaxTuplesPerWrite <? length (convertTuplesForDelete (take n (t :: rest))))%nat = false) as Hb
    by by apply Nat.ltb_ge.
  unfold delete_keys, write_keys, delete_request. cbn [wr_Writes wr_Deletes d_TupleKeys length Nat.add].
  rewrite Hb. destruct (@fga_Write F c _ f) as [[[]|e|] f1]; [by apply IH| |done].
  case_match; [|done]. apply IH. unfold convertTuplesForDelete in Hl. rewrite length_map in Hl.
  pose proof (Nat.div2_decr (length (take n (t :: rest))) MaxTuplesPerWrite) as Hd.
  destruct (length (take n (t :: rest))) as [|b]; [simpl; lia|]. simpl in *. lia.
Qed.

(** ** The model transition *)

Lemma relationsByType_lookup m ty rs :
  relationsByType m !! ty = Some rs →
  ∃ td, td ∈ am_TypeDefinitions m ∧ td_Type td = ty ∧ rs = dom (td_Relations td).
Proof.
  unfold relationsByType.
  assert (∀ tds (acc : gmap string (gset string)),
    foldl (λ m td, <[td_Type td := dom (td_Relations td)]> m) acc tds !! ty = Some rs →
    acc !! ty = Some rs ∨ ∃ td, td ∈ tds ∧ td_Type td = ty ∧ rs = dom (td_Relations td)) as HL.
  { induction tds as [|td tds IH]; intros acc; simpl; [by left|]. intros [E|(td' & ? & ?)]%IH.
    - rewrite lookup_insert in E. case_decide; [|by left]. injection E as <-. right.
      exists td. split; [left|done].
    - right. exists td'. split; [by right|done]. }
  intros [E|?]%HL; [by rewrite lookup_empty in E|done].
Qed.

(** The model defines the tuple's type and relation. *)
Definition model_defines (m : AuthorizationModel) (t : TupleKey) : Prop :=
  ∃ td name, td ∈ am_TypeDefinitions m ∧ Object t = td_Type td +:+ ":" +:+ name ∧
    is_Some (td_Relations td !! Relation t).

Lemma Cut_true s c a b : Cut s c = (a, b, true) → s = a +:+ String c b ∧ has_byte c a = false.
Proof.
  unfold Cut. destruct (Z.ltb_spec (IndexByte s c) 0); [done|]. intros [= <- <-].
  destruct (IndexByte_split s c) as (p & q & -> & Hp & E); [done|].
  rewrite E, slice_prefix, slice_from_app_byte. done.
Qed.

Lemma modelSupports_defines m ts t :
  modelSupportsTupleWrites (Some m) ts = true → t ∈ ts → model_defines m t.
Proof.
  simpl. rewrite forallb_forall. intros Hall Hin%list_elem_of_In. specialize (Hall _ Hin).
  destruct (Cut (Object t) ":"%char) as [[a b] []] eqn:E; [|done].
  apply Cut_true in E as [E _]. apply bool_decide_eq_true in Hall.
  destruct (relationsByType m !! a) as [rs|] eqn:Er; [|set_solver].
  apply relationsByType_lookup in Er as (td & Htd & <- & ->). simpl in Hall.
  exists td, b. split_and!; [done|done|by apply elem_of_dom].
Qed.

Section transition.
Context {F K : Type} `{FgaLaws F}.

Lemma latestAuthorizationModel_reads s : reads (latestAuthorizationModel s).
Proof.
  unfold latestAuthorizationModel, wrapf. solve_reads; intros f;
    [apply fga_ReadModels_world|apply fga_ReadModel_world].
Qed.

Lemma latestAuthorizationModel_fuel s f : (latestAuthorizationModel s f).1 ≠ OutOfFuel.
Proof.
  unfold latestAuthorizationModel. apply bind_fuel.
  - unfold wrapf. rewrite map_err_fuel. apply fga_ReadModels_result.
  - intros [|m l] w1 _; [done|]. unfold wrapf. rewrite map_err_fuel. apply fga_ReadModel_result.
Qed.

Lemma latestAuthorizationModel_Ok s f o :
  (latestAuthorizationModel s f).1 = Ok o → o = head (fga_models f s).
Proof.
  unfold latestAuthorizationModel, wrapf, map_err, mbind, M_bind.
  pose proof (fga_ReadModels_world s 1 f) as Hw.
  pose proof (fga_ReadModels_Ok s 1 f) as Hr.
  destruct (fga_ReadAuthorizationModels s 1 f) as [[l|e|] f1]; simpl in *; [|done..]. subst f1.
  specialize (Hr l eq_refl ltac:(lia)). destruct l as [|m l]; simpl in *.
  - by intros [= <-].
  - pose proof (fga_ReadModel_Ok s (am_Id m) f) as Hm.
    destruct (fga_ReadAuthorizationModel s (am_Id m) f) as [[o'|e|] f2]; simpl in *; [|done..].
    intros [= <-]. rewrite (Hm o' eq_refl).
    destruct (fga_models f s) as [|m' ms]; [done|]. simpl in *. injection Hr as ->.
    by rewrite String.eqb_refl.
Qed.

Lemma apply_write_twice req1 req2 (ts : tuple_map) :
  write_keys req1 = write_keys req2 → delete_keys req1 = [] → delete_keys req2 = [] →
  apply_write req1 (apply_write req2 ts) = apply_write req2 ts.
Proof.
  intros E1 E2 E3. rewrite !apply_write_eq, E1, E2, E3. simpl.
  by rewrite (assoc_L (∪)), (idemp_L (∪)).
Qed.

(** What a successful write has done, with or without the retry. *)
Lemma transition_Ok (request : WriteRequest) (w w' : World F K) :
  writeWithModelTransitionRetry request w = (Ok tt, w') →
  w_k8s w' = w_k8s w ∧
  fga_tuples (w_fga w') (wr_StoreId request) =
    apply_write request (fga_tuples (w_fga w) (wr_StoreId request)) ∧
  fga_models (w_fga w') = fga_models (w_fga w) ∧
  ((fga_Write request (w_fga w)).1 = Ok tt ∧ w_provider w' = w_provider w ∨
   wr_Deletes request = None ∧ ∃ m, head (fga_models (w_fga w) (wr_StoreId request)) = Some m ∧
     am_Id m ≠ wr_AuthorizationModelId request ∧ ∀ t, t ∈ write_keys request → model_defines m t).
Proof.
  unfold writeWithModelTransitionRetry. intros (r & w1 & Hw & Hr)%bind_Ok. destruct r as [[]|err].
  - apply try_inl, on_fga_run in Hw as (f1 & Ef & ->). run_inv. simpl.
    destruct (fga_Write_Ok _ _ _ Ef) as [-> ->]. rewrite Ef. split_and!; auto.
  - apply try_inr, on_fga_run in Hw as (f1 & Ef & ->).
    destruct (mayBeModelTransition request err) eqn:Emay; simpl in Hr; [|done].
    apply bind_Ok in Hr as (o & w2 & Ho & Hr). apply wrapf_Ok in Ho.
    apply (reads_inv _ _ _ _ (reads_on_fga _ (latestAuthorizationModel_reads _))) in Ho as [-> Ho].
    unfold on_fga in Ho. simpl in Ho. apply latestAuthorizationModel_Ok in Ho.
    destruct o as [m|]; simpl in Hr; [|done].
    destruct (String.eqb_spec (am_Id m) ""); simpl in Hr; [done|].
    destruct (String.eqb_spec (am_Id m) (wr_AuthorizationModelId request)); simpl in Hr; [done|].
    destruct (forallb _ (write_keys request)) eqn:Esup; simpl in Hr; [|done].
    apply bind_Ok in Hr as (w3 & w4 & [= <- <-] & Hr). apply bind_Ok in Hr as ([] & w5 & Hset & Hr).
    apply wrapf_Ok, on_fga_run in Hr as (f2 & Ef2 & ->). simpl.
    assert (w_fga w5 = f1 ∧ w_k8s w5 = w_k8s w) as [E1 E2].
    { simpl in Hset. destruct (w_provider w) as [p|].
      - case_in Hset; by injection Hset as <-.
      - by injection Hset as <-. }
    rewrite E1 in Ef2. destruct (fga_Write_Ok _ _ _ Ef2) as [Et Em].
    destruct (fga_Write_Err _ _ _ _ Ef) as [Et1 Em1].
    unfold mayBeModelTransition in Emay. bool_prop. destruct (wr_Deletes request) eqn:Ed; [done|].
    simpl in *. rewrite Em, Em1 in *. split_and!; [done| |done|].
    + rewrite Et. destruct Et1 as [Et1|Et1]; rewrite Et1.
      * rewrite !apply_write_eq. unfold write_keys, delete_keys. simpl. by rewrite Ed.
      * apply apply_write_twice; [done|done|]. unfold delete_keys. by rewrite Ed.
    + right. split; [done|]. exists m. split_and!; [congruence|done|]. intros t.
      by apply modelSupports_defines.
Qed.
(** What any run of a write may have done to the store. *)
Definition write_effect (ws : list TupleKey) (ds : list TupleKeyWithoutCondition) (s : string) (f f' : F) : Prop :=
  (∀ k, k ∈ dom (fga_tuples f' s) → k ∈ dom (fga_tuples f s) ∨ k ∈ map wc_of ws) ∧
  (∀ k, k ∈ dom (fga_tuples f s) → k ∉ ds → k ∈ dom (fga_tuples f' s)).

Lemma write_effect_refl ws ds s f : write_effect ws ds s f f.
Proof. split; auto. Qed.

Lemma write_effect_trans ws ds s f1 f2 f3 :
  write_effect ws ds s f1 f2 → write_effect ws ds s f2 f3 → write_effect ws ds s f1 f3.
Proof. intros [A1 A2] [B1 B2]. split; [intros k [?%A1|?]%B1; auto|auto]. Qed.

Lemma fga_Write_effect req f o f' :
  fga_Write req f = (o, f') → write_effect (write_keys req) (delete_keys req) (wr_StoreId req) f f'.
Proof.
  assert (∀ f f', fga_tuples f' (wr_StoreId req) = apply_write req (fga_tuples f (wr_StoreId req)) →
    write_effect (write_keys req) (delete_keys req) (wr_StoreId req) f f') as HA.
  { intros g g' E. split; intros k; rewrite E, apply_write_dom; tauto. }
  destruct o as [[]|e|]; intros E.
  - apply HA. by apply fga_Write_Ok.
  - apply fga_Write_Err in E as [[E|E] _]; [|by apply HA].
    split; intros k; rewrite E; auto.
  - pose proof (fga_Write_result req f) as Hr. by rewrite E in Hr.
Qed.

(** The same for the write with its retry, which always ends. *)
Lemma transition_any (request : WriteRequest) (w w' : World F K) o :
  writeWithModelTransitionRetry request w = (o, w') →
  w_k8s w' = w_k8s w ∧ o ≠ OutOfFuel ∧
  write_effect (write_keys request) (delete_keys request) (wr_StoreId request) (w_fga w) (w_fga w').
Proof.
  intros E. unfold writeWithModelTransitionRetry in E.
  assert (o ≠ OutOfFuel) as Hfuel.
  { assert (o = ((writeWithModelTransitionRetry request) w).1) as ->
      by (unfold writeWithModelTransitionRetry; by rewrite E).
    apply bind_fuel; [rewrite try_fuel; apply fga_Write_result|]. intros [[]|err] w1 _; [done|].
    head_if; [done|]. apply bind_fuel.
    { unfold wrapf. rewrite map_err_fuel, on_fga_fst. apply latestAuthorizationModel_fuel. }
    intros om w2 _. cbv zeta. head_if; [done|]. head_if; [done|]. apply bind_fuel; [done|].
    intros w3 w4 _. apply bind_fuel; [repeat case_match; done|]. intros _ w5 _.
    unfold wrapf. rewrite map_err_fuel, on_fga_fst. apply fga_Write_result. }
  apply bind_inv in E as (o1 & w1 & Hw & E).
  assert (w_k8s w1 = w_k8s w ∧ write_effect (write_keys request) (delete_keys request)
            (wr_StoreId request) (w_fga w) (w_fga w1)) as [Hk Heff].
  { unfold try, on_fga in Hw. destruct (fga_Write request (w_fga w)) as [oo f1] eqn:Ef.
    apply fga_Write_effect in Ef. destruct oo as [[]|e|]; simpl in Hw; injection Hw as _ <-; done. }
  destruct E as [(a & -> & E)|[_ ->]]; [|by split_and!].
  destruct a as [[]|err]; [injection E as <- <-; by split_and!|]. head_if_in E; [injection E as <- <-; by split_and!|].
  apply bind_reads_inv in E as [(om & _ & E)|[-> _]];
    [|by split_and!|apply reads_map_err, reads_on_fga, latestAuthorizationModel_reads].
  cbv zeta in E. head_if_in E; [injection E as <- <-; by split_and!|]. head_if_in E; [injection E as <- <-; by split_and!|].
  apply bind_inv in E as (o2 & w2 & [= <- <-] & [(a & [= <-] & E)|[_ ->]]); [|by split_and!].
  apply bind_inv in E as (o3 & w3 & Hset & E).
  assert (w_fga w3 = w_fga w1 ∧ w_k8s w3 = w_k8s w1) as [E1 E2].
  { destruct (w_provider w1); [case_in Hset|]; injection Hset as _ <-; done. }
  destruct E as [(a & -> & E)|[_ ->]]; [|rewrite E1, E2; by split_and!].
  unfold wrapf, map_err, on_fga in E.
  destruct (fga_Write (mkWrite _ _ _ _) (w_fga w3)) as [o4 f4] eqn:Ef. apply fga_Write_effect in Ef.
  rewrite E1 in Ef. unfold write_keys, delete_keys in Ef. simpl in Ef.
  fold (write_keys request) (delete_keys request) in Ef.
  assert (w' = mkWorld f4 (w_k8s w3) (w_provider w3)) as -> by by destruct o4; injection E as _ <-.
  simpl. split_and!; [congruence|done|]. by eapply write_effect_trans.
Qed.
End transition.

(** ** Theorems *)

(** The difference is exact: the added tuples are those wanted and not
    there, the removed ones those there and not wanted, so removing and adding
    turns the existing tuples into the wanted ones. *)
Theorem diffTuples_exact existing current :
  let (added, removed) := diffTuples existing current in
  (∀ t, t ∈ added ↔ t ∈ current ∧ t ∉ existing) ∧
  (∀ t, t ∈ removed ↔ t ∈ existing ∧ t ∉ current) ∧
  (∀ t, t ∈ current ↔ t ∈ added ∨ (t ∈ existing ∧ t ∉ removed)).
Proof.
  destruct (diffTuples existing current) as [added removed] eqn:E.
  pose proof (diffTuples_added existing current) as Ha.
  pose proof (diffTuples_removed existing current) as Hr. rewrite E in Ha, Hr. simpl in *.
  split_and!; [done..|]. intros t. rewrite Ha, Hr.
  destruct (decide (t ∈ existing)), (decide (t ∈ current)); tauto.
Qed.

(** Reading follows the continuation tokens to the end: it changes nothing,
    and fails or returns every tuple of the store that matches, each once. Fuel
    above the number of matching tuples is enough. *)
Theorem getTupleKeys_complete {F} `{FgaLaws F} fuel s key f :
  length (matching (fga_tuples f s) key) < fuel →
  (∃ e, getTupleKeys fuel s key f = (Err e, f)) ∨
  ∃ l, getTupleKeys fuel s key f = (Ok l, f) ∧ l ≡ₚ matching (fga_tuples f s) key.
Proof. apply getTupleKeys_spec. Qed.

(** [DeleteTuples] ends, whatever its writes answer, and when it reports
    success the store holds exactly the tuples it held before, less the given
    ones, even if writes timed out on the way with an unknown outcome. *)
Theorem DeleteTuples_deletes {F} `{FgaLaws F} ctx_Err deadline s m tuples f :
  let r := DeleteTuples ctx_Err deadline s m tuples f in
  r.1 ≠ OutOfFuel ∧
  (r.1 = Ok tt → ∀ k, k ∈ dom (fga_tuples r.2 s) ↔
     k ∈ dom (fga_tuples f s) ∧ k ∉ convertTuplesForDelete tuples).
Proof.
  simpl. split.
  - apply DeleteTuples_loop_fuel; unfold MaxTuplesPerWrite; lia.
  - unfold DeleteTuples. destruct (DeleteTuples_loop _ _ _ _ _ _ _ f) as [o f'] eqn:E. simpl.
    intros ->. apply DeleteTuples_loop_Ok in E as (HA & HB & _). naive_solver.
Qed.

(** C37: no write of [DeleteTuples] exceeds OpenFGA's limit: against a server
    that refuses larger writes it behaves exactly as against one that does not. *)
Theorem DeleteTuples_within_limit {F} (c : FgaClient F) ctx_Err deadline s m tuples f :
  @DeleteTuples F (limit_writes c MaxTuplesPerWrite) ctx_Err deadline s m tuples f =
  @DeleteTuples F c ctx_Err deadline s m tuples f.
Proof. by apply DeleteTuples_loop_limited. Qed.

(** What the retry's write is allowed by: a pure addition, pinned to a model, that was
    refused as an invalid tuple, when the store's latest model is another one that
    defines the type and the relation of every tuple added. *)
Definition retry_allowed (request : WriteRequest) (err : goerr) (m : AuthorizationModel) : Prop :=
  wr_Deletes request = None ∧ write_keys request ≠ [] ∧ wr_AuthorizationModelId request ≠ "" ∧
  Contains (Error err) "Invalid tuple" = true ∧
  am_Id m ≠ "" ∧ am_Id m ≠ wr_AuthorizationModelId request ∧ (∀ t, t ∈ write_keys request → model_defines m t).

(** The provider is moved on to the model when it still holds the refused one. *)
Definition moved_on (request : WriteRequest) (m : AuthorizationModel) (p : option ModelIDProvider) : option ModelIDProvider :=
  match p with
  | Some p => Some (if mp_isUpdater p && String.eqb (mp_GetModelID p) (wr_AuthorizationModelId request)
                    then mkProvider (am_Id m) (mp_isUpdater p) else p)
  | None => None
  end.

(** Every run of a write: the calls to Write it made. *)
Lemma transition_cases {F K} `{FgaLaws F} (request : WriteRequest) (w w' : World F K) o first f1 :
  fga_Write request (w_fga w) = (first, f1) →
  writeWithModelTransitionRetry request w = (o, w') →
  w_k8s w' = w_k8s w ∧
  ((w_fga w' = f1 ∧ w_provider w' = w_provider w ∧ (o = Ok tt ↔ first = Ok tt)) ∨
   ∃ err m second, first = Err err ∧ head (fga_models (w_fga w) (wr_StoreId request)) = Some m ∧
     retry_allowed request err m ∧
     fga_Write (mkWrite (wr_StoreId request) (am_Id m) (wr_Writes request) None) f1 = (second, w_fga w') ∧
     (o = Ok tt ↔ second = Ok tt) ∧ w_provider w' = moved_on request m (w_provider w)).
Proof.
  intros Ef E. unfold writeWithModelTransitionRetry in E.
  assert (first ≠ OutOfFuel) as Hno by (pose proof (fga_Write_result request (w_fga w)) as Hr; by rewrite Ef in Hr).
  unfold mbind at 1, M_bind, try, on_fga at 1 in E. rewrite Ef in E.
  destruct first as [[]|err|]; [injection E as <- <-; split; [done|by left]| |done]. simpl in E.
  destruct (mayBeModelTransition request err) eqn:Emay; [|injection E as <- <-; split; [done|by left]]. simpl in E.
  apply bind_reads_inv in E as [(om & Hom & E)|[-> [(e' & -> & _)|[-> _]]]];
    [|split; [done|by left]..|unfold wrapf; apply reads_map_err, reads_on_fga, latestAuthorizationModel_reads].
  rewrite wrapf_fst, on_fga_fst in Hom. apply latestAuthorizationModel_Ok in Hom. simpl in Hom.
  rewrite (proj2 (fga_Write_Err _ _ _ _ Ef)) in Hom.
  destruct om as [m|]; simpl in E; [|injection E as <- <-; split; [done|by left]].
  destruct (String.eqb_spec (am_Id m) "") as [|Hid]; simpl in E; [injection E as <- <-; split; [done|by left]|].
  destruct (String.eqb_spec (am_Id m) (wr_AuthorizationModelId request)) as [|Hne]; simpl in E;
    [injection E as <- <-; split; [done|by left]|].
  destruct (forallb _ (write_keys request)) eqn:Esup; simpl in E; [|injection E as <- <-; split; [done|by left]].
  unfold mayBeModelTransition in Emay. bool_prop. destruct (wr_Deletes request) eqn:Ed; [done|].
  assert (retry_allowed request err m) as HR.
  { split_and!; try done; [by intros En; rewrite En in *|by apply String.eqb_neq|]. intros t. by apply modelSupports_defines. }
  set (retry := mkWrite (wr_StoreId request) (am_Id m) (wr_Writes request) None) in *.
  unfold get_world, mbind, M_bind in E. simpl in E.
  destruct (fga_Write retry f1) as [second f2] eqn:E2.
  assert (o = match second with Err e => Err (ErrWrap ("failed to write permission tuples with latest authorization model " +:+
      quoted (am_Id m) +:+ ": ") e) | _ => second end ∧ w' = mkWorld f2 (w_k8s w) (moved_on request m (w_provider w))) as [Ho ->].
  { unfold moved_on. destruct (w_provider w) as [p|]; [destruct (mp_isUpdater p && _)|]; simpl in E;
      rewrite wrapf_run in E; unfold on_fga in E; simpl in E; rewrite E2 in E; by destruct second; injection E as <- <-. }
  split; [done|]. right. exists err, m, second. split_and!; try done. by rewrite Ho; destruct second as [[]|e|].
Qed.

(** C34: the retry is fail-closed. Whatever a write returns, it made one call to Write,
    whose outcome is its own, or, after that call was refused, one more, with the
    store's latest model in the place of the pinned one and otherwise the same: only
    for a pure addition refused as an invalid tuple, and only when that model defines
    every type and relation added. On success the request is carried out. Kubernetes
    is left alone. *)
Theorem transition_retry_fail_closed {F K} `{FgaLaws F} (request : WriteRequest) (w w' : World F K) o first f1 :
  fga_Write request (w_fga w) = (first, f1) →
  writeWithModelTransitionRetry request w = (o, w') →
  w_k8s w' = w_k8s w ∧ fga_models (w_fga w') = fga_models (w_fga w) ∧
  (o = Ok tt → fga_tuples (w_fga w') (wr_StoreId request) =
     apply_write request (fga_tuples (w_fga w) (wr_StoreId request))) ∧
  ((w_fga w' = f1 ∧ w_provider w' = w_provider w ∧ (o = Ok tt ↔ first = Ok tt)) ∨
   ∃ err m second, first = Err err ∧ head (fga_models (w_fga w) (wr_StoreId request)) = Some m ∧
     retry_allowed request err m ∧
     fga_Write (mkWrite (wr_StoreId request) (am_Id m) (wr_Writes request) None) f1 = (second, w_fga w') ∧
     (o = Ok tt ↔ second = Ok tt) ∧ w_provider w' = moved_on request m (w_provider w)).
Proof.
  intros Ef E.
  assert (fga_models f1 = fga_models (w_fga w)) as Hm1.
  { destruct first as [[]|e|]; [by apply fga_Write_Ok in Ef as [_ ?]|by apply fga_Write_Err in Ef as [_ ?]|].
    pose proof (fga_Write_result request (w_fga w)) as Hr. by rewrite Ef in Hr. }
  assert (o = Ok tt → fga_tuples (w_fga w') (wr_StoreId request) =
    apply_write request (fga_tuples (w_fga w) (wr_StoreId request))) as Hok by (by intros ->; apply transition_Ok in E as (_ & ? & _)).
  apply (transition_cases _ _ _ _ _ _ Ef) in E as (Hk & [(Hf & Hp & Ho)|(err & m & second & He & Hm & Hr & Hs & Ho & Hp)]).
  - split_and!; [done|by rewrite Hf|done|by left].
  - split_and!; [done| |done|right; by exists err, m, second].
    destruct second as [[]|e|]; [by apply fga_Write_Ok in Hs as [_ ->]|by apply fga_Write_Err in Hs as [_ ->]|].
    pose proof (fga_Write_result (mkWrite (wr_StoreId request) (am_Id m) (wr_Writes request) None) f1) as Hr'. by rewrite Hs in Hr'.
Qed.

(** ** Witnesses *)

Definition alice_get (object : string) : TupleKey :=
  mkTuple "iam.miloapis.com/InternalUser:alice" "7fb2c29b" object None.
Definition example_tuples : tuple_map :=
  list_to_map (map (λ o, (wc_of (alice_get o), None)) ["rm/Project:a"; "rm/Project:b"; "rm/Project:c"]).
Definition example_store : RefStore := mkRefStore example_tuples [] 1 None.

Lemma getTupleKeys_complete_witness :
  ∃ l, getTupleKeys 4 "store" (mkReadKey "" "" "") example_store = (Ok l, example_store) ∧
    l ≡ₚ matching example_tuples (mkReadKey "" "" "").
Proof.
  destruct (getTupleKeys_complete 4 "store" (mkReadKey "" "" "") example_store) as [[e E]|E].
  - vm_compute. lia.
  - exfalso. revert E. apply outcome_not_err. vm_compute. reflexivity.
  - exact E.
Defined.

Lemma DeleteTuples_deletes_witness :
  (wc_of (alice_get "rm/Project:a")) ∉
    dom (rs_tuples (DeleteTuples (λ _, None) 4004 "store" "m1" [alice_get "rm/Project:a"] example_store).2).
Proof.
  destruct (DeleteTuples_deletes (λ _, None) 4004 "store" "m1" [alice_get "rm/Project:a"] example_store)
    as [_ H].
  intros Hin. apply (H eq_refl) in Hin as [_ []]. left.
Defined.

(** *** A model transition: the server refuses tuples the pinned model does not define *)

Definition strict_Write (req : WriteRequest) : M RefStore unit := λ f,
  if modelSupportsTupleWrites (find (λ m, String.eqb (am_Id m) (wr_AuthorizationModelId req)) (rs_models f)) (write_keys req)
  then fga_Write req f else (Err (ErrText "Invalid tuple: relation not found"), f).

Definition strict_client : FgaClient RefStore := {|
  fga_Write := strict_Write;
  fga_Read := fga_Read;
  fga_Check := fga_Check;
  fga_BatchCheck := fga_BatchCheck;
  fga_ReadAuthorizationModels := fga_ReadAuthorizationModels;
  fga_ReadAuthorizationModel := fga_ReadAuthorizationModel;
  fga_WriteAuthorizationModel := fga_WriteAuthorizationModel
|}.

Definition strict_laws : @FgaLaws RefStore strict_client.
Proof.
  refine (@Build_FgaLaws RefStore strict_client
    (@fga_tuples _ _ RefStore_laws) (@fga_models _ _ RefStore_laws) (@fga_cursor _ _ RefStore_laws)
    (@fga_allows _ _ RefStore_laws) _ _ _ (@fga_Read_world _ _ RefStore_laws)
    (@fga_Read_result _ _ RefStore_laws) (@fga_Read_start _ _ RefStore_laws) (@fga_Read_page _ _ RefStore_laws)
    (@fga_Check_world _ _ RefStore_laws) (@fga_Check_result _ _ RefStore_laws) (@fga_Check_Ok _ _ RefStore_laws)
    (@fga_BatchCheck_world _ _ RefStore_laws) (@fga_BatchCheck_result _ _ RefStore_laws)
    (@fga_BatchCheck_Ok _ _ RefStore_laws) (@fga_BatchCheck_all _ _ RefStore_laws)
    (@fga_ReadModels_world _ _ RefStore_laws) (@fga_ReadModels_result _ _ RefStore_laws)
    (@fga_ReadModels_Ok _ _ RefStore_laws) (@fga_ReadModel_world _ _ RefStore_laws)
    (@fga_ReadModel_result _ _ RefStore_laws) (@fga_ReadModel_Ok _ _ RefStore_laws)
    (@fga_WriteModel_Ok _ _ RefStore_laws) (@fga_WriteModel_Err _ _ RefStore_laws)
    (@fga_WriteModel_result _ _ RefStore_laws));
    unfold fga_Write, strict_client, strict_Write.
  - intros req f f'. case_match; [apply fga_Write_Ok|done].
  - intros req f e f'. case_match; [apply fga_Write_Err|]. intros [= _ <-]. by split; [left|].
  - intros req f. case_match; [apply fga_Write_result|done].
Defined.

(** The model pinned defines no relation; the latest one does. *)
Definition example_model (id : string) (relations : gmap string Userset) : AuthorizationModel :=
  mkModel id "1.2" [mkTypeDef "rm/Project" (mkMetadata ∅ "" "") relations] [].
Definition example_transition : World RefStore unit :=
  mkWorld (mkRefStore example_tuples [example_model "m2" {[ "7fb2c29b" := Userset_This None ]}; example_model "m1" ∅] 1 None) tt
    (Some (mkProvider "m1" true)).
Definition example_write : WriteRequest :=
  mkWrite "store" "m1" (Some (mkWrites [alice_get "rm/Project:d"] onDuplicateIgnore)) None.
Definition example_retry := @writeWithModelTransitionRetry RefStore unit strict_client example_write example_transition.

Lemma transition_retry_fail_closed_witness :
  example_retry.1 = Ok tt ∧ wc_of (alice_get "rm/Project:d") ∈ dom (rs_tuples (w_fga example_retry.2)) ∧
  ∃ err m, (@fga_Write RefStore strict_client example_write (w_fga example_transition)).1 = Err err ∧
    retry_allowed example_write err m ∧ w_provider example_retry.2 = Some (mkProvider "m2" true).
Proof.
  assert (example_retry.1 = Ok tt) as Eo by (vm_compute; reflexivity). split; [exact Eo|].
  destruct (@transition_retry_fail_closed RefStore unit strict_client strict_laws example_write example_transition
    example_retry.2 example_retry.1 (Err (ErrText "Invalid tuple: relation not found")) (w_fga example_transition))
    as (_ & _ & HA & HC).
  - vm_compute. reflexivity.
  - apply surjective_pairing.
  - split.
    + apply (bool_decide_unpack _). vm_compute. exact I.
    + destruct HC as [(_ & _ & HN)|(err & m & second & Ef & Hm & HR & _ & _ & HP)].
      * apply HN in Eo. discriminate Eo.
      * exists err, m. split; [injection Ef as <-; vm_compute; reflexivity|]. split; [exact HR|].
        injection Hm as <-. exact HP.
Defined.
