(* ===== verification/PolicyReconciler.v ===== *)
(** * [internal/openfga/policy_reconciler.go]: a PolicyBinding's tuples

    Each binding manages one tuple per subject and permission on its target.
    [reconcilePolicy] makes the store hold the tuples it wants, [DeletePolicy]
    removes them; both keep what a sibling binding on the same target wants. *)

From S2P Require Import Prelude GoStrings GoErr Types Constants Permissions Hash ResourceGraph.
From S2P Require Import World Fga Tuples.
From Stdlib Require Import Ascii.

(** The reconciler's fields; [fuel] bounds the pages read from OpenFGA. *)
Record PolicyReconciler (F K : Type) := mkPolicyReconciler {
  pr_EnableSubresourceAuthorization : bool;
  pr_StoreID : string;
  pr_TargetGuard : option (M (World F K) string);
  pr_fuel : nat
}.
Arguments pr_EnableSubresourceAuthorization {_ _}.
Arguments pr_StoreID {_ _}.
Arguments pr_TargetGuard {_ _}.
Arguments pr_fuel {_ _}.

Definition roles_resource : string := "roles.iam.miloapis.com".

(** The key of the sibling set: the tuple's three fields. *)
Definition sibling_key (t : TupleKey) : string := User t +:+ "|" +:+ Relation t +:+ "|" +:+ Object t.
Definition subject_key (s : Subject) : string := subj_Kind s +:+ "/" +:+ subj_Name s.

Definition buildPermissionTuples (enableSubresources : bool) (binding : PolicyBinding) (role : Role)
    (targetObject : string) (validPerms : gset string) : outcome (list TupleKey) :=
  let effectivePerms :=
    match rst_EffectivePermissions (role_Status role) with
    | [] => rs_IncludedPermissions (role_Spec role)
    | perms => perms
    end in
  (fix subjects l :=
     match l with
     | [] => Ok []
     | subject :: l' =>
       tupleUser ← outcome_map_err
         (ErrWrap ("failed to get tuple user for subject " +:+ subj_Name subject +:+ ": "))
         (getTupleUser subject);
       let tuples := flat_map (λ permName,
         let (p, ok) := Parse permName in
         if ok && negb (String.eqb (p_Subresource p) "") && negb enableSubresources then []
         else if (enableSubresources || negb (bool_decide (validPerms = ∅)))
                 && negb (bool_decide (permName ∈ validPerms)) then []
         else [mkTuple tupleUser (hashPermission permName) targetObject None]) effectivePerms in
       rest ← subjects l';
       Ok (tuples ++ rest)
     end) (pbs_Subjects (pb_Spec binding)).

(** The permissions of a resource type: its entry, or, for a type that has none,
    every type's. *)
Definition permSetFor (hierarchicalPermissions : gmap string (list string)) (targetResourceType : string)
    : gset string :=
  match hierarchicalPermissions !! targetResourceType with
  | Some perms => list_to_set perms
  | None => list_to_set (concat (map snd (map_to_list hierarchicalPermissions)))
  end.

Section reconciler.
Context {F K : Type} `{FgaClient F} `{KClient K Role} `{KClient K PolicyBinding}
  `{KClient K ProtectedResource} `{ApiErrors}.
Context (r : PolicyReconciler F K).
Abbreviation Mw := (M (World F K)).

Definition fetchRole (binding : PolicyBinding) : Mw Role :=
  let ref := pbs_RoleRef (pb_Spec binding) in
  let roleNamespace := rr_Namespace ref in
  if String.eqb roleNamespace "" then
    throw (ErrText ("RoleRef.Namespace is required but was not provided for Role '" +:+ rr_Name ref +:+
                    "' in PolicyBinding '" +:+ om_Namespace (pb_Meta binding) +:+ "/" +:+
                    om_Name (pb_Meta binding) +:+ "'"))
  else
    role ← map_err (λ err,
        if IsNotFound err then ErrWrap ("role '" +:+ rr_Name ref +:+ "' not found: ") err
        else ErrWrap ("failed to get role '" +:+ rr_Name ref +:+ "': ") err)
      (on_k8s (k_Get (mkNN roleNamespace (rr_Name ref))));
    match om_DeletionTimestamp (role_Meta role) with
    | Some _ => if pr_EnableSubresourceAuthorization r
                then throw (NewNotFound roles_resource (om_Name (role_Meta role)))
                else mret role
    | None => mret role
    end.

(** [switch] of getHierarchicalPermissionsForSelector. *)
Definition selector_type (selector : ResourceSelector) : outcome (string * string) :=
  match sel_ResourceRef selector with
  | Some ref => Ok (ref_APIGroup ref, ref_Kind ref)
  | None =>
    match sel_ResourceKind selector with
    | Some rk => Ok (rk_APIGroup rk, rk_Kind rk)
    | None => Err selector_error
    end
  end.

Definition getHierarchicalPermissionsForSelector (selector : ResourceSelector) : Mw (gset string) :=
  ak ← lift (selector_type selector);
  prList ← wrapf "failed to list ProtectedResources: " (on_k8s k_List);
  resourceGraph ← wrapf "failed to build resource graph: "
    (lift (getResourceGraph prList (pr_EnableSubresourceAuthorization r)));
  mret (permSetFor (calculateHierarchicalPermissions resourceGraph) (ak.1 +:+ "/" +:+ ak.2)).

Definition getExistingTuples (binding : PolicyBinding) (targetObject : string) : Mw (list TupleKey) :=
  append_loopM (λ subject,
    tupleUser ← wrapf ("failed to get tuple user for subject " +:+ subj_Name subject +:+ ": ")
      (lift (getTupleUser subject));
    wrapf ("failed to get existing tuples for subject " +:+ subj_Name subject +:+ ": ")
      (on_fga (getTupleKeys (pr_fuel r) (pr_StoreID r) (mkReadKey tupleUser "" targetObject))))
    (pbs_Subjects (pb_Spec binding)).

(** The bindings of the target that may share a tuple with [binding]. *)
Definition is_sibling (binding other : PolicyBinding) : bool :=
  match om_DeletionTimestamp (pb_Meta other) with
  | Some _ => false
  | None =>
    negb (String.eqb (om_Namespace (pb_Meta other)) (om_Namespace (pb_Meta binding)) &&
          String.eqb (om_Name (pb_Meta other)) (om_Name (pb_Meta binding))) &&
    existsb (λ s, bool_decide (subject_key s ∈ map subject_key (pbs_Subjects (pb_Spec binding))))
      (pbs_Subjects (pb_Spec other))
  end.

Definition siblingDesiredTuples (binding : PolicyBinding) (targetObject : string)
    (validPerms : gset string) : Mw (list TupleKey) :=
  siblingBindings ← wrapf "failed to list sibling PolicyBindings: "
    (on_k8s (k_ListField TargetObjectIndexField targetObject));
  append_loopM (λ other,
    if negb (is_sibling binding other) then mret []
    else
      role ← try (fetchRole other);
      match role with
      | inr err =>
        if IsNotFound err then mret []
        else throw (ErrWrap ("failed to fetch role for sibling binding " +:+
                             om_Namespace (pb_Meta other) +:+ "/" +:+ om_Name (pb_Meta other) +:+ ": ") err)
      | inl role =>
        match buildPermissionTuples (pr_EnableSubresourceAuthorization r) other role targetObject validPerms with
        | Ok tuples => mret tuples
        | Err _ => mret []
        | OutOfFuel => lift OutOfFuel
        end
      end) siblingBindings.

Definition DeletePolicy (binding : PolicyBinding) : Mw unit :=
  targetObject ← wrapf "failed to get target object from resource selector: "
    (lift (TargetObjectFromResourceSelector (pbs_ResourceSelector (pb_Spec binding))));
  existingTuples ← wrapf "failed to retrieve existing direct tuples for deletion: "
    (getExistingTuples binding targetObject);
  match existingTuples with
  | [] => mret tt
  | _ =>
    validPerms ← wrapf "failed to compute hierarchical permissions: "
      (getHierarchicalPermissionsForSelector (pbs_ResourceSelector (pb_Spec binding)));
    stillDesired ← wrapf "failed to compute sibling desired tuples: "
      (siblingDesiredTuples binding targetObject validPerms);
    match (diffTuples existingTuples stillDesired).2 with
    | [] => mret tt
    | toDelete =>
      modelID ← getModelID;
      wrapf "failed to delete policy tuples: " (writeWithModelTransitionRetry
        (mkWrite (pr_StoreID r) modelID None
          (Some (mkDeletes (convertTuplesForDelete toDelete) onMissingIgnore))))
    end
  end.

Definition checkTarget (added : list TupleKey) : Mw unit :=
  match added, pr_TargetGuard r with
  | [], _ => mret tt
  | _, None => mret tt
  | _, Some guard =>
    reason ← wrapf "failed to read the binding's target: " guard;
    if negb (String.eqb reason "") then throw (TargetNotHeldError reason) else mret tt
  end.

Definition writeGuarded (writeReq : WriteRequest) (added : list TupleKey) : Mw unit :=
  checkTarget added ;;
  wrapf "failed to write permission tuples: " (writeWithModelTransitionRetry writeReq).

(** The removals less the tuples siblings want. *)
Definition filterSiblings (removed siblingTuples : list TupleKey) : list TupleKey :=
  match siblingTuples with
  | [] => removed
  | _ => List.filter (λ t, negb (bool_decide (sibling_key t ∈ map sibling_key siblingTuples))) removed
  end.

Definition reconcilePolicy (binding : PolicyBinding) : Mw unit :=
  let selector := pbs_ResourceSelector (pb_Spec binding) in
  targetObject ← wrapf "failed to get target object from resource selector: "
    (lift (TargetObjectFromResourceSelector selector));
  validPerms ← wrapf "failed to compute hierarchical permissions: "
    (getHierarchicalPermissionsForSelector selector);
  fetched ← try (fetchRole binding);
  match fetched with
  | inr err =>
    (if pr_EnableSubresourceAuthorization r && IsNotFound err
     then wrapf "failed to revoke missing role permissions: " (DeletePolicy binding)
     else mret tt) ;;
    throw (ErrWrap "failed to fetch role: " err)
  | inl role =>
    desired ← wrapf "failed to build permission tuples: "
      (lift (buildPermissionTuples (pr_EnableSubresourceAuthorization r) binding role targetObject validPerms));
    existingTuples ← wrapf "failed to retrieve existing tuples: "
      (getExistingTuples binding targetObject);
    let (added, removed) := diffTuples existingTuples desired in
    removed ← match removed with
              | [] => mret []
              | _ =>
                siblingTuples ← wrapf "failed to compute sibling desired tuples: "
                  (siblingDesiredTuples binding targetObject validPerms);
                mret (filterSiblings removed siblingTuples)
              end;
    modelID ← getModelID;
    let writes := match added with [] => None | _ => Some (mkWrites added onDuplicateIgnore) end in
    let deletes := match removed with
                   | [] => None
                   | _ => Some (mkDeletes (convertTuplesForDelete removed) onMissingIgnore)
                   end in
    match writes, deletes with
    | None, None => mret tt
    | _, _ => writeGuarded (mkWrite (pr_StoreID r) modelID writes deletes) added
    end
  end.

Definition ReconcilePolicy (binding : PolicyBinding) : Mw unit :=
  wrapf "reconciliation failed: " (reconcilePolicy binding).
End reconciler.
