(* ===== verification/PolicyReconcilerFacts.v ===== *)
(** * Facts about the policy reconciler *)

From S2P Require Import Prelude GoStrings GoErr Types Constants Permissions Hash ResourceGraph.
From S2P Require Import ResourceGraphFacts World Fga Tuples TuplesFacts PolicyReconciler.
From Stdlib Require Import Ascii.

(** ** The wanted tuples *)

(** The filter of [buildPermissionTuples]. *)
Definition granted (en : bool) (validPerms : gset string) (perm : string) : Prop :=
  ((Parse perm).2 = true → p_Subresource (Parse perm).1 ≠ "" → en = true) ∧
  (en = true ∨ validPerms ≠ ∅ → perm ∈ validPerms).

Definition effective_perms (role : Role) : list string :=
  match rst_EffectivePermissions (role_Status role) with
  | [] => rs_IncludedPermissions (role_Spec role)
  | perms => perms
  end.

(** [u] is the OpenFGA user of one of the binding's subjects. *)
Definition binding_user (binding : PolicyBinding) (u : string) : Prop :=
  ∃ s, s ∈ pbs_Subjects (pb_Spec binding) ∧ getTupleUser s = Ok u.

Definition wanted (en : bool) (binding : PolicyBinding) (role : Role) (target : string)
    (validPerms : gset string) (t : TupleKey) : Prop :=
  binding_user binding (User t) ∧ Object t = target ∧ TupleCondition t = None ∧
  ∃ perm, perm ∈ effective_perms role ∧ granted en validPerms perm ∧ Relation t = hashPermission perm.

Lemma granted_filter en valid perm u target t :
  t ∈ (let (p, ok) := Parse perm in
       if ok && negb (String.eqb (p_Subresource p) "") && negb en then []
       else if (en || negb (bool_decide (valid = ∅))) && negb (bool_decide (perm ∈ valid)) then []
       else [mkTuple u (hashPermission perm) target None]) ↔
  granted en valid perm ∧ t = mkTuple u (hashPermission perm) target None.
Proof.
  unfold granted. destruct (Parse perm) as [p ok]. simpl.
  destruct ok, (String.eqb_spec (p_Subresource p) ""), en; simpl;
    try (destruct (decide (perm ∈ valid)) as [Hp|Hp];
         [rewrite (bool_decide_eq_true_2 _ Hp)|rewrite (bool_decide_eq_false_2 _ Hp)]);
    try (destruct (decide (valid = ∅)) as [He|He];
         [rewrite (bool_decide_eq_true_2 _ He)|rewrite (bool_decide_eq_false_2 _ He)]); simpl;
    rewrite ?list_elem_of_singleton, ?elem_of_nil; naive_solver.
Qed.

Lemma buildPermissionTuples_Ok en binding role target valid ts :
  buildPermissionTuples en binding role target valid = Ok ts →
  (∀ s, s ∈ pbs_Subjects (pb_Spec binding) → ∃ u, getTupleUser s = Ok u) ∧
  ∀ t, t ∈ ts ↔ wanted en binding role target valid t.
Proof.
  unfold buildPermissionTuples, wanted, binding_user. fold (effective_perms role).
  generalize (pbs_Subjects (pb_Spec binding)). intros l. revert ts.
  induction l as [|s l IH]; intros ts.
  - intros [= <-]. split; [by intros ? ?%elem_of_nil|]. set_solver.
  - intros (u & Hu & H)%outcome_bind_Ok. apply outcome_map_err_Ok in Hu.
    apply outcome_bind_Ok in H as (rest & Hrest & [= <-]). apply IH in Hrest as [HA HB]. split.
    { intros s' [->|Hs]%elem_of_cons; eauto. }
    intros t. rewrite elem_of_app, HB, elem_of_flat_map. setoid_rewrite granted_filter.
    rewrite ex_elem_cons. rewrite Hu. split.
    + intros [(perm & Hp & Hg & ->)|((s' & Hs & E) & Ho & Hc & Hp)]; simpl.
      * split_and!; [by left|done|done|eauto].
      * split_and!; [|done..]. right. eauto.
    + intros ([E|(s' & Hs & E)] & Ho & Hc & perm & Hp & Hg & Hr).
      * left. exists perm. split_and!; [done..|]. injection E as E. destruct t; simpl in *; congruence.
      * right. split_and!; eauto.
Qed.

Lemma getTupleUser_nonempty s u : getTupleUser s = Ok u → u ≠ "".
Proof.
  unfold getTupleUser. intros E ->. repeat case_in E; discriminate E.
Qed.

(** The selector of a resource gives its name. *)
Definition names_target (sel : ResourceSelector) : Prop :=
  match sel_ResourceRef sel with Some ref => ref_Name ref ≠ "" | None => True end.

Lemma target_names_object sel target :
  names_target sel → TargetObjectFromResourceSelector sel = Ok target → names_object target.
Proof.
  unfold names_target, TargetObjectFromResourceSelector, ObjectName.
  destruct (sel_ResourceRef sel) as [ref|].
  - intros Hn [= <-]. by apply names_ObjectName.
  - intros _. destruct (sel_ResourceKind sel) as [rk|]; [|done]. intros [= <-].
    apply (names_object_intro TypeRoot). by destruct (rk_APIGroup rk).
Qed.

Section facts.
Context {F K : Type} `{FgaLaws F} `{KReadLaws K Role} `{KReadLaws K PolicyBinding}
  `{KReadLaws K ProtectedResource} `{ApiErrors}.
Context (r : PolicyReconciler F K).
Implicit Types w : World F K.

(** ** What only reads *)

Hint Resolve getTupleKeys_reads : reads.

Lemma reads_fetchRole b : reads (fetchRole r b).
Proof. unfold fetchRole, wrapf. solve_reads. Qed.

Lemma reads_getHierarchical sel : reads (getHierarchicalPermissionsForSelector r sel).
Proof. unfold getHierarchicalPermissionsForSelector, wrapf. solve_reads. Qed.

Lemma reads_getExistingTuples b target : reads (getExistingTuples r b target).
Proof. unfold getExistingTuples, wrapf. solve_reads. Qed.

Lemma reads_siblingDesiredTuples b target valid : reads (siblingDesiredTuples r b target valid).
Proof.
  unfold siblingDesiredTuples, wrapf. solve_reads. apply reads_fetchRole.
Qed.

Hint Resolve reads_fetchRole reads_getHierarchical reads_getExistingTuples reads_siblingDesiredTuples : reads.

(** ** The existing tuples *)

(** The tuples in the store, with their conditions. *)
Definition in_store w (t : TupleKey) : Prop :=
  fga_tuples (w_fga w) (pr_StoreID r) !! wc_of t = Some (TupleCondition t).

Definition existing w (binding : PolicyBinding) (target : string) (t : TupleKey) : Prop :=
  in_store w t ∧ binding_user binding (User t) ∧ Object t = target.

Lemma getExistingTuples_Ok binding target w l :
  names_object target → (getExistingTuples r binding target w).1 = Ok l →
  ∀ t, t ∈ l ↔ existing w binding target t.
Proof.
  intros Ht HE t. apply append_loopM_reads in HE as [HA HE]; [|solve_reads].
  rewrite HE. unfold existing, binding_user. split.
  - intros (s & ts & Hs & E & Hin). apply bind_fst_reads in E as (u & Eu & E); [|solve_reads].
    rewrite wrapf_fst, lift_fst in Eu. rewrite wrapf_fst, on_fga_fst in E.
    apply getTupleKeys_Ok in E. apply getTupleUser_nonempty in Eu as Hne.
    rewrite E, elem_of_matching_user_object in Hin by done. destruct Hin as (? & <- & ?). eauto.
  - intros (Hin & (s & Hs & Eu) & Ho). destruct (HA s Hs) as [ts E]. exists s, ts. split_and!; [done..|].
    apply bind_fst_reads in E as (u & Eu' & E); [|solve_reads].
    rewrite wrapf_fst, lift_fst in Eu'. rewrite wrapf_fst, on_fga_fst in E.
    apply getTupleKeys_Ok in E. apply getTupleUser_nonempty in Eu as Hne.
    rewrite Eu in Eu'. injection Eu' as <-. by rewrite E, elem_of_matching_user_object.
Qed.

(** ** What siblings want *)

Definition sibling_wants w (binding : PolicyBinding) (target : string) (valid : gset string) (t : TupleKey) : Prop :=
  ∃ other key role, k_view (w_k8s w) !! key = Some other ∧
    target ∈ k_index (K:=K) TargetObjectIndexField other ∧
    is_sibling binding other = true ∧
    (fetchRole r other w).1 = Ok role ∧
    (∀ s, s ∈ pbs_Subjects (pb_Spec other) → ∃ u, getTupleUser s = Ok u) ∧
    wanted (pr_EnableSubresourceAuthorization r) other role target valid t.

Lemma buildPermissionTuples_users en binding role target valid :
  (∀ s, s ∈ pbs_Subjects (pb_Spec binding) → ∃ u, getTupleUser s = Ok u) →
  ∃ ts, buildPermissionTuples en binding role target valid = Ok ts.
Proof.
  unfold buildPermissionTuples. generalize (pbs_Subjects (pb_Spec binding)). intros l.
  induction l as [|s l IH]; intros Hs; [eauto|]. destruct (Hs s) as [u Hu]; [left|]. rewrite Hu.
  destruct IH as [ts E]; [intros s' Hs'; apply Hs; by right|].
  cbn [outcome_map_err mbind outcome_bind]. rewrite E. simpl. eauto.
Qed.

Lemma siblingDesiredTuples_Ok binding target valid w l :
  (siblingDesiredTuples r binding target valid w).1 = Ok l →
  ∀ t, t ∈ l ↔ sibling_wants w binding target valid t.
Proof.
  intros HE t. apply bind_fst_reads in HE as (bs & Hbs & HE); [|solve_reads].
  rewrite wrapf_fst, on_k8s_fst in Hbs. apply append_loopM_reads in HE as [HA HB]; [|solve_reads].
  rewrite HB. unfold sibling_wants. pose proof (k_ListField_Ok _ _ _ _ Hbs) as Hin. split.
  - intros (other & ts & Ho & E & Ht). apply Hin in Ho as [[key Hkey] Hidx].
    destruct (is_sibling binding other) eqn:Hsib; simpl in E; [|injection E as <-; by apply elem_of_nil in Ht].
    apply bind_fst_reads in E as (role & Hrole & E); [|solve_reads]. apply try_fst in Hrole.
    destruct role as [role|err].
    + destruct (buildPermissionTuples _ other role target valid) eqn:Eb; [| |done].
      * injection E as ->. apply buildPermissionTuples_Ok in Eb as [Hu Hw]. apply Hw in Ht. eauto 10.
      * injection E as <-. by apply elem_of_nil in Ht.
    + case_in E; [|done]. injection E as <-. by apply elem_of_nil in Ht.
  - intros (other & key & role & Hkey & Hidx & Hsib & Hrole & Hu & Hw).
    assert (other ∈ bs) as Ho by (apply Hin; eauto).
    destruct (HA other Ho) as [ts E]. exists other, ts. split_and!; [done..|].
    rewrite Hsib in E. simpl in E. apply bind_fst_reads in E as (role' & Hrole' & E); [|solve_reads].
    apply try_fst in Hrole'. destruct role' as [role'|]; [|congruence].
    assert (role' = role) as -> by congruence.
    destruct (buildPermissionTuples_users (pr_EnableSubresourceAuthorization r) other role target valid Hu)
      as [ts' Eb].
    rewrite Eb in E. injection E as <-. apply buildPermissionTuples_Ok in Eb as [_ Eb]. by apply Eb.
Qed.
(** ** The runs of [DeletePolicy] and [reconcilePolicy] *)

(** Steps over a read at the head of a run [E]; a failing read ends in [tac]. *)
Tactic Notation "read_step" hyp(E) simple_intropattern(a) simple_intropattern(Ha) tactic(tac) :=
  apply bind_reads_inv in E as [(a & Ha & E)|[-> [(? & -> & ?)|[-> ?]]]];
    [rewrite ?wrapf_fst, ?lift_fst in Ha|tac|tac|unfold wrapf; solve_reads].

(** The deletion's reads, and its write, when one is made. *)
Lemma DeletePolicy_cases binding w o w' :
  DeletePolicy r binding w = (o, w') →
  (w' = w ∧ ∀ a, o ≠ Ok a) ∨
  ∃ target ex, TargetObjectFromResourceSelector (pbs_ResourceSelector (pb_Spec binding)) = Ok target ∧
    (getExistingTuples r binding target w).1 = Ok ex ∧
    (ex = [] ∧ w' = w ∨
     ∃ valid still,
       (getHierarchicalPermissionsForSelector r (pbs_ResourceSelector (pb_Spec binding)) w).1 = Ok valid ∧
       (siblingDesiredTuples r binding target valid w).1 = Ok still ∧
       ((diffTuples ex still).2 = [] ∧ w' = w ∨
        ∃ req p, wr_StoreId req = pr_StoreID r ∧ write_keys req = [] ∧
          delete_keys req = convertTuplesForDelete (diffTuples ex still).2 ∧
          wrapf p (writeWithModelTransitionRetry req) w = (o, w'))).
Proof.
  intros E. unfold DeletePolicy in E.
  read_step E target Ht (by left). read_step E ex Hex (by left).
  destruct ex as [|t0 ex0].
  { right. exists target, []. split_and!; [done..|]. left. by apply mret_run in E as [_ ->]. }
  read_step E valid Hv (by left). read_step E still Hs (by left).
  right. exists target, (t0 :: ex0). split_and!; [done..|]. right. exists valid, still. split_and!; [done..|].
  destruct (diffTuples (t0 :: ex0) still).2 as [|d ds] eqn:Ed.
  { left. by apply mret_run in E as [_ ->]. }
  right. pose proof (bind_Ok_l _ _ _ _ _ _ E eq_refl) as E'. eexists _, _.
  split_and!; [| | |exact E']; done.
Qed.

(** The tuples to remove, less those a sibling wants. *)
Definition removed_spec (ex desired siblings removed : list TupleKey) : Prop :=
  ∀ t, (t ∈ removed) ↔ (t ∈ ex) ∧ (t ∉ desired) ∧
    ∀ t', t' ∈ siblings → sibling_key t' ≠ sibling_key t.

Lemma filterSiblings_spec ex desired siblings :
  removed_spec ex desired siblings (filterSiblings (diffTuples ex desired).2 siblings).
Proof.
  intros t. unfold filterSiblings. destruct siblings as [|s ss].
  - rewrite diffTuples_removed. split; [|tauto]. intros [? ?]. split_and!; [done..|].
    by intros ? ?%elem_of_nil.
  - rewrite elem_of_List_filter, diffTuples_removed, negb_true_iff, bool_decide_eq_false, elem_of_map.
    naive_solver.
Qed.

Lemma reconcilePolicy_cases binding w o w' :
  reconcilePolicy r binding w = (o, w') →
  (w' = w ∧ ∀ a, o ≠ Ok a) ∨
  (∃ err o2, (fetchRole r binding w).1 = Err err ∧ IsNotFound err = true ∧
     pr_EnableSubresourceAuthorization r = true ∧ DeletePolicy r binding w = (o2, w') ∧ ∀ a, o ≠ Ok a) ∨
  ∃ target valid role desired ex siblings removed,
    TargetObjectFromResourceSelector (pbs_ResourceSelector (pb_Spec binding)) = Ok target ∧
    (getHierarchicalPermissionsForSelector r (pbs_ResourceSelector (pb_Spec binding)) w).1 = Ok valid ∧
    (fetchRole r binding w).1 = Ok role ∧
    buildPermissionTuples (pr_EnableSubresourceAuthorization r) binding role target valid = Ok desired ∧
    (getExistingTuples r binding target w).1 = Ok ex ∧
    ((diffTuples ex desired).2 = [] ∧ siblings = [] ∨ (siblingDesiredTuples r binding target valid w).1 = Ok siblings) ∧
    removed_spec ex desired siblings removed ∧
    ((diffTuples ex desired).1 = [] ∧ removed = [] ∧ o = Ok tt ∧ w' = w ∨
     ((diffTuples ex desired).1 ≠ [] ∨ removed ≠ []) ∧
     ∃ req, wr_StoreId req = pr_StoreID r ∧ write_keys req = (diffTuples ex desired).1 ∧
       delete_keys req = convertTuplesForDelete removed ∧
       writeGuarded r req (diffTuples ex desired).1 w = (o, w')).
Proof.
  intros E. unfold reconcilePolicy in E.
  read_step E target Ht (by left). read_step E valid Hv (by left).
  read_step E fetched Hf (by left). apply try_fst in Hf. destruct fetched as [role|err].
  2:{ apply bind_inv in E as (o2 & w2 & E1 & E2).
      destruct (pr_EnableSubresourceAuthorization r && IsNotFound err) eqn:Eb; cycle 1.
      { injection E1 as <- <-. left. destruct E2 as [(a & _ & E2)|[? ->]]; [|done].
        injection E2 as <- <-. done. }
      right; left. apply andb_true_iff in Eb as [? ?].
      unfold wrapf, map_err in E1. destruct (DeletePolicy r binding w) as [o3 w3] eqn:Ed.
      assert (w' = w2 ∧ ∀ a, o ≠ Ok a) as [-> Ho].
      { destruct E2 as [(a & _ & E2)|[? ->]]; [injection E2 as <- <-|]; done. }
      exists err, o3. split_and!; [done..| |done]. f_equal. by destruct o3; injection E1 as _ <-. }
  read_step E desired Hd (by left).
  read_step E ex Hex (by left).
  destruct (diffTuples ex desired) as [added removed0] eqn:Ediff.
  read_step E removed Hrem (by left).
  assert (∃ siblings, (removed0 = [] ∧ siblings = [] ∨
            (siblingDesiredTuples r binding target valid w).1 = Ok siblings) ∧
          removed_spec ex desired siblings removed) as (siblings & Hsib & Hspec).
  { assert (removed0 = (diffTuples ex desired).2) as Er by by rewrite Ediff.
    destruct removed0 as [|t0 ts].
    - injection Hrem as <-. exists []. split; [by left|].
      pose proof (filterSiblings_spec ex desired []) as Hfs. by rewrite <- Er in Hfs.
    - apply bind_fst_reads in Hrem as (siblings & Hs & Hrem); [|unfold wrapf; solve_reads].
      rewrite wrapf_fst in Hs. injection Hrem as <-. exists siblings. split; [by right|].
      rewrite Er. apply filterSiblings_spec. }
  right; right. exists target, valid, role, desired, ex, siblings, removed. rewrite Ediff. cbn [fst snd].
  split_and!; [done..|].
  pose proof (bind_Ok_l _ _ _ _ _ _ E eq_refl) as E'. cbv zeta in E'.
  destruct added as [|a0 added], removed as [|r0 removed].
  - left. apply mret_run in E' as [-> ->]. done.
  - right. split; [by right|]. eexists. split_and!; [| | |exact E']; done.
  - right. split; [by left|]. eexists. split_and!; [| | |exact E']; done.
  - right. split; [by left|]. eexists. split_and!; [| | |exact E']; done.
Qed.
(** ** The guard *)

(** The guard reads the target, and may put the finalizer on it; it does not
    touch OpenFGA. *)
Definition guard_keeps_fga : Prop :=
  ∀ g w o w', pr_TargetGuard r = Some g → g w = (o, w') → w_fga w' = w_fga w.

Definition guard_passed w : Prop :=
  pr_TargetGuard r = None ∨ ∃ g, pr_TargetGuard r = Some g ∧ (g w).1 = Ok "".

Lemma checkTarget_inv added w o w' :
  guard_keeps_fga → checkTarget r added w = (o, w') →
  w_fga w' = w_fga w ∧ (o = Ok tt → added = [] ∧ w' = w ∨ guard_passed w).
Proof.
  intros Hg E. unfold checkTarget in E. unfold guard_passed.
  destruct added; [apply mret_run in E as [-> ->]; split; [done|by left]|].
  destruct (pr_TargetGuard r) as [g|] eqn:Eg; [|apply mret_run in E as [-> ->]; split; [done|by right; left]].
  apply bind_inv in E as (o1 & w1 & E1 & E). unfold wrapf, map_err in E1.
  destruct (g w) as [o2 w2] eqn:Egw. pose proof (Hg g w o2 w2 Eg Egw) as Hf.
  assert (w1 = w2 ∧ ∀ a, o1 = Ok a → o2 = Ok a) as [-> Ho] by (destruct o2; injection E1 as <- <-; done).
  destruct E as [(reason & -> & E)|[Hno ->]]; [|split; [done|intros ->; by destruct (Hno tt)]].
  destruct (String.eqb_spec reason "") as [Er|]; simpl in E; [subst reason|by injection E as <- <-].
  apply mret_run in E as [-> ->]. split; [done|]. intros _. right; right. exists g. split; [done|].
  by rewrite Egw, (Ho "" eq_refl).
Qed.

Lemma writeGuarded_cases req added w o w' :
  guard_keeps_fga → writeGuarded r req added w = (o, w') →
  (w_fga w' = w_fga w ∧ ∀ a, o ≠ Ok a) ∨
  ((added = [] ∨ guard_passed w) ∧ ∃ w1, w_fga w1 = w_fga w ∧
   wrapf "failed to write permission tuples: " (writeWithModelTransitionRetry req) w1 = (o, w')).
Proof.
  intros Hg E. unfold writeGuarded in E. apply bind_inv in E as (o1 & w1 & E1 & E).
  apply checkTarget_inv in E1 as [Hf Hp]; [|done].
  destruct E as [([] & -> & E)|[Ho ->]]; [right|by left].
  split; [|eauto]. destruct (Hp eq_refl) as [[? _]|?]; auto.
Qed.

Lemma wrapf_transition p req w o w' :
  wrapf p (writeWithModelTransitionRetry req) w = (o, w') →
  ∃ o', writeWithModelTransitionRetry req w = (o', w') ∧ (o = Ok tt → o' = Ok tt).
Proof.
  unfold wrapf, map_err. destruct (writeWithModelTransitionRetry req w) as [[[]|e|] w1];
    intros [= <- <-]; eexists; done.
Qed.

(** ** What a run may change *)

Definition tuples w : tuple_map := fga_tuples (w_fga w) (pr_StoreID r).

Definition on_target (binding : PolicyBinding) (target : string) (k : TupleKeyWithoutCondition) : Prop :=
  binding_user binding (wc_User k) ∧ wc_Object k = target.

Definition protected w (binding : PolicyBinding) (target : string) (valid : gset string) (k : TupleKeyWithoutCondition) : Prop :=
  ∃ t, sibling_wants w binding target valid t ∧ sibling_key t = sibling_key (tuple_of k None).

Lemma sibling_key_of t : sibling_key (tuple_of (wc_of t) None) = sibling_key t.
Proof. by destruct t. Qed.

Lemma in_dom_store w k : k ∈ dom (tuples w) ↔ ∃ t, in_store w t ∧ wc_of t = k.
Proof.
  rewrite elem_of_dom. unfold in_store, tuples. split.
  - intros [c Hc]. exists (tuple_of k c). rewrite wc_tuple_of. by destruct k.
  - intros (t & Ht & <-). eauto.
Qed.

Lemma elem_of_convert k l : k ∈ convertTuplesForDelete l ↔ ∃ t, t ∈ l ∧ wc_of t = k.
Proof. unfold convertTuplesForDelete. rewrite elem_of_map. naive_solver. Qed.

(** The removed keys are on the target, and no sibling wants them. *)
Lemma removed_keys binding target valid ex desired siblings removed w k :
  names_object target → (getExistingTuples r binding target w).1 = Ok ex →
  ((diffTuples ex desired).2 = [] ∧ siblings = [] ∨
   (siblingDesiredTuples r binding target valid w).1 = Ok siblings) →
  removed_spec ex desired siblings removed →
  k ∈ convertTuplesForDelete removed →
  on_target binding target k ∧ ¬ protected w binding target valid k ∧
  ∃ t, in_store w t ∧ wc_of t = k ∧ t ∉ desired.
Proof.
  intros Ht Hex Hsib Hspec (t & Hr & <-)%elem_of_convert. apply Hspec in Hr as (He & Hd & Hs).
  pose proof (getExistingTuples_Ok _ _ _ _ Ht Hex t) as Het. pose proof He as Hin.
  apply Het in He as (Hst & Hu & Ho). split_and!; [by destruct t| |eauto].
  intros (t' & Hw & Ek). rewrite sibling_key_of in Ek. destruct Hsib as [[Hnil ->]|Hsib].
  - assert (t ∈ (diffTuples ex desired).2) as Hx by by apply diffTuples_removed.
    rewrite Hnil in Hx. by apply elem_of_nil in Hx.
  - apply (Hs t'); [|done]. by apply (siblingDesiredTuples_Ok _ _ _ _ _ Hsib).
Qed.

(** The effect of a successful run, tuple by tuple. *)
Lemma reconcile_effect binding w w' :
  names_target (pbs_ResourceSelector (pb_Spec binding)) → guard_keeps_fga → reconcilePolicy r binding w = (Ok tt, w') →
  ∃ target valid role,
    TargetObjectFromResourceSelector (pbs_ResourceSelector (pb_Spec binding)) = Ok target ∧
    (getHierarchicalPermissionsForSelector r (pbs_ResourceSelector (pb_Spec binding)) w).1 = Ok valid ∧
    (fetchRole r binding w).1 = Ok role ∧
    ∀ k, k ∈ dom (tuples w') ↔
      wanted (pr_EnableSubresourceAuthorization r) binding role target valid (tuple_of k None) ∨
      (k ∈ dom (tuples w) ∧ (on_target binding target k → protected w binding target valid k)).
Proof.
  intros Hnt Hg E. apply reconcilePolicy_cases in E as [[_ Ho]|[(? & ? & _ & _ & _ & _ & Ho)|E]];
    [by destruct (Ho tt)|by destruct (Ho tt)|].
  destruct E as (target & valid & role & desired & ex & siblings & removed & Ht & Hv & Hr & Hb & Hex & Hsib & Hspec & E).
  pose proof (target_names_object _ _ Hnt Ht) as Hne.
  assert (∀ k, k ∈ dom (tuples w') ↔
    k ∈ map wc_of (diffTuples ex desired).1 ∨ (k ∈ dom (tuples w) ∧ k ∉ convertTuplesForDelete removed)) as Hdom.
  { destruct E as [(-> & -> & _ & ->)|(_ & req & Es & Ew & Ed & E)]; [set_solver|].
    apply writeGuarded_cases in E as [[_ Ho]|(_ & w1 & Ef & E)]; [by destruct (Ho tt)| |done].
    apply wrapf_transition in E as (o' & E & Ho). rewrite (Ho eq_refl) in E.
    apply transition_Ok in E as (_ & Hd & _). intros k.
    unfold tuples. rewrite <- Es, Hd, Ef, apply_write_dom, Ew, Ed. done. }
  exists target, valid, role. split_and!; [done..|]. intros k. rewrite Hdom.
  apply buildPermissionTuples_Ok in Hb as [_ Hb].
  pose proof (getExistingTuples_Ok _ _ _ _ Hne Hex) as Hin. rewrite elem_of_map.
  split.
  - intros [(t & Ha & ->)|[Hd Hn]].
    + apply diffTuples_added in Ha as [Ha _]. left. apply Hb in Ha as Hw.
      destruct Hw as (? & ? & Hc & ?). destruct t; simpl in *. subst. by apply Hb.
    + apply in_dom_store in Hd as (t & Hst & <-).
      destruct (decide (t ∈ desired)) as [Hdes|Hdes].
      { left. apply Hb in Hdes as Hw. destruct Hw as (? & ? & Hc & ?). destruct t; simpl in *. subst. by apply Hb. }
      right. split; [by apply in_dom_store; eauto|]. intros [Hu Ho].
      destruct (decide (sibling_key t ∈ map sibling_key siblings)) as [(t' & Ht' & Ek)%elem_of_map|Hno].
      * destruct Hsib as [[_ ->]|Hsib]; [by apply elem_of_nil in Ht'|].
        exists t'. rewrite sibling_key_of. split; [|done]. by apply (siblingDesiredTuples_Ok _ _ _ _ _ Hsib).
      * destruct Hn. apply elem_of_convert. exists t. split; [|done]. apply Hspec. split_and!; [|done|].
        -- apply Hin. split_and!; by destruct t.
        -- intros t' Ht' Ek. apply Hno, elem_of_map. eauto.
  - intros [Hw|[Hd Hp]].
    + apply Hb in Hw. destruct (decide (tuple_of k None ∈ ex)) as [He|He].
      * right. pose proof He as (Hst & _)%Hin. split.
        { apply in_dom_store. eexists. split; [done|apply wc_tuple_of]. }
        intros (_ & _ & t & Ht' & <- & Hnd)%(removed_keys binding target valid ex desired siblings removed w); [|done..].
        destruct Hnd. unfold in_store in *. rewrite wc_tuple_of in Hst. rewrite Ht' in Hst.
        injection Hst as Ec. destruct t; simpl in *. by subst.
      * left. exists (tuple_of k None). split; [by apply diffTuples_added|by rewrite wc_tuple_of].
    + right. split; [done|].
      intros (Ht' & Hnp & _)%(removed_keys binding target valid ex desired siblings removed w); [|done..].
      auto.
Qed.
(** ** What any run may change, failing ones included *)

(** The key was removed only because it was the binding's to remove. *)
Definition may_remove w (binding : PolicyBinding) (k : TupleKeyWithoutCondition) : Prop :=
  ∃ target valid,
    TargetObjectFromResourceSelector (pbs_ResourceSelector (pb_Spec binding)) = Ok target ∧
    (getHierarchicalPermissionsForSelector r (pbs_ResourceSelector (pb_Spec binding)) w).1 = Ok valid ∧
    on_target binding target k ∧
    ∃ t, in_store w t ∧ wc_of t = k ∧ ¬ sibling_wants w binding target valid t.

(** The key was added because the binding wants it and its target may take it. *)
Definition may_add w (binding : PolicyBinding) (k : TupleKeyWithoutCondition) : Prop :=
  ∃ target valid role,
    TargetObjectFromResourceSelector (pbs_ResourceSelector (pb_Spec binding)) = Ok target ∧
    (getHierarchicalPermissionsForSelector r (pbs_ResourceSelector (pb_Spec binding)) w).1 = Ok valid ∧
    (fetchRole r binding w).1 = Ok role ∧
    wanted (pr_EnableSubresourceAuthorization r) binding role target valid (tuple_of k None) ∧
    guard_passed w.

Lemma not_in_both k (d1 d2 : gset TupleKeyWithoutCondition) (P : Prop) : k ∈ d1 → k ∉ d2 → d1 = d2 → P.
Proof. intros ? ? ->. done. Qed.

Lemma DeletePolicy_any binding w o w' :
  names_target (pbs_ResourceSelector (pb_Spec binding)) → DeletePolicy r binding w = (o, w') →
  w_k8s w' = w_k8s w ∧
  (∀ k, k ∈ dom (tuples w') → k ∈ dom (tuples w)) ∧
  (∀ k, k ∈ dom (tuples w) → k ∉ dom (tuples w') → may_remove w binding k).
Proof.
  intros Hnt [[-> _]|(target & ex & Ht & Hex & E)]%DeletePolicy_cases; [by split_and!|].
  destruct E as [[_ ->]|(valid & still & Hv & Hs & E)]; [by split_and!|].
  destruct E as [[_ ->]|(req & p & Es & Ew & Ed & E)]; [by split_and!|].
  apply wrapf_transition in E as (o' & (Hk & _ & Ha & Hd)%transition_any & _).
  rewrite Es, Ew, Ed in *. split_and!; [done| |].
  - intros k [?|Hn]%Ha; [done|]. by apply elem_of_nil in Hn.
  - intros k Hin Hout. exists target, valid. split_and!; [done..| |];
      destruct (decide (k ∈ convertTuplesForDelete (diffTuples ex still).2)) as [Hc|Hc];
      try (by destruct (Hout (Hd k Hin Hc)));
      apply elem_of_convert in Hc as (t & Hr & <-); apply diffTuples_removed in Hr as [He Hn];
      apply (getExistingTuples_Ok _ _ _ _ (target_names_object _ _ Hnt Ht) Hex) in He as (Hst & Hu & Ho).
    + split; by destruct t.
    + exists t. split_and!; [done..|]. intros Hw. apply Hn. by apply (siblingDesiredTuples_Ok _ _ _ _ _ Hs).
Qed.

Lemma reconcilePolicy_any binding w o w' :
  names_target (pbs_ResourceSelector (pb_Spec binding)) → guard_keeps_fga → reconcilePolicy r binding w = (o, w') →
  (∀ k, k ∈ dom (tuples w') → k ∉ dom (tuples w) → may_add w binding k) ∧
  (∀ k, k ∈ dom (tuples w) → k ∉ dom (tuples w') → may_remove w binding k).
Proof.
  intros Hnt Hg [[-> _]|[(err & o2 & _ & _ & _ & E & _)|E]]%reconcilePolicy_cases; [by split_and!|..].
  { apply DeletePolicy_any in E as (? & HA & HB); [|done]. split; [|done].
    intros k Hin Hout. by destruct (Hout (HA k Hin)). }
  destruct E as (target & valid & role & desired & ex & siblings & removed & Ht & Hv & Hr & Hb & Hex & Hsib & Hspec & E).
  destruct E as [(_ & _ & _ & ->)|(_ & req & Es & Ew & Ed & E)]; [by split_and!|].
  apply writeGuarded_cases in E as [[Ef _]|(Hpass & w1 & Ef & E)];
    [unfold tuples; rewrite Ef; by split_and!| |done].
  apply wrapf_transition in E as (o' & (Hk & _ & Ha & Hd)%transition_any & _).
  rewrite Es, Ew, Ed, Ef in *. split_and!.
  - intros k [?|Hin]%Ha Hout; [done|]. exists target, valid, role. split_and!; [done..| |].
    + apply elem_of_map in Hin as (t & [Hin _]%diffTuples_added & ->).
      apply buildPermissionTuples_Ok in Hb as [_ Hb]. apply Hb in Hin as Hw.
      destruct Hw as (? & ? & Hc & ?). destruct t; simpl in *. subst. by apply Hb.
    + destruct Hpass as [Hn|Hpass]; [|done]. rewrite Hn in Hin. by apply elem_of_nil in Hin.
  - intros k Hin Hout. destruct (decide (k ∈ convertTuplesForDelete removed)) as [Hc|Hc];
      [|by destruct (Hout (Hd k Hin Hc))].
    destruct (removed_keys binding target valid ex desired siblings removed w k
      (target_names_object _ _ Hnt Ht) Hex Hsib Hspec Hc) as (Hot & Hnp & t & Hst & <- & _).
    exists target, valid. split_and!; [done..|]. exists t. split_and!; [done..|].
    intros Hw. apply Hnp. exists t. split; [done|]. symmetry. apply sibling_key_of.
Qed.

(** A successful deletion leaves, of the binding's tuples on the target, those a
    sibling wants. *)
Lemma DeletePolicy_effect binding w w' :
  names_target (pbs_ResourceSelector (pb_Spec binding)) → DeletePolicy r binding w = (Ok tt, w') →
  ∃ target, TargetObjectFromResourceSelector (pbs_ResourceSelector (pb_Spec binding)) = Ok target ∧
    ∀ t, in_store w t → binding_user binding (User t) → Object t = target →
      (wc_of t ∈ dom (tuples w') ↔
       ∃ valid, (getHierarchicalPermissionsForSelector r (pbs_ResourceSelector (pb_Spec binding)) w).1 = Ok valid ∧
         sibling_wants w binding target valid t).
Proof.
  intros Hnt [[_ Ho]|(target & ex & Ht & Hex & E)]%DeletePolicy_cases; [by destruct (Ho tt)|].
  exists target. split; [done|]. intros t Hst Hu Ho.
  pose proof (getExistingTuples_Ok _ _ _ _ (target_names_object _ _ Hnt Ht) Hex t) as He.
  assert (t ∈ ex) as Hin by by apply He.
  destruct E as [[-> _]|(valid & still & Hv & Hs & E)]; [by apply elem_of_nil in Hin|].
  assert (t ∈ (diffTuples ex still).2 ↔ ¬ sibling_wants w binding target valid t) as Hrem.
  { rewrite diffTuples_removed, (siblingDesiredTuples_Ok _ _ _ _ _ Hs). naive_solver. }
  assert (wc_of t ∈ dom (tuples w') ↔ t ∉ (diffTuples ex still).2) as ->.
  { destruct E as [[Hnil ->]|(req & p & Es & Ew & Ed & E)].
    - rewrite Hnil. split; [intros _; apply not_elem_of_nil|]. intros _. apply in_dom_store. eauto.
    - apply wrapf_transition in E as (o' & E & Hok). rewrite (Hok eq_refl) in E.
      apply transition_Ok in E as (_ & Hd & _). unfold tuples. rewrite <- Es, Hd, apply_write_dom, Ew, Ed.
      rewrite elem_of_convert. split.
      + intros [Hn|[_ Hn]]; [by apply elem_of_nil in Hn|]. intros Hr. apply Hn. eauto.
      + intros Hn. right. split; [rewrite Es; apply in_dom_store; eauto|].
        intros (t' & Hr & Ewc). apply Hn. replace t with t'; [done|].
        apply diffTuples_removed in Hr as [Hr _].
        apply (getExistingTuples_Ok _ _ _ _ (target_names_object _ _ Hnt Ht) Hex) in Hr as (Hst' & _).
        unfold in_store in *. rewrite Ewc, Hst in Hst'. injection Hst' as Ec.
        destruct t, t'; unfold wc_of in *; simpl in *. congruence. }
  split.
  - intros Hn. exists valid. split; [done|].
    destruct (decide (t ∈ still)) as [Hd|Hd]; [by apply (siblingDesiredTuples_Ok _ _ _ _ _ Hs)|].
    destruct Hn. by apply diffTuples_removed.
  - intros (valid' & Hv' & Hw). assert (valid' = valid) as -> by congruence. intros Hr. by apply Hrem in Hr.
Qed.
(** ** Every run ends *)

Lemma reads_bind_fuel {A B} (m : M (World F K) A) (f : A → M (World F K) B) w :
  reads m → (m w).1 ≠ OutOfFuel → (∀ a, (m w).1 = Ok a → (f a w).1 ≠ OutOfFuel) → ((m ≫= f) w).1 ≠ OutOfFuel.
Proof.
  intros Hr Hm Hf. apply bind_fuel; [done|]. intros a w1 E.
  pose proof (reads_inv _ _ _ _ Hr E) as [-> E']. by apply Hf.
Qed.

Lemma wrapf_fuel {A} p (m : M (World F K) A) w : (wrapf p m w).1 ≠ OutOfFuel ↔ (m w).1 ≠ OutOfFuel.
Proof. unfold wrapf. by rewrite map_err_fuel. Qed.

Lemma TargetObject_fuel sel : TargetObjectFromResourceSelector sel ≠ OutOfFuel.
Proof. unfold TargetObjectFromResourceSelector. by repeat case_match. Qed.

Lemma getTupleUser_fuel s : getTupleUser s ≠ OutOfFuel.
Proof. unfold getTupleUser. by repeat case_match. Qed.

Lemma build_fuel en b role target valid : buildPermissionTuples en b role target valid ≠ OutOfFuel.
Proof.
  unfold buildPermissionTuples. induction (pbs_Subjects (pb_Spec b)) as [|s l IH]; [done|].
  rewrite outcome_bind_fuel, outcome_map_err_fuel. intros [H'|(u & _ & H')]; [by apply getTupleUser_fuel in H'|].
  apply outcome_bind_fuel in H' as [H'|(? & _ & H')]; [by apply IH in H'|done].
Qed.

Lemma fetchRole_fuel b w : (fetchRole r b w).1 ≠ OutOfFuel.
Proof.
  unfold fetchRole. case_match; [done|]. apply reads_bind_fuel; [solve_reads| |].
  - rewrite map_err_fuel, on_k8s_fst. apply k_Get_result.
  - intros role _. by repeat case_match.
Qed.

Lemma getHierarchical_fuel sel w : (getHierarchicalPermissionsForSelector r sel w).1 ≠ OutOfFuel.
Proof.
  unfold getHierarchicalPermissionsForSelector. apply reads_bind_fuel; [solve_reads| |].
  - rewrite lift_fst. unfold selector_type. by repeat case_match.
  - intros ak _. apply reads_bind_fuel; [unfold wrapf; solve_reads| |].
    + rewrite wrapf_fuel, on_k8s_fst. apply k_List_result.
    + intros l _. apply reads_bind_fuel; [unfold wrapf; solve_reads| |done].
      rewrite wrapf_fuel, lift_fst. apply getResourceGraph_no_fuel_error.
Qed.

Lemma getExistingTuples_fuel b target w :
  size (tuples w) < pr_fuel r → (getExistingTuples r b target w).1 ≠ OutOfFuel.
Proof.
  intros Hf. unfold getExistingTuples.
  induction (pbs_Subjects (pb_Spec b)) as [|s l IH]; [done|]. simpl.
  apply reads_bind_fuel; [unfold wrapf; solve_reads| |].
  - apply reads_bind_fuel; [unfold wrapf; solve_reads| |].
    + rewrite wrapf_fuel, lift_fst. apply getTupleUser_fuel.
    + intros u _. rewrite wrapf_fuel, on_fga_fst.
      destruct (getTupleKeys_spec (pr_fuel r) (pr_StoreID r) (mkReadKey u "" target) (w_fga w)) as [[e ->]|(? & -> & _)];
        [|done|done].
      pose proof (matching_length (fga_tuples (w_fga w) (pr_StoreID r)) (mkReadKey u "" target)).
      unfold tuples in Hf. lia.
  - intros ts _. by apply reads_bind_fuel; [unfold wrapf; solve_reads|exact IH|].
Qed.

Lemma siblingDesiredTuples_fuel b target valid w : (siblingDesiredTuples r b target valid w).1 ≠ OutOfFuel.
Proof.
  unfold siblingDesiredTuples. apply reads_bind_fuel; [unfold wrapf; solve_reads| |].
  - rewrite wrapf_fuel, on_k8s_fst. apply k_ListField_result.
  - intros l _. apply append_loopM_fuel. intros other w' _. case_match; [done|].
    apply reads_bind_fuel; [solve_reads| |].
    + rewrite try_fuel. apply fetchRole_fuel.
    + intros [role|err] _; [|by case_match].
      pose proof (build_fuel (pr_EnableSubresourceAuthorization r) other role target valid). by case_match.
Qed.

Lemma transition_fuel p req w : (wrapf p (writeWithModelTransitionRetry req) w).1 ≠ OutOfFuel.
Proof.
  rewrite wrapf_fuel. destruct (writeWithModelTransitionRetry req w) as [o w'] eqn:E.
  by apply transition_any in E as (_ & Ho & _).
Qed.

Ltac step_fuel := apply reads_bind_fuel; [unfold wrapf; solve_reads|rewrite ?wrapf_fuel, ?lift_fst|].

Lemma DeletePolicy_fuel b w : size (tuples w) < pr_fuel r → (DeletePolicy r b w).1 ≠ OutOfFuel.
Proof.
  intros Hf. unfold DeletePolicy. step_fuel; [apply TargetObject_fuel|]. intros target _.
  step_fuel; [by apply getExistingTuples_fuel|]. intros ex _. destruct ex; [done|].
  step_fuel; [apply getHierarchical_fuel|]. intros valid _.
  step_fuel; [apply siblingDesiredTuples_fuel|]. intros still _.
  case_match; [done|]. apply bind_fuel; [done|]. intros id w1 _. apply transition_fuel.
Qed.

Lemma reconcilePolicy_fuel b w :
  size (tuples w) < pr_fuel r → (∀ g w, pr_TargetGuard r = Some g → (g w).1 ≠ OutOfFuel) →
  (reconcilePolicy r b w).1 ≠ OutOfFuel.
Proof.
  intros Hf Hg. unfold reconcilePolicy. step_fuel; [apply TargetObject_fuel|]. intros target _.
  step_fuel; [apply getHierarchical_fuel|]. intros valid _.
  step_fuel; [rewrite try_fuel; apply fetchRole_fuel|]. intros [role|err] _.
  - step_fuel; [apply build_fuel|]. intros desired _.
    step_fuel; [by apply getExistingTuples_fuel|]. intros ex _.
    destruct (diffTuples ex desired) as [added removed0].
    step_fuel.
    { destruct removed0; [done|]. step_fuel; [apply siblingDesiredTuples_fuel|done]. }
    intros removed _. apply bind_fuel; [done|]. intros id w1 _.
    assert (∀ req, (writeGuarded r req added w1).1 ≠ OutOfFuel) as Hw.
    { intros req. unfold writeGuarded. apply bind_fuel; [|intros; apply transition_fuel].
      unfold checkTarget. destruct added; [done|]. destruct (pr_TargetGuard r) eqn:Eg; [|done].
      apply bind_fuel; [rewrite wrapf_fuel; by apply Hg|]. intros reason w2 _. by case_match. }
    destruct added, removed; done || apply Hw.
  - apply bind_fuel; [|done]. case_match; [|done]. rewrite wrapf_fuel. by apply DeletePolicy_fuel.
Qed.
(** ** A second run *)

Lemma fetchRole_k8s_only b : k8s_only (fetchRole r b).
Proof. unfold fetchRole. solve_k8s_only. Qed.

Lemma getHierarchical_k8s_only sel : k8s_only (getHierarchicalPermissionsForSelector r sel).
Proof. unfold getHierarchicalPermissionsForSelector, wrapf. solve_k8s_only. Qed.

Lemma siblingDesiredTuples_k8s_only b target valid : k8s_only (siblingDesiredTuples r b target valid).
Proof.
  unfold siblingDesiredTuples, wrapf. apply k8s_only_bind; [solve_k8s_only|]. intros l.
  apply k8s_only_append_loopM. intros other. case_match; [solve_k8s_only|].
  apply k8s_only_bind; [apply k8s_only_try, fetchRole_k8s_only|]. intros role. solve_k8s_only.
Qed.

(** The store's tuples after a successful run, with their conditions. *)
Lemma reconcile_store binding w w' target ex desired removed siblings valid :
  names_object target → (getExistingTuples r binding target w).1 = Ok ex →
  (∀ t, t ∈ desired → TupleCondition t = None) →
  ((diffTuples ex desired).2 = [] ∧ siblings = [] ∨
   (siblingDesiredTuples r binding target valid w).1 = Ok siblings) →
  removed_spec ex desired siblings removed →
  (∀ t, t ∈ desired → binding_user binding (User t) ∧ Object t = target) →
  tuples w' = writes_map (diffTuples ex desired).1 ∪
              foldl (λ ts k, delete k ts) (tuples w) (convertTuplesForDelete removed) →
  (∀ t, t ∈ desired → in_store w' t) ∧
  (∀ t, in_store w' t → t ∉ desired → in_store w t ∧ t ∉ removed).
Proof.
  intros Hne Hex Hnone Hsib Hspec Hdes Hw.
  pose proof (getExistingTuples_Ok _ _ _ _ Hne Hex) as Hin.
  assert (∀ t, t ∈ (diffTuples ex desired).1 → TupleCondition t = None) as Hadd.
  { intros t [Ht _]%diffTuples_added. by apply Hnone. }
  assert (∀ t, t ∈ desired → in_store w t → wc_of t ∉ convertTuplesForDelete removed) as Hkeep.
  { intros t Ht Hst Hr.
    destruct (removed_keys binding target valid ex desired siblings removed w _ Hne Hex Hsib Hspec Hr)
      as (_ & _ & t' & Hst' & Ek & Hnd).
    apply Hnd. replace t' with t; [done|]. unfold in_store in *. rewrite Ek in Hst'.
    rewrite Hst in Hst'. injection Hst' as Ec. destruct t, t'; unfold wc_of in *; simpl in *. congruence. }
  unfold in_store, tuples in *. rewrite Hw. split.
  - intros t Ht. apply lookup_union_Some_raw.
    destruct (writes_map (diffTuples ex desired).1 !! wc_of t) as [c|] eqn:E.
    + left. apply writes_map_unconditional in E as [-> _]; [|done]. by rewrite (Hnone t Ht).
    + right. split; [done|]. assert (t ∈ ex) as Hte.
      { destruct (decide (t ∈ ex)) as [|Hn]; [done|]. exfalso.
        assert (is_Some (writes_map (diffTuples ex desired).1 !! wc_of t)) as [? Hs].
        { apply writes_map_dom, elem_of_map. exists t. split; [|done]. by apply diffTuples_added. }
        by rewrite E in Hs. }
      apply Hin in Hte as [Hst _]. rewrite foldl_delete_lookup, bool_decide_eq_false_2; [done|].
      by apply Hkeep.
  - intros t Hl Hnd. apply lookup_union_Some_raw in Hl as [Hl|[_ Hl]].
    + exfalso. apply writes_map_unconditional in Hl as [Hc Hk]; [|done].
      apply elem_of_map in Hk as (t' & Ht' & Ek). apply diffTuples_added in Ht' as [Ht' _].
      apply Hnd. replace t with t'; [done|]. pose proof (Hnone t' Ht').
      destruct t, t'; unfold wc_of in *; simpl in *. congruence.
    + rewrite foldl_delete_lookup in Hl. case_bool_decide as Hd; [done|]. split; [done|].
      intros Hr. apply Hd, elem_of_convert. eauto.
Qed.

Lemma reconcile_again binding w w' o w'' :
  names_target (pbs_ResourceSelector (pb_Spec binding)) → guard_keeps_fga → reconcilePolicy r binding w = (Ok tt, w') → w_k8s w' = w_k8s w →
  reconcilePolicy r binding w' = (o, w'') → w'' = w'.
Proof.
  intros Hnt Hg E Ek E2.
  apply reconcilePolicy_cases in E as [[_ Ho]|[(? & ? & _ & _ & _ & _ & Ho)|E]];
    [by destruct (Ho tt)|by destruct (Ho tt)|].
  destruct E as (target & valid & role & desired & ex & siblings & removed & Ht & Hv & Hr & Hb & Hex & Hsib & Hspec & E).
  pose proof (target_names_object _ _ Hnt Ht) as Hne.
  apply buildPermissionTuples_Ok in Hb as Hb'. destruct Hb' as [_ Hw].
  rewrite <- (proj2 (fetchRole_k8s_only binding) _ _ Ek) in Hr.
  rewrite <- (proj2 (getHierarchical_k8s_only _) _ _ Ek) in Hv.
  apply reconcilePolicy_cases in E2 as [[-> _]|[(err & o2 & Hr2 & _)|E2]]; [done|congruence|].
  destruct E2 as (target2 & valid2 & role2 & desired2 & ex2 & siblings2 & removed2 &
    Ht2 & Hv2 & Hr2 & Hb2 & Hex2 & Hsib2 & Hspec2 & E2).
  assert (target2 = target) as -> by congruence. assert (valid2 = valid) as -> by congruence.
  assert (role2 = role) as -> by congruence. assert (desired2 = desired) as -> by congruence.
  assert (tuples w' = writes_map (diffTuples ex desired).1 ∪
            foldl (λ ts k, delete k ts) (tuples w) (convertTuplesForDelete removed)) as Hst.
  { destruct E as [(-> & -> & _ & ->)|(_ & req & Es & Ew & Ed & E)].
    - unfold writes_map. simpl. by rewrite (left_id_L ∅ (∪)).
    - apply writeGuarded_cases in E as [[_ Ho]|(_ & w1 & Ef & E)]; [by destruct (Ho tt)| |done].
      apply wrapf_transition in E as (o' & E & Ho). rewrite (Ho eq_refl) in E.
      apply transition_Ok in E as (_ & Hd & _). unfold tuples. by rewrite <- Es, Hd, Ef, apply_write_eq, Ew, Ed. }
  destruct (reconcile_store binding w w' target ex desired removed siblings valid) as [HA HB]; [done..| |done|done| |done|].
  { intros t Hd. by apply Hw in Hd as (_ & _ & ? & _). }
  { intros t Hd. by apply Hw in Hd as (? & ? & _ & _). }
  pose proof (getExistingTuples_Ok _ _ _ _ Hne Hex) as Hin.
  pose proof (getExistingTuples_Ok _ _ _ _ Hne Hex2) as Hin2.
  assert ((diffTuples ex2 desired).1 = []) as Hadd.
  { apply list_empty_iff. intros t [Hd Hn]%diffTuples_added. apply Hn, Hin2.
    split_and!; [by apply HA|by apply Hw in Hd as (? & ? & _)..]. }
  assert (removed2 = []) as Hrem.
  { apply list_empty_iff. intros t (He & Hnd & Hns)%Hspec2.
    apply Hin2 in He as (Hst2 & Hu & Ho). destruct (HB t Hst2 Hnd) as [Hst1 Hnr].
    apply Hnr, Hspec. split_and!; [by apply Hin|done|]. intros t' Ht' Es.
    destruct Hsib as [[_ ->]|Hsib]; [by apply elem_of_nil in Ht'|].
    rewrite <- (proj2 (siblingDesiredTuples_k8s_only _ _ _) _ _ Ek) in Hsib.
    destruct Hsib2 as [[Hnil _]|Hsib2].
    - assert (t ∈ (diffTuples ex2 desired).2) as Hx by (apply diffTuples_removed; split; [by apply Hin2|done]).
      rewrite Hnil in Hx. by apply elem_of_nil in Hx.
    - assert (siblings2 = siblings) as -> by congruence. by apply (Hns t'). }
  destruct E2 as [(_ & _ & _ & ->)|([?|?] & _)]; done.
Qed.
End facts.
