(* ===== verification/Indexes.v ===== *)
(** * The field indexes the manager registers

    [setupPolicyBindingIndexes] of policybinding_controller.go: the values each
    PolicyBinding and ProtectedResource has in each index. *)

From S2P Require Import Prelude GoStrings GoErr Types Tuples ResourceGraph.

Definition protectedResourceServiceKindIndexField : string := "protectedresource.serviceKind".

(** A selector's error leaves the object out of the index. *)
Definition index_values (o : outcome string) : list string :=
  match o with Ok key => [key] | _ => [] end.

Definition PolicyBinding_index (field : string) (pb : PolicyBinding) : list string :=
  if String.eqb field TargetObjectIndexField then
    index_values (TargetObjectFromResourceSelector (pbs_ResourceSelector (pb_Spec pb)))
  else if String.eqb field TargetKindIndexField then
    index_values (TargetKindFromResourceSelector (pbs_ResourceSelector (pb_Spec pb)))
  else if String.eqb field RoleRefIndexField then
    [RoleRefIndexKey (om_Namespace (pb_Meta pb)) (pbs_RoleRef (pb_Spec pb))]
  else [].

Definition ProtectedResource_index (field : string) (pr : ProtectedResource) : list string :=
  if String.eqb field protectedResourceServiceKindIndexField then
    let spec := pr_Spec pr in
    if String.eqb (prs_ServiceRef_Name spec) "" || String.eqb (prs_Kind spec) "" then []
    else [prs_ServiceRef_Name spec +:+ "/" +:+ prs_Kind spec]
  else [].

Lemma index_target_object pb target :
  target ∈ PolicyBinding_index TargetObjectIndexField pb ↔
  TargetObjectFromResourceSelector (pbs_ResourceSelector (pb_Spec pb)) = Ok target.
Proof.
  unfold PolicyBinding_index. rewrite String.eqb_refl. unfold index_values.
  destruct (TargetObjectFromResourceSelector _); rewrite ?list_elem_of_singleton, ?elem_of_nil; naive_solver.
Qed.
