(* ===== verification/RefK8s.v ===== *)
(** * A reference Kubernetes API server

    Objects by key, per kind; every read succeeds or, on [rk_down], fails. For
    running the definitions on examples. *)

From S2P Require Import Prelude GoStrings GoErr Types Tuples ResourceGraph World Indexes.

Record RefK8s := mkRefK8s {
  rk_roles : gmap NamespacedName Role;
  rk_bindings : gmap NamespacedName PolicyBinding;
  rk_resources : gmap NamespacedName ProtectedResource;
  rk_memberships : gmap NamespacedName GroupMembership;
  rk_objects : gmap (GroupVersionKind * NamespacedName) KObject;
  rk_down : option goerr
}.

#[export] Instance RefApiErrors : ApiErrors := λ resource name, resource +:+ " " +:+ name +:+ " not found".

Definition ref_answer {A} (k : RefK8s) (o : outcome A) : outcome A * RefK8s :=
  match rk_down k with
  | Some e => (Err (ErrText (Error e)), k)
  | None => (o, k)
  end.

Section kind.
Context {T : Type} (proj : RefK8s → gmap NamespacedName T) (index : string → T → list string).
Context (resource : string).

Definition ref_client : KClient RefK8s T := {|
  k_Get key k := ref_answer k
    match proj k !! key with
    | Some x => Ok x
    | None => Err (NewNotFound resource (nn_Name key))
    end;
  k_List k := ref_answer k (Ok (map snd (map_to_list (proj k))));
  k_ListField field v k := ref_answer k
    (Ok (List.filter (λ x, str_in v (index field x)) (map snd (map_to_list (proj k)))))
|}.

Definition ref_laws : @KReadLaws RefK8s T ref_client.
Proof.
  refine {| k_view := proj; k_index := index |}; simpl; unfold ref_answer.
  all: try (intros; repeat case_match; simpl in *; congruence).
  - intros key k e. destruct (rk_down k); simpl; [intros [= <-] Hx; discriminate Hx|].
    destruct (proj k !! key); simpl; done.
  - intros k l. case_match; simpl; [done|]. by intros [= <-].
  - intros field v k l. case_match; simpl; [done|]. intros [= <-] x.
    rewrite elem_of_List_filter, str_in_elem, elem_of_map. split.
    + intros ((kx & Hk & ->) & Hv). split; [|done]. destruct kx as [key y].
      exists key. by apply elem_of_map_to_list.
    + intros ((key & Hk) & Hv). split; [|done]. exists (key, x). split; [by apply elem_of_map_to_list|done].
Defined.
End kind.

#[export] Instance ref_Role_client : KClient RefK8s Role := ref_client rk_roles (λ _ _, []) "roles".
#[export] Instance ref_Role_laws : KReadLaws RefK8s Role := ref_laws rk_roles (λ _ _, []) "roles".
#[export] Instance ref_PB_client : KClient RefK8s PolicyBinding :=
  ref_client rk_bindings PolicyBinding_index "policybindings".
#[export] Instance ref_PB_laws : KReadLaws RefK8s PolicyBinding :=
  ref_laws rk_bindings PolicyBinding_index "policybindings".
#[export] Instance ref_PR_client : KClient RefK8s ProtectedResource :=
  ref_client rk_resources ProtectedResource_index "protectedresources".
#[export] Instance ref_PR_laws : KReadLaws RefK8s ProtectedResource :=
  ref_laws rk_resources ProtectedResource_index "protectedresources".

(** Objects keyed by their own namespace and name. *)
Definition by_key {T} (meta : T → ObjectMeta) (l : list T) : gmap NamespacedName T :=
  list_to_map (map (λ x, (key_of (meta x), x)) l).
