(* ===== verification/PolicyReconcilerSpec.v ===== *)
(** * What the policy reconciler guarantees *)

From S2P Require Import Prelude GoStrings GoErr Types Constants Permissions Hash ResourceGraph.
From S2P Require Import World Fga Tuples TuplesFacts PolicyReconciler PolicyReconcilerFacts.
From S2P Require Import Indexes RefK8s.
From Stdlib Require Import Ascii.

Section spec.
Context {F K : Type} `{FgaLaws F} `{KReadLaws K Role} `{KReadLaws K PolicyBinding}
  `{KReadLaws K ProtectedResource} `{ApiErrors}.
Context (r : PolicyReconciler F K).
Implicit Types w : World F K.

(** C8: convergence. After a successful reconcile of a binding whose selector
    gives its resource's name (without one, OpenFGA would read every object of the
    type) the store holds, on the binding's target and for its subjects, exactly the tuples the binding's role
    grants and those a live sibling binding still wants; every other tuple is as
    it was. *)
Theorem reconcilePolicy_converges binding w w' :
  names_target (pbs_ResourceSelector (pb_Spec binding)) → guard_keeps_fga r → reconcilePolicy r binding w = (Ok tt, w') →
  ∃ target valid role,
    TargetObjectFromResourceSelector (pbs_ResourceSelector (pb_Spec binding)) = Ok target ∧
    (getHierarchicalPermissionsForSelector r (pbs_ResourceSelector (pb_Spec binding)) w).1 = Ok valid ∧
    (fetchRole r binding w).1 = Ok role ∧
    ∀ k, k ∈ dom (tuples r w') ↔
      wanted (pr_EnableSubresourceAuthorization r) binding role target valid (tuple_of k None) ∨
      (k ∈ dom (tuples r w) ∧ (on_target binding target k → protected r w binding target valid k)).
Proof. apply reconcile_effect. Qed.

(** C9: isolation. Whatever a reconcile returns, it has only added tuples the
    binding's role grants its subjects on its target, and only after the target's
    guard agreed, and has only removed tuples of its subjects on its target that
    no live sibling binding wants. *)
Theorem reconcilePolicy_isolated binding w o w' :
  names_target (pbs_ResourceSelector (pb_Spec binding)) → guard_keeps_fga r → reconcilePolicy r binding w = (o, w') →
  (∀ k, k ∈ dom (tuples r w') → k ∉ dom (tuples r w) → may_add r w binding k) ∧
  (∀ k, k ∈ dom (tuples r w) → k ∉ dom (tuples r w') → may_remove r w binding k).
Proof. apply reconcilePolicy_any. Qed.

(** Deletion. [DeletePolicy] never adds a tuple and removes only tuples of
    the binding's subjects on its target that no live sibling wants; when it
    succeeds, of those subjects' tuples on the target exactly the ones siblings
    want remain. *)
Theorem DeletePolicy_revokes binding w o w' :
  names_target (pbs_ResourceSelector (pb_Spec binding)) → DeletePolicy r binding w = (o, w') →
  (∀ k, k ∈ dom (tuples r w') → k ∈ dom (tuples r w)) ∧
  (∀ k, k ∈ dom (tuples r w) → k ∉ dom (tuples r w') → may_remove r w binding k) ∧
  (o = Ok tt → ∃ target,
     TargetObjectFromResourceSelector (pbs_ResourceSelector (pb_Spec binding)) = Ok target ∧
     ∀ t, in_store r w t → binding_user binding (User t) → Object t = target →
       (wc_of t ∈ dom (tuples r w') ↔
        ∃ valid, (getHierarchicalPermissionsForSelector r (pbs_ResourceSelector (pb_Spec binding)) w).1 = Ok valid ∧
          sibling_wants r w binding target valid t)).
Proof.
  intros Hn E. destruct (DeletePolicy_any r binding w o w' Hn E) as (_ & HA & HB). split_and!; [done..|].
  intros ->. by eapply DeletePolicy_effect.
Qed.

(** C35: a reconcile always ends with success or an error: fuel above the number
    of tuples in the store is enough for the pages it reads. *)
Theorem reconcilePolicy_terminates binding w :
  size (tuples r w) < pr_fuel r → (∀ g w, pr_TargetGuard r = Some g → (g w).1 ≠ OutOfFuel) →
  (reconcilePolicy r binding w).1 ≠ OutOfFuel.
Proof. apply reconcilePolicy_fuel. Qed.

(** with subresources enabled, a binding whose role is gone loses its
    permissions: the reconcile reports the missing role, and what it did to the
    store is what deleting the policy does. *)
Theorem missing_role_revokes binding w err target valid :
  pr_EnableSubresourceAuthorization r = true →
  TargetObjectFromResourceSelector (pbs_ResourceSelector (pb_Spec binding)) = Ok target →
  (getHierarchicalPermissionsForSelector r (pbs_ResourceSelector (pb_Spec binding)) w).1 = Ok valid →
  (fetchRole r binding w).1 = Err err → IsNotFound err = true →
  (reconcilePolicy r binding w).2 = (DeletePolicy r binding w).2 ∧
  ((DeletePolicy r binding w).1 = Ok tt →
   (reconcilePolicy r binding w).1 = Err (ErrWrap "failed to fetch role: " err)).
Proof.
  intros Hen Ht Hv Hf Hnf. unfold reconcilePolicy.
  pose proof (reads_getHierarchical r (pbs_ResourceSelector (pb_Spec binding)) w) as R1.
  pose proof (reads_fetchRole r binding w) as R2.
  unfold mbind, M_bind, wrapf, map_err, try. rewrite Ht. unfold lift.
  destruct (getHierarchicalPermissionsForSelector _ _ w) as [o1 w1]; simpl in *; subst.
  destruct (fetchRole r binding w) as [o2 w2]; simpl in *; subst. rewrite Hen, Hnf. simpl.
  destruct (DeletePolicy r binding w) as [[[]|e|] w3]; simpl; by split; [|intros Hx; try discriminate Hx].
Qed.

(** Idempotence. Reconciling again after a success, with Kubernetes
    unchanged, writes nothing, whatever it returns. *)
Theorem reconcilePolicy_idempotent binding w w' o w'' :
  names_target (pbs_ResourceSelector (pb_Spec binding)) → guard_keeps_fga r → reconcilePolicy r binding w = (Ok tt, w') → w_k8s w' = w_k8s w →
  reconcilePolicy r binding w' = (o, w'') → w'' = w'.
Proof. apply reconcile_again. Qed.
End spec.

(** ** Witnesses: two bindings of one user on one project *)

Definition ex_meta (ns name : string) : ObjectMeta := mkObjectMeta name ns name 1 None [] [].

Definition ex_role (name : string) (perms : list string) : Role :=
  mkRole (ex_meta "iam" name) (mkRoleSpec perms []) (mkRoleStatus perms 1 []).
Definition ex_viewer := ex_role "viewer" ["rm/projects.get"; "rm/projects.list"].
Definition ex_getter := ex_role "getter" ["rm/projects.get"].

Definition ex_alice : Subject := mkSubject "User" "alice" "uid-alice" "".
Definition ex_target : ResourceSelector := mkSelector (Some (mkResourceRef "rm" "Project" "p1" "uid-p1" "")) None.

Definition ex_binding (name role : string) (subjects : list Subject) : PolicyBinding :=
  mkPB (ex_meta "default" name) (mkPBSpec (mkRoleRef role "iam") subjects ex_target) (mkPBStatus 0 []).
Definition ex_pb_view := ex_binding "alice-views" "viewer" [ex_alice].
Definition ex_pb_get := ex_binding "alice-gets" "getter" [ex_alice].

Definition ex_prs : list ProtectedResource :=
  [mkPR (ex_meta "" "organizations") (mkPRSpec "rm" "Organization" "organizations" ["get"] [] []) (mkPRStatus 0 []);
   mkPR (ex_meta "" "projects") (mkPRSpec "rm" "Project" "projects" ["get"; "list"] []
     [mkParentRef "rm" "Organization"]) (mkPRStatus 0 [])].

Definition ex_k8s : RefK8s :=
  mkRefK8s (by_key role_Meta [ex_viewer; ex_getter]) (by_key pb_Meta [ex_pb_view; ex_pb_get])
    (by_key pr_Meta ex_prs) ∅ ∅ None.

Definition ex_policy_world : World RefStore RefK8s := mkWorld (mkRefStore ∅ [] 1 None) ex_k8s None.

(** Against the reference store without a guard. *)
Definition ex_reconciler : PolicyReconciler RefStore RefK8s := mkPolicyReconciler _ _ false "store" None 10.

Lemma ex_guard : guard_keeps_fga ex_reconciler.
Proof. done. Qed.

Definition ex_world1 := (reconcilePolicy ex_reconciler ex_pb_view ex_policy_world).2.
Definition ex_alice_list : TupleKeyWithoutCondition :=
  mkTupleWC "iam.miloapis.com/InternalUser:alice" (hashPermission "rm/projects.list") "rm/Project:p1".
Definition ex_alice_get : TupleKeyWithoutCondition :=
  mkTupleWC "iam.miloapis.com/InternalUser:alice" (hashPermission "rm/projects.get") "rm/Project:p1".

Lemma ex_names : names_target (pbs_ResourceSelector (pb_Spec ex_pb_view)).
Proof. done. Qed.

Lemma ex_run1 : reconcilePolicy ex_reconciler ex_pb_view ex_policy_world = (Ok tt, ex_world1).
Proof. apply ok_run. vm_compute. reflexivity. Qed.

Lemma reconcilePolicy_converges_witness :
  ∃ target : string, ∀ k, k ∈ dom (tuples ex_reconciler ex_world1) →
    wc_Object k = target ∨ k ∈ dom (tuples ex_reconciler ex_policy_world).
Proof.
  destruct (reconcilePolicy_converges ex_reconciler ex_pb_view ex_policy_world ex_world1 ex_names ex_guard ex_run1)
    as (target & valid & role & _ & _ & _ & H).
  exists target. intros k Hk. apply H in Hk as [(_ & Ho & _)|[Hk _]]; [left|right]; done.
Defined.

Lemma reconcilePolicy_isolated_witness :
  may_add ex_reconciler ex_policy_world ex_pb_view ex_alice_list.
Proof.
  apply (reconcilePolicy_isolated ex_reconciler ex_pb_view ex_policy_world (Ok tt) ex_world1 ex_names ex_guard ex_run1).
  - apply (bool_decide_unpack _). vm_compute. exact I.
  - apply (bool_decide_unpack _). vm_compute. exact I.
Defined.

(** Deleting the view binding leaves the tuple the other binding wants. *)
Definition ex_world2 := (DeletePolicy ex_reconciler ex_pb_view ex_world1).2.

Lemma DeletePolicy_revokes_witness :
  may_remove ex_reconciler ex_world1 ex_pb_view ex_alice_list ∧
  ex_alice_get ∈ dom (tuples ex_reconciler ex_world2).
Proof.
  destruct (DeletePolicy_revokes ex_reconciler ex_pb_view ex_world1 (Ok tt) ex_world2 ex_names) as (_ & H & _).
  - apply (ok_run (DeletePolicy ex_reconciler ex_pb_view)). vm_compute. reflexivity.
  - split; [apply H|]; apply (bool_decide_unpack _); vm_compute; exact I.
Defined.

Lemma reconcilePolicy_terminates_witness :
  (reconcilePolicy ex_reconciler ex_pb_view ex_policy_world).1 ≠ OutOfFuel.
Proof.
  apply reconcilePolicy_terminates.
  - vm_compute. lia.
  - intros g w Hg. discriminate Hg.
Defined.

Definition ex_reconciler_sub : PolicyReconciler RefStore RefK8s := mkPolicyReconciler _ _ true "store" None 10.
Definition ex_pb_lost := ex_binding "lost" "no-such-role" [ex_alice].

Lemma missing_role_revokes_witness :
  (reconcilePolicy ex_reconciler_sub ex_pb_lost ex_world1).2 = (DeletePolicy ex_reconciler_sub ex_pb_lost ex_world1).2.
Proof.
  apply (missing_role_revokes ex_reconciler_sub ex_pb_lost ex_world1
    (ErrWrap "role 'no-such-role' not found: " (NewNotFound "roles" "no-such-role"))
    "rm/Project:p1" (list_to_set ["rm/projects.get"; "rm/projects.list"])).
  - reflexivity.
  - reflexivity.
  - vm_compute. reflexivity.
  - vm_compute. reflexivity.
  - reflexivity.
Defined.

Lemma reconcilePolicy_idempotent_witness :
  (reconcilePolicy ex_reconciler ex_pb_view ex_world1).2 = ex_world1.
Proof.
  apply (reconcilePolicy_idempotent ex_reconciler ex_pb_view ex_policy_world ex_world1
    (reconcilePolicy ex_reconciler ex_pb_view ex_world1).1
    (reconcilePolicy ex_reconciler ex_pb_view ex_world1).2 ex_names ex_guard ex_run1).
  - vm_compute. reflexivity.
  - apply surjective_pairing.
Defined.
