(* ===== verification/AuthModel.v ===== *)
(** * [internal/openfga/authorization_model_reconciler.go]: the authorization model

    The model the registrations call for, its merge with the store's current
    model, and its publication. *)

From S2P Require Import Prelude GoStrings GoErr Types Constants Permissions Hash ResourceGraph.
From S2P Require Import World Fga Tuples.

Definition AuthorizationModelIDKey : string := "model-id".

Record AuthorizationModelReconciler := mkAMReconciler {
  amr_EnableSubresourceAuthorization : bool;
  amr_StoreID : string;
  amr_hasK8sClient : bool;
  amr_Namespace : string;
  amr_ConfigMapName : string
}.

(** ** Type definitions *)

(** [Userset_This] with its message, as the code writes it on permissions. *)
Definition this_userset : Userset := Userset_This (Some tt).

(** Users and group members may hold a permission directly. *)
Definition permission_metadata : RelationMetadata :=
  mkRelMeta [mkRelRef TypeInternalUser None; mkRelRef TypeInternalUserGroup (Some RelationMember)].

Definition getResourceParentRelatedTypes (parents : list string) : list RelationReference :=
  map (λ parent, mkRelRef parent None) (sort_Strings parents).

(** The rewrite of a permission: direct holders, and the parent's, if there is one. *)
Definition permission_userset (hasParents : bool) (hashedPermission : string) : Userset :=
  let permChildren :=
    this_userset ::
    (if hasParents then [Userset_TupleToUserset RelationParent hashedPermission] else []) in
  match permChildren with
  | [u] => u
  | _ => Userset_Union permChildren
  end.

(** One permission in the loop over them. *)
Definition addPermission (hasParents : bool) (acc : gmap string RelationMetadata * gmap string Userset)
    (permission : string) : gmap string RelationMetadata * gmap string Userset :=
  let hashedPermission := hashPermission permission in
  (<[hashedPermission := permission_metadata]> acc.1,
   <[hashedPermission := permission_userset hasParents hashedPermission]> acc.2).

Definition getResourceTypeDefinition (permissions : list string) (resourceNode : resourceGraphNode)
    : TypeDefinition :=
  let hasParents := match ParentResources resourceNode with [] => false | _ => true end in
  let metadata0 : gmap string RelationMetadata :=
    if hasParents
    then {[ RelationParent := mkRelMeta (getResourceParentRelatedTypes (ParentResources resourceNode)) ]}
    else ∅ in
  let relations0 : gmap string Userset :=
    if hasParents then {[ RelationParent := Userset_This None ]} else ∅ in
  let '(metadata, relations) :=
    foldl (addPermission hasParents)
      (metadata0, relations0) permissions in
  mkTypeDef (ResourceType resourceNode)
    (mkMetadata metadata SourceFile (hd "" (Split (ResourceType resourceNode) slash_byte))) relations.

Definition getUserTypeDefinition : TypeDefinition :=
  mkTypeDef TypeInternalUser (mkMetadata ∅ SourceFile Module_) ∅.

Definition getUserGroupTypeDefinition : TypeDefinition :=
  mkTypeDef TypeInternalUserGroup
    (mkMetadata {[ RelationMember := mkRelMeta [mkRelRef TypeInternalUser None];
                   RelationAssignee := mkRelMeta [] ]} SourceFile Module_)
    {[ RelationMember := this_userset;
       RelationAssignee := Userset_ComputedUserset RelationMember ]}.

Definition getRootTypeDefinition (permissions : list string) : TypeDefinition :=
  let '(metadata, relations) :=
    foldl (addPermission false)
      (∅, ∅) permissions in
  mkTypeDef TypeRoot (mkMetadata metadata SourceFile Module_) relations.

Definition getMinimalAuthorizationModel : AuthorizationModel :=
  mkModel "" "1.2" [getUserTypeDefinition; getUserGroupTypeDefinition] [].

(** A child's definitions overwrite those met before. *)
Fixpoint getResourceTypeDefinitionsWithHierarchicalPermissions
    (hierarchicalPermissions : gmap string (list string)) (node : resourceGraphNode)
    : gmap string TypeDefinition :=
  match node with
  | Node ty direct parents children =>
    let types :=
      if negb (String.eqb ty TypeRoot)
      then {[ ty := getResourceTypeDefinition (mapList hierarchicalPermissions ty) (Node ty direct parents children) ]}
      else ∅ in
    foldl (λ types child,
      getResourceTypeDefinitionsWithHierarchicalPermissions hierarchicalPermissions child ∪ types)
      types children
  end.

(** ** The expected model *)

(** [sort.Slice] by type, then by name. *)
Definition pr_order (a b : ProtectedResource) : Prop :=
  if decide (fqResourceType (pr_Spec a) = fqResourceType (pr_Spec b))
  then String.le (om_Name (pr_Meta a)) (om_Name (pr_Meta b))
  else String.le (fqResourceType (pr_Spec a)) (fqResourceType (pr_Spec b)).

#[export] Instance pr_order_dec : RelDecision pr_order.
Proof. intros a b. unfold pr_order. destruct (decide _); apply _. Defined.

Definition sortedPRs (prs : list ProtectedResource) : list ProtectedResource := merge_sort pr_order prs.

Definition allPermissionsOf (hierarchicalPermissions : gmap string (list string)) : gset string :=
  list_to_set (concat (map snd (map_to_list hierarchicalPermissions))).

Definition expectedTypes (resourceGraph : resourceGraphNode) : list TypeDefinition :=
  let hierarchicalPermissions := calculateHierarchicalPermissions resourceGraph in
  let allPermissions := sort_Strings (elements (allPermissionsOf hierarchicalPermissions)) in
  let resourceTypeDefinitions :=
    getResourceTypeDefinitionsWithHierarchicalPermissions hierarchicalPermissions resourceGraph in
  let sortedResourceTypes := sort_Strings (elements (dom resourceTypeDefinitions)) in
  [getUserTypeDefinition; getUserGroupTypeDefinition] ++
  omap (λ ty, resourceTypeDefinitions !! ty) sortedResourceTypes ++
  [getRootTypeDefinition allPermissions].

Definition createExpectedAuthorizationModel (r : AuthorizationModelReconciler)
    (protectedResources : list ProtectedResource) : outcome AuthorizationModel :=
  match protectedResources with
  | [] => Ok getMinimalAuthorizationModel
  | _ =>
    resourceGraph ← outcome_map_err (λ e, ErrText ("failed to get resource graph: " +:+ Error e))
      (getResourceGraph (sortedPRs protectedResources) (amr_EnableSubresourceAuthorization r));
    Ok (mkModel "" "1.2" (expectedTypes resourceGraph) [])
  end.

(** ** The merge *)

Definition iamSystemType (ty : string) : bool :=
  String.eqb ty TypeInternalUser || String.eqb ty TypeInternalUserGroup || String.eqb ty TypeRoot.

(** A type kept from the current model: written in OpenFGA's own language. *)
Definition kept (td : TypeDefinition) : bool :=
  negb (iamSystemType (td_Type td)) && (length (Split (td_Type td) slash_byte) =? 1)%nat.

Fixpoint addNewTypes (existingTypes : gset string) (tds : list TypeDefinition) : list TypeDefinition :=
  match tds with
  | [] => []
  | td :: tds' =>
    if bool_decide (td_Type td ∈ existingTypes) then addNewTypes existingTypes tds'
    else td :: addNewTypes ({[td_Type td]} ∪ existingTypes) tds'
  end.

Definition mergeAuthorizationModels (current new : AuthorizationModel) : AuthorizationModel :=
  let keptTypes := List.filter kept (am_TypeDefinitions current) in
  mkModel "" (am_SchemaVersion new)
    (keptTypes ++ addNewTypes (list_to_set (map td_Type keptTypes)) (am_TypeDefinitions new))
    (am_Conditions current).

(** ** Reconciliation *)

(** [cmp.Equal] of two models with the comparison options. *)
Class ModelCmp := cmp_Equal : AuthorizationModel → AuthorizationModel → bool.

Definition authorizationModelsEqual `{ModelCmp} (current merged : option AuthorizationModel) : bool :=
  match current, merged with
  | None, None => true
  | None, _ | _, None => false
  | Some current, Some merged => cmp_Equal current merged
  end.

(** [controllerutil.CreateOrUpdate] on a ConfigMap: its data, if it exists, is
    passed through the function. *)
Class ConfigMapClient (K : Type) := {
  cm_CreateOrUpdate : NamespacedName → (gmap string string → gmap string string) → M K unit
}.

Section reconcile.
Context {F K : Type} `{FgaClient F} `{ConfigMapClient K} `{ModelCmp}.
Context (r : AuthorizationModelReconciler).

Definition writeModelIDToConfigMap (modelID : string) : M (World F K) unit :=
  wrapf "failed to create/update authorization model ConfigMap: "
    (on_k8s (cm_CreateOrUpdate (mkNN (amr_Namespace r) (amr_ConfigMapName r))
               (λ data, <[AuthorizationModelIDKey := modelID]> data))).

Definition emptyModel : AuthorizationModel := mkModel "" "" [] [].

Definition getCurrentAuthorizationModel : M (World F K) AuthorizationModel :=
  model ← on_fga (latestAuthorizationModel (amr_StoreID r));
  mret (default emptyModel model).

Definition publish (modelID : string) : M (World F K) unit :=
  if amr_hasK8sClient r && negb (String.eqb (amr_Namespace r) "") && negb (String.eqb modelID "")
  then wrapf "failed to publish authorization model ID: " (writeModelIDToConfigMap modelID)
  else mret tt.

Definition ReconcileAuthorizationModel (protectedResources : list ProtectedResource) : M (World F K) unit :=
  currentAuthorizationModel ← wrapf "failed to get current authorization model: " getCurrentAuthorizationModel;
  newAuthorizationModel ← wrapf "failed to create new authorization model: "
    (lift (createExpectedAuthorizationModel r protectedResources));
  let merged := mergeAuthorizationModels currentAuthorizationModel newAuthorizationModel in
  if authorizationModelsEqual (Some currentAuthorizationModel) (Some merged)
  then publish (am_Id currentAuthorizationModel)
  else
    id ← wrapf "failed to reconcile authorization model: "
      (on_fga (fga_WriteAuthorizationModel
        (mkWriteModel (amr_StoreID r) (am_SchemaVersion merged) (am_TypeDefinitions merged) (am_Conditions merged))));
    publish id.
End reconcile.
