(* ===== verification/AuthModelFacts.v ===== *)
(** * Facts about the authorization model *)

From S2P Require Import Prelude GoStrings GoErr Types Constants Permissions Hash ResourceGraph.
From S2P Require Import ResourceGraphFacts ResourceGraphSpec World Fga Tuples TuplesFacts.
From S2P Require Import AuthModel.
From Stdlib Require Import Ascii.

#[local] Arguments hashPermission : simpl never.

(** ** Relations of a type definition *)

Definition has_parents (n : resourceGraphNode) : bool :=
  match ParentResources n with [] => false | _ => true end.

Lemma permission_loop hp perms md rel :
  let r := foldl (addPermission hp) (md, rel) perms in
  ∀ h, r.1 !! h = (if bool_decide (h ∈ map hashPermission perms) then Some permission_metadata else md !! h) ∧
       r.2 !! h = (if bool_decide (h ∈ map hashPermission perms) then Some (permission_userset hp h) else rel !! h).
Proof.
  revert md rel. induction perms as [|p perms IH]; intros md rel r h; [done|].
  subst r. cbn [foldl map]. unfold addPermission at 2 4. cbn [fst snd].
  destruct (IH (<[hashPermission p := permission_metadata]> md)
      (<[hashPermission p := permission_userset hp (hashPermission p)]> rel) h) as [-> ->].
  destruct (decide (h ∈ map hashPermission perms)) as [Hin|Hin].
  - rewrite !bool_decide_eq_true_2 by set_solver. done.
  - rewrite bool_decide_eq_false_2 by done. destruct (decide (hashPermission p = h)) as [<-|Hne].
    + rewrite bool_decide_eq_true_2 by set_solver. by rewrite !lookup_insert_eq.
    + rewrite bool_decide_eq_false_2 by set_solver. by rewrite !lookup_insert_ne.
Qed.

Lemma resource_relations perms n h :
  h ∈ map hashPermission perms →
  md_Relations (td_Metadata (getResourceTypeDefinition perms n)) !! h = Some permission_metadata ∧
  td_Relations (getResourceTypeDefinition perms n) !! h = Some (permission_userset (has_parents n) h).
Proof.
  intros Hin. unfold getResourceTypeDefinition, has_parents.
  set (hp := match ParentResources n with [] => false | _ => true end).
  pose proof (permission_loop hp perms
    (if hp then {[ RelationParent := mkRelMeta (getResourceParentRelatedTypes (ParentResources n)) ]} else ∅)
    (if hp then {[ RelationParent := Userset_This None ]} else ∅) h) as HL.
  cbv zeta in *. destruct (foldl _ _ perms) as [md rel]. simpl in *.
  rewrite !bool_decide_eq_true_2 in HL by done. done.
Qed.

(** "parent" is six bytes long, a hashed permission eight. *)
Lemma hash_not_parent p : hashPermission p ≠ RelationParent.
Proof.
  intros E. apply (f_equal String.length) in E. by vm_compute in E.
Qed.

Lemma resource_parent_relation perms n :
  ParentResources n ≠ [] →
  md_Relations (td_Metadata (getResourceTypeDefinition perms n)) !! RelationParent =
    Some (mkRelMeta (getResourceParentRelatedTypes (ParentResources n))) ∧
  td_Relations (getResourceTypeDefinition perms n) !! RelationParent = Some (Userset_This None).
Proof.
  intros Hp. unfold getResourceTypeDefinition.
  assert (match ParentResources n with [] => false | _ => true end = true) as -> by by destruct (ParentResources n).
  pose proof (permission_loop true perms
    {[ RelationParent := mkRelMeta (getResourceParentRelatedTypes (ParentResources n)) ]}
    {[ RelationParent := Userset_This None ]} RelationParent) as HL.
  cbv zeta in *. destruct (foldl _ _ perms) as [md rel]. cbn [fst snd md_Relations td_Relations td_Metadata] in *.
  rewrite !bool_decide_eq_false_2, !lookup_singleton_eq in HL; [done|..];
    by intros (p & _ & E%eq_sym%hash_not_parent)%elem_of_map.
Qed.

Lemma root_relations perms h :
  h ∈ map hashPermission perms →
  md_Relations (td_Metadata (getRootTypeDefinition perms)) !! h = Some permission_metadata ∧
  td_Relations (getRootTypeDefinition perms) !! h = Some this_userset.
Proof.
  intros Hin. unfold getRootTypeDefinition. pose proof (permission_loop false perms ∅ ∅ h) as HL.
  cbv zeta in *. cbn [permission_userset] in HL. destruct (foldl _ _ perms) as [md rel].
  cbn [fst snd md_Relations td_Relations td_Metadata] in *.
  rewrite !bool_decide_eq_true_2 in HL by done. done.
Qed.

(** Nothing else is a relation of a resource type, or of the root type. *)
Lemma resource_relations_inv perms n rel u :
  td_Relations (getResourceTypeDefinition perms n) !! rel = Some u →
  (rel = RelationParent ∧ ParentResources n ≠ [] ∧ u = Userset_This None) ∨
  (rel ∈ map hashPermission perms ∧ u = permission_userset (has_parents n) rel).
Proof.
  unfold getResourceTypeDefinition, has_parents.
  set (hp := match ParentResources n with [] => false | _ => true end).
  pose proof (permission_loop hp perms
    (if hp then {[ RelationParent := mkRelMeta (getResourceParentRelatedTypes (ParentResources n)) ]} else ∅)
    (if hp then {[ RelationParent := Userset_This None ]} else ∅) rel) as HL.
  cbv zeta in *. destruct (foldl _ _ perms) as [md rels]. cbn [fst snd td_Relations] in *. destruct HL as [_ ->].
  case_bool_decide as Hin; [intros [= <-]; by right|]. destruct hp eqn:Ehp; [|by rewrite lookup_empty].
  intros [<- <-]%lookup_singleton_Some. left. split_and!; [done| |done]. intros E. unfold hp in Ehp. by rewrite E in Ehp.
Qed.

Lemma root_relations_inv perms rel u :
  td_Relations (getRootTypeDefinition perms) !! rel = Some u → rel ∈ map hashPermission perms ∧ u = this_userset.
Proof.
  unfold getRootTypeDefinition. pose proof (permission_loop false perms ∅ ∅ rel) as HL.
  cbv zeta in *. cbn [permission_userset] in HL. destruct (foldl _ _ perms) as [md rels].
  cbn [fst snd td_Relations] in *. destruct HL as [_ ->]. case_bool_decide; [by intros [= <-]|by rewrite lookup_empty].
Qed.

Lemma td_Type_resource perms n : td_Type (getResourceTypeDefinition perms n) = ResourceType n.
Proof. unfold getResourceTypeDefinition. by destruct (foldl _ _ perms). Qed.

Lemma td_Type_root perms : td_Type (getRootTypeDefinition perms) = TypeRoot.
Proof. unfold getRootTypeDefinition. by destruct (foldl _ _ perms). Qed.

(** ** The definitions of a graph *)

Lemma type_definitions_lookup H n ty td :
  getResourceTypeDefinitionsWithHierarchicalPermissions H n !! ty = Some td →
  ∃ m, subnode n m ∧ ResourceType m = ty ∧ ty ≠ TypeRoot ∧ td = getResourceTypeDefinition (mapList H ty) m.
Proof.
  revert ty td. induction n as [t d p ch IH] using node_induction. intros ty td.
  cbn [getResourceTypeDefinitionsWithHierarchicalPermissions].
  set (types0 := if negb (String.eqb t TypeRoot) then _ else ∅).
  assert (∀ ty td, types0 !! ty = Some td →
    ∃ m, subnode (Node t d p ch) m ∧ ResourceType m = ty ∧ ty ≠ TypeRoot ∧ td = getResourceTypeDefinition (mapList H ty) m) as H0.
  { intros ty' td'. subst types0. destruct (String.eqb_spec t TypeRoot); simpl; [by rewrite lookup_empty|].
    intros [<- <-]%lookup_singleton_Some. exists (Node t d p ch). done. }
  assert (∀ c, c ∈ ch → child_of (Node t d p ch) c) as Hch by done.
  revert H0 Hch. generalize types0. clear types0. rewrite Forall_forall in IH.
  assert (∀ l, (∀ c, c ∈ l → c ∈ ch) → ∀ types : gmap string TypeDefinition,
    (∀ ty td, types !! ty = Some td →
      ∃ m, subnode (Node t d p ch) m ∧ ResourceType m = ty ∧ ty ≠ TypeRoot ∧ td = getResourceTypeDefinition (mapList H ty) m) →
    foldl (λ types child, getResourceTypeDefinitionsWithHierarchicalPermissions H child ∪ types) types l !! ty = Some td →
    ∃ m, subnode (Node t d p ch) m ∧ ResourceType m = ty ∧ ty ≠ TypeRoot ∧ td = getResourceTypeDefinition (mapList H ty) m) as HL.
  { induction l as [|c l IHl]; intros Hl types Ht; cbn [foldl]; [apply Ht|].
    apply IHl; [intros; apply Hl; by right|]. intros ty' td'. rewrite lookup_union_Some_raw.
    intros [E|[_ E]]; [|by apply Ht]. apply IH in E as (m & Hm & ?); [|apply Hl; left].
    exists m. split; [|done]. eapply rtc_l; [|exact Hm]. apply Hl. left. }
  intros types Ht _. by apply (HL ch).
Qed.

Lemma type_definitions_dom H n m :
  subnode n m → ResourceType m ≠ TypeRoot →
  is_Some (getResourceTypeDefinitionsWithHierarchicalPermissions H n !! ResourceType m).
Proof.
  intros Hs Hr. revert Hs. induction n as [t d p ch IH] using node_induction. intros Hs.
  cbn [getResourceTypeDefinitionsWithHierarchicalPermissions]. rewrite Forall_forall in IH.
  assert (∀ l (types : gmap string TypeDefinition) ty,
    is_Some (types !! ty) ∨ (∃ c, c ∈ l ∧ is_Some (getResourceTypeDefinitionsWithHierarchicalPermissions H c !! ty)) →
    is_Some (foldl (λ types child, getResourceTypeDefinitionsWithHierarchicalPermissions H child ∪ types) types l !! ty)) as HL.
  { induction l as [|c l IHl]; intros types ty HS; cbn [foldl].
    - destruct HS as [?|(? & ?%elem_of_nil & _)]; done.
    - apply IHl. rewrite lookup_union_is_Some. destruct HS as [?|(x & [->|Hx]%elem_of_cons & ?)]; eauto. }
  apply HL. inversion Hs as [|? c ? Hc Hcm]; subst.
  - left. simpl. destruct (String.eqb_spec t TypeRoot); [done|]. simpl. rewrite lookup_singleton_eq. eauto.
  - right. exists c. split; [exact Hc|]. by apply IH.
Qed.

(** ** The merge *)

Lemma Split_slash_one s : length (Split s slash_byte) = 1 → has_byte slash_byte s = false.
Proof.
  intros E. destruct (has_byte slash_byte s) eqn:Hb; [|done]. exfalso.
  destruct (IndexByte_split s slash_byte) as (a & b & -> & Ha & _).
  - destruct (Z.ltb_spec (IndexByte s slash_byte) 0) as [Hl|]; [|lia].
    apply IndexByte_none in Hl. congruence.
  - rewrite Split_app in E by done. simpl in E. pose proof (Split_nonnil b slash_byte).
    by destruct (Split b slash_byte).
Qed.

Lemma addNewTypes_spec seen tds :
  NoDup (map td_Type (addNewTypes seen tds)) ∧
  (∀ td, td ∈ addNewTypes seen tds → td ∈ tds ∧ td_Type td ∉ seen) ∧
  (∀ ty, ty ∈ map td_Type tds → ty ∈ seen ∨ ty ∈ map td_Type (addNewTypes seen tds)).
Proof.
  revert seen. induction tds as [|td tds IH]; intros seen; cbn [addNewTypes].
  - split_and!; [constructor|by intros ? ?%elem_of_nil|by intros ? ?%elem_of_nil].
  - case_bool_decide as Hin.
    + destruct (IH seen) as (HA & HB & HC). split_and!; [done| |].
      * intros x [? ?]%HB. split; [by right|done].
      * cbn [map]. intros ty [->|?]%elem_of_cons; [by left|by apply HC].
    + destruct (IH ({[td_Type td]} ∪ seen)) as (HA & HB & HC). cbn [map]. split_and!.
      * constructor; [|done]. intros (x & Hx & E)%elem_of_map. apply HB in Hx as [_ Hx]. set_solver.
      * intros x [->|Hx]%elem_of_cons; [split; [left|done]|]. apply HB in Hx as [? ?].
        split; [by right|set_solver].
      * intros ty [->|Hty]%elem_of_cons; [right; left|]. apply HC in Hty. set_solver.
Qed.

(** Distinct new types are all added. *)
Lemma addNewTypes_all seen tds :
  NoDup (map td_Type tds) → (∀ td, td ∈ tds → td_Type td ∉ seen) → addNewTypes seen tds = tds.
Proof.
  revert seen. induction tds as [|td tds IH]; intros seen; cbn [addNewTypes map]; [done|].
  intros [Hn HN]%NoDup_cons Hs. rewrite bool_decide_eq_false_2 by (apply Hs; left). f_equal.
  apply IH; [done|]. intros x Hx. apply not_elem_of_union. split; [|apply Hs; by right].
  intros E%elem_of_singleton. apply Hn. rewrite <- E. apply elem_of_map. eauto.
Qed.

(** What the merge leaves of the new types does not depend on what was merged before. *)
Lemma addNewTypes_again seen1 seen2 tds :
  (∀ td, td ∈ tds → td_Type td ∈ seen1 ↔ td_Type td ∈ seen2) → addNewTypes seen1 tds = addNewTypes seen2 tds.
Proof.
  revert seen1 seen2. induction tds as [|td tds IH]; intros seen1 seen2 E; cbn [addNewTypes]; [done|].
  assert (bool_decide (td_Type td ∈ seen1) = bool_decide (td_Type td ∈ seen2)) as ->.
  { apply bool_decide_ext, E. left. }
  case_bool_decide; [apply IH; intros; apply E; by right|]. f_equal. apply IH.
  intros x Hx. rewrite !elem_of_union. rewrite (E x); [done|by right].
Qed.

Lemma kept_no_slash td : kept td = true → has_byte slash_byte (td_Type td) = false.
Proof. unfold kept. intros [_ E%Nat.eqb_eq]%andb_true_iff. by apply Split_slash_one. Qed.

(** Merging again adds nothing, as every new type has a slash. *)
Lemma merge_again current new id :
  (∀ td, td ∈ am_TypeDefinitions new → has_byte slash_byte (td_Type td) = true) →
  let merged := mergeAuthorizationModels current new in
  mergeAuthorizationModels (mkModel id (am_SchemaVersion merged) (am_TypeDefinitions merged) (am_Conditions merged)) new = merged.
Proof.
  intros Hs merged. subst merged. unfold mergeAuthorizationModels. cbn [am_TypeDefinitions am_Conditions am_SchemaVersion].
  set (keptTypes := List.filter kept (am_TypeDefinitions current)).
  set (added := addNewTypes _ (am_TypeDefinitions new)).
  assert (List.filter kept (keptTypes ++ added) = keptTypes) as ->.
  { rewrite List.filter_app.
    assert (List.filter kept added = []) as ->.
    { apply list_empty_iff. intros td [Hin Hk]%elem_of_List_filter.
      apply addNewTypes_spec in Hin as [Hin _]. apply kept_no_slash in Hk. rewrite Hs in Hk by done. done. }
    rewrite (right_id_L [] (++)). subst keptTypes. clear. induction (am_TypeDefinitions current) as [|td l IH]; [done|].
    simpl. destruct (kept td) eqn:E; simpl; [rewrite E; by f_equal|done]. }
  done.
Qed.
