(* ===== verification/AuthModelSpec.v ===== *)
(** * What the authorization model guarantees *)

From S2P Require Import Prelude GoStrings GoErr Types Constants Permissions Hash ResourceGraph.
From S2P Require Import ResourceGraphFacts ResourceGraphSpec World Fga Tuples TuplesFacts.
From S2P Require Import AuthModel AuthModelFacts PolicyReconciler PolicyReconcilerFacts.
From Stdlib Require Import Ascii.

#[local] Arguments hashPermission : simpl never.

(** ** The types of the expected model *)

Lemma elem_of_expectedTypes g td :
  td ∈ expectedTypes g ↔
  td = getUserTypeDefinition ∨ td = getUserGroupTypeDefinition ∨
  (∃ ty, getResourceTypeDefinitionsWithHierarchicalPermissions (calculateHierarchicalPermissions g) g !! ty = Some td) ∨
  td = getRootTypeDefinition (sort_Strings (elements (allPermissionsOf (calculateHierarchicalPermissions g)))).
Proof.
  unfold expectedTypes. rewrite !elem_of_app, !elem_of_cons, !elem_of_nil.
  set (defs := getResourceTypeDefinitionsWithHierarchicalPermissions _ _).
  assert (td ∈ omap (λ ty, defs !! ty) (sort_Strings (elements (dom defs))) ↔ ∃ ty, defs !! ty = Some td) as ->.
  { rewrite list_elem_of_omap. setoid_rewrite elem_of_sort_Strings. setoid_rewrite elem_of_elements.
    setoid_rewrite elem_of_dom. unfold is_Some. naive_solver. }
  naive_solver.
Qed.

Lemma elem_of_allPermissions H p :
  p ∈ allPermissionsOf H ↔ ∃ (ty : string) (ps : list string), H !! ty = Some ps ∧ p ∈ ps.
Proof.
  unfold allPermissionsOf. rewrite elem_of_list_to_set, list_elem_of_In, in_concat. split.
  - intros (ps & Hin & Hp). apply in_map_iff in Hin as ([ty ps'] & <- & Hin).
    apply list_elem_of_In, elem_of_map_to_list in Hin. exists ty, ps'. split; [done|]. by apply list_elem_of_In.
  - intros (ty & ps & Hl & Hp). exists ps. split; [|by apply list_elem_of_In].
    apply in_map_iff. exists (ty, ps). split; [done|]. by apply list_elem_of_In, elem_of_map_to_list.
Qed.

(** ** References between relations *)

(** The type of a direct holder is defined and, for [type#relation], has the relation. *)
Definition reference_resolves (m : AuthorizationModel) (ref : RelationReference) : Prop :=
  ∃ td, td ∈ am_TypeDefinitions m ∧ td_Type td = relref_Type ref ∧
    match relref_Relation ref with None => True | Some rel => is_Some (td_Relations td !! rel) end.

(** A declared parent of the type that is not reached from a root: one that no live
    registration defines, say. *)
Definition unreached_parent (prs : list ProtectedResource) (td : TypeDefinition) (ref : RelationReference) : Prop :=
  ¬ pr_reachable prs (relref_Type ref) ∧ relref_Type ref ≠ TypeRoot ∧
  ∃ pr, pr ∈ prs ∧ live pr = true ∧ pr_type pr = td_Type td ∧ ref = mkRelRef (relref_Type ref) None ∧
    relref_Type ref ∈ parentFQNs (pr_Spec pr).

(** What the rewrite of the relation [rel] of [td] refers to is there: a direct relation
    has holders' types, of which the model has one at least, and all but the declared
    parents that are not reached; a computed relation is one of the type's own; the
    relation of a parent is one of a listed parent type. *)
Fixpoint rewrite_resolves (prs : list ProtectedResource) (m : AuthorizationModel) (td : TypeDefinition) (rel : string)
    (u : Userset) : Prop :=
  match u with
  | Userset_This _ => ∃ refs, md_Relations (td_Metadata td) !! rel = Some (mkRelMeta refs) ∧
      (∃ ref, ref ∈ refs ∧ reference_resolves m ref) ∧
      ∀ ref, ref ∈ refs → reference_resolves m ref ∨ rel = RelationParent ∧ unreached_parent prs td ref
  | Userset_ComputedUserset rel' => is_Some (td_Relations td !! rel')
  | Userset_TupleToUserset tupleset computed => td_Relations td !! tupleset = Some (Userset_This None) ∧
      ∃ refs ref td', md_Relations (td_Metadata td) !! tupleset = Some (mkRelMeta refs) ∧ ref ∈ refs ∧
        td' ∈ am_TypeDefinitions m ∧ td_Type td' = relref_Type ref ∧ is_Some (td_Relations td' !! computed)
  | Userset_Union children => children ≠ [] ∧ foldr (λ child P, rewrite_resolves prs m td rel child ∧ P) True children
  end.

Section registry.
Context (prs : list ProtectedResource) (en : bool) (g : resourceGraphNode).
Hypothesis Hg : getResourceGraph prs en = Ok g.
Hypothesis ND : NoDup (live_types prs).
Hypothesis HR : TypeRoot ∉ live_types prs.

Lemma reachable_registered ty : pr_reachable prs ty → ty ∈ live_types prs.
Proof.
  intros (r & (q & ? & ? & <- & _) & Hrtc).
  apply rtc_inv_r in Hrtc as [<-|(a & _ & (q2 & ? & ? & <- & _))]; apply elem_of_live_types; eauto.
Qed.

(** A definition of a resource type is a reached registration's, with its parents. *)
Lemma definition_node ty td :
  getResourceTypeDefinitionsWithHierarchicalPermissions (calculateHierarchicalPermissions g) g !! ty = Some td →
  pr_reachable prs ty ∧
  ∃ n pr, pr ∈ prs ∧ live pr = true ∧ pr_type pr = ty ∧ ResourceType n = ty ∧
    ParentResources n = sort_Strings (parentFQNs (pr_Spec pr)) ∧
    td = getResourceTypeDefinition (mapList (calculateHierarchicalPermissions g) ty) n.
Proof.
  intros Htd. apply getResourceGraph_Ok in Hg as (nodes & -> & Hf & Hroots).
  destruct (type_definitions_lookup _ _ _ _ Htd) as (m & Hm & Et & Hnr & ->).
  assert (graph_node nodes m) as Hgn.
  { inversion Hm as [|? c ? Hc Hcm]; subst; [by simpl in Hnr|]. by exists c. }
  split; [apply (graph_node_reachable _ en nodes); [done..|by exists m]|].
  pose proof (graph_node_tree _ _ nodes _ Hf Hgn) as Htree.
  apply is_tree_inv in Htree as (d & Hd & _ & _ & Hp & _).
  apply tables_resources in Hd as (pr & Hpr & L & Ept & ->); [|done].
  exists m, pr. by rewrite Ept.
Qed.

(** Each reached type has its definition. *)
Lemma reachable_definition ty :
  pr_reachable prs ty →
  ∃ n pr, pr ∈ prs ∧ live pr = true ∧ pr_type pr = ty ∧ ResourceType n = ty ∧
    ParentResources n = sort_Strings (parentFQNs (pr_Spec pr)) ∧
    getResourceTypeDefinition (mapList (calculateHierarchicalPermissions g) ty) n ∈ expectedTypes g.
Proof.
  intros Hre. assert (ty ≠ TypeRoot) as Hnr by by intros ->; apply HR, reachable_registered.
  assert (is_Some (getResourceTypeDefinitionsWithHierarchicalPermissions (calculateHierarchicalPermissions g) g !! ty)) as [td Htd].
  { apply getResourceGraph_Ok in Hg as Hg'. destruct Hg' as (nodes & -> & Hf & Hroots).
    apply (graph_node_reachable _ en nodes) in Hre as (n & (r & Hin & Hs) & <-); [|done..].
    apply type_definitions_dom; [|done]. by eapply rtc_l; [exact Hin|]. }
  destruct (definition_node _ _ Htd) as (_ & n & pr & ? & ? & ? & ? & ? & ->).
  exists n, pr. split_and!; [done..|]. apply elem_of_expectedTypes. right; right; left. eauto.
Qed.

Lemma reachable_perms ty p :
  pr_reachable prs ty → hierarchical prs en ty p → p ∈ mapList (calculateHierarchicalPermissions g) ty.
Proof.
  intros Hre Hp. destruct (hierarchical_aux prs en g Hg ND HR) as [HA HB].
  apply HA in Hre as [ps Hps]. unfold mapList. rewrite Hps. simpl. by apply (HB ty ps Hps).
Qed.

Lemma reached_dec ty : pr_reachable prs ty ∨ ¬ pr_reachable prs ty.
Proof.
  destruct (hierarchical_aux prs en g Hg ND HR) as [HA _].
  destruct (calculateHierarchicalPermissions g !! ty) as [ps|] eqn:E; [left; apply HA; by exists ps|right].
  by intros [ps Hps]%HA; congruence.
Qed.

(** A type that is no root is reached through one of its declared parents. *)
Lemma reachable_parent ty pr :
  pr_reachable prs ty → pr ∈ prs → live pr = true → pr_type pr = ty → parentFQNs (pr_Spec pr) ≠ [] →
  ∃ a, a ∈ parentFQNs (pr_Spec pr) ∧ pr_reachable prs a ∧ pr_edge prs a ty.
Proof.
  intros (r & Hr & Hrtc) Hpr L <- Hp.
  assert (∀ q, q ∈ prs → live q = true → pr_type q = pr_type pr → q = pr) as Huniq.
  { intros q Hq Lq Eq. by eapply live_unique. }
  apply rtc_inv_r in Hrtc as [->|(a & Hra & He)].
  - destruct Hr as (q & Hq & Lq & Eq & Hn). apply Huniq in Eq as ->; [|done..].
    unfold parentFQNs in Hp. by rewrite Hn in Hp.
  - assert (pr_reachable prs a) as Ha by by exists r.
    destruct He as (q & Hq & Lq & Eq & Hin & Hne). apply Huniq in Eq as ->; [|done..].
    exists a. split_and!; [|done|by exists pr].
    unfold effectiveParentResources in Hin. case_in Hin; [done|].
    apply elem_of_app in Hin as [?| ->%list_elem_of_singleton]; [done|].
    by apply reachable_registered in Ha.
Qed.

(** A declared parent of a reached type is defined, with the type's permissions. *)
Lemma parent_carries ty n pr :
  pr_reachable prs ty → pr ∈ prs → live pr = true → pr_type pr = ty →
  ParentResources n = sort_Strings (parentFQNs (pr_Spec pr)) → ParentResources n ≠ [] →
  ∃ a td', a ∈ ParentResources n ∧ td' ∈ expectedTypes g ∧ td_Type td' = a ∧
    ∀ p, hierarchical prs en ty p → is_Some (td_Relations td' !! hashPermission p).
Proof.
  intros Hre Hpr L Ept Epar Hne. destruct (reachable_parent ty pr) as (a & Ha & Hrea & Hedge); [done..| |].
  { intros E. rewrite E in Epar. by vm_compute in Epar. }
  destruct (reachable_definition a Hrea) as (n' & pr' & _ & _ & _ & En' & _ & Hin').
  exists a. eexists. split; [by rewrite Epar, elem_of_sort_Strings|]. split; [exact Hin'|].
  split; [by rewrite td_Type_resource|]. intros p Hp.
  destruct (resource_relations (mapList (calculateHierarchicalPermissions g) a) n' (hashPermission p)) as [_ ->];
    [|eauto]. apply elem_of_map. exists p. split; [|done].
  apply reachable_perms; [done|]. eapply hierarchical_mono; [|done]. by apply rtc_once.
Qed.

Lemma elem_of_parent_types a parents : mkRelRef a None ∈ getResourceParentRelatedTypes parents ↔ a ∈ parents.
Proof.
  unfold getResourceParentRelatedTypes. rewrite elem_of_map. setoid_rewrite elem_of_sort_Strings. naive_solver.
Qed.

Lemma relations_resolve ty p :
  pr_reachable prs ty → hierarchical prs en ty p →
  ∃ td, td ∈ expectedTypes g ∧ td_Type td = ty ∧
    md_Relations (td_Metadata td) !! hashPermission p = Some permission_metadata ∧
    (td_Relations td !! hashPermission p = Some this_userset ∨
     td_Relations td !! hashPermission p =
       Some (Userset_Union [this_userset; Userset_TupleToUserset RelationParent (hashPermission p)]) ∧
     td_Relations td !! RelationParent = Some (Userset_This None) ∧
     ∃ parents a td', md_Relations (td_Metadata td) !! RelationParent = Some (mkRelMeta parents) ∧
       mkRelRef a None ∈ parents ∧ td' ∈ expectedTypes g ∧ td_Type td' = a ∧
       is_Some (td_Relations td' !! hashPermission p)).
Proof.
  intros Hre Hp. destruct (reachable_definition ty Hre) as (n & pr & Hpr & L & Ept & En & Epar & Hin).
  assert (hashPermission p ∈ map hashPermission (mapList (calculateHierarchicalPermissions g) ty)) as Hh.
  { apply elem_of_map. eauto using reachable_perms. }
  destruct (resource_relations _ n _ Hh) as [Hmd Hrel].
  eexists. split; [exact Hin|]. split; [by rewrite td_Type_resource|]. split; [exact Hmd|].
  destruct (decide (ParentResources n = [])) as [Ep|Hne]; [left|right]; unfold has_parents in Hrel.
  { by rewrite Ep in Hrel. }
  split; [by destruct (ParentResources n)|].
  destruct (resource_parent_relation (mapList (calculateHierarchicalPermissions g) ty) n Hne) as [Hpm Hpr'].
  split; [exact Hpr'|]. destruct (parent_carries ty n pr) as (a & td' & Ha & Hin' & Ea & Hc); [done..|].
  exists (getResourceParentRelatedTypes (ParentResources n)), a, td'. split_and!; [done| |done..|by apply Hc].
  by apply elem_of_parent_types.
Qed.

Lemma root_resolves ty p :
  pr_reachable prs ty → hierarchical prs en ty p →
  ∃ td, td ∈ expectedTypes g ∧ td_Type td = TypeRoot ∧
    md_Relations (td_Metadata td) !! hashPermission p = Some permission_metadata ∧
    td_Relations td !! hashPermission p = Some this_userset.
Proof.
  intros Hre Hp. eexists. split; [apply elem_of_expectedTypes; right; right; right; reflexivity|].
  split; [apply td_Type_root|]. apply root_relations, elem_of_map. exists p. split; [|done].
  rewrite elem_of_sort_Strings, elem_of_elements, elem_of_allPermissions.
  destruct (hierarchical_aux prs en g Hg ND HR) as [HA HB]. apply HA in Hre as Hs. destruct Hs as [ps Hps].
  exists ty, ps. split; [done|]. by apply (HB ty ps Hps).
Qed.
End registry.

(** ** The model of a reconcile *)

Lemma createExpected_Ok r prs m :
  createExpectedAuthorizationModel r prs = Ok m → NoDup (live_types prs) → prs ≠ [] →
  ∃ g, getResourceGraph prs (amr_EnableSubresourceAuthorization r) = Ok g ∧
    m = mkModel "" "1.2" (expectedTypes g) [].
Proof.
  intros Hm ND Hne. unfold createExpectedAuthorizationModel in Hm. destruct prs as [|pr0 prs0]; [done|].
  apply outcome_bind_Ok in Hm as (g & Hg & [= <-]). apply outcome_map_err_Ok in Hg. exists g. split; [|done].
  rewrite <- Hg. apply getResourceGraph_perm; [|done].
  symmetry. apply merge_sort_Permutation.
Qed.

(** Users and group members are types and relations of a model with the two. *)
Lemma holders_resolve m ref :
  getUserTypeDefinition ∈ am_TypeDefinitions m → getUserGroupTypeDefinition ∈ am_TypeDefinitions m →
  ref ∈ DirectlyRelatedUserTypes permission_metadata → reference_resolves m ref.
Proof.
  intros Hu Hgr. unfold permission_metadata. cbn [DirectlyRelatedUserTypes].
  intros [->|[->|[]%elem_of_nil]%elem_of_cons]%elem_of_cons.
  - by exists getUserTypeDefinition.
  - exists getUserGroupTypeDefinition. split_and!; [done..|]. exists this_userset. vm_compute. reflexivity.
Qed.

Lemma group_rewrites_resolve prs m rel u :
  getUserTypeDefinition ∈ am_TypeDefinitions m → td_Relations getUserGroupTypeDefinition !! rel = Some u →
  rewrite_resolves prs m getUserGroupTypeDefinition rel u.
Proof.
  intros Hu. unfold getUserGroupTypeDefinition at 1. cbn [td_Relations].
  rewrite lookup_insert_Some. intros [[<- <-]|[_ [<- <-]%lookup_singleton_Some]].
  - exists [mkRelRef TypeInternalUser None].
    assert (reference_resolves m (mkRelRef TypeInternalUser None)) as HU by by exists getUserTypeDefinition.
    split_and!; [vm_compute; reflexivity|eexists; split; [left|done]|]. by intros ref ->%list_elem_of_singleton; left.
  - simpl. exists this_userset. vm_compute. reflexivity.
Qed.

Lemma this_resolves prs m td rel :
  getUserTypeDefinition ∈ am_TypeDefinitions m → getUserGroupTypeDefinition ∈ am_TypeDefinitions m →
  md_Relations (td_Metadata td) !! rel = Some permission_metadata → rewrite_resolves prs m td rel this_userset.
Proof.
  intros Hu Hgr Hmd. eexists. split; [exact Hmd|]. split; [|by intros ref Hin; left; apply holders_resolve].
  eexists. split; [left|]. apply holders_resolve; [done..|left].
Qed.

(** A resource type's: [parent], and the permissions, direct or the parent's. *)
Lemma resource_rewrites_resolve prs en g ty td rel u :
  getResourceGraph prs en = Ok g → NoDup (live_types prs) → TypeRoot ∉ live_types prs →
  getResourceTypeDefinitionsWithHierarchicalPermissions (calculateHierarchicalPermissions g) g !! ty = Some td →
  td_Relations td !! rel = Some u → rewrite_resolves prs (mkModel "" "1.2" (expectedTypes g) []) td rel u.
Proof.
  intros Hg ND HR Htd Hrel. set (m := mkModel "" "1.2" (expectedTypes g) []).
  destruct (definition_node prs en g Hg ND _ _ Htd) as (Hre & n & pr & Hpr & L & Ept & En & Epar & ->).
  set (perms := mapList (calculateHierarchicalPermissions g) ty) in *.
  assert (getUserTypeDefinition ∈ am_TypeDefinitions m ∧ getUserGroupTypeDefinition ∈ am_TypeDefinitions m) as [Hu Hgr]
    by (split; apply elem_of_expectedTypes; auto).
  apply resource_relations_inv in Hrel as [(-> & Hne & ->)|[Hh ->]].
  - destruct (resource_parent_relation perms n Hne) as [Hmd _].
    destruct (parent_carries prs en g Hg ND HR ty n pr) as (a & td' & Ha & Hin' & Ea & _); [done..|].
    eexists. split; [exact Hmd|]. split.
    + exists (mkRelRef a None). split; [by apply elem_of_parent_types|]. by exists td'.
    + intros ref Hin. apply elem_of_map in Hin as (b & Hb & ->). apply elem_of_sort_Strings in Hb.
      rewrite Epar, !elem_of_sort_Strings in Hb.
      destruct (decide (b = TypeRoot)) as [->|Hb'].
      { left. eexists. split; [apply elem_of_expectedTypes; right; right; right; reflexivity|]. split; [apply td_Type_root|done]. }
      destruct (reached_dec prs en g Hg ND HR b) as [Hrb|Hrb]; [left|right].
      * destruct (reachable_definition prs en g Hg ND HR b Hrb) as (n' & _ & _ & _ & _ & En' & _ & Hin'').
        eexists. split; [exact Hin''|]. split; [by rewrite td_Type_resource|done].
      * split; [done|]. split; [exact Hrb|]. split; [exact Hb'|]. exists pr.
        rewrite td_Type_resource, En. by split_and!.
  - destruct (resource_relations perms n rel Hh) as [Hmd _]. unfold permission_userset, has_parents.
    assert (rewrite_resolves prs m (getResourceTypeDefinition perms n) rel this_userset) as HT by by apply this_resolves.
    destruct (decide (ParentResources n = [])) as [Ep|Hne]; [by rewrite Ep|].
    destruct (resource_parent_relation perms n Hne) as [Hpm Hpr'].
    destruct (parent_carries prs en g Hg ND HR ty n pr) as (a & td' & Ha & Hin' & Ea & Hc); [done..|].
    assert (match ParentResources n with [] => false | _ => true end = true) as -> by by destruct (ParentResources n).
    split; [done|]. split; [exact HT|]. split; [|done]. split; [exact Hpr'|].
    exists (getResourceParentRelatedTypes (ParentResources n)), (mkRelRef a None), td'.
    split_and!; [done|by apply elem_of_parent_types|done..|].
    apply elem_of_map in Hh as (p & Hp & ->). apply Hc.
    destruct (hierarchical_aux prs en g Hg ND HR) as [HA HB]. apply HA in Hre as [ps Hps].
    apply (HB ty ps Hps). unfold perms, mapList in Hp. by rewrite Hps in Hp.
Qed.

Lemma rewrites_resolve r prs m td rel u :
  createExpectedAuthorizationModel r prs = Ok m → NoDup (live_types prs) → TypeRoot ∉ live_types prs →
  td ∈ am_TypeDefinitions m → td_Relations td !! rel = Some u → rewrite_resolves prs m td rel u.
Proof.
  intros Hm ND HR Hin Hrel. destruct (decide (prs = [])) as [->|Hne].
  { injection Hm as <-. simpl in Hin. apply elem_of_cons in Hin as [->|Hin]; [by unfold getUserTypeDefinition in Hrel; cbn in Hrel; rewrite lookup_empty in Hrel|].
    apply list_elem_of_singleton in Hin as ->. apply group_rewrites_resolve; [left|done]. }
  destruct (createExpected_Ok r prs m Hm ND Hne) as (g & Hg & ->). pose proof Hin as Htd.
  apply elem_of_expectedTypes in Htd as [->|[->|[[ty Hty]| ->]]].
  - unfold getUserTypeDefinition in Hrel. cbn in Hrel. by rewrite lookup_empty in Hrel.
  - apply group_rewrites_resolve; [|done]. apply elem_of_expectedTypes. by left.
  - by eapply resource_rewrites_resolve.
  - apply root_relations_inv in Hrel as [Hh ->]. destruct (root_relations _ _ Hh) as [Hmd _].
    apply this_resolves; [..|exact Hmd]; apply elem_of_expectedTypes; auto.
Qed.

Lemma types_have_slash g td : td ∈ expectedTypes g →
  (∀ n, subnode g n → ResourceType n ≠ TypeRoot → has_byte slash_byte (ResourceType n) = true) →
  has_byte slash_byte (td_Type td) = true.
Proof.
  intros [->|[->|[[ty Hty]| ->]]]%elem_of_expectedTypes Hn; [done|done| |by rewrite td_Type_root].
  apply type_definitions_lookup in Hty as (m & Hm & Em & Hr & ->). rewrite td_Type_resource. apply Hn; congruence.
Qed.

Lemma expected_types_have_slash r prs m td :
  createExpectedAuthorizationModel r prs = Ok m → td ∈ am_TypeDefinitions m →
  has_byte slash_byte (td_Type td) = true.
Proof.
  unfold createExpectedAuthorizationModel. destruct prs as [|pr prs].
  - intros [= <-]. simpl. rewrite !elem_of_cons, elem_of_nil. by intros [->|[->|[]]].
  - intros (g & Hg & [= <-])%outcome_bind_Ok Hin. apply outcome_map_err_Ok in Hg.
    eapply types_have_slash; [exact Hin|]. intros n Hs Hr.
    apply getResourceGraph_Ok in Hg as (nodes & -> & Hf & _).
    inversion Hs as [|? c ? Hc Hcm]; subst; [done|].
    assert (registry_tree (sortedPRs (pr :: prs)) (amr_EnableSubresourceAuthorization r) n) as Ht.
    { eapply graph_node_tree; [done|]. by exists c. }
    apply is_tree_inv in Ht as (_ & _ & Hlen & _).
    destruct (has_byte slash_byte (ResourceType n)) eqn:E; [done|]. by rewrite Split_none in Hlen.
Qed.

(** ** Theorems *)

(** C29: every relation of the model resolves. In the model generated for any
    registrations, whatever the rewrite of any relation of any type refers to is
    defined: the types of the direct holders (of those of [parent], one at least, and
    each but for a declared parent that is not reached itself), a computed relation on
    the type itself, a parent's relation on a listed parent type. And a type reached
    from a root has, for each permission it or a descendant enumerates, a relation that
    users and group members may hold directly and, when the type has parents, a
    parent's; so has the root type. *)
Theorem model_relations_resolve r prs m :
  createExpectedAuthorizationModel r prs = Ok m → NoDup (live_types prs) → (TypeRoot ∉ live_types prs) →
  (∀ td rel u, td ∈ am_TypeDefinitions m → td_Relations td !! rel = Some u → rewrite_resolves prs m td rel u) ∧
  (∀ ty p, pr_reachable prs ty → hierarchical prs (amr_EnableSubresourceAuthorization r) ty p →
    (∃ td, td ∈ am_TypeDefinitions m ∧ td_Type td = ty ∧
      md_Relations (td_Metadata td) !! hashPermission p = Some permission_metadata ∧
      (td_Relations td !! hashPermission p = Some this_userset ∨
       td_Relations td !! hashPermission p =
         Some (Userset_Union [this_userset; Userset_TupleToUserset RelationParent (hashPermission p)]))) ∧
    (∃ td, td ∈ am_TypeDefinitions m ∧ td_Type td = TypeRoot ∧
      td_Relations td !! hashPermission p = Some this_userset)).
Proof.
  intros Hm ND HR. split.
  - intros td rel u. by eapply rewrites_resolve.
  - intros ty p Hre Hp. destruct (createExpected_Ok r prs m) as (g & Hg & ->); [done|done| |].
    { intros ->. destruct Hre as (? & (? & Hin & _) & _). by apply elem_of_nil in Hin. }
    split.
    + destruct (relations_resolve prs _ g Hg ND HR ty p Hre Hp) as (td & ? & ? & ? & [?|(? & _)]); exists td; auto.
    + destruct (root_resolves prs _ g Hg ND HR ty p Hre Hp) as (td & ? & ? & _ & ?). eauto.
Qed.

Lemma permSetFor_all H ty p : p ∈ permSetFor H ty → p ∈ allPermissionsOf H.
Proof.
  unfold permSetFor. case_match; [|done]. rewrite elem_of_list_to_set, elem_of_allPermissions. eauto.
Qed.

Lemma root_defines g t name p :
  p ∈ allPermissionsOf (calculateHierarchicalPermissions g) →
  Object t = TypeRoot +:+ ":" +:+ name → Relation t = hashPermission p →
  model_defines (mkModel "" "1.2" (expectedTypes g) []) t.
Proof.
  intros Hp Ho Hrel. eexists _, name. split; [apply elem_of_expectedTypes; right; right; right; reflexivity|].
  rewrite td_Type_root. split; [done|]. rewrite Hrel.
  edestruct root_relations as [_ ->]; [|done].
  apply elem_of_map. exists p. split; [|done]. by rewrite elem_of_sort_Strings, elem_of_elements.
Qed.

(** C30: the two halves agree. For a binding on a resource of a type reached from a
    root, or on a resource kind, every tuple the policy reconciler wants names a type
    and a relation that the model for the same registrations defines, so OpenFGA
    accepts it - provided the target's permissions are filtered at all: with subresource
    authorization off, buildPermissionTuples does not filter by an empty set of valid
    permissions (see [unfiltered_tuple_not_in_model]). *)
Theorem wanted_tuples_are_in_model r prs m g en binding role ak target t :
  createExpectedAuthorizationModel r prs = Ok m → NoDup (live_types prs) → (TypeRoot ∉ live_types prs) →
  en = amr_EnableSubresourceAuthorization r → getResourceGraph prs en = Ok g →
  let selector := pbs_ResourceSelector (pb_Spec binding) in
  selector_type selector = Ok ak → TargetObjectFromResourceSelector selector = Ok target →
  (is_Some (sel_ResourceRef selector) → pr_reachable prs (ak.1 +:+ "/" +:+ ak.2)) →
  let valid := permSetFor (calculateHierarchicalPermissions g) (ak.1 +:+ "/" +:+ ak.2) in
  (en = true ∨ valid ≠ ∅) →
  wanted en binding role target valid t →
  model_defines m t.
Proof.
  intros Hm ND HR -> Hg selector Hty Htgt Hre valid Hen (_ & Ho & _ & perm & _ & [_ Hval] & Hrel).
  specialize (Hval Hen). pose proof (permSetFor_all _ _ _ Hval) as Hall.
  assert (prs ≠ []) as Hne.
  { intros ->. vm_compute in Hg. injection Hg as <-. clear -Hall. apply elem_of_allPermissions in Hall as (? & ? & Hl & _).
    vm_compute in Hl. discriminate. }
  destruct (createExpected_Ok r prs m Hm ND Hne) as (g' & Hg' & ->). assert (g' = g) as -> by congruence.
  unfold selector_type, TargetObjectFromResourceSelector in *.
  destruct (sel_ResourceRef selector) as [ref|].
  - injection Hty as <-. injection Htgt as <-. specialize (Hre (mk_is_Some _ _ eq_refl)).
    destruct (hierarchical_aux prs _ g Hg ND HR) as [HA HB].
    pose proof Hre as Hs. apply HA in Hs as [ps Hps]. unfold valid, permSetFor in Hval.
    rewrite Hps, elem_of_list_to_set in Hval. apply (HB _ _ Hps) in Hval.
    destruct (relations_resolve prs _ g Hg ND HR _ perm Hre Hval) as (td & Hin & Et & _ & Hr).
    exists td, (ref_Name ref). split_and!; [done| |].
    + rewrite Ho, Et. unfold ObjectName. simpl. by autorewrite with gostr.
    + rewrite Hrel. destruct Hr as [->|(-> & _)]; eauto.
  - destruct (sel_ResourceKind selector) as [rk|]; [|done]. injection Hty as <-. injection Htgt as <-.
    by eapply root_defines.
Qed.

(** The merge keeps every type written in OpenFGA's own language and the
    conditions, brings in every expected type, and defines no type twice. *)
Theorem merge_types r prs current new :
  createExpectedAuthorizationModel r prs = Ok new → NoDup (map td_Type (am_TypeDefinitions current)) →
  let merged := mergeAuthorizationModels current new in
  am_Conditions merged = am_Conditions current ∧
  (∀ td, td ∈ am_TypeDefinitions current → kept td = true → td ∈ am_TypeDefinitions merged) ∧
  (∀ td, td ∈ am_TypeDefinitions merged → td ∈ am_TypeDefinitions new ∨ td ∈ am_TypeDefinitions current ∧ kept td = true) ∧
  (∀ ty, ty ∈ map td_Type (am_TypeDefinitions new) → ty ∈ map td_Type (am_TypeDefinitions merged)) ∧
  NoDup (map td_Type (am_TypeDefinitions merged)).
Proof.
  intros Hnew ND merged. unfold merged, mergeAuthorizationModels. cbn [am_Conditions am_TypeDefinitions].
  set (keptTypes := List.filter kept (am_TypeDefinitions current)).
  set (seen := list_to_set (map td_Type keptTypes) : gset string).
  destruct (addNewTypes_spec seen (am_TypeDefinitions new)) as (HA & HB & HC). split_and!.
  - done.
  - intros td Hin Hk. apply elem_of_app. left. by apply elem_of_List_filter.
  - intros td [Hin%elem_of_List_filter|Hin%HB]%elem_of_app; [by right|left; apply Hin].
  - intros ty Hty. rewrite map_app, elem_of_app. destruct (HC ty Hty) as [Hs|Hs]; [left|by right].
    by apply elem_of_list_to_set in Hs.
  - rewrite map_app. apply NoDup_app. split_and!; [|intros ty H1 H2|done].
    + revert ND. unfold keptTypes. clear. induction (am_TypeDefinitions current) as [|td l IH]; simpl; [done|].
      intros [Hn ND]%NoDup_cons. destruct (kept td); simpl; [|auto]. constructor; [|auto].
      intros (x & Hx%elem_of_List_filter & E)%elem_of_map. apply Hn, elem_of_map. exists x. naive_solver.
    + apply elem_of_map in H2 as (td & Hin & ->). apply HB in Hin as [_ Hin]. apply Hin.
      unfold seen. by apply elem_of_list_to_set.
Qed.

(** The comparison takes models that differ in their ID alone for equal. *)
Definition cmp_ignores_id `{ModelCmp} : Prop :=
  ∀ id1 id2 v tds cs, cmp_Equal (mkModel id1 v tds cs) (mkModel id2 v tds cs) = true.

Lemma publish_fga {F K} `{FgaClient F} `{ConfigMapClient K} r id (w w' : World F K) o :
  publish r id w = (o, w') → w_fga w' = w_fga w.
Proof.
  intros E. apply (f_equal snd) in E. simpl in E. subst w'. unfold publish. case_match; [|done].
  unfold wrapf, writeModelIDToConfigMap, wrapf. by rewrite !map_err_snd.
Qed.

(** C31: after a reconcile that succeeded, the next one for the same registrations
    writes no model: the reconciler reaches a fixed point in one step. *)
Theorem ReconcileAuthorizationModel_stable {F K} `{FgaLaws F} `{ConfigMapClient K} `{ModelCmp}
    r prs (w w1 w2 : World F K) o :
  cmp_ignores_id →
  ReconcileAuthorizationModel r prs w = (Ok tt, w1) →
  ReconcileAuthorizationModel r prs w1 = (o, w2) →
  w_fga w2 = w_fga w1.
Proof.
  intros Hcmp E1 E2. unfold ReconcileAuthorizationModel in E1, E2.
  assert (reads (wrapf "failed to get current authorization model: " (getCurrentAuthorizationModel r)
    : M (World F K) _)) as Hrd.
  { unfold wrapf, getCurrentAuthorizationModel.
    apply reads_map_err, reads_bind; [apply reads_on_fga, latestAuthorizationModel_reads|done]. }
  apply bind_reads_inv in E1 as [(cur & Hcur & E1)|[_ [(? & ? & _)|[? _]]]]; [|done|done|exact Hrd].
  apply bind_reads_inv in E1 as [(new & Hnew & E1)|[_ [(? & ? & _)|[? _]]]]; [|done|done|apply reads_map_err, reads_lift].
  rewrite wrapf_fst, lift_fst in Hnew.
  apply bind_reads_inv in E2 as [(cur2 & Hcur2 & E2)|[-> _]]; [|done|exact Hrd].
  apply bind_reads_inv in E2 as [(new2 & Hnew2 & E2)|[-> _]]; [|done|apply reads_map_err, reads_lift].
  rewrite wrapf_fst, lift_fst in Hnew2. assert (new2 = new) as -> by congruence.
  rewrite wrapf_fst in Hcur, Hcur2. simpl in E1, E2.
  destruct (cmp_Equal cur _) eqn:Ec.
  { apply publish_fga in E1. unfold getCurrentAuthorizationModel in Hcur, Hcur2.
    apply bind_fst_reads in Hcur as (om & Hom & [= <-]); [|apply reads_on_fga, latestAuthorizationModel_reads].
    apply bind_fst_reads in Hcur2 as (om2 & Hom2 & [= <-]); [|apply reads_on_fga, latestAuthorizationModel_reads].
    rewrite on_fga_fst in Hom, Hom2. rewrite E1, Hom in Hom2. injection Hom2 as <-.
    rewrite Ec in E2. by apply publish_fga in E2. }
  apply bind_Ok in E1 as (id & w3 & Hw & E1). apply publish_fga in E1.
  apply wrapf_Ok, on_fga_run in Hw as (f3 & Hw & ->). simpl in E1.
  apply fga_WriteModel_Ok in Hw as [Hm _]. simpl in Hm.
  unfold getCurrentAuthorizationModel in Hcur2.
  apply bind_fst_reads in Hcur2 as (om & Hom & [= <-]); [|apply reads_on_fga, latestAuthorizationModel_reads].
  rewrite on_fga_fst in Hom. apply latestAuthorizationModel_Ok in Hom. rewrite E1, Hm in Hom.
  simpl in Hom. subst om. simpl in E2.
  pose proof (merge_again cur new id) as Hagain. simpl in Hagain. rewrite Hagain in E2.
  - unfold mergeAuthorizationModels in E2. rewrite Hcmp in E2. by apply publish_fga in E2.
  - intros td Htd. by eapply expected_types_have_slash.
Qed.

(** ** Witnesses *)

Definition ex_amr : AuthorizationModelReconciler :=
  mkAMReconciler true "store" true "milo-system" "openfga-authorization-model".

Definition model_of (prs : list ProtectedResource) : AuthorizationModel :=
  match createExpectedAuthorizationModel ex_amr prs with Ok m => m | _ => mkModel "" "" [] [] end.

Lemma example_model : createExpectedAuthorizationModel ex_amr example_prs = Ok (model_of example_prs).
Proof.
  unfold model_of. destruct (createExpectedAuthorizationModel ex_amr example_prs) eqn:E; [done|..];
    apply (f_equal is_ok) in E; vm_compute in E; discriminate E.
Qed.

Lemma example_org_root : pr_reachable example_prs "rm/Organization".
Proof.
  exists "rm/Organization". split; [|apply rtc_refl]. exists example_org. split_and!; [|done..].
  right; left.
Qed.

Lemma example_project_edge : pr_edge example_prs "rm/Organization" "rm/Project".
Proof.
  exists example_project. split_and!; [do 3 right; left|done|done| |done].
  vm_compute. left.
Qed.

Lemma example_project_reachable : pr_reachable example_prs "rm/Project".
Proof.
  destruct example_org_root as (r & Hr & Hp). exists r. split; [done|].
  eapply rtc_r; [exact Hp|apply example_project_edge].
Qed.

Lemma example_project_list : hierarchical example_prs true "rm/Project" "rm/projects.list".
Proof.
  exists example_project. split_and!; [do 3 right; left|done|apply rtc_refl|]. vm_compute. right. left.
Qed.

(** The projects' relations: [parent], and their permissions directly or through it;
    and a group's assignees, its members. *)
Lemma model_relations_resolve_witness :
  let m := model_of example_prs in
  rewrite_resolves example_prs m getUserGroupTypeDefinition RelationAssignee (Userset_ComputedUserset RelationMember) ∧
  ∃ td, td ∈ am_TypeDefinitions m ∧ td_Type td = "rm/Project" ∧
    (∃ u, td_Relations td !! RelationParent = Some u ∧ rewrite_resolves example_prs m td RelationParent u) ∧
    ∃ u, td_Relations td !! hashPermission "rm/projects.list" = Some u ∧
      rewrite_resolves example_prs m td (hashPermission "rm/projects.list") u.
Proof.
  intros m. destruct (model_relations_resolve ex_amr example_prs m
    example_model example_types_NoDup example_root_free) as [HA HB]. split.
  - apply HA; [apply list_elem_of_lookup; exists 1%nat|]; vm_compute; reflexivity.
  - destruct (HB "rm/Project" "rm/projects.list" example_project_reachable example_project_list) as [(td & Hin & E & _ & Hr) _].
    exists td. split_and!; [done..| |].
    + assert (Forall (λ td, td_Type td = "rm/Project" → is_Some (td_Relations td !! RelationParent))
        (am_TypeDefinitions m)) as HF by (apply (bool_decide_unpack _); vm_compute; exact I).
      rewrite Forall_forall in HF. destruct (HF td Hin E) as [u Hu]. eauto.
    + destruct Hr as [Hr|Hr]; eauto.
Defined.

(** A project type that declares a missing parent besides the organization: the
    missing type is a direct holder of its [parent], though no type of the model. *)
Definition dangling_prs : list ProtectedResource :=
  [example_org; example_pr "rm" "Project" "projects" ["get"] [mkParentRef "rm" "Organization"; mkParentRef "dns" "Missing"]].

Lemma dangling_parent_in_model :
  let m := model_of dangling_prs in let missing := mkRelRef "dns/Missing" None in
  createExpectedAuthorizationModel ex_amr dangling_prs = Ok m ∧ ¬ reference_resolves m missing ∧
  ∃ td, td ∈ am_TypeDefinitions m ∧ td_Type td = "rm/Project" ∧
    md_Relations (td_Metadata td) !! RelationParent = Some (mkRelMeta [missing; mkRelRef "rm/Organization" None]).
Proof.
  intros m missing. split_and!; [vm_compute; reflexivity| |].
  - intros (td & Hin & E & _). revert td Hin E.
    assert (Forall (λ td, td_Type td ≠ "dns/Missing") (am_TypeDefinitions m)) as HF
      by (apply (bool_decide_unpack _); vm_compute; exact I).
    by rewrite Forall_forall in HF.
  - eexists. split; [apply list_elem_of_lookup; exists 3%nat; vm_compute; reflexivity|]. split; vm_compute; reflexivity.
Qed.

Definition ex_list_role : Role :=
  mkRole (mkObjectMeta "lister" "iam" "lister" 1 None [] []) (mkRoleSpec ["rm/projects.list"] []) (mkRoleStatus [] 0 []).
Definition ex_list_binding (selector : ResourceSelector) : PolicyBinding :=
  mkPB (mkObjectMeta "b" "default" "b" 1 None [] [])
    (mkPBSpec (mkRoleRef "lister" "iam") [mkSubject "User" "bob" "uid-bob" ""] selector) (mkPBStatus 0 []).
Definition ex_ref_selector := mkSelector (Some (mkResourceRef "rm" "Project" "p1" "uid-p1" "")) None.
Definition ex_kind_selector := mkSelector None (Some (mkResourceKind "rm" "Project")).
Definition ex_list_tuple (target : string) : TupleKey :=
  mkTuple "iam.miloapis.com/InternalUser:bob" (hashPermission "rm/projects.list") target None.

Lemma ex_list_wanted en selector target valid :
  (en = true ∨ valid ≠ ∅ → "rm/projects.list" ∈ valid) →
  wanted en (ex_list_binding selector) ex_list_role target valid (ex_list_tuple target).
Proof.
  intros Hv. split_and!; [|done..|].
  - exists (mkSubject "User" "bob" "uid-bob" ""). split; [left|reflexivity].
  - exists "rm/projects.list". split; [left|]. by split; [split|].
Qed.

Lemma wanted_tuples_are_in_model_witness :
  model_defines (model_of example_prs) (ex_list_tuple "rm/Project:p1") ∧
  model_defines (model_of example_prs) (ex_list_tuple "iam.miloapis.com/Root:rm/Project").
Proof.
  split.
  - apply (wanted_tuples_are_in_model ex_amr example_prs (model_of example_prs) (graph_of example_prs) true
      (ex_list_binding ex_ref_selector) ex_list_role ("rm", "Project") "rm/Project:p1" _
      example_model example_types_NoDup example_root_free eq_refl example_graph eq_refl eq_refl
      (λ _, example_project_reachable) (or_introl eq_refl)).
    apply ex_list_wanted. intros _. apply (bool_decide_unpack _). vm_compute. exact I.
  - apply (wanted_tuples_are_in_model ex_amr example_prs (model_of example_prs) (graph_of example_prs) true
      (ex_list_binding ex_kind_selector) ex_list_role ("rm", "Project") "iam.miloapis.com/Root:rm/Project" _
      example_model example_types_NoDup example_root_free eq_refl example_graph eq_refl eq_refl
      (λ _, example_project_reachable) (or_introl eq_refl)).
    apply ex_list_wanted. intros _. apply (bool_decide_unpack _). vm_compute. exact I.
Defined.

(** With subresource authorization off and a type whose registrations enumerate no
    permission, the role's permissions are wanted unfiltered, and are not in the model. *)
Definition bare_prs : list ProtectedResource := [example_pr "rm" "Project" "projects" [] []].
Definition ex_amr_off : AuthorizationModelReconciler :=
  mkAMReconciler false "store" true "milo-system" "openfga-authorization-model".

Lemma unfiltered_tuple_not_in_model :
  ∃ g m, getResourceGraph bare_prs false = Ok g ∧ createExpectedAuthorizationModel ex_amr_off bare_prs = Ok m ∧
    wanted false (ex_list_binding ex_ref_selector) ex_list_role "rm/Project:p1"
      (permSetFor (calculateHierarchicalPermissions g) "rm/Project") (ex_list_tuple "rm/Project:p1") ∧
    ¬ model_defines m (ex_list_tuple "rm/Project:p1").
Proof.
  eexists _, _. split; [vm_compute; reflexivity|]. split; [vm_compute; reflexivity|]. split.
  - apply ex_list_wanted. intros [|Hv]; [done|]. destruct Hv. vm_compute. reflexivity.
  - intros (td & name & Hin & _ & [u Hu]). revert td Hin u Hu.
    match goal with |- ∀ td, td ∈ ?l → _ => assert (Forall (λ td : TypeDefinition,
      td_Relations td !! hashPermission "rm/projects.list" = None) l) as HF end.
    { repeat constructor; vm_compute; reflexivity. }
    intros td Hin u Hu. rewrite Forall_forall in HF. specialize (HF td Hin). unfold ex_list_tuple in Hu. simpl in Hu. congruence.
Qed.

Definition ex_current : AuthorizationModel :=
  mkModel "m0" "1.1" [mkTypeDef "custom" (mkMetadata ∅ "" "") ∅; getUserTypeDefinition] [("cond", "x")].

Lemma merge_types_witness :
  mkTypeDef "custom" (mkMetadata ∅ "" "") ∅ ∈
    am_TypeDefinitions (mergeAuthorizationModels ex_current (model_of example_prs)).
Proof.
  destruct (merge_types ex_amr example_prs ex_current (model_of example_prs) example_model) as (_ & H & _).
  - apply (bool_decide_unpack _). vm_compute. exact I.
  - apply H; [left|reflexivity].
Defined.

(** A ConfigMap store and a comparison for the example. *)
Definition ex_cm : ConfigMapClient (gmap NamespacedName (gmap string string)) :=
  {| cm_CreateOrUpdate key f cms := (Ok tt, <[key := f (default ∅ (cms !! key))]> cms) |}.
Definition ex_cmp : ModelCmp := λ a b,
  String.eqb (am_SchemaVersion a) (am_SchemaVersion b) &&
  bool_decide (map td_Type (am_TypeDefinitions a) = map td_Type (am_TypeDefinitions b)).

Definition ex_am_world : World RefStore (gmap NamespacedName (gmap string string)) :=
  mkWorld (mkRefStore ∅ [ex_current] 1 None) ∅ None.
Definition ex_am_run (w : World RefStore (gmap NamespacedName (gmap string string))) :=
  @ReconcileAuthorizationModel _ _ _ ex_cm ex_cmp ex_amr example_prs w.

Lemma ReconcileAuthorizationModel_stable_witness :
  w_fga (ex_am_run (ex_am_run ex_am_world).2).2 = w_fga (ex_am_run ex_am_world).2.
Proof.
  apply (@ReconcileAuthorizationModel_stable _ _ _ _ ex_cm ex_cmp ex_amr example_prs ex_am_world
    (ex_am_run ex_am_world).2 (ex_am_run (ex_am_run ex_am_world).2).2 (ex_am_run (ex_am_run ex_am_world).2).1).
  - intros id1 id2 v tds cs. unfold cmp_Equal, ex_cmp. simpl. rewrite String.eqb_refl. simpl.
    by apply bool_decide_eq_true_2.
  - apply ok_run. vm_compute. reflexivity.
  - apply surjective_pairing.
Defined.
