(* ===== verification/PRCache.v ===== *)
(** * [internal/webhook/protectedresource_cache.go]: the ProtectedResource cache

    An index of the registered ProtectedResources by API group and plural name,
    kept up to date by an informer. *)

From S2P Require Import Prelude GoStrings GoErr Types.
From Stdlib Require Import Ascii.

Abbreviation ProtectedResourceCache := (gmap string ProtectedResource).

Definition cacheKey (apiGroup plural : string) : string := apiGroup +:+ "/" +:+ plural.

(** The key an object is stored under. *)
Definition pr_cacheKey (pr : ProtectedResource) : string :=
  cacheKey (prs_ServiceRef_Name (pr_Spec pr)) (prs_Plural (pr_Spec pr)).

Definition upsert (index : ProtectedResourceCache) (pr : ProtectedResource) : ProtectedResourceCache :=
  <[pr_cacheKey pr := pr]> index.

Definition cache_delete (index : ProtectedResourceCache) (pr : ProtectedResource) : ProtectedResourceCache :=
  delete (pr_cacheKey pr) index.

Definition GetByAPIGroupAndResource (index : ProtectedResourceCache) (apiGroup resource : string)
    : option ProtectedResource :=
  index !! cacheKey apiGroup resource.

(** ** The event handlers *)

Definition cache_AddFunc (index : ProtectedResourceCache) (obj : informer_obj ProtectedResource)
    : ProtectedResourceCache :=
  match obj with
  | IObj pr => upsert index pr
  | _ => index
  end.

Definition cache_UpdateFunc (index : ProtectedResourceCache) (oldObj newObj : informer_obj ProtectedResource)
    : ProtectedResourceCache :=
  match newObj with
  | IObj pr =>
    let index :=
      match oldObj with
      | IObj old => if negb (String.eqb (pr_cacheKey old) (pr_cacheKey pr))
                    then cache_delete index old else index
      | _ => index
      end in
    upsert index pr
  | _ => index
  end.

Definition cache_DeleteFunc (index : ProtectedResourceCache) (obj : informer_obj ProtectedResource)
    : ProtectedResourceCache :=
  match obj with
  | IObj pr => cache_delete index pr
  | ITombstone (Some pr) => cache_delete index pr
  | _ => index
  end.

(** The handlers as [AddEventHandler] registers them. *)
Definition cache_handle (index : ProtectedResourceCache) (ev : informer_event ProtectedResource)
    : ProtectedResourceCache :=
  match ev with
  | EvAdd obj => cache_AddFunc index obj
  | EvUpdate oldObj newObj => cache_UpdateFunc index oldObj newObj
  | EvDelete obj => cache_DeleteFunc index obj
  end.

Definition newProtectedResourceCacheFromItems (items : list ProtectedResource) : ProtectedResourceCache :=
  foldl upsert ∅ items.

(** ** What the cache stands for *)

(** The ProtectedResources of the API server, by name. *)
Abbreviation pr_store := (gmap string ProtectedResource).
Definition pr_name (pr : ProtectedResource) : string := om_Name (pr_Meta pr).

(** One change of the store and the events the informer emits for it. A missed
    deletion is announced by a tombstone with the last state known. *)
Inductive store_step : pr_store → informer_event ProtectedResource → pr_store → Prop :=
| step_add s pr :
    s !! pr_name pr = None → store_step s (EvAdd (IObj pr)) (<[pr_name pr := pr]> s)
| step_update s old pr :
    s !! pr_name pr = Some old → store_step s (EvUpdate (IObj old) (IObj pr)) (<[pr_name pr := pr]> s)
| step_delete s pr :
    s !! pr_name pr = Some pr → store_step s (EvDelete (IObj pr)) (delete (pr_name pr) s)
| step_tombstone s pr :
    s !! pr_name pr = Some pr → store_step s (EvDelete (ITombstone (Some pr))) (delete (pr_name pr) s).

(** No two registered objects share a key. *)
Definition keys_distinct (s : pr_store) : Prop :=
  ∀ n1 n2 pr1 pr2, s !! n1 = Some pr1 → s !! n2 = Some pr2 → pr_cacheKey pr1 = pr_cacheKey pr2 → n1 = n2.

(** Stores reached from the empty one through stores with distinct keys, and the
    cache that saw the events. *)
Inductive cache_run : pr_store → ProtectedResourceCache → Prop :=
| run_nil : cache_run ∅ ∅
| run_step s index ev s' :
    cache_run s index → store_step s ev s' → keys_distinct s' → cache_run s' (cache_handle index ev).

(** The cache indexes exactly the store's objects, each under its own key. *)
Definition cache_represents (s : pr_store) (index : ProtectedResourceCache) : Prop :=
  ∀ key pr, index !! key = Some pr ↔ pr_cacheKey pr = key ∧ s !! pr_name pr = Some pr.

Lemma cacheKey_inj g1 p1 g2 p2 :
  has_byte "/"%char g1 = false → has_byte "/"%char g2 = false →
  cacheKey g1 p1 = cacheKey g2 p2 → g1 = g2 ∧ p1 = p2.
Proof. unfold cacheKey. rewrite !app_cons, !app_nil_l. apply app_byte_inj. Qed.

Lemma lookup_upsert index pr key :
  upsert index pr !! key = if String.eqb (pr_cacheKey pr) key then Some pr else index !! key.
Proof.
  unfold upsert. destruct (String.eqb_spec (pr_cacheKey pr) key) as [->|].
  - apply lookup_insert_eq.
  - by apply lookup_insert_ne.
Qed.

Lemma lookup_cache_delete index pr key :
  cache_delete index pr !! key = if String.eqb (pr_cacheKey pr) key then None else index !! key.
Proof.
  unfold cache_delete. destruct (String.eqb_spec (pr_cacheKey pr) key) as [->|].
  - apply lookup_delete_eq.
  - by apply lookup_delete_ne.
Qed.

Section represents.
Context (s : pr_store) (index : ProtectedResourceCache).
Context (Hrep : cache_represents s index).

Lemma represents_add pr :
  s !! pr_name pr = None → keys_distinct (<[pr_name pr := pr]> s) →
  cache_represents (<[pr_name pr := pr]> s) (upsert index pr).
Proof.
  intros Hn Hd key q. rewrite lookup_upsert. destruct (String.eqb_spec (pr_cacheKey pr) key) as [<-|Hk].
  - split; [intros [= <-]; by rewrite lookup_insert_eq|]. intros [Hkey Hq].
    assert (pr_name q = pr_name pr) as E by (eapply Hd; [done|apply lookup_insert_eq|done]).
    rewrite E, lookup_insert_eq in Hq. congruence.
  - rewrite (Hrep key q). destruct (decide (pr_name q = pr_name pr)) as [E|E].
    + rewrite E, Hn, lookup_insert_eq. split; [by intros []|]. naive_solver.
    + by rewrite lookup_insert_ne.
Qed.

Lemma represents_delete pr :
  s !! pr_name pr = Some pr → keys_distinct s →
  cache_represents (delete (pr_name pr) s) (cache_delete index pr).
Proof.
  intros Hp Hd key q. rewrite lookup_cache_delete.
  destruct (String.eqb_spec (pr_cacheKey pr) key) as [<-|Hk].
  - split; [done|]. intros [Hkey [Hne Hq]%lookup_delete_Some]. destruct Hne. by eapply Hd.
  - rewrite (Hrep key q), lookup_delete_Some. split; [|naive_solver]. intros [<- Hq].
    split_and!; [done| |done]. intros E. rewrite <- E in Hq. congruence.
Qed.
End represents.

Lemma keys_distinct_delete s n : keys_distinct s → keys_distinct (delete n s).
Proof. intros Hd n1 n2 p1 p2 [_ E1]%lookup_delete_Some [_ E2]%lookup_delete_Some. by apply Hd. Qed.

(** An update is a deletion of the old state and an addition of the new one. *)
Lemma represents_update s index old pr :
  cache_represents s index → keys_distinct s →
  s !! pr_name pr = Some old → pr_name old = pr_name pr → keys_distinct (<[pr_name pr := pr]> s) →
  cache_represents (<[pr_name pr := pr]> s) (cache_UpdateFunc index (IObj old) (IObj pr)).
Proof.
  intros Hrep Hd Ho En Hd'.
  assert (cache_represents (<[pr_name pr := pr]> s) (upsert (cache_delete index old) pr)) as HR.
  { rewrite <- (insert_delete_eq s). apply represents_add.
    - rewrite <- En. apply represents_delete; [done| |done]. by rewrite En.
    - apply lookup_delete_eq.
    - by rewrite insert_delete_eq. }
  intros key q. rewrite <- (HR key q). simpl.
  destruct (String.eqb_spec (pr_cacheKey old) (pr_cacheKey pr)) as [E|E]; simpl; [|done].
  rewrite !lookup_upsert, lookup_cache_delete, E. by destruct (String.eqb _ _).
Qed.

Lemma store_step_names s ev s' :
  store_step s ev s' → (∀ n pr, s !! n = Some pr → pr_name pr = n) → ∀ n pr, s' !! n = Some pr → pr_name pr = n.
Proof.
  intros Hs Hn n pr. destruct Hs as [s q Hq|s old q Hq|s q Hq|s q Hq].
  1-2: intros [[<- <-]|[_ ?]]%lookup_insert_Some; [done|by apply Hn].
  1-2: intros [_ ?]%lookup_delete_Some; by apply Hn.
Qed.

Lemma cache_run_wf s index :
  cache_run s index → keys_distinct s ∧ ∀ n pr, s !! n = Some pr → pr_name pr = n.
Proof.
  induction 1 as [|s index ev s' Hr [IHd IHn] Hs Hd]; [by split; intros ?; intros; simplify_map_eq|].
  split; [done|]. by eapply store_step_names.
Qed.

(** C38: The cache is a faithful index. Whatever additions, updates, deletions
    and tombstones the informer delivers, as long as no two registered
    ProtectedResources ever share a group and plural at once, a lookup by API
    group and resource returns exactly the registered ProtectedResource with
    that group and plural, and nothing when there is none. *)
Theorem cache_lookup_exact s index apiGroup resource pr
  (Hrun : cache_run s index) :
  GetByAPIGroupAndResource index apiGroup resource = Some pr ↔
  s !! pr_name pr = Some pr ∧ pr_cacheKey pr = cacheKey apiGroup resource.
Proof.
  assert (cache_represents s index) as Hrep.
  { induction Hrun as [|s index ev s' Hr IH Hs Hd].
    - intros key q. rewrite lookup_empty, lookup_empty. naive_solver.
    - pose proof (cache_run_wf _ _ Hr) as [HdS HnS].
      destruct Hs as [s q Hq|s old q Hq|s q Hq|s q Hq]; simpl.
      + by apply represents_add.
      + apply represents_update; auto.
      + by apply represents_delete.
      + by apply represents_delete. }
  unfold GetByAPIGroupAndResource. rewrite (Hrep (cacheKey apiGroup resource) pr). naive_solver.
Qed.

(** ** Examples *)

Definition ex_pr_meta (name : string) : ObjectMeta := mkObjectMeta name "" name 1 None [] [].
Definition ex_cached (name service plural : string) : ProtectedResource :=
  mkPR (ex_pr_meta name) (mkPRSpec service "Project" plural ["get"] [] []) (mkPRStatus 0 []).

(** A resource is added, renamed and looked up. *)
Lemma cache_lookup_exact_witness :
  let p1 := ex_cached "projects" "rm" "projects" in
  let p2 := ex_cached "projects" "rm" "teams" in
  GetByAPIGroupAndResource
    (cache_handle (cache_handle ∅ (EvAdd (IObj p1))) (EvUpdate (IObj p1) (IObj p2))) "rm" "teams" = Some p2.
Proof.
  intros p1 p2.
  assert (∀ p, keys_distinct (<["projects" := p]> ∅)) as HD.
  { intros p n1 n2 q1 q2 [[<- _]|[_ ?]]%lookup_insert_Some [[<- _]|[_ ?]]%lookup_insert_Some _; by simplify_map_eq. }
  apply (cache_lookup_exact (<["projects" := p2]> (<["projects" := p1]> ∅))); [|by vm_compute].
  eapply run_step; [eapply run_step; [apply run_nil| |]| |].
  - apply (step_add ∅ p1). by vm_compute.
  - apply HD.
  - apply (step_update _ p1 p2). by vm_compute.
  - rewrite insert_insert_eq. apply HD.
Defined.

(** Sharing a key loses registrations. Nothing stops two ProtectedResources
    from declaring the same service and plural; once one of the two is deleted,
    the cache answers that the resource is not registered, although the other
    one still is. *)
Theorem cache_shared_key_lost :
  let p1 := ex_cached "a" "rm" "projects" in
  let p2 := ex_cached "b" "rm" "projects" in
  let index := foldl cache_handle ∅ [EvAdd (IObj p1); EvAdd (IObj p2); EvDelete (IObj p1)] in
  pr_name p1 ≠ pr_name p2 ∧
  GetByAPIGroupAndResource index "rm" "projects" = None ∧
  GetByAPIGroupAndResource (foldl cache_handle ∅ [EvAdd (IObj p2)]) "rm" "projects" = Some p2.
Proof. split_and!; by vm_compute. Qed.
