(* ===== verification/ModelIDWatcher.v ===== *)
(** * [internal/webhook/model_id_watcher.go]: the authorization model ID

    The ID of the current model, published through a ConfigMap, or set by a
    caller that found a newer model. *)

From S2P Require Import Prelude GoStrings GoErr Types AuthModel.

(** [modelID] is an [atomic.Value]: [None] before the first store. *)
Record AuthorizationModelIDWatcher := mkWatcher {
  amw_modelID : option string;
  amw_configMapName : string
}.

Definition GetModelID (w : AuthorizationModelIDWatcher) : string := default "" (amw_modelID w).

Definition Store_modelID (w : AuthorizationModelIDWatcher) (modelID : string) : AuthorizationModelIDWatcher :=
  mkWatcher (Some modelID) (amw_configMapName w).

(** The constructor, before any event. *)
Definition NewAuthorizationModelIDWatcher (configMapName seedModelID : string)
    : outcome AuthorizationModelIDWatcher :=
  if String.eqb configMapName "" then Err (ErrText "configMapName is required")
  else
    let w := mkWatcher None configMapName in
    Ok (if negb (String.eqb seedModelID "") then Store_modelID w seedModelID else w).

Definition SetModelID (w : AuthorizationModelIDWatcher) (modelID : string) : AuthorizationModelIDWatcher :=
  if String.eqb modelID "" || String.eqb (GetModelID w) modelID then w else Store_modelID w modelID.

Definition handleConfigMap (w : AuthorizationModelIDWatcher) (obj : informer_obj ConfigMap)
    : AuthorizationModelIDWatcher :=
  match (match obj with
         | IObj cm => Some cm
         | ITombstone last => last
         | IOther => None
         end) with
  | None => w
  | Some cm =>
    if negb (String.eqb (om_Name (cm_Meta cm)) (amw_configMapName w)) then w
    else
      match cm_Data cm !! AuthorizationModelIDKey with
      | None => w
      | Some modelID =>
        if String.eqb modelID "" then w
        else if String.eqb (GetModelID w) modelID then w
        else Store_modelID w modelID
      end
  end.

(** The handlers [addEventHandler] registers: deletions are ignored. *)
Definition watcher_handle (w : AuthorizationModelIDWatcher) (ev : informer_event ConfigMap)
    : AuthorizationModelIDWatcher :=
  match ev with
  | EvAdd obj => handleConfigMap w obj
  | EvUpdate _ newObj => handleConfigMap w newObj
  | EvDelete _ => w
  end.

(** What changes a watcher: an informer event or a caller's [SetModelID]. *)
Inductive watcher_input :=
| WEvent (ev : informer_event ConfigMap)
| WSet (modelID : string).

Definition watcher_step (w : AuthorizationModelIDWatcher) (i : watcher_input) : AuthorizationModelIDWatcher :=
  match i with
  | WEvent ev => watcher_handle w ev
  | WSet modelID => SetModelID w modelID
  end.

(** ** The specification: the last valid ID announced *)

(** The ID an input announces for the ConfigMap [name]. *)
Definition announced (name : string) (i : watcher_input) : option string :=
  let of_cm cm :=
    if String.eqb (om_Name (cm_Meta cm)) name then
      match cm_Data cm !! AuthorizationModelIDKey with
      | Some id => if String.eqb id "" then None else Some id
      | None => None
      end
    else None in
  match i with
  | WSet id => if String.eqb id "" then None else Some id
  | WEvent (EvAdd (IObj cm)) | WEvent (EvAdd (ITombstone (Some cm)))
  | WEvent (EvUpdate _ (IObj cm)) | WEvent (EvUpdate _ (ITombstone (Some cm))) => of_cm cm
  | _ => None
  end.

Lemma handleConfigMap_name w obj : amw_configMapName (handleConfigMap w obj) = amw_configMapName w.
Proof. unfold handleConfigMap. repeat case_match; done. Qed.

Lemma watcher_step_name w i : amw_configMapName (watcher_step w i) = amw_configMapName w.
Proof.
  destruct i as [[obj|o obj|obj]|id]; simpl; try apply handleConfigMap_name; [done|].
  unfold SetModelID. by case_match.
Qed.

Lemma handleConfigMap_announced w cm :
  GetModelID (handleConfigMap w (IObj cm)) =
  default (GetModelID w) (announced (amw_configMapName w) (WEvent (EvAdd (IObj cm)))).
Proof.
  unfold handleConfigMap, announced. destruct (String.eqb_spec (om_Name (cm_Meta cm)) (amw_configMapName w)); [|done].
  simpl. destruct (cm_Data cm !! AuthorizationModelIDKey) as [id|]; [|done].
  destruct (String.eqb_spec id ""); [done|]. simpl. destruct (String.eqb_spec (GetModelID w) id); [congruence|done].
Qed.

Lemma watcher_step_announced w i :
  GetModelID (watcher_step w i) = default (GetModelID w) (announced (amw_configMapName w) i).
Proof.
  destruct i as [[[cm|[cm|]|]|o [cm|[cm|]|]|obj]|id]; simpl; try done.
  1-4: apply handleConfigMap_announced.
  unfold SetModelID. destruct (String.eqb_spec id ""); [done|]. simpl.
  destruct (String.eqb_spec (GetModelID w) id); [congruence|done].
Qed.

(** The watcher's model ID is the last non-empty one announced for its
    ConfigMap, by an informer event or by [SetModelID]; before the first one it
    is the seed. Deletions, other ConfigMaps, missing or empty keys and objects
    of other types leave it as it is, so once it is known it never becomes
    empty. *)
Theorem watcher_last_announced configMapName seed w inputs
  (Hnew : NewAuthorizationModelIDWatcher configMapName seed = Ok w) :
  GetModelID (foldl watcher_step w inputs) =
    default seed (last (omap (announced configMapName) inputs)) ∧
  (seed ≠ "" → GetModelID (foldl watcher_step w inputs) ≠ "").
Proof.
  assert (amw_configMapName w = configMapName ∧ GetModelID w = seed) as [Hn Hs].
  { unfold NewAuthorizationModelIDWatcher in Hnew. destruct (String.eqb configMapName ""); [done|].
    injection Hnew as <-. by destruct (String.eqb_spec seed "") as [->|]. }
  clear Hnew. assert (GetModelID (foldl watcher_step w inputs) =
    default seed (last (omap (announced configMapName) inputs))) as E.
  { revert w Hn Hs. induction inputs as [|i inputs IH] using rev_ind; intros w Hn Hs; [done|].
    rewrite foldl_app, omap_app. simpl. rewrite watcher_step_announced.
    assert (amw_configMapName (foldl watcher_step w inputs) = configMapName) as ->.
    { clear IH Hs. revert Hn. intros Hn. induction inputs as [|j inputs IHj] using rev_ind; [done|].
      rewrite foldl_app. simpl. by rewrite watcher_step_name. }
    destruct (announced configMapName i); simpl; [by rewrite last_snoc|].
    rewrite (right_id_L [] (++)). by apply IH. }
  split; [done|]. rewrite E. intros Hne. clear -Hne.
  induction inputs as [|i inputs IH] using rev_ind; [done|]. rewrite omap_app. simpl.
  destruct (announced configMapName i) as [id|] eqn:Ha; simpl.
  - rewrite last_snoc. simpl. intros ->. unfold announced in Ha. repeat case_match; simplify_eq; done.
  - by rewrite (right_id_L [] (++)).
Qed.

Lemma watcher_last_announced_witness :
  let cm id := mkConfigMap (mkObjectMeta "model" "ns" "" 1 None [] []) {[ AuthorizationModelIDKey := id ]} in
  GetModelID (foldl watcher_step (mkWatcher (Some "m1") "model")
    [WEvent (EvUpdate IOther (IObj (cm "m2"))); WSet "m3"; WEvent (EvAdd (IObj (cm "")));
     WEvent (EvDelete (IObj (cm "m2")))]) = "m3".
Proof.
  intros cm. destruct (watcher_last_announced "model" "m1" (mkWatcher (Some "m1") "model")
    [WEvent (EvUpdate IOther (IObj (cm "m2"))); WSet "m3"; WEvent (EvAdd (IObj (cm "")));
     WEvent (EvDelete (IObj (cm "m2")))] eq_refl) as [E _].
  rewrite E. by vm_compute.
Defined.
