(* ===== verification/Discovery.v ===== *)
(** * [internal/webhook/discovery.go]: discovery that expires

    A client that caches the API server's answers, wrapped so that everything it
    cached is dropped once a time to live has passed. *)

From S2P Require Import Prelude GoStrings GoErr Types World.
From Stdlib Require Import Ascii.
Local Open Scope Z_scope.

Record APIResource := mkAPIResource { ar_Name : string; ar_Namespaced : bool }.
Record APIResourceList := mkAPIResourceList { arl_GroupVersion : string; arl_APIResources : list APIResource }.
(** A group's name and its versions. *)
Record APIGroup := mkAPIGroup { ag_Name : string; ag_Versions : list string }.

(** The pointers of a slice may be nil; a nil group list differs from an empty one. *)
Record GroupsAndResources := mkGR {
  gr_groups : option (list (option APIGroup));
  gr_resourceLists : list (option APIResourceList);
  gr_err : option goerr
}.

(** [discovery.DiscoveryInterface]: the calls the webhook makes. *)
Class DiscoveryInterface (D : Type) := {
  ServerGroups : M D (list APIGroup);
  ServerResourcesForGroupVersion : string → M D APIResourceList;
  ServerGroupsAndResources : M D GroupsAndResources;
  ServerPreferredResources : M D (list APIResourceList);
  ServerPreferredNamespacedResources : M D (list APIResourceList)
}.

(** [discovery.CachedDiscoveryInterface]; [d_now] is the clock. *)
Class CachedDiscoveryInterface (D : Type) := {
  #[global] cached_calls :: DiscoveryInterface D;
  d_Invalidate : D → D;
  d_now : D → Z
}.

Record ExpiringDiscoveryClient (D : Type) := mkExpiring {
  ed_cached : D;
  ed_ttl : Z;
  ed_loadedAt : option Z
}.
Arguments mkExpiring {_}.
Arguments ed_cached {_}.
Arguments ed_ttl {_}.
Arguments ed_loadedAt {_}.

Section expiring.
Context {D : Type} `{CachedDiscoveryInterface D}.

Definition NewExpiringDiscoveryClient (cached : D) (ttl : Z) : ExpiringDiscoveryClient D :=
  mkExpiring cached ttl None.

Definition expire (c : ExpiringDiscoveryClient D) : ExpiringDiscoveryClient D :=
  let now := d_now (ed_cached c) in
  match ed_loadedAt c with
  | None => mkExpiring (ed_cached c) (ed_ttl c) (Some now)
  | Some loadedAt =>
    if now - loadedAt >=? ed_ttl c
    then mkExpiring (d_Invalidate (ed_cached c)) (ed_ttl c) (Some now)
    else c
  end.

(** [c.expire(); return c.CachedDiscoveryInterface.<call>]. *)
Definition expiring {A} (call : M D A) : M (ExpiringDiscoveryClient D) A := λ c,
  let c := expire c in
  let r := call (ed_cached c) in
  (r.1, mkExpiring r.2 (ed_ttl c) (ed_loadedAt c)).

#[global] Instance ExpiringDiscovery : DiscoveryInterface (ExpiringDiscoveryClient D) := {
  ServerGroups := expiring ServerGroups;
  ServerResourcesForGroupVersion groupVersion := expiring (ServerResourcesForGroupVersion groupVersion);
  ServerGroupsAndResources := expiring ServerGroupsAndResources;
  ServerPreferredResources := expiring ServerPreferredResources;
  ServerPreferredNamespacedResources := expiring ServerPreferredNamespacedResources
}.

(** ** How old an answer can be *)

(** [d_fresh d t]: everything [d] has cached was fetched at [t] or later. *)
Class CachedDiscoveryLaws := {
  d_fresh : D → Z → Prop;
  d_fresh_mono d t t' : t' ≤ t → d_fresh d t → d_fresh d t';
  d_Invalidate_fresh d t : d_fresh (d_Invalidate d) t;
  d_Invalidate_now d : d_now (d_Invalidate d) = d_now d
}.

(** A call that fetches what it lacks at its own time. *)
Definition fetches `{CachedDiscoveryLaws} {A} (call : M D A) : Prop :=
  ∀ d, d_now d ≤ d_now (call d).2 ∧ ∀ t, t ≤ d_now d → d_fresh d t → d_fresh (call d).2 t.

(** The client between calls: time passes, or a call is served. *)
Inductive discovery_step `{CachedDiscoveryLaws} :
  ExpiringDiscoveryClient D → ExpiringDiscoveryClient D → Prop :=
| dstep_time c d' :
    d_now (ed_cached c) ≤ d_now d' → (∀ t, d_fresh (ed_cached c) t → d_fresh d' t) →
    discovery_step c (mkExpiring d' (ed_ttl c) (ed_loadedAt c))
| dstep_call c A (call : M D A) :
    fetches call → discovery_step c (expiring call c).2.

(** The client as it is built over an empty cache, and any later state of it. *)
Definition discovery_reach `{CachedDiscoveryLaws} (ttl : Z) (c : ExpiringDiscoveryClient D) : Prop :=
  ∃ d, (∀ t, d_fresh d t) ∧ rtc discovery_step (NewExpiringDiscoveryClient d ttl) c.

Definition loaded_inv `{CachedDiscoveryLaws} (ttl : Z) (c : ExpiringDiscoveryClient D) : Prop :=
  ed_ttl c = ttl ∧
  match ed_loadedAt c with
  | None => ∀ t, d_fresh (ed_cached c) t
  | Some t => t ≤ d_now (ed_cached c) ∧ d_fresh (ed_cached c) t
  end.

Section laws.
Context `{CachedDiscoveryLaws} (ttl : Z) (Httl : 0 < ttl).

Lemma expire_inv c :
  loaded_inv ttl c →
  ed_ttl (expire c) = ttl ∧ d_now (ed_cached (expire c)) = d_now (ed_cached c) ∧
  ∃ t, ed_loadedAt (expire c) = Some t ∧ d_now (ed_cached c) - ttl < t ≤ d_now (ed_cached c) ∧
    d_fresh (ed_cached (expire c)) t.
Proof.
  intros [Ht Hl]. unfold expire. destruct (ed_loadedAt c) as [t|] eqn:E; simpl.
  - destruct (Z.geb_spec (d_now (ed_cached c) - t) (ed_ttl c)); simpl.
    + rewrite d_Invalidate_now. split_and!; [done..|]. eexists. split; [done|]. split; [lia|]. apply d_Invalidate_fresh.
    + split_and!; [done..|]. exists t. destruct Hl. split_and!; [done|lia..|done].
  - split_and!; [done..|]. eexists. split; [done|]. split; [lia|]. apply Hl.
Qed.

Lemma discovery_step_inv c c' : discovery_step c c' → loaded_inv ttl c → loaded_inv ttl c'.
Proof.
  intros [c0 d' Hn Hf|c0 A call Hc] HI.
  - destruct HI as [Ht Hl]. split; [done|]. simpl. destruct (ed_loadedAt c0); [|naive_solver].
    destruct Hl. split; [lia|auto].
  - destruct (expire_inv _ HI) as (Ht & Hn & t & Hl & Hb & Hf). unfold expiring. simpl.
    destruct (Hc (ed_cached (expire c0))) as [HA HB]. split; [done|]. simpl. rewrite Hl.
    split; [lia|]. apply HB; [lia|done].
Qed.
End laws.

(** No discovery answer is older than the time to live. In any state the
    wrapper reaches, whatever calls were served and however time passed, a call
    is answered by a cache in which everything was fetched less than [ttl]
    before the call. *)
Theorem discovery_never_stale `{CachedDiscoveryLaws} (ttl : Z) (c : ExpiringDiscoveryClient D)
  {A} (call : M D A) (Httl : 0 < ttl) (Hreach : discovery_reach ttl c) :
  ∃ d t, (expiring call c).1 = (call d).1 ∧ d_now d = d_now (ed_cached c) ∧
    d_fresh d t ∧ d_now d - ttl < t ≤ d_now d.
Proof.
  destruct Hreach as (d0 & Hfresh & Hr).
  assert (loaded_inv ttl c) as HI.
  { assert (loaded_inv ttl (NewExpiringDiscoveryClient d0 ttl)) as HI0 by done.
    induction Hr as [|c1 c2 c3 Hs Hr IH]; [done|]. apply IH. by eapply discovery_step_inv. }
  destruct (expire_inv ttl Httl c HI) as (_ & Hn & t & _ & Hb & Hf).
  exists (ed_cached (expire c)), t. rewrite Hn. done.
Qed.
End expiring.

(** ** A reference client: a version fetched at some time *)

Record RefDiscovery := mkRefDiscovery {
  rd_live : list APIResourceList;
  rd_cache : option (list APIResourceList * Z);
  rd_clock : Z
}.

Definition rd_load (d : RefDiscovery) : list APIResourceList * RefDiscovery :=
  match rd_cache d with
  | Some (l, _) => (l, d)
  | None => (rd_live d, mkRefDiscovery (rd_live d) (Some (rd_live d, rd_clock d)) (rd_clock d))
  end.

Definition rd_groups (l : list APIResourceList) : list APIGroup :=
  map (λ r, mkAPIGroup (Cut (arl_GroupVersion r) "/"%char).1.1 [(Cut (arl_GroupVersion r) "/"%char).1.2]) l.

Definition rd_call {A} (f : list APIResourceList → outcome A) : M RefDiscovery A := λ d,
  let r := rd_load d in (f r.1, r.2).

#[export] Instance RefDiscovery_calls : DiscoveryInterface RefDiscovery := {
  ServerGroups := rd_call (λ l, Ok (rd_groups l));
  ServerResourcesForGroupVersion gv := rd_call (λ l,
    match find (λ r, String.eqb (arl_GroupVersion r) gv) l with
    | Some r => Ok r
    | None => Err (ErrAPI StatusReasonNotFound "not found")
    end);
  ServerGroupsAndResources := rd_call (λ l, Ok (mkGR (Some (map Some (rd_groups l))) (map Some l) None));
  ServerPreferredResources := rd_call Ok;
  ServerPreferredNamespacedResources := rd_call Ok
}.

#[export] Instance RefDiscovery_cached : CachedDiscoveryInterface RefDiscovery := {
  d_Invalidate d := mkRefDiscovery (rd_live d) None (rd_clock d);
  d_now := rd_clock
}.

#[export] Instance RefDiscovery_laws : CachedDiscoveryLaws (D := RefDiscovery).
Proof.
  refine {| d_fresh d t := match rd_cache d with None => True | Some (_, t0) => t ≤ t0 end |}.
  - intros d t t' Hle. destruct (rd_cache d) as [[? ?]|]; [lia|done].
  - done.
  - done.
Defined.

(** A resource that the API server starts serving is seen after the time to live. *)
Lemma discovery_never_stale_witness :
  let d := mkRefDiscovery [] (Some ([], 0)) 100 in
  let c := mkExpiring d 60 (Some 0) in
  ∃ d' t, (expiring ServerGroupsAndResources c).1 = (ServerGroupsAndResources (D := RefDiscovery) d').1 ∧
    d_now d' = d_now (ed_cached c) ∧ d_fresh d' t ∧ d_now d' - 60 < t ≤ d_now d'.
Proof.
  intros d c.
  apply (discovery_never_stale (D := RefDiscovery) 60 c ServerGroupsAndResources); [lia|].
  exists (mkRefDiscovery [] None 0). split; [done|]. eapply rtc_l.
  { apply (dstep_call (NewExpiringDiscoveryClient (mkRefDiscovery [] None 0) 60) _ ServerGroups).
    intros [l [[l0 t0]|] now]; simpl; split; try lia; auto. }
  eapply rtc_once. vm_compute expiring. apply (dstep_time (mkExpiring (mkRefDiscovery [] (Some ([], 0)) 0) 60 (Some 0)) d).
  - simpl. lia.
  - done.
Defined.
