(* ===== verification/Authorizer.v ===== *)
(** * [internal/webhook/subjectaccessreview_authorizer.go]: the authorizer

    [Authorize] turns a request into OpenFGA checks and answers Allow when one of
    them is allowed. It reads the ProtectedResource cache three times; informer
    events may arrive before each read. *)

From S2P Require Import Prelude GoStrings GoErr Types Constants Permissions Hash World Fga.
From S2P Require Import PRCache ModelIDWatcher Discovery.
From Stdlib Require Import Ascii.

(** ** Requests *)

Record UserInfo := mkUser {
  ui_Name : string;
  ui_UID : string;
  ui_Groups : list string;
  ui_Extra : gmap string (list string)
}.

(** A field or label requirement: key, operator, values. *)
Record Requirement := mkRequirement { rq_Key : string; rq_Operator : string; rq_Values : list string }.

(** [authorizer.Attributes]. *)
Record Attributes := mkAttributes {
  at_User : UserInfo;
  at_Verb : string;
  at_Namespace : string;
  at_APIGroup : string;
  at_APIVersion : string;
  at_Resource : string;
  at_Subresource : string;
  at_Name : string;
  at_ResourceRequest : bool;
  at_Path : string;
  at_FieldSelectorRequirements : list Requirement;
  at_LabelSelectorRequirements : list Requirement
}.

Inductive Decision := DecisionDeny | DecisionAllow | DecisionNoOpinion.

#[export] Instance Decision_eq_dec : EqDecision Decision.
Proof. solve_decision. Defined.

(** What [Authorize] returns: decision, reason and error. *)
Definition authz_result : Type := Decision * string * option goerr.

(** The extra keys of Milo's API package. *)
Class ExtraKeys := {
  ParentAPIGroupExtraKey : string;
  ParentKindExtraKey : string;
  ParentNameExtraKey : string
}.

Record parentContext := mkParentContext { pc_apiGroup : string; pc_kind : string; pc_name : string }.

Record authorizationContext := mkAuthCtx {
  ac_userUID : string;
  ac_permission : string;
  ac_parentContext : option parentContext;
  ac_namespace : string
}.

Definition resourcemanager_group : string := "resourcemanager.miloapis.com".

Definition isProjectScope (ctx : authorizationContext) : bool :=
  match ac_parentContext ctx with
  | Some p => String.eqb (pc_apiGroup p) resourcemanager_group && String.eqb (pc_kind p) "Project"
  | None => false
  end.

Definition isOrganizationScope (ctx : authorizationContext) : bool :=
  match ac_parentContext ctx with
  | Some p => String.eqb (pc_apiGroup p) resourcemanager_group && String.eqb (pc_kind p) "Organization"
  | None => false
  end.

Definition scopeLabel (authCtx : option authorizationContext) : string :=
  match authCtx with
  | None => "unknown"
  | Some ctx => if isProjectScope ctx then "project"
                else if isOrganizationScope ctx then "organization"
                else "cluster"
  end.

Definition decisionLabel (decision : Decision) (err : option goerr) : string :=
  match err with
  | Some _ => "error"
  | None =>
    match decision with
    | DecisionAllow => "allowed"
    | DecisionDeny => "denied"
    | DecisionNoOpinion => "no_opinion"
    end
  end.

Definition reasonOpenFGACheck : string := "openfga_check".
Definition reasonPermissionNotRegistered : string := "permission_not_registered".
Definition reasonResourceNotServed : string := "resource_not_served".
Definition reasonNonResourceRequest : string := "non_resource_request".

Definition serviceNameMapping : gmap string string := {[ "" := "core.miloapis.com" ]}.

Definition getEffectiveAPIGroup (attributes : Attributes) : string :=
  match serviceNameMapping !! at_APIGroup attributes with
  | Some override => override
  | None => at_APIGroup attributes
  end.

(** The three values under the extra keys, if each key has exactly one. *)
Definition parent_values `{ExtraKeys} (attributes : Attributes) : option parentContext :=
  let extra := ui_Extra (at_User attributes) in
  match extra !! ParentAPIGroupExtraKey, extra !! ParentKindExtraKey, extra !! ParentNameExtraKey with
  | Some [g], Some [k], Some [n] => Some (mkParentContext g k n)
  | _, _, _ => None
  end.

Definition extractParentContext `{ExtraKeys} (attributes : Attributes) : option parentContext :=
  parent_values attributes.

Definition buildParentResource `{ExtraKeys} (attributes : Attributes) : outcome string :=
  match parent_values attributes with
  | Some p => Ok (pc_apiGroup p +:+ "/" +:+ pc_kind p +:+ ":" +:+ pc_name p)
  | None => Err (ErrText "parent resource not found in extra data")
  end.

Definition buildRootResource (protectedResource : ProtectedResource) : string :=
  let resourceType :=
    prs_ServiceRef_Name (pr_Spec protectedResource) +:+ "/" +:+ prs_Kind (pr_Spec protectedResource) in
  "iam.miloapis.com/Root:" +:+ resourceType.

(** ** The state *)

(** One increment of [authzDecisionsTotal]: decision, scope, group, reason. *)
Record decision_count := mkCount {
  dc_decision : string;
  dc_scope : string;
  dc_group : string;
  dc_reason : string
}.

(** [ww_feed] is the informer events that arrive before each of the cache reads
    to come; [ww_counts] the decisions counted so far. *)
Record WebhookWorld (F D : Type) := mkWW {
  ww_fga : F;
  ww_disc : D;
  ww_watcher : option AuthorizationModelIDWatcher;
  ww_cache : ProtectedResourceCache;
  ww_feed : list (list (informer_event ProtectedResource));
  ww_counts : list decision_count
}.
Arguments mkWW {_ _}.
Arguments ww_fga {_ _}.
Arguments ww_disc {_ _}.
Arguments ww_watcher {_ _}.
Arguments ww_cache {_ _}.
Arguments ww_feed {_ _}.
Arguments ww_counts {_ _}.

(** [o_hasDiscoveryClient]: [DiscoveryClient] is not nil. It has to be set for
    [isResourceNamespaced], which does not check. *)
Record SubjectAccessReviewAuthorizer := mkAuthorizer {
  o_EnableSubresourceAuthorization : bool;
  o_FGAStoreID : string;
  o_hasDiscoveryClient : bool
}.

Section authorizer.
Context {F D : Type} `{FgaClient F} `{DiscoveryInterface D} `{ExtraKeys}.
(** [schema.ParseGroupVersion]: group and version, or an error. *)
Context (ParseGroupVersion : string → option (string * string)).
Context (o : SubjectAccessReviewAuthorizer).
Abbreviation Mw := (M (WebhookWorld F D)).

Definition ww_on_fga {A} (m : M F A) : Mw A := λ w,
  let r := m (ww_fga w) in
  (r.1, mkWW r.2 (ww_disc w) (ww_watcher w) (ww_cache w) (ww_feed w) (ww_counts w)).

Definition ww_on_disc {A} (m : M D A) : Mw A := λ w,
  let r := m (ww_disc w) in
  (r.1, mkWW (ww_fga w) r.2 (ww_watcher w) (ww_cache w) (ww_feed w) (ww_counts w)).

Definition count_decision (c : decision_count) : Mw unit := λ w,
  (Ok tt, mkWW (ww_fga w) (ww_disc w) (ww_watcher w) (ww_cache w) (ww_feed w) (ww_counts w ++ [c])).

(** The cache once the next batch of events has arrived. *)
Definition next_cache (w : WebhookWorld F D) : ProtectedResourceCache :=
  foldl cache_handle (ww_cache w) (hd [] (ww_feed w)).

Definition read_cache (apiGroup resource : string) : Mw (option ProtectedResource) := λ w,
  (Ok (GetByAPIGroupAndResource (next_cache w) apiGroup resource),
   mkWW (ww_fga w) (ww_disc w) (ww_watcher w) (next_cache w) (tail (ww_feed w)) (ww_counts w)).

(** The watcher's ID, or none when there is no watcher. *)
Definition read_modelID : Mw string := λ w,
  (Ok match ww_watcher w with Some watcher => GetModelID watcher | None => "" end, w).

Definition buildPermission (attributes : Attributes) : Permission :=
  let subresource := if o_EnableSubresourceAuthorization o then at_Subresource attributes else "" in
  mkPermission (getEffectiveAPIGroup attributes) (at_Resource attributes) subresource (at_Verb attributes).

Definition buildPermissionString (attributes : Attributes) : string :=
  Permission_String (buildPermission attributes).

Definition buildHashedPermissionRelation (attributes : Attributes) : string :=
  HashPermission (buildPermissionString attributes).

Definition buildAuthorizationContext (attributes : Attributes) : outcome authorizationContext :=
  let userUID := ui_UID (at_User attributes) in
  if String.eqb userUID "" then Err (ErrText "user UID is required by SubjectAccessReview authorizer")
  else Ok (mkAuthCtx userUID (buildPermissionString attributes) (extractParentContext attributes)
             (at_Namespace attributes)).

Definition isResourceNamespaced (apiGroup apiVersion resource : string) : Mw bool :=
  let groupVersion := if String.eqb apiGroup "" then apiVersion else apiGroup +:+ "/" +:+ apiVersion in
  resourceList ← wrapf ("failed to get server resources for group version " +:+ groupVersion +:+ ": ")
    (ww_on_disc (ServerResourcesForGroupVersion groupVersion));
  match find (λ r, String.eqb (ar_Name r) resource) (arl_APIResources resourceList) with
  | Some r => mret (ar_Namespaced r)
  | None => throw (ErrText ("resource " +:+ resource +:+ " not found in API group version " +:+ groupVersion))
  end.

Definition validateOrganizationNamespace (authCtx : authorizationContext) (attributes : Attributes) : Mw unit :=
  if negb (isOrganizationScope authCtx) then mret tt
  else
    let requestNamespace := at_Namespace attributes in
    let expectedNamespace :=
      "organization-" +:+ match ac_parentContext authCtx with Some p => pc_name p | None => "" end in
    if String.eqb requestNamespace "" then
      isNamespaced ← wrapf "failed to determine if resource is namespaced: "
        (isResourceNamespaced (at_APIGroup attributes) (at_APIVersion attributes) (at_Resource attributes));
      if negb isNamespaced then mret tt
      else throw (ErrText "cross-namespace queries not allowed for organization-scoped requests")
    else if negb (String.eqb requestNamespace expectedNamespace) then
      throw (ErrText ("namespace mismatch: request namespace '" +:+ requestNamespace +:+
        "' does not match organization namespace '" +:+ expectedNamespace +:+ "'"))
    else mret tt.

(** What makes a cached ProtectedResource register the request's permission. *)
Definition registers (pr : ProtectedResource) (attributes : Attributes) : bool :=
  if negb (o_EnableSubresourceAuthorization o)
  then str_in (at_Verb attributes) (prs_Permissions (pr_Spec pr))
  else
    let (permission, valid) := Parse (buildPermissionString attributes) in
    valid && match om_DeletionTimestamp (pr_Meta pr) with None => true | Some _ => false end &&
    permissions_Defined (pr_Spec pr) permission (o_EnableSubresourceAuthorization o).

Definition validatePermissionWithServiceDefaulting (attributes : Attributes) : Mw bool :=
  pr ← read_cache (getEffectiveAPIGroup attributes) (at_Resource attributes);
  match pr with
  | Some pr => mret (registers pr attributes)
  | None => mret false
  end.

Definition getProtectedResource (attributes : Attributes) : Mw ProtectedResource :=
  let apiGroup := getEffectiveAPIGroup attributes in
  pr ← read_cache apiGroup (at_Resource attributes);
  match pr with
  | Some pr => mret pr
  | None => throw (ErrText ("no ProtectedResource found for APIGroup=" +:+ apiGroup +:+
                            ", Resource=" +:+ at_Resource attributes))
  end.

(** ** Whether the API server serves a resource *)

Definition gv_matches (attributes : Attributes) (gv : string * string) : bool :=
  let requested := at_APIVersion attributes in
  String.eqb gv.1 (at_APIGroup attributes) &&
  (String.eqb requested "" || String.eqb requested "*" || String.eqb requested gv.2).

(** [errors.As] on a [*discovery.ErrGroupDiscoveryFailed]: its groups. *)
Definition as_GroupDiscoveryFailed (e : goerr) : option (list (string * string)) :=
  match cause e with
  | ErrGroupDiscoveryFailed groups _ => Some groups
  | _ => None
  end.

(** A resource list of a requested version that has the resource. *)
Definition list_serves (attributes : Attributes) (l : option APIResourceList) : bool :=
  match l with
  | None => false
  | Some l =>
    match ParseGroupVersion (arl_GroupVersion l) with
    | None => false
    | Some gv =>
      gv_matches attributes gv &&
      existsb (λ r, String.eqb (ar_Name r) (at_Resource attributes)) (arl_APIResources l)
    end
  end.

(** The answer [(served, known)] from what discovery returned. *)
Definition served_from (attributes : Attributes) (gr : GroupsAndResources) : bool * bool :=
  let failed := match gr_err gr with Some e => as_GroupDiscoveryFailed e | None => None end in
  match gr_err gr, failed with
  | Some _, None => (false, false)
  | _, _ =>
    match gr_groups gr with
    | None => (false, false)
    | Some groups =>
      if existsb (gv_matches attributes) (default [] failed) then (false, false)
      else if existsb (λ g : option APIGroup,
                match g with
                | Some g => String.eqb (ag_Name g) (at_APIGroup attributes) &&
                            match ag_Versions g with [] => true | _ => false end
                | None => false
                end) groups then (false, false)
      else if existsb (list_serves attributes) (gr_resourceLists gr) then (true, true)
      else (false, true)
    end
  end.

Definition isResourceServed (attributes : Attributes) : Mw (bool * bool) :=
  let group := at_APIGroup attributes in
  let resource := at_Resource attributes in
  if negb (o_hasDiscoveryClient o) || String.eqb group "*" || String.eqb resource "*" || String.eqb resource ""
  then mret (false, false)
  else
    gr ← ww_on_disc ServerGroupsAndResources;
    mret (served_from attributes gr).

Definition notRegisteredReason (attributes : Attributes) : Mw string :=
  if negb (at_ResourceRequest attributes) then mret reasonNonResourceRequest
  else
    sk ← isResourceServed attributes;
    mret (if sk.2 && negb sk.1 then reasonResourceNotServed else reasonPermissionNotRegistered).

(** ** The checks *)

Definition collection_verbs : list string := ["list"; "create"; "watch"].

(** The object the request is about, given the resource's registration. *)
Definition resource_object (protectedResource : ProtectedResource) (attributes : Attributes) : string :=
  let isNamedSubresource :=
    o_EnableSubresourceAuthorization o && negb (String.eqb (at_Subresource attributes) "") &&
    negb (String.eqb (at_Name attributes) "") in
  let isCollectionOp := str_in (at_Verb attributes) collection_verbs || String.eqb (at_Name attributes) "" in
  if isNamedSubresource || negb isCollectionOp then
    prs_ServiceRef_Name (pr_Spec protectedResource) +:+ "/" +:+ prs_Kind (pr_Spec protectedResource)
      +:+ ":" +:+ at_Name attributes
  else
    match buildParentResource attributes with
    | Ok parentResource => parentResource
    | _ => buildRootResource protectedResource
    end.

Definition buildResourceObject (attributes : Attributes) : Mw string :=
  protectedResource ← wrapf "failed to get protected resource: " (getProtectedResource attributes);
  mret (resource_object protectedResource attributes).

Definition buildCheckRequest (attributes : Attributes) (authCtx : authorizationContext) : Mw CheckRequest :=
  let user := "iam.miloapis.com/InternalUser:" +:+ ac_userUID authCtx in
  let relation := buildHashedPermissionRelation attributes in
  resource ← buildResourceObject attributes;
  modelID ← read_modelID;
  mret (mkCheck (o_FGAStoreID o) modelID (mkCheckKey user relation resource)).

Definition buildOpenFGARequest (attributes : Attributes) (authCtx : authorizationContext) : Mw CheckRequest :=
  buildCheckRequest attributes authCtx.

(** The checks on the parent, for a scoped request. *)
Definition extra_checks (authCtx : authorizationContext) (checkReq : CheckRequest) : list BatchCheckItem :=
  let key := ck_TupleKey checkReq in
  match ac_parentContext authCtx with
  | None => []
  | Some p =>
    let scopeRoot := "iam.miloapis.com/Root:" +:+ pc_apiGroup p +:+ "/" +:+ pc_kind p in
    let scopeParent := pc_apiGroup p +:+ "/" +:+ pc_kind p +:+ ":" +:+ pc_name p in
    mkItem (mkCheckKey (ck_User key) (ck_Relation key) scopeRoot) "scope-root" ::
    (if negb (String.eqb (ck_Object key) scopeParent)
     then [mkItem (mkCheckKey (ck_User key) (ck_Relation key) scopeParent) "scope-parent"]
     else [])
  end.

Definition batch_checks (checkReq : CheckRequest) (rootResource : string) (extraChecks : list BatchCheckItem)
    : list BatchCheckItem :=
  let key := ck_TupleKey checkReq in
  [mkItem (mkCheckKey (ck_User key) (ck_Relation key) (ck_Object key)) "instance";
   mkItem (mkCheckKey (ck_User key) (ck_Relation key) rootResource) "root"] ++ extraChecks.

(** [GetAllowed]: false for an error. *)
Definition GetAllowed (r : BatchCheckSingleResult) : bool :=
  match r with SingleAllowed b => b | SingleError _ => false end.

Definition executeBatchCheck (checkReq : CheckRequest) (rootResource : string)
    (extraChecks : list BatchCheckItem) : Mw authz_result :=
  r ← try (ww_on_fga (fga_BatchCheck (mkBatch (o_FGAStoreID o) (ck_AuthorizationModelId checkReq)
        (batch_checks checkReq rootResource extraChecks))));
  match r with
  | inr err => mret (DecisionNoOpinion, "", Some err)
  | inl result =>
    let allowed := existsb (λ kr, GetAllowed kr.2) (map_to_list result) in
    mret (if allowed then DecisionAllow else DecisionDeny, "", None)
  end.

(** [if err != nil { return authorizer.DecisionDeny, "", f(err) }]. *)
Definition or_deny {A} (f : goerr → goerr) (m : Mw A) (k : A → Mw authz_result) : Mw authz_result :=
  r ← try m;
  match r with
  | inr err => mret (DecisionDeny, "", Some (f err))
  | inl a => k a
  end.

Definition deny_not_registered (attributes : Attributes) (scope : string) : Mw authz_result :=
  let permission := buildPermissionString attributes in
  notRegistered ← notRegisteredReason attributes;
  let text := "permission '" +:+ permission +:+ "' not registered" in
  let '(reason, notRegisteredErr) :=
    if o_EnableSubresourceAuthorization o then (text, None) else ("", Some (ErrText text)) in
  count_decision (mkCount (decisionLabel DecisionDeny notRegisteredErr) scope (at_APIGroup attributes)
                    notRegistered) ;;
  mret (DecisionDeny, reason, notRegisteredErr).

Definition Authorize (attributes : Attributes) : Mw authz_result :=
  or_deny id (lift (buildAuthorizationContext attributes)) (λ authCtx,
  let scope := scopeLabel (Some authCtx) in
  or_deny id (validateOrganizationNamespace authCtx attributes) (λ _,
  or_deny id (validatePermissionWithServiceDefaulting attributes) (λ permExists,
  if negb permExists then deny_not_registered attributes scope
  else
    or_deny (ErrWrap "failed to build OpenFGA request: ") (buildOpenFGARequest attributes authCtx) (λ checkReq,
    or_deny (ErrWrap "failed to get protected resource for batch check: ") (getProtectedResource attributes)
      (λ protectedResource,
    result ← executeBatchCheck checkReq (buildRootResource protectedResource) (extra_checks authCtx checkReq);
    count_decision (mkCount (decisionLabel result.1.1 result.2) scope (at_APIGroup attributes)
                      reasonOpenFGACheck) ;;
    mret result))))).
End authorizer.
