(* ===== verification/AuthorizerSpec.v ===== *)
(** * What the authorizer guarantees

    Which requests [Authorize] allows, and what it answers on every other. *)

From S2P Require Import Prelude GoStrings GoErr Types Constants Permissions Hash World Fga.
From S2P Require Import PRCache ModelIDWatcher Discovery Authorizer.
From Stdlib Require Import Ascii.

(** ** The specification *)

Section spec.
Context {F D : Type} `{FgaClient F} `{DiscoveryInterface D} `{ExtraKeys}.
Context (P : string → option (string * string)) (o : SubjectAccessReviewAuthorizer).

(** The cache at the [n]th read of a request. *)
Definition cache_at (n : nat) (w : WebhookWorld F D) : ProtectedResourceCache :=
  foldl cache_handle (ww_cache w) (concat (take n (ww_feed w))).

(** What the [n]th read of the cache finds for the request's resource. *)
Definition lookup_at (n : nat) (w : WebhookWorld F D) (attributes : Attributes) : option ProtectedResource :=
  GetByAPIGroupAndResource (cache_at n w) (getEffectiveAPIGroup attributes) (at_Resource attributes).

Definition request_model (w : WebhookWorld F D) : string :=
  match ww_watcher w with Some watcher => GetModelID watcher | None => "" end.

(** The objects whose permission decides the request: the resource itself or its
    collection's parent, every object of its kind, every object of the scope's
    kind, and the scope's object. *)
Definition checked_objects (attributes : Attributes) (instance_pr root_pr : ProtectedResource) : list string :=
  [resource_object o instance_pr attributes; buildRootResource root_pr] ++
  match parent_values attributes with
  | None => []
  | Some p => ["iam.miloapis.com/Root:" +:+ pc_apiGroup p +:+ "/" +:+ pc_kind p;
               pc_apiGroup p +:+ "/" +:+ pc_kind p +:+ ":" +:+ pc_name p]
  end.

(** The tuple key that grants the request on [object]. *)
Definition granting_key (attributes : Attributes) (object : string) : CheckRequestTupleKey :=
  mkCheckKey (TypeInternalUser +:+ ":" +:+ ui_UID (at_User attributes))
    (hashPermission (buildPermissionString o attributes)) object.

(** An organization-scoped request stays in its organization's namespace, unless
    it names none and its resource has none. *)
Definition namespace_ok (attributes : Attributes) (w : WebhookWorld F D) : Prop :=
  match parent_values attributes with
  | Some p =>
    pc_apiGroup p = resourcemanager_group → pc_kind p = "Organization" →
    at_Namespace attributes = "organization-" +:+ pc_name p ∨
    at_Namespace attributes = "" ∧
    (isResourceNamespaced (at_APIGroup attributes) (at_APIVersion attributes) (at_Resource attributes) w).1
      = Ok false
  | None => True
  end.

(** ** Running one request *)

Lemma or_deny_inv {A} f (m : M (WebhookWorld F D) A) k w d r e w' :
  or_deny f m k w = (Ok (d, r, e), w') →
  (∃ a w1, m w = (Ok a, w1) ∧ k a w1 = (Ok (d, r, e), w')) ∨
  (∃ err, m w = (Err err, w') ∧ d = DecisionDeny ∧ r = "" ∧ e = Some (f err)).
Proof.
  unfold or_deny, try, mbind, M_bind. destruct (m w) as [[a|err|] w1]; simpl; [eauto| |done].
  intros [= <- <- <- <-]. eauto 10.
Qed.

Lemma or_deny_Ok {A} f (m : M (WebhookWorld F D) A) k w a w1 :
  m w = (Ok a, w1) → or_deny f m k w = k a w1.
Proof. unfold or_deny, try, mbind, M_bind. by intros ->. Qed.

(** Only discovery's state may differ. *)
Definition same_but_disc (w w' : WebhookWorld F D) : Prop :=
  ww_fga w' = ww_fga w ∧ ww_watcher w' = ww_watcher w ∧ ww_cache w' = ww_cache w ∧ ww_feed w' = ww_feed w.

Lemma isResourceNamespaced_frame g v r w : same_but_disc w (isResourceNamespaced g v r w).2.
Proof.
  unfold isResourceNamespaced, wrapf, map_err, ww_on_disc, mbind, M_bind.
  destruct (ServerResourcesForGroupVersion _ (ww_disc w)) as [[l|e|] d]; [|done..].
  cbn. by destruct (find _ _).
Qed.

Lemma validateOrganizationNamespace_frame ctx attributes w :
  same_but_disc w (validateOrganizationNamespace ctx attributes w).2.
Proof.
  unfold validateOrganizationNamespace. destruct (isOrganizationScope ctx); [simpl|done].
  destruct (String.eqb (at_Namespace attributes) ""); [|by case_match].
  pose proof (isResourceNamespaced_frame (at_APIGroup attributes) (at_APIVersion attributes)
    (at_Resource attributes) w) as HF.
  unfold wrapf, map_err, mbind, M_bind.
  destruct (isResourceNamespaced _ _ _ w) as [[b|e|] w1]; [|done..]. by destruct b.
Qed.

Lemma validate_ok attributes ctx w w1 :
  buildAuthorizationContext o attributes = Ok ctx →
  validateOrganizationNamespace ctx attributes w = (Ok tt, w1) → namespace_ok attributes w.
Proof.
  unfold buildAuthorizationContext. case_match; [done|]. intros [= <-].
  unfold validateOrganizationNamespace, isOrganizationScope, namespace_ok, extractParentContext. simpl.
  destruct (parent_values attributes) as [p|]; [|done]. intros HV Eg Ek. revert HV. rewrite Eg, Ek. simpl.
  destruct (String.eqb_spec (at_Namespace attributes) "").
  - intros (b & w2 & Hb & Hv)%bind_Ok. apply wrapf_Ok in Hb. right. split; [done|]. rewrite Hb.
    by destruct b.
  - destruct (String.eqb_spec (at_Namespace attributes) ("organization-" +:+ pc_name p)); [by left|done].
Qed.

Lemma foldl_concat_take_S (c : ProtectedResourceCache) (feed : list (list (informer_event ProtectedResource))) n :
  foldl cache_handle c (concat (take (S n) feed)) =
  foldl cache_handle (foldl cache_handle c (hd [] feed)) (concat (take n (tail feed))).
Proof. destruct feed as [|b feed]; simpl; [by rewrite take_nil|]. by rewrite foldl_app. Qed.

(** The state after a cache read. *)
Definition after_read (w : WebhookWorld F D) : WebhookWorld F D :=
  mkWW (ww_fga w) (ww_disc w) (ww_watcher w) (next_cache w) (tail (ww_feed w)) (ww_counts w).

Lemma cache_at_after n w : cache_at n (after_read w) = cache_at (S n) w.
Proof. unfold cache_at, after_read. simpl. by rewrite foldl_concat_take_S. Qed.

Lemma lookup_at_after n w attributes : lookup_at n (after_read w) attributes = lookup_at (S n) w attributes.
Proof. unfold lookup_at. by rewrite cache_at_after. Qed.

Lemma read_cache_run w attributes :
  read_cache (getEffectiveAPIGroup attributes) (at_Resource attributes) w = (Ok (lookup_at 1 w attributes), after_read w).
Proof.
  unfold read_cache, after_read, lookup_at, cache_at. rewrite foldl_concat_take_S. by rewrite take_0.
Qed.

Lemma lookup_at_same n w w' attributes : same_but_disc w w' → lookup_at n w' attributes = lookup_at n w attributes.
Proof. intros (_ & _ & Hc & Hf). unfold lookup_at, cache_at. by rewrite Hc, Hf. Qed.

Lemma validatePermission_run w attributes :
  validatePermissionWithServiceDefaulting o attributes w =
  (Ok match lookup_at 1 w attributes with Some pr => registers o pr attributes | None => false end, after_read w).
Proof.
  unfold validatePermissionWithServiceDefaulting, mbind, M_bind. rewrite read_cache_run.
  by destruct (lookup_at 1 w attributes).
Qed.

Lemma getProtectedResource_run w attributes :
  getProtectedResource attributes w =
  (match lookup_at 1 w attributes with
   | Some pr => Ok pr
   | None => Err (ErrText ("no ProtectedResource found for APIGroup=" +:+ getEffectiveAPIGroup attributes +:+
                           ", Resource=" +:+ at_Resource attributes))
   end, after_read w).
Proof.
  unfold getProtectedResource, mbind, M_bind. rewrite read_cache_run. by destruct (lookup_at 1 w attributes).
Qed.

Definition request_check (attributes : Attributes) (pr : ProtectedResource) (w : WebhookWorld F D) : CheckRequest :=
  mkCheck (o_FGAStoreID o) (request_model w)
    (granting_key attributes (resource_object o pr attributes)).

Lemma buildOpenFGARequest_run w attributes ctx :
  buildAuthorizationContext o attributes = Ok ctx →
  buildOpenFGARequest o attributes ctx w =
  (match lookup_at 1 w attributes with
   | Some pr => Ok (request_check attributes pr w)
   | None => Err (ErrWrap "failed to get protected resource: "
       (ErrText ("no ProtectedResource found for APIGroup=" +:+ getEffectiveAPIGroup attributes +:+
                 ", Resource=" +:+ at_Resource attributes)))
   end, after_read w).
Proof.
  unfold buildAuthorizationContext. case_match; [done|]. intros [= <-].
  unfold buildOpenFGARequest, buildCheckRequest, buildResourceObject, wrapf, map_err, mbind, M_bind.
  rewrite getProtectedResource_run. by destruct (lookup_at 1 w attributes).
Qed.

(** The checks of one request. *)
Definition request_batch (attributes : Attributes) (pr2 pr3 : ProtectedResource) (ctx : authorizationContext)
    (w : WebhookWorld F D) : BatchCheckRequest :=
  let req := request_check attributes pr2 w in
  mkBatch (o_FGAStoreID o) (request_model w)
    (batch_checks req (buildRootResource pr3) (extra_checks ctx req)).

Lemma request_batch_NoDup attributes pr2 pr3 ctx w :
  NoDup (map bi_CorrelationId (bc_Checks (request_batch attributes pr2 pr3 ctx w))).
Proof.
  unfold request_batch, batch_checks, extra_checks. simpl. destruct (ac_parentContext ctx); [simpl; case_match|];
    apply (bool_decide_unpack _); vm_compute; exact I.
Qed.

(** The tuple keys sent are the granting keys of the checked objects. *)
Lemma request_batch_objects attributes pr2 pr3 ctx w key :
  buildAuthorizationContext o attributes = Ok ctx →
  key ∈ map bi_TupleKey (bc_Checks (request_batch attributes pr2 pr3 ctx w)) ↔
  ∃ object, object ∈ checked_objects attributes pr2 pr3 ∧ key = granting_key attributes object.
Proof.
  unfold buildAuthorizationContext. case_match; [done|]. intros [= <-].
  unfold request_batch, batch_checks, extra_checks, checked_objects, extractParentContext.
  cbn [bc_Checks ac_parentContext request_check ck_TupleKey].
  destruct (parent_values attributes) as [p|].
  - destruct (String.eqb_spec (ck_Object (granting_key attributes (resource_object o pr2 attributes)))
      (pc_apiGroup p +:+ "/" +:+ pc_kind p +:+ ":" +:+ pc_name p)) as [E|E];
      simpl in E |- *; rewrite !ex_elem_cons, ?elem_of_cons; setoid_rewrite elem_of_nil.
    + rewrite <- E. naive_solver.
    + naive_solver.
  - simpl. rewrite !ex_elem_cons, !elem_of_cons. setoid_rewrite elem_of_nil. naive_solver.
Qed.
End spec.

Section decisions.
Context {F D : Type} `{FgaLaws F} `{DiscoveryInterface D} `{ExtraKeys}.
Context (P : string → option (string * string)) (o : SubjectAccessReviewAuthorizer).
Abbreviation WW := (WebhookWorld F D).

(** The state in which the checks are sent. *)
Definition at_checks (w : WW) : WW := after_read (after_read (after_read w)).

Lemma executeBatchCheck_run attributes pr2 pr3 ctx (w : WW) (w0 : WW) :
  ww_fga w = ww_fga w0 →
  (executeBatchCheck o (request_check o attributes pr2 w0) (buildRootResource pr3)
    (extra_checks ctx (request_check o attributes pr2 w0)) w).1 =
  match (fga_BatchCheck (request_batch o attributes pr2 pr3 ctx w0) (ww_fga w0)).1 with
  | Ok result => Ok (if existsb (λ kr, GetAllowed kr.2) (map_to_list result) then DecisionAllow else DecisionDeny, "", None)
  | Err e => Ok (DecisionNoOpinion, "", Some e)
  | OutOfFuel => OutOfFuel
  end.
Proof.
  intros E. unfold executeBatchCheck, try, ww_on_fga, mbind, M_bind. rewrite E.
  change (mkBatch (o_FGAStoreID o) (ck_AuthorizationModelId (request_check o attributes pr2 w0))
    (batch_checks (request_check o attributes pr2 w0) (buildRootResource pr3)
      (extra_checks ctx (request_check o attributes pr2 w0)))) with (request_batch o attributes pr2 pr3 ctx w0).
  destruct (fga_BatchCheck _ (ww_fga w0)) as [[res|e|] f]; done.
Qed.

(** Once the request is admitted, the checks decide. *)
Lemma Authorize_admitted attributes ctx (w w1 : WW) pr1 pr2 pr3 :
  buildAuthorizationContext o attributes = Ok ctx →
  validateOrganizationNamespace ctx attributes w = (Ok tt, w1) →
  lookup_at 1 w attributes = Some pr1 → registers o pr1 attributes = true →
  lookup_at 2 w attributes = Some pr2 → lookup_at 3 w attributes = Some pr3 →
  (Authorize P o attributes w).1 =
  match (fga_BatchCheck (request_batch o attributes pr2 pr3 ctx w) (ww_fga w)).1 with
  | Ok result => Ok (if existsb (λ kr, GetAllowed kr.2) (map_to_list result) then DecisionAllow else DecisionDeny, "", None)
  | Err e => Ok (DecisionNoOpinion, "", Some e)
  | OutOfFuel => OutOfFuel
  end.
Proof.
  intros Hc Hv Hl1 Hreg Hl2 Hl3. pose proof (validateOrganizationNamespace_frame ctx attributes w) as HF.
  rewrite Hv in HF. simpl in HF. pose proof HF as (Ef & Ew & _ & _). unfold Authorize.
  rewrite (or_deny_Ok _ _ _ w ctx w) by (unfold lift; by rewrite Hc).
  rewrite (or_deny_Ok _ _ _ w tt w1) by done.
  erewrite or_deny_Ok by apply validatePermission_run.
  rewrite (lookup_at_same 1 w w1), Hl1, Hreg by done. simpl.
  erewrite or_deny_Ok; [|rewrite (buildOpenFGARequest_run _ _ _ _ Hc), lookup_at_after,
    (lookup_at_same 2 w w1), Hl2 by done; reflexivity].
  erewrite or_deny_Ok; [|rewrite getProtectedResource_run, !lookup_at_after,
    (lookup_at_same 3 w w1), Hl3 by done; reflexivity].
  assert (request_check o attributes pr2 (after_read w1) = request_check o attributes pr2 w) as ->.
  { unfold request_check, request_model. simpl. by rewrite Ew. }
  rewrite <- (executeBatchCheck_run attributes pr2 pr3 ctx (after_read (after_read (after_read w1))) w) by done.
  unfold mbind at 1, M_bind at 1. destruct (executeBatchCheck _ _ _ _ _) as [[[[d r] e]|e|] w2]; done.
Qed.

Lemma deny_not_registered_not_allow attributes scope (w : WW) d r e w' :
  deny_not_registered P o attributes scope w = (Ok (d, r, e), w') → d = DecisionDeny.
Proof.
  unfold deny_not_registered. intros (a & w1 & _ & Hr)%bind_Ok.
  destruct (o_EnableSubresourceAuthorization o); apply bind_Ok in Hr as (? & ? & _ & Hr);
    apply mret_run in Hr as [[= -> -> ->] _]; done.
Qed.

(** An Allow passed every guard. *)
Lemma Authorize_Allow_inv attributes (w : WW) r e w' :
  Authorize P o attributes w = (Ok (DecisionAllow, r, e), w') →
  ∃ ctx w1 pr1 pr2 pr3, buildAuthorizationContext o attributes = Ok ctx ∧
    validateOrganizationNamespace ctx attributes w = (Ok tt, w1) ∧
    lookup_at 1 w attributes = Some pr1 ∧ registers o pr1 attributes = true ∧
    lookup_at 2 w attributes = Some pr2 ∧ lookup_at 3 w attributes = Some pr3.
Proof.
  unfold Authorize. intros [(ctx & w0 & Hc & HA)|(? & _ & ? & _)]%or_deny_inv; [|done].
  injection Hc as Hc <-.
  apply or_deny_inv in HA as [([] & w1 & Hv & HA)|(? & _ & ? & _)]; [|done].
  pose proof (validateOrganizationNamespace_frame ctx attributes w) as HF. rewrite Hv in HF. simpl in HF.
  apply or_deny_inv in HA as [(b & w2 & Hp & HA)|(? & _ & ? & _)]; [|done].
  rewrite validatePermission_run in Hp. injection Hp as <- <-. rewrite (lookup_at_same 1 w w1) in HA by done.
  destruct (lookup_at 1 w attributes) as [pr1|] eqn:Hl1; [|by apply deny_not_registered_not_allow in HA].
  destruct (registers o pr1 attributes) eqn:Hreg; [|by apply deny_not_registered_not_allow in HA].
  cbn [negb] in HA. apply or_deny_inv in HA as [(req & w3 & Hb & HA)|(? & _ & ? & _)]; [|done].
  rewrite (buildOpenFGARequest_run _ _ _ _ Hc), lookup_at_after, (lookup_at_same 2 w w1) in Hb by done.
  destruct (lookup_at 2 w attributes) as [pr2|] eqn:Hl2; [|done]. injection Hb as <- <-.
  apply or_deny_inv in HA as [(q & w4 & Hb & HA)|(? & _ & ? & _)]; [|done].
  rewrite getProtectedResource_run, !lookup_at_after, (lookup_at_same 3 w w1) in Hb by done.
  destruct (lookup_at 3 w attributes) as [pr3|] eqn:Hl3; [|done].
  exists ctx, w1, pr1, pr2, pr3. done.
Qed.

(** Some result is allowed exactly when some granting key is. *)
Lemma results_allowed attributes pr2 pr3 ctx (w : WW) res :
  buildAuthorizationContext o attributes = Ok ctx →
  (fga_BatchCheck (request_batch o attributes pr2 pr3 ctx w) (ww_fga w)).1 = Ok res →
  existsb (λ kr, GetAllowed kr.2) (map_to_list res) = true →
  ∃ object, object ∈ checked_objects o attributes pr2 pr3 ∧
    fga_allows (ww_fga w) (o_FGAStoreID o) (request_model w) (granting_key o attributes object).
Proof.
  intros Hc Hres ([id r] & Hr%elem_of_map_to_list & Ha)%existsb_elem.
  destruct (fga_BatchCheck_Ok _ _ _ Hres (request_batch_NoDup o attributes pr2 pr3 ctx w) id r Hr)
    as (item & Hi & _ & Hall). destruct r as [b|]; [|done]. simpl in Ha. subst b.
  apply proj1 in Hall. specialize (Hall eq_refl).
  destruct (proj1 (request_batch_objects o attributes pr2 pr3 ctx w (bi_TupleKey item) Hc)) as (obj & Ho & Ek).
  { apply elem_of_map. eauto. }
  exists obj. rewrite <- Ek. done.
Qed.

(** C1: The authorizer allows nothing it should not. When [Authorize] answers
    Allow there is no error and no reason; the request names a user UID; an
    organization-scoped request stays in its organization's namespace (or names
    none, for a resource discovery says is cluster-scoped); the first cache read
    finds a registration that declares the requested verb or subresource
    permission; and OpenFGA, under the model the watcher reported, grants the
    user the hashed permission on the resource itself, on its kind, on the
    scope's kind or on the scope's object, for the registrations the later cache
    reads found. This holds whatever informer events arrive in between. *)
Theorem Authorize_allow_sound attributes (w w' : WW) reason err
  (Hallow : Authorize P o attributes w = (Ok (DecisionAllow, reason, err), w')) :
  reason = "" ∧ err = None ∧ ui_UID (at_User attributes) ≠ "" ∧ namespace_ok attributes w ∧
  ∃ pr1 pr2 pr3,
    lookup_at 1 w attributes = Some pr1 ∧ registers o pr1 attributes = true ∧
    lookup_at 2 w attributes = Some pr2 ∧ lookup_at 3 w attributes = Some pr3 ∧
    ∃ object, object ∈ checked_objects o attributes pr2 pr3 ∧
      fga_allows (ww_fga w) (o_FGAStoreID o) (request_model w) (granting_key o attributes object).
Proof.
  pose proof (Authorize_Allow_inv _ _ _ _ _ Hallow) as (ctx & w1 & pr1 & pr2 & pr3 & Hc & Hv & Hl1 & Hreg & Hl2 & Hl3).
  pose proof (Authorize_admitted _ _ _ _ _ _ _ Hc Hv Hl1 Hreg Hl2 Hl3) as HA. rewrite Hallow in HA. simpl in HA.
  destruct (fga_BatchCheck _ (ww_fga w)) as [[res|e|] f] eqn:Hb; simpl in HA; [|done..].
  injection HA as Hd -> ->. split_and!; [done..| | |].
  - unfold buildAuthorizationContext in Hc. by destruct (String.eqb_spec (ui_UID (at_User attributes)) "").
  - by eapply validate_ok.
  - exists pr1, pr2, pr3. split_and!; [done..|]. eapply results_allowed; [done|by rewrite Hb|].
    by destruct (existsb _ _).
Qed.

(** The decision of an admitted request. *)
Lemma Authorize_decides_aux attributes ctx (w w1 : WW) pr1 pr2 pr3 res
  (Hctx : buildAuthorizationContext o attributes = Ok ctx)
  (Hns : validateOrganizationNamespace ctx attributes w = (Ok tt, w1))
  (Hl1 : lookup_at 1 w attributes = Some pr1) (Hreg : registers o pr1 attributes = true)
  (Hl2 : lookup_at 2 w attributes = Some pr2) (Hl3 : lookup_at 3 w attributes = Some pr3)
  (Hbatch : (fga_BatchCheck (request_batch o attributes pr2 pr3 ctx w) (ww_fga w)).1 = Ok res)
  (Hanswered : ∀ id r, res !! id = Some r → ∃ b, r = SingleAllowed b) :
  ∃ d, (Authorize P o attributes w).1 = Ok (d, "", None) ∧ (d = DecisionAllow ∨ d = DecisionDeny) ∧
    (d = DecisionAllow ↔ ∃ object, object ∈ checked_objects o attributes pr2 pr3 ∧
      fga_allows (ww_fga w) (o_FGAStoreID o) (request_model w) (granting_key o attributes object)).
Proof.
  rewrite (Authorize_admitted _ _ _ _ _ _ _ Hctx Hns Hl1 Hreg Hl2 Hl3), Hbatch. eexists. split; [done|].
  destruct (existsb _ _) eqn:He; [|split; [by right|split; [done|]]].
  - split; [by left|]. split; [intros _|done]. by eapply results_allowed.
  - intros (obj & Ho & Ha). exfalso.
    pose proof (request_batch_NoDup o attributes pr2 pr3 ctx w) as HN.
    assert (granting_key o attributes obj ∈ map bi_TupleKey (bc_Checks (request_batch o attributes pr2 pr3 ctx w)))
      as Hk by (apply request_batch_objects; eauto).
    apply elem_of_map in Hk as (item & Hi & Ek).
    destruct (fga_BatchCheck_all _ _ _ Hbatch HN item Hi) as [r Hr].
    destruct (fga_BatchCheck_Ok _ _ _ Hbatch HN _ _ Hr) as (item' & Hi' & Eid & Hr').
    assert (item' = item) as ->.
    { apply list_elem_of_lookup in Hi as [i Hi], Hi' as [j Hj].
      assert (i = j) as ->; [|congruence].
      eapply NoDup_lookup; [exact HN|by rewrite list_lookup_fmap, Hi|].
      rewrite list_lookup_fmap, Hj. simpl. by rewrite Eid. }
    destruct (Hanswered _ _ Hr) as [b ->]. rewrite <- Ek in Hr'. apply Hr' in Ha as ->.
    rewrite (existsb_not_elem _ _) in He. specialize (He (bi_CorrelationId item, SingleAllowed true)).
    by rewrite elem_of_map_to_list in He; specialize (He Hr).
Qed.

(** C21: The authorizer grants what OpenFGA grants. A request with a user UID and
    an admissible namespace, for a resource that stays registered and declares
    the permission, is decided by OpenFGA alone when the batch check answers
    every item: Allow exactly when the user holds the hashed permission on one
    of the checked objects, and Deny, without an error, otherwise. *)
Theorem Authorize_decides attributes ctx (w w1 : WW) pr1 pr2 pr3 res
  (Hctx : buildAuthorizationContext o attributes = Ok ctx)
  (Hns : validateOrganizationNamespace ctx attributes w = (Ok tt, w1))
  (Hl1 : lookup_at 1 w attributes = Some pr1) (Hreg : registers o pr1 attributes = true)
  (Hl2 : lookup_at 2 w attributes = Some pr2) (Hl3 : lookup_at 3 w attributes = Some pr3)
  (Hbatch : (fga_BatchCheck (request_batch o attributes pr2 pr3 ctx w) (ww_fga w)).1 = Ok res)
  (Hanswered : ∀ id r, res !! id = Some r → ∃ b, r = SingleAllowed b) :
  ∃ d, (Authorize P o attributes w).1 = Ok (d, "", None) ∧ (d = DecisionAllow ∨ d = DecisionDeny) ∧
    (d = DecisionAllow ↔ ∃ object, object ∈ checked_objects o attributes pr2 pr3 ∧
      fga_allows (ww_fga w) (o_FGAStoreID o) (request_model w) (granting_key o attributes object)).
Proof. eauto using Authorize_decides_aux. Qed.
End decisions.
