(* ===== verification/Http.v ===== *)
(** * [internal/webhook/{http,webhook,response}.go]: the HTTP webhook

    A SubjectAccessReview arrives as an HTTP request, is turned into attributes
    for the authorizer, and its decision into a response. *)

From S2P Require Import Prelude GoStrings GoErr Types Constants Permissions Hash World Fga.
From S2P Require Import PRCache ModelIDWatcher Discovery Authorizer AuthorizerSpec.

(** ** SubjectAccessReview *)

(** A selector is its raw text. *)
Record ResourceAttributes := mkResourceAttributes {
  ra_Namespace : string;
  ra_Verb : string;
  ra_Group : string;
  ra_Version : string;
  ra_Resource : string;
  ra_Subresource : string;
  ra_Name : string;
  ra_FieldSelector : option string;
  ra_LabelSelector : option string
}.
Record NonResourceAttributes := mkNonResource { nra_Path : string; nra_Verb : string }.

Record SubjectAccessReviewSpec := mkSAR {
  sar_ResourceAttributes : option ResourceAttributes;
  sar_NonResourceAttributes : option NonResourceAttributes;
  sar_User : string;
  sar_Groups : list string;
  sar_Extra : gmap string (list string);
  sar_UID : string
}.

Record Response := mkResponse {
  rsp_Allowed : bool;
  rsp_Denied : bool;
  rsp_Reason : string;
  rsp_EvaluationError : string
}.

(** ** response.go *)

Definition AuthorizationResponse (allowed denied : bool) (reason evaluationError : string) : Response :=
  mkResponse allowed denied reason evaluationError.
Definition Denied (reason : string) : Response := AuthorizationResponse false true reason "".
Definition Errored (err : goerr) : Response := AuthorizationResponse false false "" (Error err).

(** ** webhook.go *)

Section webhook.
Context {W : Type} (Authorizer_Authorize : Attributes → M W authz_result).
(** [fields.ParseSelector] and [labels.ParseToRequirements]. *)
Context (ParseFieldSelector ParseLabelSelector : string → outcome (list Requirement)).

Definition parse_selector (parse : string → outcome (list Requirement)) (selector : option string)
    : outcome (list Requirement) :=
  match selector with
  | Some raw => parse raw
  | None => Ok []
  end.

(** The attributes the handler builds, or the selector's error. *)
Definition request_attributes (spec : SubjectAccessReviewSpec) : outcome Attributes :=
  let user := mkUser (sar_User spec) (sar_UID spec) (sar_Groups spec) (sar_Extra spec) in
  match sar_ResourceAttributes spec with
  | Some ra =>
    fieldReqs ← parse_selector ParseFieldSelector (ra_FieldSelector ra);
    labelReqs ← parse_selector ParseLabelSelector (ra_LabelSelector ra);
    Ok (mkAttributes user (ra_Verb ra) (ra_Namespace ra) (ra_Group ra) (ra_Version ra) (ra_Resource ra)
          (ra_Subresource ra) (ra_Name ra) true "" fieldReqs labelReqs)
  | None =>
    match sar_NonResourceAttributes spec with
    | Some nra => Ok (mkAttributes user (nra_Verb nra) "" "" "" "" "" "" false (nra_Path nra) [] [])
    | None => Ok (mkAttributes user "" "" "" "" "" "" "" false "" [] [])
    end
  end.

(** The handler of [NewAuthorizerWebhook]. *)
Definition Handle (spec : SubjectAccessReviewSpec) : M W Response :=
  match sar_ResourceAttributes spec, sar_NonResourceAttributes spec with
  | Some _, Some _ => mret (Denied "must specify oneof resource or non-resource attributes, not both")
  | _, _ =>
    attrs ← try (lift (request_attributes spec));
    match attrs with
    | inr err => mret (Errored err)
    | inl attrs =>
      result ← Authorizer_Authorize attrs;
      let '(decision, reason, err) := result in
      match err with
      | Some err => mret (Errored err)
      | None =>
        mret (match decision with
              | DecisionAllow => mkResponse true false reason ""
              | DecisionDeny => mkResponse false true reason ""
              | DecisionNoOpinion => mkResponse false false reason ""
              end)
      end
    end
  end.

(** ** http.go *)

Definition decisionError : string := "error".
Definition reasonHTTPRequest : string := "http_request".

Definition decisionFromResponse (resp : Response) : string :=
  if negb (String.eqb (rsp_EvaluationError resp) "") then decisionError
  else if rsp_Allowed resp then "allowed"
  else if rsp_Denied resp then "denied"
  else "no_opinion".

Definition scopeFromResponse (_ : Response) : string := "unknown".

(** The body is nil, or reading it fails, or it is read. *)
Record HTTPRequest := mkHTTP {
  http_Body : option (outcome string);
  http_ContentType : string
}.

(** The review the codec decodes. *)
Context (Decode : string → outcome SubjectAccessReviewSpec).

Definition http_error (err : goerr) : M W (Response * decision_count) :=
  mret (Errored err, mkCount decisionError "" "" reasonHTTPRequest).

(** The response written and the decision the deferred function counts. *)
Definition ServeHTTP (r : HTTPRequest) : M W (Response * decision_count) :=
  match http_Body r with
  | None => http_error (ErrText "request body is empty")
  | Some readAll =>
    body ← try (lift readAll);
    match body with
    | inr err => http_error err
    | inl body =>
      if negb (String.eqb (http_ContentType r) "application/json") then
        http_error (ErrText ("contentType=" +:+ http_ContentType r +:+ ", expected application/json"))
      else
        req ← try (lift (Decode body));
        match req with
        | inr err => http_error err
        | inl spec =>
          let resourceGroup := match sar_ResourceAttributes spec with Some ra => ra_Group ra | None => "" end in
          reviewResponse ← Handle spec;
          mret (reviewResponse, mkCount (decisionFromResponse reviewResponse)
                  (scopeFromResponse reviewResponse) resourceGroup reasonHTTPRequest)
        end
    end
  end.

(** ** What a client of the webhook is told *)

(** A request that reaches the authorizer. *)
Definition authorized_request (r : HTTPRequest) (attrs : Attributes) : Prop :=
  ∃ body spec, http_Body r = Some (Ok body) ∧ http_ContentType r = "application/json" ∧
    Decode body = Ok spec ∧ request_attributes spec = Ok attrs ∧
    (sar_ResourceAttributes spec = None ∨ sar_NonResourceAttributes spec = None).

Lemma Handle_not_both spec w :
  (sar_ResourceAttributes spec = None ∨ sar_NonResourceAttributes spec = None) →
  Handle spec w =
  (attrs ← try (lift (request_attributes spec));
    match attrs with
    | inr err => mret (Errored err)
    | inl attrs =>
      result ← Authorizer_Authorize attrs;
      let '(decision, reason, err) := result in
      match err with
      | Some err => mret (Errored err)
      | None =>
        mret (match decision with
              | DecisionAllow => mkResponse true false reason ""
              | DecisionDeny => mkResponse false true reason ""
              | DecisionNoOpinion => mkResponse false false reason ""
              end)
      end
    end) w.
Proof. unfold Handle. by destruct (sar_ResourceAttributes spec), (sar_NonResourceAttributes spec) as [|]; intros [|]. Qed.

(** The response says Allowed only for an Allow without an error. *)
Lemma Handle_Allowed spec w resp w' :
  Handle spec w = (Ok resp, w') → rsp_Allowed resp = true →
  (sar_ResourceAttributes spec = None ∨ sar_NonResourceAttributes spec = None) ∧
  ∃ attrs, request_attributes spec = Ok attrs ∧
    Authorizer_Authorize attrs w = (Ok (DecisionAllow, rsp_Reason resp, None), w').
Proof.
  intros HH HA.
  assert (sar_ResourceAttributes spec = None ∨ sar_NonResourceAttributes spec = None) as HN.
  { unfold Handle in HH. destruct (sar_ResourceAttributes spec), (sar_NonResourceAttributes spec); auto.
    injection HH as <- <-. done. }
  split; [done|]. rewrite Handle_not_both in HH by done.
  apply bind_Ok in HH as (a & w1 & Ht & HH). destruct a as [attrs|err]; [|by injection HH as <- <-].
  apply (proj1 (try_inl _ _ _ _)) in Ht. unfold lift in Ht. injection Ht as Ht <-. exists attrs. split; [done|].
  apply bind_Ok in HH as ([[d r] e] & w2 & Ha & HH). rewrite Ha.
  cbn in HH. destruct e; [by injection HH as <- <-|]. injection HH as <- <-. by destruct d.
Qed.

Lemma Handle_exclusive spec w resp w' :
  Handle spec w = (Ok resp, w') →
  ¬ (rsp_Allowed resp = true ∧ rsp_Denied resp = true) ∧
  (rsp_EvaluationError resp ≠ "" → rsp_Allowed resp = false ∧ rsp_Denied resp = false).
Proof.
  intros HH.
  destruct (decide (sar_ResourceAttributes spec = None ∨ sar_NonResourceAttributes spec = None)) as [HN|HN].
  - rewrite Handle_not_both in HH by done. apply bind_Ok in HH as (a & w1 & Ht & HH).
    destruct a as [attrs|err]; [|injection HH as <- <-; simpl; naive_solver].
    apply bind_Ok in HH as ([[d r] e] & w2 & Ha & HH).
    cbn in HH. destruct e; [injection HH as <- <-; simpl; naive_solver|]. injection HH as <- <-.
    destruct d; simpl; naive_solver.
  - unfold Handle in HH. destruct (sar_ResourceAttributes spec), (sar_NonResourceAttributes spec); try (exfalso; auto; fail).
    injection HH as <- <-. simpl. naive_solver.
Qed.

Lemma ServeHTTP_inv r w resp c w' :
  ServeHTTP r w = (Ok (resp, c), w') →
  dc_reason c = reasonHTTPRequest ∧
  ((∃ body spec, http_Body r = Some (Ok body) ∧ http_ContentType r = "application/json" ∧
      Decode body = Ok spec ∧ Handle spec w = (Ok resp, w') ∧ dc_decision c = decisionFromResponse resp) ∨
   (∃ err, resp = Errored err ∧ w' = w ∧ dc_decision c = decisionError)).
Proof.
  unfold ServeHTTP, http_error. destruct (http_Body r) as [readAll|] eqn:Hb; [|intros [= <- <- <-]; eauto 10].
  rewrite try_lift_bind. destruct readAll as [body|e|]; [|intros [= <- <- <-]; eauto 10|done].
  destruct (String.eqb_spec (http_ContentType r) "application/json") as [Ec|]; cbn [negb];
    [|intros [= <- <- <-]; eauto 10].
  rewrite try_lift_bind. destruct (Decode body) as [spec|e|] eqn:Hd; [|intros [= <- <- <-]; eauto 10|done].
  intros (resp' & w1 & Hh & HR)%bind_Ok. injection HR as <- <- <-. split; [done|]. left. eauto 10.
Qed.

(** C19: The HTTP endpoint fails closed. Every response it writes, whatever the
    body, the content type, the selectors or the authorizer's answer, is at most
    one of Allowed and Denied; a response with an evaluation error is neither;
    and a response is Allowed only for a well-formed JSON review with resource or
    non-resource attributes, not both, whose attributes the authorizer itself
    answered Allow for, without an error. The decision counted for the request
    is the one the response carries. *)
Theorem ServeHTTP_fail_closed r w resp c w'
  (Hserve : ServeHTTP r w = (Ok (resp, c), w')) :
  ¬ (rsp_Allowed resp = true ∧ rsp_Denied resp = true) ∧
  (rsp_EvaluationError resp ≠ "" →
     rsp_Allowed resp = false ∧ rsp_Denied resp = false ∧ dc_decision c = decisionError) ∧
  (rsp_Allowed resp = true → dc_decision c = "allowed" ∧
     ∃ attrs, authorized_request r attrs ∧
       Authorizer_Authorize attrs w = (Ok (DecisionAllow, rsp_Reason resp, None), w')).
Proof.
  apply ServeHTTP_inv in Hserve as (_ & [(body & spec & Hb & Hc & Hd & HH & Hl)|(err & -> & -> & Hl)]).
  - destruct (Handle_exclusive _ _ _ _ HH) as [HE1 HE2]. split_and!; [done| |].
    + intros He. destruct (HE2 He) as [-> ->]. split_and!; [done..|]. rewrite Hl. unfold decisionFromResponse.
      by destruct (String.eqb_spec (rsp_EvaluationError resp) "").
    + intros Ha. destruct (Handle_Allowed _ _ _ _ HH Ha) as (HN & attrs & Hat & HA). split.
      * rewrite Hl. unfold decisionFromResponse. destruct (String.eqb_spec (rsp_EvaluationError resp) "") as [|He].
        -- simpl. by rewrite Ha.
        -- destruct (HE2 He). congruence.
      * exists attrs. split; [|done]. exists body, spec. done.
  - simpl. split_and!; [naive_solver|naive_solver|done].
Qed.
End webhook.
