(* ===== verification/EndToEnd.v ===== *)
(** * From a PolicyBinding to the webhook's answer

    The tuples the policy reconciler writes are the ones the authorizer asks
    OpenFGA about. The examples of the webhook's theorems are at the end. *)

From S2P Require Import Prelude GoStrings GoErr Types Constants Permissions Hash ResourceGraph.
From S2P Require Import World Fga Tuples TuplesFacts PolicyReconciler PolicyReconcilerFacts.
From S2P Require Import Indexes RefK8s PolicyReconcilerSpec PRCache ModelIDWatcher Discovery.
From S2P Require Import Authorizer AuthorizerSpec Http.
From Stdlib Require Import Ascii.

(** The requests a binding's target covers: on the object it names, on a
    collection or an object under the scope it names, on objects of the kind it
    names, or under a scope of that kind. *)
Definition covers `{ExtraKeys} (sel : ResourceSelector) (attributes : Attributes) (pr2 pr3 : ProtectedResource) : Prop :=
  match sel_ResourceRef sel, sel_ResourceKind sel with
  | Some ref, _ =>
    (prs_ServiceRef_Name (pr_Spec pr2) = ref_APIGroup ref ∧ prs_Kind (pr_Spec pr2) = ref_Kind ref ∧
     at_Name attributes = ref_Name ref ∧ at_Name attributes ≠ "" ∧ at_Verb attributes ∉ collection_verbs) ∨
    parent_values attributes = Some (mkParentContext (ref_APIGroup ref) (ref_Kind ref) (ref_Name ref))
  | None, Some rk =>
    (prs_ServiceRef_Name (pr_Spec pr3) = rk_APIGroup rk ∧ prs_Kind (pr_Spec pr3) = rk_Kind rk) ∨
    ∃ name, parent_values attributes = Some (mkParentContext (rk_APIGroup rk) (rk_Kind rk) name)
  | None, None => False
  end.

Lemma root_text g k : TypeRoot +:+ ":" +:+ g +:+ "/" +:+ k = "iam.miloapis.com/Root:" +:+ g +:+ "/" +:+ k.
Proof. reflexivity. Qed.

Lemma target_checked `{ExtraKeys} o sel attributes pr2 pr3 target :
  covers sel attributes pr2 pr3 → TargetObjectFromResourceSelector sel = Ok target →
  target ∈ checked_objects o attributes pr2 pr3.
Proof.
  unfold covers, TargetObjectFromResourceSelector, checked_objects, ObjectName.
  destruct (sel_ResourceRef sel) as [ref|].
  - intros [(E1 & E2 & E3 & Hn & Hv)|E] [= <-].
    + apply elem_of_cons. left. unfold resource_object. rewrite E1, E2, E3 in *.
      destruct (str_in (at_Verb attributes) collection_verbs) eqn:Hs; [by apply str_in_elem in Hs|].
      destruct (String.eqb_spec (ref_Name ref) ""); [done|]. by rewrite orb_true_r.
    + rewrite E. simpl. set_solver.
  - destruct (sel_ResourceKind sel) as [rk|]; [|done].
    intros [[E1 E2]|(name & E)] [= <-]; rewrite root_text.
    + right. apply elem_of_cons. left. unfold buildRootResource. by rewrite E1, E2.
    + rewrite E. simpl. set_solver.
Qed.

Section end_to_end.
Context {F K D : Type} `{FgaLaws F} `{KReadLaws K Role} `{KReadLaws K PolicyBinding}
  `{KReadLaws K ProtectedResource} `{ApiErrors} `{DiscoveryInterface D} `{ExtraKeys}.
Context (r : PolicyReconciler F K).
Context (P : string → option (string * string)) (o : SubjectAccessReviewAuthorizer).

(** A user who holds a relation on an object directly has it, under a model that
    defines the relation on the object's type. *)
Definition direct_tuples_allow (f : F) (modelID : string) : Prop :=
  ∀ k, fga_tuples f (o_FGAStoreID o) !! k = Some None →
    fga_allows f (o_FGAStoreID o) modelID (mkCheckKey (wc_User k) (wc_Relation k) (wc_Object k)).

(** C6: What a binding grants, the webhook allows. After a binding is
    reconciled, a request by one of its User or ServiceAccount subjects, for a
    permission its role grants, on what its selector covers, is answered Allow:
    the tuple the reconciler wrote is one of those the authorizer checks, with
    the same user, hashed relation and object. *)
Theorem bound_subject_allowed binding (w w' : World F K) subject attributes ctx (ww ww1 : WebhookWorld F D)
  pr1 pr2 pr3 res target valid role
  (Hnames : names_target (pbs_ResourceSelector (pb_Spec binding))) (Hguard : guard_keeps_fga r)
  (Hrec : reconcilePolicy r binding w = (Ok tt, w'))
  (Htarget : TargetObjectFromResourceSelector (pbs_ResourceSelector (pb_Spec binding)) = Ok target)
  (Hvalid : (getHierarchicalPermissionsForSelector r (pbs_ResourceSelector (pb_Spec binding)) w).1 = Ok valid)
  (Hrole : (fetchRole r binding w).1 = Ok role)
  (Hstore : o_FGAStoreID o = pr_StoreID r) (Hfga : ww_fga ww = w_fga w')
  (Hdirect : direct_tuples_allow (ww_fga ww) (request_model ww))
  (Huncond : ∀ k c, fga_tuples (w_fga w') (pr_StoreID r) !! k = Some c → c = None)
  (Hsubj : subject ∈ pbs_Subjects (pb_Spec binding))
  (Huser : getTupleUser subject = Ok (TypeInternalUser +:+ ":" +:+ ui_UID (at_User attributes)))
  (Hperm : buildPermissionString o attributes ∈ effective_perms role)
  (Hgrant : granted (pr_EnableSubresourceAuthorization r) valid (buildPermissionString o attributes))
  (Hctx : buildAuthorizationContext o attributes = Ok ctx)
  (Hns : validateOrganizationNamespace ctx attributes ww = (Ok tt, ww1))
  (HL1 : lookup_at 1 ww attributes = Some pr1) (Hreg : registers o pr1 attributes = true)
  (HL2 : lookup_at 2 ww attributes = Some pr2) (HL3 : lookup_at 3 ww attributes = Some pr3)
  (Hcov : covers (pbs_ResourceSelector (pb_Spec binding)) attributes pr2 pr3)
  (Hbatch : (fga_BatchCheck (request_batch o attributes pr2 pr3 ctx ww) (ww_fga ww)).1 = Ok res)
  (Hanswered : ∀ id x, res !! id = Some x → ∃ b, x = SingleAllowed b) :
  (Authorize P o attributes ww).1 = Ok (DecisionAllow, "", None).
Proof.
  destruct (Authorize_decides_aux P o attributes ctx ww ww1 pr1 pr2 pr3 res Hctx Hns HL1 Hreg HL2 HL3 Hbatch Hanswered)
    as (d & -> & _ & Hd).
  enough (d = DecisionAllow) as -> by done. apply Hd. exists target. split; [by eapply target_checked|].
  destruct (reconcile_effect r binding w w' Hnames Hguard Hrec) as (t & v & ro & Et & Ev & Er & HK).
  rewrite Htarget in Et. injection Et as <-. rewrite Hvalid in Ev. injection Ev as <-.
  rewrite Hrole in Er. injection Er as <-.
  set (k := mkTupleWC (TypeInternalUser +:+ ":" +:+ ui_UID (at_User attributes))
    (hashPermission (buildPermissionString o attributes)) target).
  assert (k ∈ dom (tuples r w')) as Hk.
  { apply HK. left. split_and!; [exists subject; done|done|done|]. exists (buildPermissionString o attributes). done. }
  apply elem_of_dom in Hk as [c Hc]. unfold tuples in Hc. pose proof (Huncond _ _ Hc) as ->.
  apply (Hdirect k). by rewrite Hfga, Hstore.
Qed.
End end_to_end.

(** ** Examples: alice asks for the project she was given *)

#[local] Instance ex_keys : ExtraKeys := {|
  ParentAPIGroupExtraKey := "parent-api-group";
  ParentKindExtraKey := "parent-kind";
  ParentNameExtraKey := "parent-name"
|}.

Definition ex_parse (gv : string) : option (string * string) := Some (Cut gv "/"%char).1.
Definition ex_authorizer : SubjectAccessReviewAuthorizer := mkAuthorizer false "store" true.

Definition ex_webhook : WebhookWorld RefStore RefDiscovery :=
  mkWW (w_fga ex_world1) (mkRefDiscovery [] None 0) None (newProtectedResourceCacheFromItems ex_prs) [] [].

(** Alice, in the scope of an organization. *)
Definition ex_request : Attributes :=
  mkAttributes
    (mkUser "alice@example.com" "alice" []
      {[ ParentAPIGroupExtraKey := ["rm"]; ParentKindExtraKey := ["Organization"]; ParentNameExtraKey := ["acme"] ]})
    "get" "" "rm" "v1" "projects" "" "p1" true "" [] [].

Definition ex_ctx : authorizationContext :=
  mkAuthCtx "alice" "rm/projects.get" (Some (mkParentContext "rm" "Organization" "acme")) "".
Definition ex_pr : ProtectedResource := List.nth 1 ex_prs (ex_cached "" "" "").

Definition ex_results : gmap string BatchCheckSingleResult :=
  match (fga_BatchCheck (request_batch ex_authorizer ex_request ex_pr ex_pr ex_ctx ex_webhook) (ww_fga ex_webhook)).1 with
  | Ok res => res
  | _ => ∅
  end.

Definition is_answered (r : BatchCheckSingleResult) : bool :=
  match r with SingleAllowed _ => true | SingleError _ => false end.

Lemma ex_results_answered id r : ex_results !! id = Some r → ∃ b, r = SingleAllowed b.
Proof.
  intros Hr. enough (is_answered r = true) as HA by (destruct r; [eauto|done]).
  apply (lookup_forallb (λ r, is_answered r) ex_results id r); [vm_compute; reflexivity|done].
Qed.

Lemma ex_ctx_ok : buildAuthorizationContext ex_authorizer ex_request = Ok ex_ctx.
Proof. vm_compute. reflexivity. Qed.
Lemma ex_ns_ok : validateOrganizationNamespace ex_ctx ex_request ex_webhook = (Ok tt, ex_webhook).
Proof. reflexivity. Qed.
Lemma ex_lookup n : (0 < n ≤ 3)%nat → lookup_at n ex_webhook ex_request = Some ex_pr.
Proof. intros Hn. destruct n as [|[|[|[|n]]]]; [lia|vm_compute; reflexivity..|lia]. Qed.
Lemma ex_registers : registers ex_authorizer ex_pr ex_request = true.
Proof. vm_compute. reflexivity. Qed.
Lemma ex_batch_ok :
  (fga_BatchCheck (request_batch ex_authorizer ex_request ex_pr ex_pr ex_ctx ex_webhook) (ww_fga ex_webhook)).1
    = Ok ex_results.
Proof. vm_compute. reflexivity. Qed.

Lemma ex_run_allow :
  (Authorize ex_parse ex_authorizer ex_request ex_webhook).1 = Ok (DecisionAllow, "", None).
Proof. vm_compute. reflexivity. Qed.

Lemma Authorize_allow_sound_witness :
  ∃ pr1, lookup_at 1 ex_webhook ex_request = Some pr1 ∧ registers ex_authorizer pr1 ex_request = true.
Proof.
  destruct (Authorize_allow_sound ex_parse ex_authorizer ex_request ex_webhook
    (Authorize ex_parse ex_authorizer ex_request ex_webhook).2 "" None) as (_ & _ & _ & _ & pr1 & _ & _ & E1 & Er & _).
  - rewrite <- ex_run_allow. apply surjective_pairing.
  - exists pr1. done.
Defined.

Lemma Authorize_decides_witness :
  ∃ d, (Authorize ex_parse ex_authorizer ex_request ex_webhook).1 = Ok (d, "", None).
Proof.
  destruct (Authorize_decides ex_parse ex_authorizer ex_request ex_ctx ex_webhook ex_webhook ex_pr ex_pr ex_pr
    ex_results ex_ctx_ok ex_ns_ok (ex_lookup 1 ltac:(lia)) ex_registers (ex_lookup 2 ltac:(lia))
    (ex_lookup 3 ltac:(lia)) ex_batch_ok ex_results_answered) as (d & Hd & _).
  by exists d.
Defined.

Lemma bound_subject_allowed_witness :
  (Authorize ex_parse ex_authorizer ex_request ex_webhook).1 = Ok (DecisionAllow, "", None).
Proof.
  apply (bound_subject_allowed ex_reconciler ex_parse ex_authorizer ex_pb_view ex_policy_world ex_world1
    ex_alice ex_request ex_ctx ex_webhook ex_webhook ex_pr ex_pr ex_pr ex_results "rm/Project:p1"
    (list_to_set ["rm/projects.get"; "rm/projects.list"]) ex_viewer ex_names ex_guard ex_run1).
  - vm_compute. reflexivity.
  - vm_compute. reflexivity.
  - vm_compute. reflexivity.
  - reflexivity.
  - reflexivity.
  - intros k Hk. change (k ∈ dom (rs_tuples (ww_fga ex_webhook)) : Prop) with
      (mkTupleWC (wc_User k) (wc_Relation k) (wc_Object k) ∈ dom (rs_tuples (ww_fga ex_webhook))).
    apply elem_of_dom. exists None. destruct k. exact Hk.
  - intros k c Hk. assert (map_Forall (λ _ c, c = None) (rs_tuples (w_fga ex_world1))) as HF
      by (apply (bool_decide_unpack _); vm_compute; exact I).
    exact (HF k c Hk).
  - left.
  - reflexivity.
  - apply (bool_decide_unpack _). vm_compute. exact I.
  - split; [vm_compute; congruence|]. intros _. apply (bool_decide_unpack _). vm_compute. exact I.
  - apply ex_ctx_ok.
  - apply ex_ns_ok.
  - apply ex_lookup. lia.
  - apply ex_registers.
  - apply ex_lookup. lia.
  - apply ex_lookup. lia.
  - left. split_and!; try reflexivity; [done|]. apply (bool_decide_unpack _). vm_compute. exact I.
  - apply ex_batch_ok.
  - apply ex_results_answered.
Defined.

(** The same request as a review over HTTP. *)
Definition ex_sar : SubjectAccessReviewSpec :=
  mkSAR (Some (mkResourceAttributes "" "get" "rm" "v1" "projects" "" "p1" None None)) None
    "alice@example.com" [] (ui_Extra (at_User ex_request)) "alice".
Definition ex_decode (_ : string) : outcome SubjectAccessReviewSpec := Ok ex_sar.
Definition ex_http : HTTPRequest := mkHTTP (Some (Ok "{...}")) "application/json".
Definition ex_response : Response := mkResponse true false "" "".

Lemma ServeHTTP_fail_closed_witness :
  ∃ attrs, (Authorize ex_parse ex_authorizer attrs ex_webhook).1 = Ok (DecisionAllow, "", None).
Proof.
  set (serve := ServeHTTP (Authorize ex_parse ex_authorizer) (λ _, Ok []) (λ _, Ok []) ex_decode ex_http ex_webhook).
  destruct (ServeHTTP_fail_closed (Authorize ex_parse ex_authorizer) (λ _, Ok []) (λ _, Ok []) ex_decode
    ex_http ex_webhook ex_response (mkCount "allowed" "unknown" "rm" reasonHTTPRequest) serve.2) as (_ & _ & HA).
  - rewrite (surjective_pairing (ServeHTTP _ _ _ _ _ _)). apply (f_equal (λ x, (x, serve.2))).
    vm_compute. reflexivity.
  - destruct (HA eq_refl) as (_ & attrs & _ & E). exists attrs. by rewrite E.
Defined.
