(* ===== verification/RoleGraph.v ===== *)
(** * Role inheritance

    [getAllEffectivePermissions] of internal/controller/role_controller.go walks
    the inherited roles depth first; [rolesDependentOnRole] of
    internal/controller/role_inheritance.go walks the inheriting ones breadth
    first. *)

From S2P Require Import Prelude GoStrings GoErr Types World.
From Stdlib Require Import Ascii.

(** A reference to a Role that does not exist: namespace and name. *)
Abbreviation unresolvedInheritedRole := NamespacedName.

Definition unresolved_String (u : unresolvedInheritedRole) : string := nn_Namespace u +:+ "/" +:+ nn_Name u.

Definition role_key (role : Role) : NamespacedName := key_of (role_Meta role).

(** The key of an inherited role; its namespace defaults to the role's own. *)
Definition inherited_key (role : Role) (ref : RoleReference) : NamespacedName :=
  mkNN (if String.eqb (rr_Namespace ref) "" then om_Namespace (role_Meta role) else rr_Namespace ref)
    (rr_Name ref).

(** ** Unresolved references, once each and in order *)

Fixpoint dedupe_loop (seen : gset NamespacedName) (refs : list unresolvedInheritedRole)
    : list unresolvedInheritedRole :=
  match refs with
  | [] => []
  | ref :: refs' =>
    if bool_decide (ref ∈ seen) then dedupe_loop seen refs'
    else ref :: dedupe_loop ({[ ref ]} ∪ seen) refs'
  end.

Definition nn_le (a b : NamespacedName) : Prop :=
  if String.eqb (nn_Namespace a) (nn_Namespace b)
  then String.le (nn_Name a) (nn_Name b)
  else String.le (nn_Namespace a) (nn_Namespace b).

#[export] Instance nn_le_dec a b : Decision (nn_le a b).
Proof. unfold nn_le. case_match; apply _. Defined.

Definition dedupeUnresolved (refs : list unresolvedInheritedRole) : list unresolvedInheritedRole :=
  merge_sort nn_le (dedupe_loop ∅ refs).

Definition unresolvedRefStrings (refs : list unresolvedInheritedRole) : list string :=
  map unresolved_String refs.

Definition unresolvedMessage (refs : list unresolvedInheritedRole) : string :=
  "Role is degraded: permissions from resolvable inherited roles are applied, but " +:+
  format_dec (length refs) +:+ " inheritedRoles reference(s) could not be resolved: " +:+
  Join (unresolvedRefStrings refs) ", ".

(** ** Effective permissions *)

Section effective.
Context {K : Type} `{KClient K Role}.

(** Permissions (in no particular order), unresolved references, and the roles
    visited so far, which every call shares. *)
Definition effective_result : Type := gset string * list unresolvedInheritedRole * gset string.

(** The loop over the inherited roles of [role]. *)
Fixpoint inherited_loop (rec : Role → gset string → M K effective_result) (role : Role)
    (refs : list RoleReference) (permissionSet : gset string) (unresolved : list unresolvedInheritedRole)
    (visited : gset string) : M K effective_result :=
  match refs with
  | [] => mret (permissionSet, dedupeUnresolved unresolved, visited)
  | ref :: refs' =>
    let key := inherited_key role ref in
    got ← try (k_Get key);
    match got with
    | inr err =>
      if IsNotFound err
      then inherited_loop rec role refs' permissionSet (unresolved ++ [key]) visited
      else throw (ErrWrap ("failed to get inherited role " +:+ unresolved_String key +:+ ": ") err)
    | inl inheritedRole =>
      result ← rec inheritedRole visited;
      let '(inheritedPerms, inheritedUnresolved, visited') := result in
      inherited_loop rec role refs' (permissionSet ∪ inheritedPerms) (unresolved ++ inheritedUnresolved) visited'
    end
  end.

Fixpoint getAllEffectivePermissions (fuel : nat) (role : Role) (visited : gset string) : M K effective_result :=
  match fuel with
  | O => lift OutOfFuel
  | S fuel' =>
    let roleIdentifier := unresolved_String (role_key role) in
    if bool_decide (roleIdentifier ∈ visited) then mret (∅, [], visited)
    else
      inherited_loop (getAllEffectivePermissions fuel') role (rs_InheritedRoles (role_Spec role))
        (list_to_set (rs_IncludedPermissions (role_Spec role))) [] ({[ roleIdentifier ]} ∪ visited)
  end.

(** ** Dependent roles *)

Definition add_reverse (m : gmap NamespacedName (list NamespacedName)) (parent child : NamespacedName)
    : gmap NamespacedName (list NamespacedName) :=
  <[parent := default [] (m !! parent) ++ [child]]> m.

(** [reverse[parent]] holds the roles that inherit [parent] directly. *)
Definition reverse_graph (roles : list Role) : gmap NamespacedName (list NamespacedName) :=
  foldl (λ m child,
    foldl (λ m ref, add_reverse m (inherited_key child ref) (role_key child)) m
      (rs_InheritedRoles (role_Spec child))) ∅ roles.

(** Visiting the children of one role. *)
Definition visit_children (st : gset NamespacedName * list NamespacedName) (children : list NamespacedName)
    : gset NamespacedName * list NamespacedName :=
  foldl (λ st childKey,
    if bool_decide (childKey ∈ st.1) then st else ({[ childKey ]} ∪ st.1, st.2 ++ [childKey])) st children.

Fixpoint dependents_loop (fuel : nat) (reverse : gmap NamespacedName (list NamespacedName))
    (dependents : gset NamespacedName) (queue : list NamespacedName) : outcome (gset NamespacedName) :=
  match queue with
  | [] => Ok dependents
  | current :: queue' =>
    match fuel with
    | O => OutOfFuel
    | S fuel' =>
      let '(dependents', queue'') := visit_children (dependents, queue') (default [] (reverse !! current)) in
      dependents_loop fuel' reverse dependents' queue''
    end
  end.

(** Every role is queued at most once. *)
Definition rolesDependentOnRole (changed : NamespacedName) : M K (gset NamespacedName) :=
  roleList ← k_List;
  lift (dependents_loop (S (length roleList)) (reverse_graph roleList) {[ changed ]} [changed]).

(** The keys [enqueueRequestsForInheritedRoleChange] enqueues. *)
Definition enqueueRequestsForInheritedRoleChange (changedRole : Role) : M K (gset NamespacedName) :=
  let changedKey := role_key changedRole in
  r ← try (rolesDependentOnRole changedKey);
  match r with
  | inr _ => mret ∅
  | inl dependents => mret (dependents ∖ {[ changedKey ]})
  end.
End effective.

(** ** Facts about [dedupeUnresolved] *)

Lemma elem_of_dedupe_loop refs seen x : x ∈ dedupe_loop seen refs ↔ x ∈ refs ∧ x ∉ seen.
Proof.
  revert seen. induction refs as [|r refs IH]; intros seen; simpl; [set_solver|].
  case_bool_decide; rewrite ?elem_of_cons, IH; [set_solver|]. destruct (decide (x = r)); set_solver.
Qed.

Lemma NoDup_dedupe_loop refs seen : NoDup (dedupe_loop seen refs).
Proof.
  revert seen. induction refs as [|r refs IH]; intros seen; simpl; [constructor|].
  case_bool_decide; [done|]. constructor; [|done]. rewrite elem_of_dedupe_loop. set_solver.
Qed.

Lemma elem_of_dedupeUnresolved refs x : x ∈ dedupeUnresolved refs ↔ x ∈ refs.
Proof. unfold dedupeUnresolved. rewrite merge_sort_Permutation, elem_of_dedupe_loop. set_solver. Qed.

Lemma NoDup_dedupeUnresolved refs : NoDup (dedupeUnresolved refs).
Proof. unfold dedupeUnresolved. rewrite merge_sort_Permutation. apply NoDup_dedupe_loop. Qed.
