(* ===== verification/RoleGraphFacts.v ===== *)
(** * What the role walks compute

    Both walks agree with reachability along [inherits], cycles included, and end
    within the fuel the API server's roles call for. *)

From S2P Require Import Prelude GoStrings GoErr Types World RoleGraph.
From Stdlib Require Import Ascii.

Section graph.
Context {K : Type} `{KReadLaws K Role}.
Implicit Types (role : Role) (k : K).

(** The API server stores each role under its own namespace and name, and no
    namespace contains a slash. *)
Definition roles_keyed k : Prop :=
  ∀ key role, k_view k !! key = Some role → role_key role = key ∧ has_byte "/"%char (nn_Namespace key) = false.

(** [child] exists and inherits [parent] directly. *)
Definition inherits k (child parent : NamespacedName) : Prop :=
  ∃ role ref, k_view k !! child = Some role ∧ ref ∈ rs_InheritedRoles (role_Spec role) ∧
    inherited_key role ref = parent.

Definition exists_role k (key : NamespacedName) : Prop := ∃ role, k_view k !! key = Some role.

(** Some existing role among [S] includes [p]. *)
Definition included_in k (S : NamespacedName → Prop) (p : string) : Prop :=
  ∃ key role, S key ∧ k_view k !! key = Some role ∧ p ∈ rs_IncludedPermissions (role_Spec role).

Lemma unresolved_String_inj a b :
  has_byte "/"%char (nn_Namespace a) = false → has_byte "/"%char (nn_Namespace b) = false →
  unresolved_String a = unresolved_String b → a = b.
Proof.
  destruct a, b. unfold unresolved_String. simpl. intros HA HB. rewrite !app_cons, !app_nil_l.
  intros E. by destruct (app_byte_inj _ _ _ _ _ HA HB E) as [-> ->].
Qed.

Lemma reads_inherited_loop (rec : Role → gset string → M K effective_result) role refs ps us V :
  (∀ role V, reads (rec role V)) → reads (inherited_loop rec role refs ps us V).
Proof.
  intros Hrec. revert ps us V. induction refs as [|ref refs IH]; intros ps us V; simpl; [apply reads_mret|].
  apply reads_bind; [apply reads_try, reads_k_Get|]. intros [r|e].
  - apply reads_bind; [apply Hrec|]. intros [[p u] V']. apply IH.
  - destruct (IsNotFound e); [apply IH|apply reads_throw].
Qed.

Lemma reads_getAll fuel role V : reads (getAllEffectivePermissions (K := K) fuel role V).
Proof.
  revert role V. induction fuel as [|fuel IH]; intros role V; simpl; [apply reads_lift|].
  case_bool_decide; [apply reads_mret|by apply reads_inherited_loop].
Qed.

(** The walk does not look at the status of the role it starts from. *)
Lemma getAll_status fuel role st V (k : K) :
  getAllEffectivePermissions fuel (mkRole (role_Meta role) (role_Spec role) st) V k =
  getAllEffectivePermissions fuel role V k.
Proof.
  destruct fuel as [|fuel]; [done|]. destruct role as [m sp st0]. simpl.
  change (role_key (mkRole m sp st)) with (role_key (mkRole m sp st0)). case_bool_decide; [done|].
  generalize (list_to_set (rs_IncludedPermissions sp) : gset string), (@nil NamespacedName),
    ({[unresolved_String (role_key (mkRole m sp st0))]} ∪ V), k.
  induction (rs_InheritedRoles sp) as [|ref refs IH]; intros ps us V' k'; [done|]. simpl.
  unfold mbind at 1 3, M_bind at 1 3. change (inherited_key (mkRole m sp st) ref) with (inherited_key (mkRole m sp st0) ref).
  destruct (try _ k') as [[[r|e]|e|] k1]; [| |done|done].
  - unfold mbind, M_bind. destruct (getAllEffectivePermissions fuel r V' k1) as [[[[p u] V1]|e|] k2]; [apply IH|done|done].
  - destruct (IsNotFound e); [apply IH|done].
Qed.

(** ** The depth-first walk *)

Section dfs.
Context (k : K) (Hkeyed : roles_keyed k).

(** The keys visited: those whose printed form is in the set. *)
Definition vis (V : gset string) (y : NamespacedName) : Prop := exists_role k y ∧ unresolved_String y ∈ V.

(** What a walk from [root] adds to the visited set [V] to make [V']. *)
Record walked (root : NamespacedName) (V V' : gset string) (ps0 ps : gset string)
    (us0 us : list NamespacedName) : Prop := {
  wk_mono : V ⊆ V';
  wk_reach y : vis V' y → ¬ vis V y → rtc (inherits k) root y;
  wk_closed y z : vis V' y → ¬ vis V y → inherits k y z → vis V' z ∨ (¬ exists_role k z ∧ z ∈ us);
  wk_perms p : p ∈ ps ↔ p ∈ ps0 ∨ included_in k (λ y, vis V' y ∧ ¬ vis V y) p;
  wk_us0 u : u ∈ us0 → u ∈ us;
  wk_us u : u ∈ us → u ∈ us0 ∨ (¬ exists_role k u ∧ rtc (inherits k) root u)
}.

Lemma vis_mono V V' y : V ⊆ V' → vis V y → vis V' y.
Proof. intros HV [HA HB]. split; [done|set_solver]. Qed.

#[local] Instance vis_dec V y : Decision (vis V y).
Proof.
  unfold vis, exists_role. destruct (k_view k !! y) as [role|] eqn:E.
  - destruct (decide (unresolved_String y ∈ V)); [left|right]; naive_solver.
  - right. naive_solver.
Defined.

(** Nothing is visited; references already known dangling may be added. *)
Lemma walked_stay root V ps us0 us :
  (∀ u, u ∈ us0 → u ∈ us) → (∀ u, u ∈ us → u ∈ us0 ∨ (¬ exists_role k u ∧ rtc (inherits k) root u)) →
  walked root V V ps ps us0 us.
Proof.
  intros H1 H2. split; try done; try tauto.
  intros p. split; [by left|]. intros [?|(y & r & [HA HB] & _)]; [done|by destruct HB].
Qed.

Lemma walked_trans root V1 V2 V3 ps1 ps2 ps3 us1 us2 us3 :
  walked root V1 V2 ps1 ps2 us1 us2 → walked root V2 V3 ps2 ps3 us2 us3 →
  walked root V1 V3 ps1 ps3 us1 us3.
Proof.
  intros A B. split.
  - pose proof (wk_mono _ _ _ _ _ _ _ A). pose proof (wk_mono _ _ _ _ _ _ _ B). set_solver.
  - intros y H3 H1. destruct (decide (vis V2 y)); [by apply (wk_reach _ _ _ _ _ _ _ A)|by apply (wk_reach _ _ _ _ _ _ _ B)].
  - intros y z H3 H1 Hi. destruct (decide (vis V2 y)) as [H2|H2].
    + destruct (wk_closed _ _ _ _ _ _ _ A y z H2 H1 Hi) as [Hz|[Hn Hz]].
      * left. by eapply vis_mono; [apply (wk_mono _ _ _ _ _ _ _ B)|].
      * right. split; [done|]. by apply (wk_us0 _ _ _ _ _ _ _ B).
    + by apply (wk_closed _ _ _ _ _ _ _ B y z H3 H2 Hi).
  - intros p. rewrite (wk_perms _ _ _ _ _ _ _ B p), (wk_perms _ _ _ _ _ _ _ A p). split.
    + intros [[?|(y & r & [HA HB] & Hr)]|(y & r & [HA HB] & Hr)]; [by left|right|right]; exists y, r;
        (split; [|done]); split; try done.
      * by eapply vis_mono; [apply (wk_mono _ _ _ _ _ _ _ B)|].
      * intros HV. apply HB. by eapply vis_mono; [apply (wk_mono _ _ _ _ _ _ _ A)|].
    + intros [?|(y & r & [HA HB] & Hr)]; [by left; left|].
      destruct (decide (vis V2 y)); [left; right|right]; exists y, r; done.
  - intros u Hu. by apply (wk_us0 _ _ _ _ _ _ _ B), (wk_us0 _ _ _ _ _ _ _ A).
  - intros u Hu. destruct (wk_us _ _ _ _ _ _ _ B u Hu) as [Hu'|]; [|by right].
    by apply (wk_us _ _ _ _ _ _ _ A u Hu').
Qed.

(** A child's walk is part of its parent's. *)
Lemma walked_child root child V V' ps0 ps us0 us :
  inherits k root child → walked child V V' ∅ ps [] us →
  walked root V V' ps0 (ps0 ∪ ps) us0 (us0 ++ us).
Proof.
  intros Hi A. split.
  - apply (wk_mono _ _ _ _ _ _ _ A).
  - intros y H3 H1. eapply rtc_l; [done|]. by apply (wk_reach _ _ _ _ _ _ _ A).
  - intros y z H3 H1 Hz. destruct (wk_closed _ _ _ _ _ _ _ A y z H3 H1 Hz) as [|[? ?]]; [by left|right].
    split; [done|]. set_solver.
  - intros p. rewrite elem_of_union, (wk_perms _ _ _ _ _ _ _ A p). set_solver.
  - set_solver.
  - intros u [Hu|Hu]%elem_of_app; [by left|right].
    destruct (wk_us _ _ _ _ _ _ _ A u Hu) as [Hn|[? ?]]; [by apply elem_of_nil in Hn|].
    split; [done|]. by eapply rtc_l.
Qed.

(** What a call that returns guarantees. *)
Definition rec_spec (rec : Role → gset string → M K effective_result) : Prop :=
  ∀ role V ps us V' k', k_view k !! role_key role = Some role →
    rec role V k = (Ok (ps, us, V'), k') →
    k' = k ∧ vis V' (role_key role) ∧ walked (role_key role) V V' ∅ ps [] us.

Lemma get_cases key r k' :
  k_Get (T := Role) key k = (r, k') →
  k' = k ∧ match r with
           | Ok role => k_view k !! key = Some role
           | Err e => IsNotFound e = true → k_view k !! key = None
           | OutOfFuel => False
           end.
Proof.
  intros E. pose proof (k_Get_world (T := Role) key k) as HW. pose proof (k_Get_result (T := Role) key k) as HR.
  pose proof (k_Get_Ok (T := Role) key k) as HO. pose proof (k_Get_NotFound (T := Role) key k) as HN.
  rewrite E in HW, HR, HO, HN. simpl in *. split; [done|]. destruct r; [by apply HO|by apply HN|done].
Qed.

Lemma loop_walked rec role refs ps0 us0 V0 ps us V' k' :
  rec_spec rec → k_view k !! role_key role = Some role → refs ⊆ rs_InheritedRoles (role_Spec role) →
  inherited_loop rec role refs ps0 us0 V0 k = (Ok (ps, us, V'), k') →
  k' = k ∧ walked (role_key role) V0 V' ps0 ps us0 us ∧
  ∀ ref, ref ∈ refs → vis V' (inherited_key role ref) ∨
    (¬ exists_role k (inherited_key role ref) ∧ inherited_key role ref ∈ us).
Proof.
  intros Hrec Hrole. revert ps0 us0 V0. induction refs as [|ref refs IH]; intros ps0 us0 V0 Hsub; simpl.
  - intros [= <- <- <- <-]. split_and!; [done| |by intros ? ?%elem_of_nil].
    apply walked_stay; intros u; rewrite elem_of_dedupeUnresolved; auto.
  - assert (inherits k (role_key role) (inherited_key role ref)) as Hi by (exists role, ref; set_solver).
    intros (got & k1 & Hgot & Hrest)%bind_Ok. unfold try in Hgot.
    destruct (k_Get (inherited_key role ref) k) as [[r|e|] k2] eqn:Hg; apply get_cases in Hg as [-> Hg];
      [| |done]; injection Hgot as <- <-.
    + apply bind_Ok in Hrest as ([[p u] V1] & k3 & Hr & Hrest).
      assert (role_key r = inherited_key role ref) as Ek by by apply Hkeyed in Hg as [-> _].
      rewrite <- Ek in Hg, Hi. destruct (Hrec _ _ _ _ _ _ Hg Hr) as (-> & Hv & Hw).
      apply IH in Hrest as (-> & Hw' & Hall); [|set_solver]. split; [done|]. split.
      * eapply walked_trans; [by eapply walked_child|done].
      * intros ref' [->|Hin]%elem_of_cons; [left|by apply Hall]. rewrite <- Ek.
        eapply vis_mono; [|done]. apply (wk_mono _ _ _ _ _ _ _ Hw').
    + destruct (IsNotFound e) eqn:En; [|discriminate Hrest]. specialize (Hg eq_refl).
      apply IH in Hrest as (-> & Hw' & Hall); [|set_solver]. split; [done|].
      assert (¬ exists_role k (inherited_key role ref)) as Hno by (intros [? ?]; congruence).
      split.
      * eapply walked_trans; [|done]. apply walked_stay; [set_solver|].
        intros u [Hu| ->%list_elem_of_singleton]%elem_of_app; [by left|right].
        split; [done|]. by apply rtc_once.
      * intros ref' [->|Hin]%elem_of_cons; [right|by apply Hall]. split; [done|].
        apply (wk_us0 _ _ _ _ _ _ _ Hw'). set_solver.
Qed.

(** Adding the root's own key visits the root alone. *)
Lemma vis_add role V y :
  k_view k !! role_key role = Some role →
  vis ({[ unresolved_String (role_key role) ]} ∪ V) y → y = role_key role ∨ vis V y.
Proof.
  intros Hr [[r Hy] [E%elem_of_singleton|]%elem_of_union]; [left|right; split; [by exists r|done]].
  destruct (Hkeyed _ _ Hr) as [_ HA], (Hkeyed _ _ Hy) as [_ HB]. by apply unresolved_String_inj.
Qed.

Lemma getAll_walked fuel : rec_spec (getAllEffectivePermissions fuel).
Proof.
  induction fuel as [|fuel IH]; intros role V ps us V' k' Hr; [discriminate 1|]. simpl.
  case_bool_decide as Hin.
  { intros [= <- <- <- <-]. split_and!; [done|split; [by exists role|done]|].
    apply walked_stay; intros u Hu; by apply elem_of_nil in Hu. }
  intros Hl. apply loop_walked in Hl as (-> & Hw & Hall); [|done..].
  set (V0 := {[ unresolved_String (role_key role) ]} ∪ V) in *.
  assert (vis V0 (role_key role)) as Hv0 by (split; [by exists role|set_solver]).
  assert (vis V' (role_key role)) as Hv by (eapply vis_mono; [apply (wk_mono _ _ _ _ _ _ _ Hw)|done]).
  split_and!; [done..|]. split.
  - pose proof (wk_mono _ _ _ _ _ _ _ Hw). set_solver.
  - intros y Hy Hn. destruct (decide (vis V0 y)) as [H0y|]; [|by apply (wk_reach _ _ _ _ _ _ _ Hw)].
    apply vis_add in H0y as [->|]; [apply rtc_refl|done|done].
  - intros y z Hy Hn Hi. destruct (decide (vis V0 y)) as [H0y|]; [|by apply (wk_closed _ _ _ _ _ _ _ Hw y z)].
    apply vis_add in H0y as [->|]; [|done|done]. destruct Hi as (r & ref & E & Href & <-).
    rewrite Hr in E. injection E as <-. by apply Hall.
  - intros p. rewrite (wk_perms _ _ _ _ _ _ _ Hw p), elem_of_list_to_set. split.
    + intros [Hp|(y & r & [HA HB] & Hy)]; right.
      * exists (role_key role), role. split_and!; [done| |done|done]. by intros [_ ?].
      * exists y, r. split; [|done]. split; [done|]. intros HV. apply HB. eapply vis_mono; [|done]. set_solver.
    + intros [[]%elem_of_empty|(y & r & [HA HB] & Hy & Hp)]. destruct (decide (vis V0 y)) as [H0y|].
      * apply vis_add in H0y as [->|]; [left|done|done]. rewrite Hr in Hy. by injection Hy as <-.
      * right. by exists y, r.
  - intros u Hu. by apply elem_of_nil in Hu.
  - apply (wk_us _ _ _ _ _ _ _ Hw).
Qed.
(** The existing roles yet to be visited. *)
Definition unvisited (V : gset string) : nat :=
  size (filter (λ yr, unresolved_String yr.1 ∉ V) (k_view k : gmap NamespacedName Role)).

Lemma unvisited_mono V V' : V ⊆ V' → unvisited V' ≤ unvisited V.
Proof.
  intros HV. apply map_subseteq_size, map_filter_subseteq_ext. intros y r _ Hn. set_solver.
Qed.

Lemma unvisited_add role V :
  k_view k !! role_key role = Some role → unresolved_String (role_key role) ∉ V →
  unvisited ({[ unresolved_String (role_key role) ]} ∪ V) < unvisited V.
Proof.
  intros Hr Hn. apply map_subset_size. split.
  - apply map_filter_subseteq_ext. intros y r _ ?. set_solver.
  - intros Hs. assert (filter (λ yr, unresolved_String yr.1 ∉ V) (k_view k : gmap NamespacedName Role)
      !! role_key role = Some role) as Hf by by apply map_lookup_filter_Some.
    eapply lookup_weaken in Hf; [|done]. apply map_lookup_filter_Some in Hf as [_ Hf]. set_solver.
Qed.

Lemma loop_NoDup rec role refs ps0 us0 V0 k0 ps us V' k' :
  inherited_loop rec role refs ps0 us0 V0 k0 = (Ok (ps, us, V'), k') → NoDup us.
Proof.
  revert ps0 us0 V0 k0. induction refs as [|ref refs IH]; intros ps0 us0 V0 k0; simpl.
  - intros [= <- <- <- <-]. apply NoDup_dedupeUnresolved.
  - intros (got & k1 & _ & Hrest)%bind_Ok. destruct got as [r|e].
    + apply bind_Ok in Hrest as ([[p u] V1] & k3 & _ & Hrest). by apply IH in Hrest.
    + destruct (IsNotFound e); [|discriminate]. by apply IH in Hrest.
Qed.

Lemma getAll_NoDup fuel role V k0 ps us V' k' :
  getAllEffectivePermissions fuel role V k0 = (Ok (ps, us, V'), k') → NoDup us.
Proof.
  destruct fuel; [discriminate|]. simpl. case_bool_decide; [intros [= <- <- <- <-]; constructor|]. apply loop_NoDup.
Qed.

Lemma loop_fuel rec role refs ps0 us0 V0 :
  rec_spec rec →
  (∀ r V, k_view k !! role_key r = Some r → V0 ⊆ V → (rec r V k).1 ≠ OutOfFuel) →
  (inherited_loop rec role refs ps0 us0 V0 k).1 ≠ OutOfFuel.
Proof.
  intros Hrec. revert ps0 us0 V0. induction refs as [|ref refs IH]; intros ps0 us0 V0 Hf; simpl; [done|].
  unfold mbind at 1, M_bind at 1, try.
  destruct (k_Get (inherited_key role ref) k) as [[r|e|] k2] eqn:Hg; apply get_cases in Hg as [-> Hg]; [| |done].
  - assert (k_view k !! role_key r = Some r) as Hr by by destruct (Hkeyed _ _ Hg) as [-> _].
    apply bind_fuel; [by apply Hf|]. intros [[p u] V1] k1 E.
    destruct (Hrec _ _ _ _ _ _ Hr E) as (-> & _ & Hw). apply IH. intros r' V Hr' HV. apply Hf; [done|].
    pose proof (wk_mono _ _ _ _ _ _ _ Hw). set_solver.
  - destruct (IsNotFound e); [|done]. by apply IH.
Qed.

Lemma getAll_fuel fuel role V :
  k_view k !! role_key role = Some role → unvisited V < fuel →
  (getAllEffectivePermissions fuel role V k).1 ≠ OutOfFuel.
Proof.
  revert role V. induction fuel as [|fuel IH]; intros role V Hr Hlt; [lia|]. simpl.
  case_bool_decide as Hin; [done|]. apply loop_fuel; [apply getAll_walked|].
  intros r V' Hr' HV. apply IH; [done|]. pose proof (unvisited_mono _ _ HV).
  pose proof (unvisited_add role V Hr Hin). lia.
Qed.

(** From the empty set, what was visited is what is reachable. *)
Lemma getAll_reachable fuel role ps us V' k' :
  k_view k !! role_key role = Some role →
  getAllEffectivePermissions fuel role ∅ k = (Ok (ps, us, V'), k') →
  k' = k ∧ (∀ y, vis V' y ↔ rtc (inherits k) (role_key role) y ∧ exists_role k y) ∧
  walked (role_key role) ∅ V' ∅ ps [] us.
Proof.
  intros Hr E. destruct (getAll_walked fuel _ _ _ _ _ _ Hr E) as (-> & Hv & Hw).
  assert (∀ y, ¬ vis ∅ y) as Hno by (intros y [_ ?]; set_solver).
  assert (∀ x y, rtc (inherits k) x y → vis V' x → exists_role k y → vis V' y) as Hclosed.
  { intros x y Hreach. induction Hreach as [x|x z y Hxz Hzy IH]; [done|]. intros Hx Hex.
    destruct (wk_closed _ _ _ _ _ _ _ Hw x z Hx (Hno x) Hxz) as [Hz|[Hz _]]; [by apply IH|].
    exfalso. apply Hz. inversion Hzy as [|? ? ? (r & ref & Hz' & _)]; subst; [done|by exists r]. }
  split; [done|]. split; [|done]. intros y. split.
  - intros Hy. split; [by apply (wk_reach _ _ _ _ _ _ _ Hw)|apply Hy].
  - intros [Hreach Hex]. by apply (Hclosed (role_key role)).
Qed.

Lemma effective_aux fuel role ps us V' k' :
  k_view k !! role_key role = Some role →
  getAllEffectivePermissions fuel role ∅ k = (Ok (ps, us, V'), k') →
  k' = k ∧
  (∀ p, p ∈ ps ↔ included_in k (rtc (inherits k) (role_key role)) p) ∧
  (∀ u, u ∈ us ↔ rtc (inherits k) (role_key role) u ∧ ¬ exists_role k u).
Proof.
  intros Hr E. destruct (getAll_reachable _ _ _ _ _ _ Hr E) as (-> & HV & Hw).
  assert (∀ y, ¬ vis ∅ y) as Hno by (intros y [_ ?]; set_solver). split; [done|]. split.
  - intros p. rewrite (wk_perms _ _ _ _ _ _ _ Hw p). split.
    + intros [[]%elem_of_empty|(y & r & [HA _] & Hy)]. exists y, r. split; [by apply HV|done].
    + intros (y & r & HA & Hy & Hp). right. exists y, r. split; [|done].
      split; [|done]. apply HV. split; [done|by exists r].
  - intros u. split.
    + intros Hu. destruct (wk_us _ _ _ _ _ _ _ Hw u Hu) as [Hn|[? ?]]; [by apply elem_of_nil in Hn|done].
    + intros [Hreach Hn]. apply rtc_inv_r in Hreach as [<-|(y & Hy & Hi)]; [exfalso; apply Hn; by exists role|].
      assert (vis V' y) as Hvy by (apply HV; split; [done|destruct Hi as (r & _ & ? & _); by exists r]).
      destruct (wk_closed _ _ _ _ _ _ _ Hw y u Hvy (Hno y) Hi) as [[? _]|[_ ?]]; done.
Qed.
End dfs.

(** ** The breadth-first walk *)

Section bfs.
Context (R : NamespacedName → list NamespacedName) (m : gmap NamespacedName (list NamespacedName)).
Context (HR : ∀ x, R x = default [] (m !! x)).

Lemma visit_children_spec st children :
  let st' := visit_children st children in
  (∀ x, x ∈ st'.1 ↔ x ∈ st.1 ∨ x ∈ children) ∧
  (∀ x, x ∈ st'.2 ↔ x ∈ st.2 ∨ (x ∈ children ∧ x ∉ st.1)) ∧
  size st'.1 + length st.2 = size st.1 + length st'.2.
Proof.
  revert st. induction children as [|c children IH]; intros st; simpl; [set_solver|].
  destruct (IH (if bool_decide (c ∈ st.1) then st else ({[c]} ∪ st.1, st.2 ++ [c]))) as (A & B & C).
  case_bool_decide as Hc; simpl in *.
  - split_and!; [set_solver|set_solver|done].
  - split_and!.
    + intros x. rewrite A. set_solver.
    + intros x. rewrite B. destruct (decide (x = c)); set_solver.
    + rewrite length_app in C. simpl in C. rewrite size_union in C by set_solver. rewrite size_singleton in C. lia.
Qed.

(** The queue is part of the dependents; the children of the others are in. *)
Definition bfs_inv (start : NamespacedName) (dependents : gset NamespacedName) (queue : list NamespacedName) : Prop :=
  start ∈ dependents ∧ (∀ x, x ∈ queue → x ∈ dependents) ∧
  (∀ x, x ∈ dependents → rtc (λ a b, b ∈ R a) start x) ∧
  (∀ x y, x ∈ dependents → x ∉ queue → y ∈ R x → y ∈ dependents).

Lemma bfs_start start : bfs_inv start {[ start ]} [start].
Proof.
  split_and!; [set_solver|set_solver|intros x ->%elem_of_singleton; apply rtc_refl|set_solver].
Qed.

Lemma bfs_step start deps current queue :
  bfs_inv start deps (current :: queue) →
  let st := visit_children (deps, queue) (default [] (m !! current)) in bfs_inv start st.1 st.2.
Proof.
  rewrite <- HR. intros (H1 & H2 & H3 & H4) st. destruct (visit_children_spec (deps, queue) (R current)) as (A & B & _).
  fold st in A, B. simpl in A, B. split_and!.
  - set_solver.
  - set_solver.
  - intros x [Hx|Hx]%A; [by apply H3|]. eapply rtc_r; [apply H3, H2; left|done].
  - intros x y [Hx|Hx]%A Hq Hy; apply A.
    + destruct (decide (x = current)) as [->|]; [by right|]. left. apply (H4 x y); [done| |done]. set_solver.
    + destruct (decide (x ∈ deps)) as [Hd|Hd].
      * destruct (decide (x = current)) as [->|]; [by right|]. left. apply (H4 x y); [done| |done]. set_solver.
      * exfalso. apply Hq. apply B. by right.
Qed.

Lemma dependents_loop_spec start fuel deps queue D :
  bfs_inv start deps queue → dependents_loop fuel m deps queue = Ok D →
  ∀ x, x ∈ D ↔ rtc (λ a b, b ∈ R a) start x.
Proof.
  revert deps queue. induction fuel as [|fuel IH]; intros deps [|current queue] HI; simpl; try discriminate.
  1-2: intros [= <-]; destruct HI as (H1 & _ & H3 & H4); intros x; split; [by apply H3|];
    intros Hr; revert x Hr; apply rtc_ind_r; [done|]; intros y z _ Hyz Hy;
    eapply H4; [exact Hy|apply not_elem_of_nil|exact Hyz].
  destruct (visit_children _ _) as [d q] eqn:E. apply IH. pose proof (bfs_step _ _ _ _ HI) as HS.
  by rewrite E in HS.
Qed.

(** Each key enters the queue once, so the children bound the rounds. *)
Lemma dependents_loop_fuel (all : gset NamespacedName) fuel deps queue :
  (∀ x y, y ∈ R x → y ∈ all) → deps ⊆ all → size all + length queue ≤ fuel + size deps →
  dependents_loop fuel m deps queue ≠ OutOfFuel.
Proof.
  intros Hall. revert deps queue. induction fuel as [|fuel IH]; intros deps [|current queue] Hd Hs; simpl; try done.
  - pose proof (subseteq_size _ _ Hd). simpl in Hs. lia.
  - destruct (visit_children_spec (deps, queue) (R current)) as (A & _ & C). rewrite <- HR.
    destruct (visit_children (deps, queue) (R current)) as [d q]. simpl in *. apply IH; [set_solver|lia].
Qed.
End bfs.
End graph.
