(* ===== verification/RoleGraphSpec.v ===== *)
(** * What the role walks guarantee *)

From S2P Require Import Prelude GoStrings GoErr Types World RoleGraph RoleGraphFacts Indexes RefK8s.
From Stdlib Require Import Ascii.

(** ** The reverse graph *)

Lemma add_reverse_lookup m parent child x y :
  y ∈ default [] (add_reverse m parent child !! x) ↔ y ∈ default [] (m !! x) ∨ (x = parent ∧ y = child).
Proof.
  unfold add_reverse. destruct (decide (parent = x)) as [->|].
  - rewrite lookup_insert_eq. simpl. set_solver.
  - rewrite lookup_insert_ne by done. naive_solver.
Qed.

Lemma add_reverse_refs m child refs x y :
  y ∈ default [] (foldl (λ m ref, add_reverse m (inherited_key child ref) (role_key child)) m refs !! x) ↔
  y ∈ default [] (m !! x) ∨ (y = role_key child ∧ ∃ ref, ref ∈ refs ∧ inherited_key child ref = x).
Proof.
  revert m. induction refs as [|ref refs IH]; intros m; simpl; [set_solver|].
  rewrite IH, add_reverse_lookup, ex_elem_cons. naive_solver.
Qed.

Lemma reverse_graph_lookup roles x y :
  y ∈ default [] (reverse_graph roles !! x) ↔
  ∃ child, child ∈ roles ∧ role_key child = y ∧
    ∃ ref, ref ∈ rs_InheritedRoles (role_Spec child) ∧ inherited_key child ref = x.
Proof.
  unfold reverse_graph. revert x y.
  assert (∀ m x y,
    y ∈ default [] (foldl (λ m child,
      foldl (λ m ref, add_reverse m (inherited_key child ref) (role_key child)) m
        (rs_InheritedRoles (role_Spec child))) m roles !! x) ↔
    y ∈ default [] (m !! x) ∨ ∃ child, child ∈ roles ∧ role_key child = y ∧
      ∃ ref, ref ∈ rs_InheritedRoles (role_Spec child) ∧ inherited_key child ref = x) as HF.
  { induction roles as [|role roles IH]; intros m x y; simpl; [set_solver|].
    rewrite IH, add_reverse_refs, ex_elem_cons. naive_solver. }
  intros x y. rewrite HF, lookup_empty. set_solver.
Qed.

Section spec.
Context {K : Type} `{KReadLaws K Role}.
Implicit Types (role : Role) (k : K).

Lemma elem_of_role_list k l :
  (k_List k).1 = Ok l → ∀ role, role ∈ l ↔ ∃ key, k_view k !! key = Some role.
Proof.
  intros HL role. rewrite (k_List_Ok k l HL), elem_of_map. split.
  - intros ([key r] & Hk%elem_of_map_to_list & ->). by exists key.
  - intros (key & Hk). exists (key, role). split; [by apply elem_of_map_to_list|done].
Qed.

Lemma reverse_inherits k l x y :
  roles_keyed k → (k_List k).1 = Ok l →
  y ∈ default [] (reverse_graph l !! x) ↔ inherits k y x.
Proof.
  intros Hk HL. rewrite reverse_graph_lookup. split.
  - intros (child & Hc & <- & ref & Hr & <-). apply (elem_of_role_list k l HL) in Hc as (key & Hc).
    exists child, ref. destruct (Hk _ _ Hc) as [-> _]. done.
  - intros (child & ref & Hc & Hr & <-). exists child. split; [|split; [by apply Hk in Hc as [-> _]|eauto]].
    apply (elem_of_role_list k l HL). eauto.
Qed.

Lemma dependents_aux k changed :
  roles_keyed k →
  (∃ e, rolesDependentOnRole changed k = (Err e, k)) ∨
  (∃ D, rolesDependentOnRole changed k = (Ok D, k) ∧ ∀ x, x ∈ D ↔ rtc (inherits k) x changed).
Proof.
  intros Hk. unfold rolesDependentOnRole, mbind, M_bind.
  pose proof (k_List_world (T := Role) k) as HW. pose proof (k_List_result (T := Role) k) as HR.
  destruct (k_List k) as [[l|e|] k'] eqn:HL; cbn [fst snd] in *; subst; [|left; eauto|done]. unfold lift.
  assert ((k_List (T := Role) k).1 = Ok l) as HL1 by by rewrite HL.
  set (R := λ x, default [] (reverse_graph l !! x)).
  cbn beta iota.
  destruct (dependents_loop (S (length l)) (reverse_graph l) {[ changed ]} [changed]) as [D|e|] eqn:HD; [right|left; eauto|exfalso].
  - exists D. split; [done|]. intros x.
    rewrite (dependents_loop_spec R (reverse_graph l) (λ _, eq_refl) changed _ _ _ _ (bfs_start R (reverse_graph l) (λ _, eq_refl) changed) HD x).
    rewrite <- (rtc_flip (inherits k)). apply rtc_iff. intros a b. by apply reverse_inherits.
  - revert HD.
    apply (dependents_loop_fuel R _ (λ _, eq_refl) ({[ changed ]} ∪ list_to_set (map role_key l))).
    + intros x y Hy. apply reverse_graph_lookup in Hy as (child & Hc & <- & _).
      apply elem_of_union. right. rewrite elem_of_list_to_set, elem_of_map. eauto.
    + set_solver.
    + rewrite size_singleton. simpl.
      assert (size ({[ changed ]} ∪ list_to_set (map role_key l) : gset NamespacedName) ≤ S (length l)); [|lia].
      pose proof (size_list_to_set_le (changed :: map role_key l)) as HS. simpl in HS.
      by rewrite length_map in HS.
Qed.

Lemma dependents_loop_no_error fuel reverse deps queue e : dependents_loop fuel reverse deps queue ≠ Err e.
Proof.
  revert deps queue. induction fuel as [|fuel IH]; intros deps [|x queue]; simpl; try done. case_match. apply IH.
Qed.

(** Only the API server's error stops the walk. *)
Lemma rolesDependentOnRole_Err k changed e :
  (rolesDependentOnRole changed k).1 = Err e → (k_List (T := Role) k).1 = Err e.
Proof.
  unfold rolesDependentOnRole, mbind, M_bind. destruct (k_List k) as [[l|e'|] k']; [|by intros [= ->]|done].
  intros E. by apply dependents_loop_no_error in E.
Qed.

(** C18: A role's effective permissions are those of every role it reaches. The
    walk over inherited roles ends, whatever cycles they form, with an error of
    the API server or with exactly the permissions some role reachable through
    [inheritedRoles] includes, and with exactly the reachable references that
    name no role, each once: a dangling reference costs its own permissions and
    no others. *)
Theorem effective_permissions_reachable k role fuel
  (Hkeyed : roles_keyed k) (Hrole : k_view k !! role_key role = Some role)
  (Hfuel : size (k_view (T := Role) k) < fuel) :
  (∃ e, (getAllEffectivePermissions fuel role ∅ k).1 = Err e) ∨
  (∃ ps us V, getAllEffectivePermissions fuel role ∅ k = (Ok (ps, us, V), k) ∧ NoDup us ∧
     (∀ p, p ∈ ps ↔ included_in k (rtc (inherits k) (role_key role)) p) ∧
     (∀ u, u ∈ us ↔ rtc (inherits k) (role_key role) u ∧ ¬ exists_role k u)).
Proof.
  assert ((getAllEffectivePermissions fuel role ∅ k).1 ≠ OutOfFuel) as HF.
  { apply getAll_fuel; [done..|]. unfold unvisited.
    eapply Nat.le_lt_trans; [apply map_subseteq_size, map_filter_subseteq|done]. }
  destruct (getAllEffectivePermissions fuel role ∅ k) as [[[[ps us] V]|e|] k'] eqn:E; [right|left; eauto|done].
  pose proof (getAll_NoDup _ _ _ _ _ _ _ _ E).
  destruct (effective_aux k Hkeyed _ _ _ _ _ _ Hrole E) as (-> & HP & HU). by exists ps, us, V.
Qed.

(** C28: The roles a change of [changed] concerns are exactly [changed] and those
    that inherit it, directly or through others; the breadth-first walk ends on
    every graph of roles, cycles included. *)
Theorem rolesDependentOnRole_exact k changed (Hkeyed : roles_keyed k) :
  (∃ e, rolesDependentOnRole changed k = (Err e, k)) ∨
  (∃ D, rolesDependentOnRole changed k = (Ok D, k) ∧ ∀ x, x ∈ D ↔ rtc (inherits k) x changed).
Proof. by apply dependents_aux. Qed.

(** Reachability agrees as long as the changed role is not reached. *)
Lemma reach_agree k1 k2 changed x y :
  (∀ key, key ≠ changed → k_view (T := Role) k1 !! key = k_view k2 !! key) →
  ¬ rtc (inherits k2) x changed →
  rtc (inherits k1) x y ↔ rtc (inherits k2) x y.
Proof. intros Hsame. apply rtc_agree. intros a b Ha. unfold inherits. by rewrite Hsame. Qed.

(** Enqueueing the dependents misses no role. When one role changes in any
    way, or appears, or goes, a role that [rolesDependentOnRole] does not return
    afterwards has the same effective permissions and the same unresolved
    references as before, so not reconciling it leaves nothing stale. *)
Theorem unaffected_roles_keep_permissions k1 k2 changed D role fuel1 fuel2 ps1 us1 V1 ps2 us2 V2
  (Hkeyed1 : roles_keyed k1) (Hkeyed2 : roles_keyed k2)
  (Hsame : ∀ key, key ≠ changed → k_view (T := Role) k1 !! key = k_view k2 !! key)
  (HD : rolesDependentOnRole changed k2 = (Ok D, k2)) (Hout : role_key role ∉ D)
  (Hrole : k_view k2 !! role_key role = Some role)
  (Hbefore : (getAllEffectivePermissions fuel1 role ∅ k1).1 = Ok (ps1, us1, V1))
  (Hafter : (getAllEffectivePermissions fuel2 role ∅ k2).1 = Ok (ps2, us2, V2)) :
  ps1 = ps2 ∧ us1 ≡ₚ us2.
Proof.
  assert (¬ rtc (inherits k2) (role_key role) changed) as Hn.
  { destruct (dependents_aux k2 changed Hkeyed2) as [(e & He)|(D' & HD' & HX)]; [congruence|].
    rewrite HD in HD'. injection HD' as <-. by rewrite <- HX. }
  assert (k_view k1 !! role_key role = Some role) as Hrole1.
  { rewrite Hsame; [done|]. intros E. apply Hn. rewrite E. apply rtc_refl. }
  rewrite (surjective_pairing (getAllEffectivePermissions fuel1 role ∅ k1)) in Hbefore.
  destruct (getAllEffectivePermissions fuel1 role ∅ k1) as [o1 k1'] eqn:E1. simpl in Hbefore. subst o1.
  destruct (getAllEffectivePermissions fuel2 role ∅ k2) as [o2 k2'] eqn:E2. simpl in Hafter. subst o2.
  destruct (effective_aux k1 Hkeyed1 _ _ _ _ _ _ Hrole1 E1) as (_ & HP1 & HU1).
  destruct (effective_aux k2 Hkeyed2 _ _ _ _ _ _ Hrole E2) as (_ & HP2 & HU2).
  pose proof (reach_agree k1 k2 changed (role_key role)) as HR.
  assert (∀ y, rtc (inherits k2) (role_key role) y → k_view (T := Role) k1 !! y = k_view k2 !! y) as HV
    by (intros y Hy; apply Hsame; congruence).
  split.
  - apply set_eq. intros p. rewrite HP1, HP2. unfold included_in.
    split; intros (y & r & Hy & Hr & Hp); exists y, r.
    + apply HR in Hy; [|done..]. by rewrite <- HV.
    + rewrite HV by done. split; [by apply HR|done].
  - apply NoDup_Permutation; [by eapply getAll_NoDup|by eapply getAll_NoDup|]. intros u. rewrite HU1, HU2.
    rewrite HR by done. unfold exists_role. split; intros [Hu Hx]; (split; [done|]); [rewrite <- HV|rewrite HV]; done.
Qed.
End spec.

(** ** Examples: a diamond with a cycle and a dangling reference *)

Definition ex_inherits (name : string) (perms : list string) (parents : list string) : Role :=
  mkRole (mkObjectMeta name "iam" name 1 None [] [])
    (mkRoleSpec perms (map (λ p, mkRoleRef p "") parents)) (mkRoleStatus [] 0 []).
Definition ex_owner := ex_inherits "owner" ["rm/projects.delete"] ["editor"; "auditor"; "gone"].
Definition ex_editor := ex_inherits "editor" ["rm/projects.update"] ["auditor"; "owner"].
Definition ex_auditor := ex_inherits "auditor" ["rm/projects.get"] [].
Definition ex_auditor' := ex_inherits "auditor" ["rm/projects.list"] [].
Definition ex_lone := ex_inherits "lone" ["rm/projects.watch"] ["gone"].

Definition ex_role_world (roles : list Role) : RefK8s := mkRefK8s (by_key role_Meta roles) ∅ ∅ ∅ ∅ None.
Definition ex_roles1 : RefK8s := ex_role_world [ex_owner; ex_editor; ex_auditor; ex_lone].
Definition ex_roles2 : RefK8s := ex_role_world [ex_owner; ex_editor; ex_auditor'; ex_lone].

(** Keys, checked on the list the map was built from. *)
Definition keyed_test (k : RefK8s) : bool :=
  forallb (λ kr, bool_decide (role_key kr.2 = kr.1) && negb (has_byte "/"%char (nn_Namespace kr.1)))
    (map_to_list (rk_roles k)).

Lemma keyed_test_ok k : keyed_test k = true → roles_keyed k.
Proof.
  unfold keyed_test. rewrite forallb_forall. intros HT key role Hr.
  specialize (HT (key, role) (proj1 (list_elem_of_In _ _) (proj2 (elem_of_map_to_list _ _ _) Hr))).
  simpl in HT. bool_prop. done.
Qed.

Definition ex_owner_test (o : outcome effective_result) : bool :=
  match o with
  | Ok (ps, us, _) => bool_decide (us = [mkNN "iam" "gone"]) && bool_decide ("rm/projects.get" ∈ ps)
  | _ => false
  end.

Lemma effective_permissions_reachable_witness :
  ∃ ps us V, getAllEffectivePermissions 9 ex_owner ∅ ex_roles1 = (Ok (ps, us, V), ex_roles1) ∧
    us = [mkNN "iam" "gone"] ∧ bool_decide ("rm/projects.get" ∈ ps) = true.
Proof.
  destruct (effective_permissions_reachable ex_roles1 ex_owner 9) as [(e & He)|(ps & us & V & HE & _ & HP & HU)].
  - apply keyed_test_ok. vm_compute. reflexivity.
  - vm_compute. reflexivity.
  - vm_compute. lia.
  - exfalso. apply (f_equal is_ok) in He. vm_compute in He. discriminate He.
  - exists ps, us, V. split; [done|].
    assert (ex_owner_test (getAllEffectivePermissions 9 ex_owner ∅ ex_roles1).1 = true) as HT by (vm_compute; reflexivity).
    rewrite HE in HT. apply andb_true_iff in HT as [HT1 HT2]. split; [|done]. by apply bool_decide_eq_true in HT1.
Defined.

Lemma rolesDependentOnRole_exact_witness :
  ∃ D, rolesDependentOnRole (role_key ex_auditor) ex_roles1 = (Ok D, ex_roles1) ∧
    (role_key ex_owner ∈ D ↔ rtc (inherits ex_roles1) (role_key ex_owner) (role_key ex_auditor)).
Proof.
  destruct (rolesDependentOnRole_exact ex_roles1 (role_key ex_auditor)) as [(e & He)|(D & HD & HX)].
  - apply keyed_test_ok. vm_compute. reflexivity.
  - exfalso. apply (f_equal (λ r, is_ok r.1)) in He. vm_compute in He. discriminate He.
  - exists D. split; [done|apply HX].
Defined.

Definition ex_D : gset NamespacedName := ex_ok ∅ (rolesDependentOnRole (role_key ex_auditor) ex_roles2).1.
Definition ex_effective (k : RefK8s) : effective_result :=
  ex_ok (∅, [], ∅) (getAllEffectivePermissions 9 ex_lone ∅ k).1.

Lemma dependents_run k changed :
  roles_keyed k → is_ok (rolesDependentOnRole changed k).1 = true →
  rolesDependentOnRole changed k = (Ok (ex_ok ∅ (rolesDependentOnRole changed k).1), k).
Proof. intros Hk. by destruct (dependents_aux k changed Hk) as [(e & ->)|(D & -> & _)]. Qed.

Lemma ex_effective_eq k :
  is_ok (getAllEffectivePermissions 9 ex_lone ∅ k).1 = true →
  (getAllEffectivePermissions 9 ex_lone ∅ k).1 =
    Ok ((ex_effective k).1.1, (ex_effective k).1.2, (ex_effective k).2).
Proof.
  intros HO. rewrite (ex_ok_eq (∅, [], ∅) _ HO) at 1. unfold ex_effective. by destruct (ex_ok _ _) as [[? ?] ?].
Qed.

Lemma unaffected_roles_keep_permissions_witness :
  (ex_effective ex_roles1).1.1 = (ex_effective ex_roles2).1.1 ∧ (ex_effective ex_roles1).1.2 ≡ₚ (ex_effective ex_roles2).1.2.
Proof.
  apply (unaffected_roles_keep_permissions ex_roles1 ex_roles2 (role_key ex_auditor) ex_D ex_lone 9 9
    _ _ (ex_effective ex_roles1).2 _ _ (ex_effective ex_roles2).2).
  - apply keyed_test_ok. vm_compute. reflexivity.
  - apply keyed_test_ok. vm_compute. reflexivity.
  - intros key Hne. unfold k_view, ref_Role_laws, ref_laws. simpl. unfold by_key. simpl.
    rewrite !lookup_insert. repeat case_decide; try done; by subst.
  - apply dependents_run; [apply keyed_test_ok|]; vm_compute; reflexivity.
  - apply (bool_decide_unpack _). vm_compute. exact I.
  - vm_compute. reflexivity.
  - apply ex_effective_eq. vm_compute. reflexivity.
  - apply ex_effective_eq. vm_compute. reflexivity.
Defined.
