(* ===== verification/ControllerEnv.v ===== *)
(** * What the controllers use of the Kubernetes libraries

    Writes through the client, controller-runtime's finalizers, the condition
    helpers of apimachinery and its semantic equality: interfaces with the laws
    their documentation states, and reference instances for examples. *)

From S2P Require Import Prelude GoStrings GoErr Types World.
Local Open Scope Z_scope.

(** [ctrl.Result]. *)
Record Result := mkResult { res_Requeue : bool; res_RequeueAfter : Z }.
Definition done_result : Result := mkResult false 0.
Definition requeue_result : Result := mkResult true 0.

(** ** Client writes *)

Class KWriter (K T : Type) := {
  k_Update : T → M K T;
  k_StatusUpdate : T → M K T
}.

(** [k_with_status old new] is [old] with the status of [new]; [k_key] an
    object's own key. A status update changes the status alone and answers with the
    stored object. *)
Class KStatusLaws (K T : Type) `{KReadLaws K T} `{KWriter K T} := {
  k_key : T → NamespacedName;
  k_with_status : T → T → T;
  k_StatusUpdate_Ok x k y k' :
    k_StatusUpdate x k = (Ok y, k') →
    ∃ old, k_view k !! k_key x = Some old ∧ y = k_with_status old x ∧ k_view k' = <[k_key x := y]> (k_view k);
  k_StatusUpdate_Err x k e k' : k_StatusUpdate x k = (Err e, k') → k' = k;
  k_StatusUpdate_result x k : (k_StatusUpdate x k).1 ≠ OutOfFuel
}.

(** ** Objects known by their metadata *)

(** [client.Client] at [*unstructured.Unstructured], and at typed objects of which
    the code uses the metadata alone. *)
Class KDynamic (K : Type) := {
  d_Get : GroupVersionKind → NamespacedName → M K KObject;
  d_Update : KObject → M K KObject
}.

Definition obj_key (x : KObject) : GroupVersionKind * NamespacedName := (obj_GVK x, key_of (obj_Meta x)).
Definition obj_with_meta (x : KObject) (m : ObjectMeta) : KObject :=
  mkKObject (obj_GVK x) m (obj_ResourceVersion x).

(** The server's objects after an update by [x] that it stored as [y]: an object
    being deleted goes with its last finalizer. *)
Definition d_stored (x y : KObject) (v : gmap (GroupVersionKind * NamespacedName) KObject) :
    gmap (GroupVersionKind * NamespacedName) KObject :=
  match om_DeletionTimestamp (obj_Meta y), om_Finalizers (obj_Meta y) with
  | Some _, [] => delete (obj_key x) v
  | _, _ => <[obj_key x := y]> v
  end.

(** What the API server accepts: an update of the version and the UID it has, no
    new finalizer on an object being deleted; it keeps the deletion time. *)
Definition d_accepts (old x y : KObject) : Prop :=
  obj_ResourceVersion old = obj_ResourceVersion x ∧
  om_UID (obj_Meta old) = om_UID (obj_Meta x) ∧
  (om_DeletionTimestamp (obj_Meta old) ≠ None → om_Finalizers (obj_Meta x) ⊆ om_Finalizers (obj_Meta old)) ∧
  obj_key y = obj_key x ∧
  om_UID (obj_Meta y) = om_UID (obj_Meta x) ∧
  om_DeletionTimestamp (obj_Meta y) = om_DeletionTimestamp (obj_Meta old) ∧
  om_Finalizers (obj_Meta y) = om_Finalizers (obj_Meta x).

(** A failed update may have been carried out. *)
Class KDynamicLaws (K : Type) `{KDynamic K} := {
  d_view : K → gmap (GroupVersionKind * NamespacedName) KObject;
  d_view_keyed k key x : d_view k !! key = Some x → obj_key x = key;
  d_Get_world gvk key k : (d_Get gvk key k).2 = k;
  d_Get_result gvk key k : (d_Get gvk key k).1 ≠ OutOfFuel;
  d_Get_Ok gvk key k x : (d_Get gvk key k).1 = Ok x → d_view k !! (gvk, key) = Some x;
  d_Get_NotFound gvk key k e :
    (d_Get gvk key k).1 = Err e → IsNotFound e = true → d_view k !! (gvk, key) = None;
  d_Update_Ok x k y k' :
    d_Update x k = (Ok y, k') →
    ∃ old, d_view k !! obj_key x = Some old ∧ d_accepts old x y ∧ d_view k' = d_stored x y (d_view k);
  d_Update_Err x k e k' :
    d_Update x k = (Err e, k') →
    d_view k' = d_view k ∨
    ∃ old y, d_view k !! obj_key x = Some old ∧ d_accepts old x y ∧ d_view k' = d_stored x y (d_view k);
  d_Update_result x k : (d_Update x k).1 ≠ OutOfFuel
}.

(** The kinds the typed clients read Users, Groups and ServiceAccounts under. *)
Class IAMKinds := { UserGVK : GroupVersionKind; GroupGVK : GroupVersionKind; ServiceAccountGVK : GroupVersionKind }.

(** The group and version of Milo's resource manager API. *)
Class ResourceManager := { rm_Group : string; rm_Version : string }.

(** The scheme: [Scheme.ObjectKinds] and [apiutil.GVKForObject]. *)
Class Scheme := {
  ObjectKinds : KObject → outcome (list GroupVersionKind);
  GVKForObject : KObject → outcome GroupVersionKind
}.

(** [schema.FromAPIVersionAndKind]. *)
Class APIVersions := FromAPIVersionAndKind : string → string → GroupVersionKind.

(** ** Finalizers *)

(** [finalizer.Finalizers] with one registered finalizer, on the metadata of an
    object: the new metadata and whether it changed. *)
Class Finalizers := Finalizers_Finalize : ∀ W : Type, string → M W unit → ObjectMeta → M W (bool * ObjectMeta).
Arguments Finalizers_Finalize {_ _} _ _ _ : rename.

Definition set_finalizers (m : ObjectMeta) (fs : list string) : ObjectMeta :=
  mkObjectMeta (om_Name m) (om_Namespace m) (om_UID m) (om_Generation m) (om_DeletionTimestamp m) fs
    (om_OwnerReferences m).

Definition ContainsFinalizer (m : ObjectMeta) (key : string) : bool := str_in key (om_Finalizers m).
(** [controllerutil.AddFinalizer] and [RemoveFinalizer]. *)
Definition add_finalizer (m : ObjectMeta) (key : string) : ObjectMeta :=
  if ContainsFinalizer m key then m else set_finalizers m (om_Finalizers m ++ [key]).
Definition remove_finalizer (m : ObjectMeta) (key : string) : ObjectMeta :=
  set_finalizers m (List.filter (λ f, negb (String.eqb f key)) (om_Finalizers m)).

(** A live object gets the finalizer; a deleted one runs it and, when it
    succeeds, loses it. *)
Class FinalizersLaws `{Finalizers} := {
  Finalize_live W key (fin : M W unit) m w :
    om_DeletionTimestamp m = None → ContainsFinalizer m key = true →
    Finalizers_Finalize key fin m w = (Ok (false, m), w);
  Finalize_add W key (fin : M W unit) m w :
    om_DeletionTimestamp m = None → ContainsFinalizer m key = false →
    Finalizers_Finalize key fin m w = (Ok (true, set_finalizers m (om_Finalizers m ++ [key])), w);
  Finalize_gone W key (fin : M W unit) m w :
    om_DeletionTimestamp m ≠ None → ContainsFinalizer m key = false →
    Finalizers_Finalize key fin m w = (Ok (false, m), w);
  Finalize_run W key (fin : M W unit) m w w' :
    om_DeletionTimestamp m ≠ None → ContainsFinalizer m key = true → fin w = (Ok tt, w') →
    Finalizers_Finalize key fin m w = (Ok (true, remove_finalizer m key), w');
  Finalize_fail W key (fin : M W unit) m w e w' :
    om_DeletionTimestamp m ≠ None → ContainsFinalizer m key = true → fin w = (Err e, w') →
    ∃ e', Finalizers_Finalize key fin m w = (Err e', w')
}.

#[export] Instance ref_Finalizers : Finalizers := λ W key fin m,
  match om_DeletionTimestamp m, ContainsFinalizer m key with
  | None, true | Some _, false => mret (false, m)
  | None, false => mret (true, set_finalizers m (om_Finalizers m ++ [key]))
  | Some _, true => fin ;; mret (true, remove_finalizer m key)
  end.

#[export] Instance ref_FinalizersLaws : FinalizersLaws.
Proof.
  split; unfold Finalizers_Finalize, ref_Finalizers; intros W key fin m w.
  - by intros -> ->.
  - by intros -> ->.
  - intros Hd ->. by destruct (om_DeletionTimestamp m).
  - intros w' Hd -> E. destruct (om_DeletionTimestamp m); [|done]. unfold mbind, M_bind. by rewrite E.
  - intros e w' Hd -> E. destruct (om_DeletionTimestamp m); [|done]. unfold mbind, M_bind. rewrite E. eauto.
Qed.

(** ** Conditions *)

(** [meta.SetStatusCondition] and [meta.FindStatusCondition]. *)
Class StatusConditions := {
  SetStatusCondition : list Condition → Condition → list Condition;
  FindStatusCondition : list Condition → string → option Condition
}.

Class StatusConditionsLaws `{StatusConditions} := {
  Find_Set_same l c : FindStatusCondition (SetStatusCondition l c) (c_Type c) = Some c;
  Find_Set_other l c t : t ≠ c_Type c → FindStatusCondition (SetStatusCondition l c) t = FindStatusCondition l t;
  Set_again l c : FindStatusCondition l (c_Type c) = Some c → SetStatusCondition l c = l
}.

Fixpoint ref_set (l : list Condition) (c : Condition) : list Condition :=
  match l with
  | [] => [c]
  | c' :: l' => if String.eqb (c_Type c') (c_Type c) then c :: l' else c' :: ref_set l' c
  end.

#[export] Instance ref_StatusConditions : StatusConditions := {
  SetStatusCondition := ref_set;
  FindStatusCondition l t := find (λ c, String.eqb (c_Type c) t) l
}.

#[export] Instance ref_StatusConditionsLaws : StatusConditionsLaws.
Proof.
  split; simpl.
  - intros l c. induction l as [|c' l IH]; simpl; [by rewrite String.eqb_refl|].
    destruct (String.eqb (c_Type c') (c_Type c)) eqn:E; simpl; [by rewrite String.eqb_refl|by rewrite E].
  - intros l c t Hne. induction l as [|c' l IH]; simpl.
    + by destruct (String.eqb_spec (c_Type c) t); [congruence|].
    + destruct (String.eqb_spec (c_Type c') (c_Type c)); simpl.
      * destruct (String.eqb_spec (c_Type c) t), (String.eqb_spec (c_Type c') t); congruence.
      * by destruct (String.eqb (c_Type c') t).
  - intros l c. induction l as [|c' l IH]; simpl; [done|].
    destruct (String.eqb_spec (c_Type c') (c_Type c)); [by intros [= ->]|]. intros H. by rewrite IH.
Qed.

(** [meta.IsStatusConditionTrue]. *)
Definition condition_true `{StatusConditions} (l : list Condition) (t : string) : Prop :=
  ∃ c, FindStatusCondition l t = Some c ∧ c_Status c = ConditionTrue.

Section condition_facts.
Context `{StatusConditionsLaws}.

Lemma condition_set_same l c : condition_true (SetStatusCondition l c) (c_Type c) ↔ c_Status c = ConditionTrue.
Proof.
  unfold condition_true. rewrite Find_Set_same. split; [by intros (? & [= <-] & ?)|eauto].
Qed.

Lemma condition_set_other l c t : t ≠ c_Type c → condition_true (SetStatusCondition l c) t ↔ condition_true l t.
Proof. intros Hne. unfold condition_true. by rewrite Find_Set_other. Qed.

End condition_facts.

(** [equality.Semantic.DeepEqual]; nil and empty slices are one value here. *)
Class SemanticEquality (A : Type) := Semantic_DeepEqual : A → A → bool.
Class SemanticEqualityLaws (A : Type) `{SemanticEquality A} :=
  Semantic_DeepEqual_eq a b : Semantic_DeepEqual a b = true ↔ a = b.

#[export] Instance ref_SemanticEquality `{EqDecision A} : SemanticEquality A := λ a b, bool_decide (a = b).
#[export] Instance ref_SemanticEqualityLaws `{EqDecision A} : SemanticEqualityLaws A.
Proof. intros a b. apply bool_decide_eq_true. Qed.

(** ** Reading one object *)

Section get.
Context {F K : Type}.

Lemma k_get_run {T} `{KReadLaws K T} key (w : World F K) (got : T + goerr) w1 :
  try (on_k8s (k_Get key)) w = (Ok got, w1) →
  w1 = w ∧ match got with
           | inl x => k_view (w_k8s w) !! key = Some x
           | inr e => IsNotFound e = true → k_view (T := T) (w_k8s w) !! key = None
           end.
Proof.
  unfold try, on_k8s. pose proof (k_Get_world (T := T) key (w_k8s w)) as HW.
  pose proof (k_Get_Ok (T := T) key (w_k8s w)) as HO. pose proof (k_Get_NotFound (T := T) key (w_k8s w)) as HN.
  destruct (k_Get (T := T) key (w_k8s w)) as [o k']. simpl in *. subst k'. rewrite mkWorld_eta.
  destruct o as [x|e|]; [| |done]; intros [= <- <-]; (split; [done|]); [by apply HO|by apply HN].
Qed.

Lemma k_get_stored {T} `{KReadLaws K T} key (w : World F K) (x : T) :
  k_view (w_k8s w) !! key = Some x →
  (∃ e, try (on_k8s (k_Get (T := T) key)) w = (Ok (inr e), w) ∧ IsNotFound e = false) ∨
  try (on_k8s (k_Get (T := T) key)) w = (Ok (inl x), w).
Proof.
  intros Hs. pose proof (k_Get_result (T := T) key (w_k8s w)) as HR.
  destruct (try (on_k8s (k_Get (T := T) key)) w) as [[got|e|] w1] eqn:E.
  - apply k_get_run in E as [-> HG]. destruct got as [y|e]; [right|left].
    + rewrite Hs in HG. by injection HG as <-.
    + exists e. split; [done|]. destruct (IsNotFound e); [|done]. by rewrite HG in Hs.
  - by apply try_not_Err in E.
  - exfalso. revert E. unfold try, on_k8s. by destruct (k_Get (T := T) key (w_k8s w)) as [[]].
Qed.

Lemma d_get_run `{KDynamicLaws K} gvk key (w : World F K) (got : KObject + goerr) w1 :
  try (on_k8s (d_Get gvk key)) w = (Ok got, w1) →
  w1 = w ∧ match got with
           | inl x => d_view (w_k8s w) !! (gvk, key) = Some x
           | inr e => IsNotFound e = true → d_view (w_k8s w) !! (gvk, key) = None
           end.
Proof.
  unfold try, on_k8s. pose proof (d_Get_world gvk key (w_k8s w)) as HW.
  pose proof (d_Get_Ok gvk key (w_k8s w)) as HO. pose proof (d_Get_NotFound gvk key (w_k8s w)) as HN.
  destruct (d_Get gvk key (w_k8s w)) as [o k']. simpl in *. subst k'. rewrite mkWorld_eta.
  destruct o as [x|e|]; [| |done]; intros [= <- <-]; (split; [done|]); [by apply HO|by apply HN].
Qed.

Lemma d_get_stored `{KDynamicLaws K} gvk key (w : World F K) (x : KObject) :
  d_view (w_k8s w) !! (gvk, key) = Some x →
  (∃ e, try (on_k8s (d_Get gvk key)) w = (Ok (inr e), w) ∧ IsNotFound e = false) ∨
  try (on_k8s (d_Get gvk key)) w = (Ok (inl x), w).
Proof.
  intros Hs. pose proof (d_Get_result gvk key (w_k8s w)) as HR.
  destruct (try (on_k8s (d_Get gvk key)) w) as [[got|e|] w1] eqn:E.
  - apply d_get_run in E as [-> HG]. destruct got as [y|e]; [right|left].
    + rewrite Hs in HG. by injection HG as <-.
    + exists e. split; [done|]. destruct (IsNotFound e); [|done]. by rewrite HG in Hs.
  - by apply try_not_Err in E.
  - exfalso. revert E. unfold try, on_k8s. by destruct (d_Get gvk key (w_k8s w)) as [[]].
Qed.
End get.

Lemma reads_d_Get `{KDynamicLaws K} gvk key : reads (d_Get gvk key : M K KObject).
Proof. intros k. apply d_Get_world. Qed.
#[export] Hint Resolve reads_d_Get : reads.

(** ** Computations that leave part of the world alone *)

Section keeps.
Context {F K X : Type}.

(** Whatever [g] looks at is as it was. *)
Definition keeps {A} (g : World F K → X) (m : M (World F K) A) : Prop := ∀ w, g (m w).2 = g w.

Lemma keeps_run {A} g (m : M (World F K) A) w o w' : keeps g m → m w = (o, w') → g w' = g w.
Proof. intros Hm E. specialize (Hm w). by rewrite E in Hm. Qed.
Lemma keeps_reads {A} g (m : M (World F K) A) : reads m → keeps g m.
Proof. intros Hm w. by rewrite Hm. Qed.
Lemma keeps_bind {A B} g (m : M (World F K) A) (f : A → M (World F K) B) :
  keeps g m → (∀ a, keeps g (f a)) → keeps g (m ≫= f).
Proof.
  intros Hm Hf w. unfold mbind, M_bind. specialize (Hm w). destruct (m w) as [[a|e|] w1]; simpl in *; [|done..].
  by rewrite Hf.
Qed.
Lemma keeps_map_err {A} g h (m : M (World F K) A) : keeps g m → keeps g (map_err h m).
Proof. intros Hm w. by rewrite map_err_snd. Qed.
Lemma keeps_try {A} g (m : M (World F K) A) : keeps g m → keeps g (try m).
Proof. intros Hm w. by rewrite try_snd. Qed.
End keeps.

(** Kubernetes, or OpenFGA. *)
Abbreviation keeps_k8s := (keeps w_k8s).
Abbreviation keeps_fga := (keeps w_fga).

Lemma keeps_k8s_on_fga {F K A} (m : M F A) : keeps (K := K) w_k8s (on_fga m).
Proof. done. Qed.
Lemma keeps_fga_on_k8s {F K A} (m : M K A) : keeps (F := F) w_fga (on_k8s m).
Proof. done. Qed.

(** What is a function of Kubernetes alone. *)
Lemma keeps_of_k8s {F K X A} (g : K → X) (m : M (World F K) A) : keeps_k8s m → keeps (λ w, g (w_k8s w)) m.
Proof. intros Hm w. by rewrite (Hm w). Qed.

Ltac solve_keeps :=
  repeat first
    [ assumption
    | progress intros
    | apply keeps_bind | apply keeps_map_err | apply keeps_try | apply keeps_k8s_on_fga | apply keeps_fga_on_k8s
    | solve [apply keeps_reads; eauto with reads]
    | case_match ].

(** ** Finalizing *)

(** A deleted object with the finalizer: its cleanup runs, and when it succeeds the
    finalizer is off. *)
Lemma Finalize_deleting `{FinalizersLaws} W key (fin : M W unit) m w o w' :
  om_DeletionTimestamp m ≠ None → ContainsFinalizer m key = true →
  Finalizers_Finalize key fin m w = (o, w') →
  (fin w = (Ok tt, w') ∧ o = Ok (true, remove_finalizer m key)) ∨
  (∃ e e', fin w = (Err e, w') ∧ o = Err e') ∨
  (fin w).1 = OutOfFuel.
Proof.
  intros Hd Hc E. destruct (fin w) as [[[]|e|] w1] eqn:Ef; [left|right; left|by right; right].
  - rewrite (Finalize_run W key fin m w w1 Hd Hc Ef) in E. by injection E as <- <-.
  - destruct (Finalize_fail W key fin m w e w1 Hd Hc Ef) as (e' & E'). rewrite E' in E. injection E as <- <-. eauto.
Qed.
