(* ===== verification/TargetHold.v ===== *)
(** * [internal/controller/target_hold.go]: holding the objects tuples name

    A Project or an Organization carries the provider's finalizer while tuples may
    name it. [holdOf] reads the hold off an object, [holdTarget] takes it. The lock
    pool [ObjectLocks] is part of the protocol in HoldProtocol.v. *)

From S2P Require Import Prelude GoStrings GoErr Types World ControllerEnv.

Definition resourceOwnerHierarchyFinalizer : string := "resourceownerhierarchy.iam.miloapis.com/finalizer".

Definition projectKind : string := "Project".
Definition organizationKind : string := "Organization".

Definition miloFinalizers : list string :=
  ["resourcemanager.miloapis.com/project-controller"; "resourcemanager.miloapis.com/organization-namespace"].

Inductive hold := holdHeld | holdNotYet | holdDeleting | holdReplaced | holdMissing.

#[export] Instance hold_eq_dec : EqDecision hold.
Proof. solve_decision. Defined.

Definition holdOf (m : ObjectMeta) (uid : string) : hold :=
  if negb (String.eqb (om_UID m) uid) then holdReplaced
  else match om_DeletionTimestamp m with
       | Some _ => holdDeleting
       | None => if ContainsFinalizer m resourceOwnerHierarchyFinalizer then holdHeld else holdNotYet
       end.

Definition drained (m : ObjectMeta) : bool :=
  negb (existsb (λ f, ContainsFinalizer m f) miloFinalizers).

Definition isHeldKind `{ResourceManager} (group kind : string) : bool :=
  String.eqb group rm_Group && (String.eqb kind projectKind || String.eqb kind organizationKind).

Definition whyNotHeld (h : hold) (kind name : string) : string :=
  match h with
  | holdHeld => ""
  | holdNotYet => "the " +:+ kind +:+ " " +:+ name +:+ " is not ready for new permissions yet"
  | holdDeleting => "the " +:+ kind +:+ " " +:+ name +:+ " is being deleted"
  | holdReplaced => "the " +:+ kind +:+ " " +:+ name +:+ " is no longer the object this binding names"
  | holdMissing => "the " +:+ kind +:+ " " +:+ name +:+ " does not exist"
  end.

Section dynamic.
Context {K : Type} `{KDynamic K}.

(** The stored object, once the finalizer is on it. *)
Definition holdWithFinalizer (obj : KObject) : M K KObject :=
  wrapf ("failed to add our finalizer to " +:+ gvk_Kind (obj_GVK obj) +:+ " " +:+ om_Name (obj_Meta obj) +:+ ": ")
    (d_Update (obj_with_meta obj (add_finalizer (obj_Meta obj) resourceOwnerHierarchyFinalizer))).

Definition holdTarget (obj : KObject) (uid : string) : M K hold :=
  match holdOf (obj_Meta obj) uid with
  | holdNotYet =>
    obj ← holdWithFinalizer obj;
    mret (holdOf (obj_Meta obj) uid)
  | h => mret h
  end.
End dynamic.

(** ** Facts *)

Lemma whyNotHeld_held h kind name : whyNotHeld h kind name = "" ↔ h = holdHeld.
Proof. by destruct h. Qed.

Lemma holdOf_held m uid :
  holdOf m uid = holdHeld ↔
  om_UID m = uid ∧ om_DeletionTimestamp m = None ∧ resourceOwnerHierarchyFinalizer ∈ om_Finalizers m.
Proof.
  unfold holdOf, ContainsFinalizer. rewrite <- str_in_elem.
  destruct (String.eqb_spec (om_UID m) uid) as [->|]; simpl; [|naive_solver].
  destruct (om_DeletionTimestamp m); [naive_solver|].
  destruct (str_in _ _); naive_solver.
Qed.

Lemma holdOf_deleting m uid :
  holdOf m uid = holdDeleting ↔ om_UID m = uid ∧ om_DeletionTimestamp m ≠ None.
Proof.
  unfold holdOf. destruct (String.eqb_spec (om_UID m) uid) as [->|]; simpl; [|naive_solver].
  destruct (om_DeletionTimestamp m); [naive_solver|].
  destruct (ContainsFinalizer _ _); naive_solver.
Qed.

Lemma add_finalizer_elem m key : key ∈ om_Finalizers (add_finalizer m key).
Proof.
  unfold add_finalizer, ContainsFinalizer. destruct (str_in key _) eqn:E; [by apply str_in_elem in E|].
  simpl. set_solver.
Qed.

Lemma add_finalizer_meta m key :
  om_UID (add_finalizer m key) = om_UID m ∧ key_of (add_finalizer m key) = key_of m ∧
  om_DeletionTimestamp (add_finalizer m key) = om_DeletionTimestamp m.
Proof. unfold add_finalizer. by destruct (ContainsFinalizer m key). Qed.

Section facts.
Context {K : Type} `{KDynamicLaws K}.

(** What the server holds after [holdTarget] of an object just read. Only an
    object with that UID is changed, by its finalizer. *)
Lemma holdTarget_run obj uid k o k' :
  d_view k !! obj_key obj = Some obj → holdTarget obj uid k = (o, k') →
  (∀ key, key ≠ obj_key obj → d_view k' !! key = d_view k !! key) ∧
  (∀ h, o = Ok h → ∃ x, d_view k' !! obj_key obj = Some x ∧ holdOf (obj_Meta x) uid = h) ∧
  o ≠ OutOfFuel.
Proof.
  intros Hobj HT. unfold holdTarget in HT.
  destruct (holdOf (obj_Meta obj) uid) eqn:Eh.
  1,3-5: injection HT as <- <-; split_and!; [done|intros h [= <-]; eauto|done].
  set (x := obj_with_meta obj (add_finalizer (obj_Meta obj) resourceOwnerHierarchyFinalizer)) in *.
  assert (obj_key x = obj_key obj) as Hkey.
  { unfold x, obj_key. simpl. by destruct (add_finalizer_meta (obj_Meta obj) resourceOwnerHierarchyFinalizer) as (_ & -> & _). }
  assert (om_DeletionTimestamp (obj_Meta obj) = None ∧ om_UID (obj_Meta obj) = uid) as [Hlive Huid].
  { unfold holdOf in Eh. destruct (String.eqb_spec (om_UID (obj_Meta obj)) uid); [|done]. simpl in Eh.
    by destruct (om_DeletionTimestamp (obj_Meta obj)). }
  assert (∀ y old k1, d_view k !! obj_key x = Some old → d_accepts old x y → d_view k1 = d_stored x y (d_view k) →
    d_view k1 = <[obj_key obj := y]> (d_view k)) as Hstored.
  { intros y old k1 Hold (_ & _ & _ & _ & _ & Hd & _) ->. rewrite Hkey, Hobj in Hold. injection Hold as <-.
    unfold d_stored. by rewrite Hd, Hlive, Hkey. }
  unfold holdWithFinalizer in HT. fold x in HT.
  unfold mbind, M_bind in HT. rewrite wrapf_run in HT.
  pose proof (d_Update_result x k) as HR. destruct (d_Update x k) as [[y|e|] k1] eqn:E; simpl in HT, HR; [| |done].
  - injection HT as <- <-. apply d_Update_Ok in E as (old & Hold & HA & HV).
    rewrite (Hstored _ _ _ Hold HA HV). split_and!; [intros key Hne; by apply lookup_insert_ne| |done].
    intros h [= <-]. exists y. split; [apply lookup_insert_eq|done].
  - injection HT as <- <-. split_and!; [|done|done]. intros key Hne.
    apply d_Update_Err in E as [->|(old & y & Hold & HA & HV)]; [done|].
    rewrite (Hstored _ _ _ Hold HA HV). by apply lookup_insert_ne.
Qed.
End facts.
