(* ===== verification/RefObjects.v ===== *)
(** * A reference API server for objects known by their metadata

    [RefK8s] as a [KDynamic] server: optimistic locking by resource version, no new
    finalizers on objects being deleted. *)

From S2P Require Import Prelude GoStrings GoErr Types World RefK8s ControllerEnv TargetHold.
From Stdlib Require Import Ascii.

Definition set_rk_objects (k : RefK8s) m : RefK8s :=
  mkRefK8s (rk_roles k) (rk_bindings k) (rk_resources k) (rk_memberships k) m (rk_down k).

Definition ref_conflict : goerr := ErrAPI StatusReasonConflict "the object has been modified".

(** What the server stores: a new version, the old deletion time. *)
Definition ref_store_object (old x : KObject) : KObject :=
  let m := obj_Meta x in
  mkKObject (obj_GVK x)
    (mkObjectMeta (om_Name m) (om_Namespace m) (om_UID m) (om_Generation m)
       (om_DeletionTimestamp (obj_Meta old)) (om_Finalizers m) (om_OwnerReferences m))
    (obj_ResourceVersion x +:+ "'").

Definition ref_acceptable (old x : KObject) : bool :=
  String.eqb (obj_ResourceVersion old) (obj_ResourceVersion x) &&
  String.eqb (om_UID (obj_Meta old)) (om_UID (obj_Meta x)) &&
  match om_DeletionTimestamp (obj_Meta old) with
  | None => true
  | Some _ => forallb (λ f, str_in f (om_Finalizers (obj_Meta old))) (om_Finalizers (obj_Meta x))
  end.

#[export] Instance ref_ResourceManager : ResourceManager := {
  rm_Group := "resourcemanager.miloapis.com";
  rm_Version := "v1alpha1"
}.

(** The held kinds are cluster-scoped and served at one version. *)
Definition ref_served (key : GroupVersionKind * NamespacedName) : bool :=
  implb (isHeldKind (gvk_Group key.1) (gvk_Kind key.1))
    (String.eqb (gvk_Version key.1) rm_Version && String.eqb (nn_Namespace key.2) "").

(** Objects are found only under their own keys. *)
Definition ref_objects (k : RefK8s) : gmap (GroupVersionKind * NamespacedName) KObject :=
  filter (λ kx, obj_key kx.2 = kx.1 ∧ ref_served kx.1 = true) (rk_objects k).

#[export] Instance ref_KDynamic : KDynamic RefK8s := {
  d_Get gvk key k := ref_answer k
    match ref_objects k !! (gvk, key) with
    | Some x => Ok x
    | None => Err (NewNotFound (gvk_Kind gvk) (nn_Name key))
    end;
  d_Update x k :=
    match rk_down k, ref_objects k !! obj_key x with
    | Some e, _ => (Err e, k)
    | None, None => (Err (NewNotFound (gvk_Kind (obj_GVK x)) (om_Name (obj_Meta x))), k)
    | None, Some old =>
      if ref_acceptable old x then
        let y := ref_store_object old x in
        (Ok y, set_rk_objects k (d_stored x y (ref_objects k)))
      else (Err ref_conflict, k)
    end
}.

Lemma ref_acceptable_ok old x : ref_acceptable old x = true → d_accepts old x (ref_store_object old x).
Proof.
  unfold ref_acceptable. intros HA. bool_prop. rewrite !String.eqb_eq in *.
  unfold d_accepts. split_and!; try done.
  destruct (om_DeletionTimestamp (obj_Meta old)); [intros _|done].
  intros f Hf. rewrite forallb_forall in *. apply str_in_elem.
  match goal with H : ∀ x, _ |- _ => apply H end. by apply list_elem_of_In.
Qed.

Lemma ref_objects_keyed k key x : ref_objects k !! key = Some x → obj_key x = key.
Proof. unfold ref_objects. by intros [_ [Hk _]]%map_lookup_filter_Some. Qed.

Lemma ref_objects_served k key x : ref_objects k !! key = Some x → ref_served key = true.
Proof. unfold ref_objects. by intros [_ [_ Hk]]%map_lookup_filter_Some. Qed.

Lemma ref_objects_stored k x old :
  ref_objects k !! obj_key x = Some old →
  ref_objects (set_rk_objects k (d_stored x (ref_store_object old x) (ref_objects k))) =
  d_stored x (ref_store_object old x) (ref_objects k).
Proof.
  intros Hold. unfold ref_objects at 1. simpl. apply map_filter_id. intros key z Hz. simpl.
  assert (key = obj_key x ∧ z = ref_store_object old x ∨ ref_objects k !! key = Some z) as [[-> ->]|Hk];
    [|split; [done|by eapply ref_objects_served]|split; [by eapply ref_objects_keyed|by eapply ref_objects_served]].
  unfold d_stored in Hz. repeat case_match.
  all: first [apply lookup_insert_Some in Hz as [[<- <-]|[_ Hz]]; [by left|by right]
             |apply lookup_delete_Some in Hz as [_ Hz]; by right].
Qed.

#[export] Instance ref_KDynamicLaws : KDynamicLaws RefK8s.
Proof.
  refine {| d_view := ref_objects |}.
  - apply ref_objects_keyed.
  - intros gvk key k. simpl. unfold ref_answer. by destruct (rk_down k).
  - intros gvk key k. simpl. unfold ref_answer. destruct (rk_down k); [done|]. simpl.
    by destruct (ref_objects k !! _).
  - intros gvk key k x. simpl. unfold ref_answer. destruct (rk_down k); [done|]. simpl.
    destruct (ref_objects k !! (gvk, key)) as [y|]; [|done]. by intros [= ->].
  - intros gvk key k e. simpl. unfold ref_answer. destruct (rk_down k); simpl; [intros [= <-] Hx; discriminate Hx|].
    by destruct (ref_objects k !! (gvk, key)).
  - intros x k y k'. simpl. destruct (rk_down k); [done|].
    destruct (ref_objects k !! obj_key x) as [old|] eqn:Hold; [|done].
    destruct (ref_acceptable old x) eqn:HA; [|done]. intros [= <- <-]. exists old.
    split_and!; [done|by apply ref_acceptable_ok|]. by apply ref_objects_stored.
  - intros x k e k'. simpl. destruct (rk_down k); [intros [= _ <-]; by left|].
    destruct (ref_objects k !! obj_key x) as [old|]; [|intros [= _ <-]; by left].
    destruct (ref_acceptable old x); [done|]. intros [= _ <-]. by left.
  - intros x k. simpl. destruct (rk_down k); [done|]. destruct (ref_objects k !! obj_key x); [|done].
    by destruct (ref_acceptable _ _).
Defined.

(** ** A scheme and API versions *)

#[export] Instance ref_Scheme : Scheme := {
  ObjectKinds x := Ok [obj_GVK x];
  GVKForObject x := Ok (obj_GVK x)
}.

(** ["group/version"], or a version of the core group. *)
#[export] Instance ref_APIVersions : APIVersions := λ apiVersion kind,
  match Cut apiVersion "/"%char with
  | (group, version, true) => mkGVK group version kind
  | _ => mkGVK "" apiVersion kind
  end.

#[export] Instance ref_IAMKinds : IAMKinds := {
  UserGVK := mkGVK "iam.miloapis.com" "v1alpha1" "User";
  GroupGVK := mkGVK "iam.miloapis.com" "v1alpha1" "Group";
  ServiceAccountGVK := mkGVK "iam.miloapis.com" "v1alpha1" "ServiceAccount"
}.

Definition ref_gvk (kind : string) : GroupVersionKind := mkGVK rm_Group rm_Version kind.

Definition by_obj_key (l : list KObject) : gmap (GroupVersionKind * NamespacedName) KObject :=
  list_to_map (map (λ x, (obj_key x, x)) l).

(** ** Writing the typed kinds *)

(** A kind's client writes: an object being deleted goes with its last finalizer, a
    status update keeps the rest of the stored object. [proj] and [set] reach the
    kind's objects in the server. *)
Section writer.
Context {T : Type} (proj : RefK8s → gmap NamespacedName T) (set : RefK8s → gmap NamespacedName T → RefK8s).
Context (index : string → T → list string) (resource : string).
Context (meta : T → ObjectMeta) (with_status : T → T → T).
Hypothesis proj_set : ∀ k m, proj (set k m) = m.
#[local] Instance writer_client : KClient RefK8s T := ref_client proj index resource.
#[local] Instance writer_laws : KReadLaws RefK8s T := ref_laws proj index resource.

Definition ref_writer : KWriter RefK8s T := {|
  k_Update x k :=
    match rk_down k, om_DeletionTimestamp (meta x), om_Finalizers (meta x) with
    | Some e, _, _ => (Err e, k)
    | None, Some _, [] => (Ok x, set k (delete (key_of (meta x)) (proj k)))
    | None, _, _ => (Ok x, set k (<[key_of (meta x) := x]> (proj k)))
    end;
  k_StatusUpdate x k :=
    match rk_down k, proj k !! key_of (meta x) with
    | Some e, _ => (Err e, k)
    | None, None => (Err (NewNotFound resource (om_Name (meta x))), k)
    | None, Some old => (Ok (with_status old x), set k (<[key_of (meta x) := with_status old x]> (proj k)))
    end
|}.

Definition ref_status_laws : @KStatusLaws RefK8s T _ _ ref_writer.
Proof using proj_set.
  refine {| k_key x := key_of (meta x); k_with_status := with_status |}; simpl.
  - intros x k y k'. destruct (rk_down k); [done|]. destruct (proj k !! key_of (meta x)) as [old|]; [|done].
    intros [= <- <-]. exists old. by rewrite proj_set.
  - intros x k e k'. destruct (rk_down k); [by intros [= _ <-]|]. destruct (proj k !! key_of (meta x)); [done|].
    by intros [= _ <-].
  - intros x k. destruct (rk_down k); [done|]. by destruct (proj k !! key_of (meta x)).
Defined.
End writer.

Definition set_rk_roles (k : RefK8s) (m : gmap NamespacedName Role) : RefK8s :=
  mkRefK8s m (rk_bindings k) (rk_resources k) (rk_memberships k) (rk_objects k) (rk_down k).
Definition set_rk_bindings (k : RefK8s) (m : gmap NamespacedName PolicyBinding) : RefK8s :=
  mkRefK8s (rk_roles k) m (rk_resources k) (rk_memberships k) (rk_objects k) (rk_down k).
Definition set_rk_resources (k : RefK8s) (m : gmap NamespacedName ProtectedResource) : RefK8s :=
  mkRefK8s (rk_roles k) (rk_bindings k) m (rk_memberships k) (rk_objects k) (rk_down k).
Definition set_rk_memberships (k : RefK8s) (m : gmap NamespacedName GroupMembership) : RefK8s :=
  mkRefK8s (rk_roles k) (rk_bindings k) (rk_resources k) m (rk_objects k) (rk_down k).

Definition ref_role_status (old x : Role) : Role := mkRole (role_Meta old) (role_Spec old) (role_Status x).
#[export] Instance ref_Role_writer : KWriter RefK8s Role :=
  ref_writer rk_roles set_rk_roles "roles" role_Meta ref_role_status.
#[export] Instance ref_Role_status : KStatusLaws RefK8s Role :=
  ref_status_laws rk_roles set_rk_roles _ "roles" role_Meta ref_role_status (λ _ _, eq_refl).

Definition ref_pr_status (old x : ProtectedResource) : ProtectedResource :=
  mkPR (pr_Meta old) (pr_Spec old) (pr_Status x).
#[export] Instance ref_PR_writer : KWriter RefK8s ProtectedResource :=
  ref_writer rk_resources set_rk_resources "protectedresources" pr_Meta ref_pr_status.
#[export] Instance ref_PR_status : KStatusLaws RefK8s ProtectedResource :=
  ref_status_laws rk_resources set_rk_resources _ "protectedresources" pr_Meta ref_pr_status (λ _ _, eq_refl).

Definition ref_pb_status (old x : PolicyBinding) : PolicyBinding :=
  mkPB (pb_Meta old) (pb_Spec old) (pb_Status x).
#[export] Instance ref_PB_writer : KWriter RefK8s PolicyBinding :=
  ref_writer rk_bindings set_rk_bindings "policybindings" pb_Meta ref_pb_status.
#[export] Instance ref_PB_status : KStatusLaws RefK8s PolicyBinding :=
  ref_status_laws rk_bindings set_rk_bindings _ "policybindings" pb_Meta ref_pb_status (λ _ _, eq_refl).

Definition ref_gm_status (old x : GroupMembership) : GroupMembership :=
  mkGM (gm_Meta old) (gm_Spec old) (gm_Status x).
#[export] Instance ref_GM_writer : KWriter RefK8s GroupMembership :=
  ref_writer rk_memberships set_rk_memberships "groupmemberships" gm_Meta ref_gm_status.
