(* ===== verification/ObjectTuples.v ===== *)
(** * [internal/controller/object_tuples.go]: the tuples that name an object

    [naming] finds them, [clear] deletes them, [finalizeWhenClear] releases an
    object whose deletion has started only when none is left. The finalizer's own
    logic and [fetchOpenFGATuples] are in resourceownerhierarchy_controller.go.
    The lock [finalizeWhenClear] takes before [releaseUnderLock] is not in this model,
    which runs one handler at a time; what [releaseUnderLock] does is stated from any
    world, whatever others did while the lock was awaited, in ObjectTuplesSpec.v, and
    the lock's part in keeping writers out is in the protocol of HoldProtocol.v. *)

From S2P Require Import Prelude GoStrings GoErr Types World Fga Tuples ControllerEnv TargetHold.
Local Open Scope Z_scope.

Definition codes_NotFound : Z := 5.

Section fetch.
Context {F : Type} `{FgaClient F}.

(** The loop of [fetchOpenFGATuples]. A gRPC NotFound ends it without an error. *)
Fixpoint fetch_loop (fuel : nat) (storeID : string) (tupleKey : ReadRequestTupleKey)
    (existingTuples : list TupleKey) (continuationToken : string) : M F (list TupleKey) :=
  match fuel with
  | O => lift OutOfFuel
  | S fuel' =>
    r ← try (fga_Read (mkRead storeID continuationToken None tupleKey));
    match r with
    | inr err =>
      match status_FromError err with
      | Some code => if code =? codes_NotFound then mret existingTuples else throw err
      | None => throw err
      end
    | inl resp =>
      let existingTuples' := existingTuples ++ rd_Tuples resp in
      if String.eqb (rd_NextToken resp) "" then mret existingTuples'
      else fetch_loop fuel' storeID tupleKey existingTuples' (rd_NextToken resp)
    end
  end.

Definition fetchOpenFGATuples (fuel : nat) (storeID : string) (tupleKey : ReadRequestTupleKey) : M F (list TupleKey) :=
  fetch_loop fuel storeID tupleKey [] "".
End fetch.

(** ** [childTypes] *)

Definition declaresParent (pr : ProtectedResource) (parentType : string) : bool :=
  existsb (λ parent, String.eqb (prr_APIGroup parent +:+ "/" +:+ prr_Kind parent) parentType)
    (prs_ParentResources (pr_Spec pr)).

Definition child_type (pr : ProtectedResource) : string :=
  prs_ServiceRef_Name (pr_Spec pr) +:+ "/" +:+ prs_Kind (pr_Spec pr).

Fixpoint childTypes_loop (parentType : string) (listed : gset string) (resources : list ProtectedResource) : list string :=
  match resources with
  | [] => []
  | pr :: resources' =>
    let child := child_type pr in
    if negb (String.eqb child parentType) && negb (bool_decide (child ∈ listed)) && declaresParent pr parentType
    then child :: childTypes_loop parentType ({[ child ]} ∪ listed) resources'
    else childTypes_loop parentType listed resources'
  end.

(** ** [objectTuples] *)

(** [ot_ctx_Err] and [ot_deadline] are the request context's error and the gRPC
    code of OpenFGA's own deadline, for [DeleteTuples]. *)
Record objectTuples (F : Type) := mkObjectTuples {
  ot_storeID : string;
  ot_ctx_Err : F → option goerr;
  ot_deadline : Z;
  ot_fuel : nat
}.
Arguments mkObjectTuples {_}.
Arguments ot_storeID {_}.
Arguments ot_ctx_Err {_}.
Arguments ot_deadline {_}.
Arguments ot_fuel {_}.

Section objects.
Context {F K : Type} `{FgaClient F} `{KClient K ProtectedResource} `{KDynamic K} `{Scheme} `{Finalizers}.
Context (o : objectTuples F).
Abbreviation Mw := (M (World F K)).

Definition childTypes (parentType : string) : Mw (list string) :=
  resources ← wrapf "failed to list ProtectedResources: " (on_k8s k_List);
  mret (childTypes_loop parentType ∅ resources).

Definition fetch (key : ReadRequestTupleKey) : Mw (list TupleKey) :=
  on_fga (fetchOpenFGATuples (ot_fuel o) (ot_storeID o) key).

Definition naming (gk : GroupKind) (name : string) : Mw (list TupleKey) :=
  let object := ObjectName (gk_Group gk) (gk_Kind gk) name in
  found ← fetch (mkReadKey "" "" object);
  children ← childTypes (gk_Group gk +:+ "/" +:+ gk_Kind gk);
  asUser ← append_loopM (λ child, fetch (mkReadKey object "" (child +:+ ":"))) children;
  mret (found ++ asUser).

Definition clear (gk : GroupKind) (name : string) : Mw nat :=
  found ← naming gk name;
  on_fga (DeleteTuples (ot_ctx_Err o) (ot_deadline o) (ot_storeID o) "" found) ;;
  mret (length found).

Definition remaining (gk : GroupKind) (name : string) : Mw unit :=
  left ← naming gk name;
  match left with
  | [] => mret tt
  | _ => throw (ErrText (format_dec (length left) +:+ " tuples still name " +:+
                         ObjectName (gk_Group gk) (gk_Kind gk) name))
  end.

(** ** [ResourceOwnerHierarchyFinalizerLogic] *)

Definition groupKind (obj : KObject) : outcome GroupKind :=
  gvk ← outcome_map_err (ErrWrap ("finalizer: cannot determine the kind of " +:+ om_Name (obj_Meta obj) +:+ ": "))
          (GVKForObject obj);
  Ok (gvk_GroupKind gvk).

Definition objectName (obj : KObject) : outcome string :=
  gk ← groupKind obj;
  Ok (ObjectName (gk_Group gk) (gk_Kind gk) (om_Name (obj_Meta obj))).

Definition logic_Clear (obj : KObject) : Mw unit :=
  gk ← lift (groupKind obj);
  clear gk (om_Name (obj_Meta obj)) ;;
  mret tt.

Definition logic_Finalize (obj : KObject) : Mw unit :=
  gk ← lift (groupKind obj);
  remaining gk (om_Name (obj_Meta obj)).

(** The part of [finalizeWhenClear] under the object's lock: the finalizers, whose
    read must find no tuple left, then the update when they release the object. *)
Definition releaseUnderLock (obj : KObject) : Mw KObject :=
  res ← Finalizers_Finalize resourceOwnerHierarchyFinalizer (logic_Finalize obj) (obj_Meta obj);
  let '(updated, meta) := res in
  let obj := obj_with_meta obj meta in
  if updated : bool then on_k8s (d_Update obj) else mret obj.

(** [finalizeWhenClear]: the object as it is afterwards. *)
Definition finalizeWhenClear (obj : KObject) : Mw KObject :=
  lift (objectName obj) ;;
  logic_Clear obj ;;
  releaseUnderLock obj.
End objects.
