(* ===== verification/ObjectTuplesFacts.v ===== *)
(** * Facts about finding and clearing the tuples that name an object *)

From S2P Require Import Prelude GoStrings GoErr Types World Fga Tuples TuplesFacts.
From S2P Require Import ControllerEnv TargetHold ObjectTuples.
From Stdlib Require Import Ascii.

(** ** Child types *)

Lemma declaresParent_iff pr parentType :
  declaresParent pr parentType = true ↔
  ∃ p, p ∈ prs_ParentResources (pr_Spec pr) ∧ (prr_APIGroup p +:+ "/" +:+ prr_Kind p) = parentType.
Proof. unfold declaresParent. rewrite existsb_elem. by setoid_rewrite String.eqb_eq. Qed.

Lemma elem_of_childTypes parentType listed prs child :
  child ∈ childTypes_loop parentType listed prs ↔
  child ∉ listed ∧ child ≠ parentType ∧
  ∃ pr, pr ∈ prs ∧ child_type pr = child ∧ declaresParent pr parentType = true.
Proof.
  revert listed. induction prs as [|pr prs IH]; intros listed; cbn [childTypes_loop]; [set_solver|].
  rewrite ex_elem_cons.
  destruct (String.eqb_spec (child_type pr) parentType) as [E|Hne]; cbn [negb andb].
  { rewrite IH. naive_solver. }
  destruct (bool_decide_reflect (child_type pr ∈ listed)) as [Hin|Hout]; cbn [negb andb].
  { rewrite IH. naive_solver. }
  destruct (declaresParent pr parentType) eqn:HD; [|rewrite IH; naive_solver].
  rewrite elem_of_cons, IH, elem_of_union, elem_of_singleton. split.
  - intros [->|?]; naive_solver.
  - destruct (decide (child = child_type pr)) as [->|Hc]; [naive_solver|]. right. naive_solver.
Qed.

Lemma childTypes_NoDup parentType listed prs : NoDup (childTypes_loop parentType listed prs).
Proof.
  revert listed. induction prs as [|pr prs IH]; intros listed; cbn [childTypes_loop]; [constructor|].
  case_match; [|done]. constructor; [|done]. rewrite elem_of_childTypes. set_solver.
Qed.

(** ** A type's filter *)

(** The type of an object name: what precedes its first colon. *)
Definition object_of_type (child object : string) : Prop :=
  ∃ id, Cut object ":"%char = (child, id, true).

Lemma type_only_colon c : type_only (c +:+ ":") = negb (has_byte ":"%char c).
Proof.
  induction c as [|d c IH]; [done|]. rewrite app_cons. cbn [type_only has_byte].
  destruct (Ascii.eqb d ":"); [|done]. simpl. by destruct c.
Qed.

Lemma prefix_iff p s : String.prefix p s = true ↔ ∃ t, s = p +:+ t.
Proof.
  split; [|intros (t & ->); apply prefix_app].
  revert s. induction p as [|c p IH]; intros s; [by exists s|].
  destruct s as [|d s]; [done|]. simpl. destruct (ascii_dec c d) as [->|]; [|done].
  intros (t & ->)%IH. exists t. by rewrite app_cons.
Qed.

(** A filter on a child type, by a user, finds that user's tuples on the objects
    of the type. A type with a colon in its name has no objects. *)
Lemma matches_child u child k :
  u ≠ "" → has_byte ":"%char child = false →
  matches (mkReadKey u "" (child +:+ ":")) k = true ↔ wc_User k = u ∧ object_of_type child (wc_Object k).
Proof.
  intros Hu Hc. unfold matches. simpl. rewrite type_only_colon, Hc. simpl.
  rewrite (proj2 (String.eqb_neq u "") Hu). simpl. rewrite andb_true_r, andb_true_iff, String.eqb_eq.
  destruct (String.eqb_spec (child +:+ ":") "") as [E|_]; [by destruct child|]. simpl.
  unfold HasPrefix, object_of_type. rewrite prefix_iff. split.
  - intros [-> (t & ->)]. split; [done|]. exists t. rewrite app_assoc. by apply Cut_app.
  - intros [-> (id & E)]. split; [done|]. exists id. apply Cut_true in E as [-> _]. by rewrite app_assoc.
Qed.

Lemma object_of_type_byte child object : object_of_type child object → has_byte ":"%char child = false.
Proof. by intros (id & [_ ?]%Cut_true). Qed.

(** ** Fetching *)

Section fetch.
Context {F : Type} `{FgaLaws F}.

(** The service never answers a Read with the gRPC code NotFound while tuples of
    that Read are left: the code takes that answer for the end of the data. *)
Definition not_found_is_end (f : F) (s : string) : Prop :=
  ∀ req rest e, rd_StoreId req = s → fga_cursor f s (rd_TupleKey req) (rd_ContinuationToken req) rest →
    (fga_Read req f).1 = Err e → status_FromError e = Some codes_NotFound → rest = [].

Lemma fetch_loop_world fuel s key acc tok : reads (fetch_loop fuel s key acc tok).
Proof.
  revert acc tok. induction fuel as [|fuel IH]; intros acc tok; [done|].
  simpl. apply reads_bind; [apply reads_try; intros f; apply fga_Read_world|].
  intros [resp|err]; by repeat case_match.
Qed.

Lemma fetch_reads fuel s key : reads (fetchOpenFGATuples fuel s key).
Proof. apply fetch_loop_world. Qed.

Lemma fetch_loop_Ok fuel s key acc tok rest f l :
  not_found_is_end f s → fga_cursor f s key tok rest →
  (fetch_loop fuel s key acc tok f).1 = Ok l → l = acc ++ rest.
Proof.
  intros Hnf. revert acc tok rest. induction fuel as [|fuel IH]; intros acc tok rest Hc; [done|].
  cbn [fetch_loop]. unfold mbind, M_bind, try.
  pose proof (fga_Read_world (mkRead s tok None key) f) as Hw.
  destruct (fga_Read _ f) as [[resp|e|] f'] eqn:E; simpl in Hw |- *; subst; [| |done].
  - destruct (fga_Read_page (mkRead s tok None key) f rest resp Hc) as (later & -> & Hn); [by rewrite E|].
    destruct Hn as [[-> ->]|(Hne & Hnil & Hc')].
    + simpl. intros [= <-]. by rewrite (right_id_L [] (++)).
    + destruct (String.eqb_spec (rd_NextToken resp) ""); [done|].
      intros ->%(IH _ _ _ Hc'). by rewrite (assoc_L (++)).
  - destruct (status_FromError e) as [code|] eqn:Ec; [|done]. case_match; [|done].
    apply Z.eqb_eq in H1 as ->. intros [= <-].
    rewrite (Hnf (mkRead s tok None key) rest e); [by rewrite (right_id_L [] (++))|done|done|by rewrite E|done].
Qed.

Lemma fetch_Ok fuel s key f l :
  not_found_is_end f s → (fetchOpenFGATuples fuel s key f).1 = Ok l → l ≡ₚ matching (fga_tuples f s) key.
Proof.
  intros Hnf E. destruct (fga_Read_start f s key) as (l' & Hc & <-).
  by rewrite (fetch_loop_Ok _ _ _ _ _ _ _ _ Hnf Hc E).
Qed.

Lemma fetch_loop_fuel fuel s key acc tok rest f :
  fga_cursor f s key tok rest → length rest < fuel → (fetch_loop fuel s key acc tok f).1 ≠ OutOfFuel.
Proof.
  revert acc tok rest. induction fuel as [|fuel IH]; intros acc tok rest Hc Hf; [lia|].
  cbn [fetch_loop]. unfold mbind, M_bind, try.
  pose proof (fga_Read_world (mkRead s tok None key) f) as Hw.
  pose proof (fga_Read_result (mkRead s tok None key) f) as Hr.
  destruct (fga_Read _ f) as [[resp|e|] f'] eqn:E; simpl in Hw, Hr |- *; subst; [| |done].
  - destruct (fga_Read_page (mkRead s tok None key) f rest resp Hc) as (later & -> & Hn); [by rewrite E|].
    destruct Hn as [[-> ->]|(Hne & Hnil & Hc')]; [done|].
    case_match; [done|]. apply (IH _ _ _ Hc'). rewrite length_app in Hf. destruct (rd_Tuples resp); [done|].
    simpl in Hf. lia.
  - by repeat case_match.
Qed.

Lemma fetch_fuel fuel s key f : size (fga_tuples f s) < fuel → (fetchOpenFGATuples fuel s key f).1 ≠ OutOfFuel.
Proof.
  intros Hf. destruct (fga_Read_start f s key) as (l & Hc & Hl). apply (fetch_loop_fuel _ _ _ _ _ _ _ Hc).
  rewrite Hl. pose proof (matching_length (fga_tuples f s) key). lia.
Qed.

(** Whatever it returns is in the store. *)
Lemma fetch_loop_sound fuel s key acc tok rest f l :
  fga_cursor f s key tok rest → (fetch_loop fuel s key acc tok f).1 = Ok l →
  ∀ t, t ∈ l → t ∈ acc ∨ t ∈ rest.
Proof.
  revert acc tok rest. induction fuel as [|fuel IH]; intros acc tok rest Hc; [done|].
  cbn [fetch_loop]. unfold mbind, M_bind, try.
  pose proof (fga_Read_world (mkRead s tok None key) f) as Hw.
  destruct (fga_Read _ f) as [[resp|e|] f'] eqn:E; simpl in Hw |- *; subst; [| |done].
  - destruct (fga_Read_page (mkRead s tok None key) f rest resp Hc) as (later & -> & Hn); [by rewrite E|].
    destruct Hn as [[-> ->]|(Hne & Hnil & Hc')].
    + simpl. intros [= <-] t. set_solver.
    + destruct (String.eqb_spec (rd_NextToken resp) ""); [done|].
      intros Hl t Ht. destruct (IH _ _ _ Hc' Hl t Ht); set_solver.
  - repeat case_match; try done. intros [= <-] t. by left.
Qed.

Lemma fetch_sound fuel s key f l t :
  (fetchOpenFGATuples fuel s key f).1 = Ok l → t ∈ l → t ∈ matching (fga_tuples f s) key.
Proof.
  intros E Ht. destruct (fga_Read_start f s key) as (l' & Hc & <-).
  destruct (fetch_loop_sound _ _ _ _ _ _ _ _ Hc E t Ht) as [Hn|]; [by apply elem_of_nil in Hn|done].
Qed.

Lemma convert_take_drop n l k :
  k ∈ convertTuplesForDelete l ↔ k ∈ convertTuplesForDelete (take n l) ∨ k ∈ convertTuplesForDelete (drop n l).
Proof. rewrite <- (take_drop n l) at 1. unfold convertTuplesForDelete. by rewrite map_app, elem_of_app. Qed.

(** What any run of [DeleteTuples] may do. *)
Lemma DeleteTuples_effect ctx_Err deadline s m tuples f o f' :
  DeleteTuples ctx_Err deadline s m tuples f = (o, f') →
  o ≠ OutOfFuel ∧ write_effect [] (convertTuplesForDelete tuples) s f f'.
Proof.
  unfold DeleteTuples. intros E. split.
  { assert (o = (DeleteTuples_loop ctx_Err deadline (length tuples + MaxTuplesPerWrite) s m MaxTuplesPerWrite tuples f).1)
      as -> by by rewrite E. apply DeleteTuples_loop_fuel; unfold MaxTuplesPerWrite; lia. }
  revert E. generalize (length tuples + MaxTuplesPerWrite). intros fuel.
  generalize MaxTuplesPerWrite. intros n. revert n tuples f.
  induction fuel as [|fuel IH]; intros n rest f; destruct rest as [|t rest];
    cbn [DeleteTuples_loop]; try (intros [= _ <-]; apply write_effect_refl).
  unfold throw, mbind, M_bind, try.
  destruct (ctx_Err f); [intros [= _ <-]; apply write_effect_refl|].
  destruct (fga_Write _ f) as [o1 f1] eqn:Ew. apply fga_Write_effect in Ew. simpl in Ew.
  assert (∀ ds, (∀ k, k ∈ ds → k ∈ convertTuplesForDelete (t :: rest)) →
    ∀ f2, write_effect [] ds s f1 f2 → write_effect [] (convertTuplesForDelete (t :: rest)) s f f2) as Hthen.
  { intros ds Hds f2 Heff. eapply (write_effect_trans _ _ _ _ f1).
    - destruct Ew as [EA EB]. split; [done|]. intros k Hk Hn. apply EB; [done|]. intros Hd. apply Hn.
      apply (convert_take_drop n). by left.
    - destruct Heff as [EA EB]. split; [done|]. intros k Hk Hn. apply EB; [done|]. by intros Hd%Hds. }
  destruct o1 as [[]|e|].
  - intros E%IH. apply (Hthen (convertTuplesForDelete (drop n (t :: rest)))); [|done]. intros k Hk.
    apply (convert_take_drop n). by right.
  - case_match; [intros E%IH|intros [= _ <-]].
    + by apply (Hthen (convertTuplesForDelete (t :: rest))).
    + apply (Hthen []); [set_solver|apply write_effect_refl].
  - intros [= _ <-]. apply (Hthen []); [set_solver|apply write_effect_refl].
Qed.
End fetch.
