(* ===== verification/ObjectTuplesSpec.v ===== *)
(** * What releasing an object guarantees *)

From S2P Require Import Prelude GoStrings GoErr Types World Fga Tuples TuplesFacts.
From S2P Require Import ControllerEnv TargetHold ObjectTuples ObjectTuplesFacts RefK8s RefObjects.
From Stdlib Require Import Ascii.

Section spec.
Context {F K : Type} `{FgaLaws F} `{KReadLaws K ProtectedResource} `{KDynamicLaws K} `{Scheme} `{FinalizersLaws}.
Context (o : objectTuples F).
Implicit Types w : World F K.

Abbreviation stored w := (fga_tuples (w_fga w) (ot_storeID o)).

(** The tuple is on the object, or the object is its user and its type is one
    that a ProtectedResource declares as a child of the object's. *)
Definition names (k8s : K) (gk : GroupKind) (name : string) (k : TupleKeyWithoutCondition) : Prop :=
  wc_Object k = ObjectName (gk_Group gk) (gk_Kind gk) name ∨
  (wc_User k = ObjectName (gk_Group gk) (gk_Kind gk) name ∧
   ∃ key pr, k_view k8s !! key = Some pr ∧ child_type pr ≠ gk_Group gk +:+ "/" +:+ gk_Kind gk ∧
     declaresParent pr (gk_Group gk +:+ "/" +:+ gk_Kind gk) = true ∧
     object_of_type (child_type pr) (wc_Object k)).

Definition mentions (gk : GroupKind) (name : string) (k : TupleKeyWithoutCondition) : Prop :=
  wc_Object k = ObjectName (gk_Group gk) (gk_Kind gk) name ∨
  wc_User k = ObjectName (gk_Group gk) (gk_Kind gk) name.

(** ** [naming] *)

Lemma reads_fetch key : reads (fetch o key : M (World F K) _).
Proof. apply reads_on_fga, fetch_reads. Qed.
Hint Resolve reads_fetch : reads.

Lemma reads_childTypes parentType : reads (childTypes (F := F) (K := K) parentType).
Proof. unfold childTypes, wrapf. solve_reads. Qed.
Hint Resolve reads_childTypes : reads.

Lemma reads_naming gk name : reads (naming o gk name).
Proof. unfold naming. solve_reads; apply fetch_reads. Qed.

Lemma naming_parts gk name w l :
  (naming o gk name w).1 = Ok l →
  let object := ObjectName (gk_Group gk) (gk_Kind gk) name in
  ∃ found prs,
    (fetchOpenFGATuples (ot_fuel o) (ot_storeID o) (mkReadKey "" "" object) (w_fga w)).1 = Ok found ∧
    (k_List (w_k8s w)).1 = Ok prs ∧
    let children := childTypes_loop (gk_Group gk +:+ "/" +:+ gk_Kind gk) ∅ prs in
    (∀ child, child ∈ children →
       ∃ ts, (fetchOpenFGATuples (ot_fuel o) (ot_storeID o) (mkReadKey object "" (child +:+ ":")) (w_fga w)).1 = Ok ts) ∧
    ∀ t, t ∈ l ↔ t ∈ found ∨ ∃ child ts, child ∈ children ∧
      (fetchOpenFGATuples (ot_fuel o) (ot_storeID o) (mkReadKey object "" (child +:+ ":")) (w_fga w)).1 = Ok ts ∧ t ∈ ts.
Proof.
  unfold naming. intros E. apply bind_fst_reads in E as (found & Hf & E); [|apply reads_fetch].
  apply bind_fst_reads in E as (children & Hc & E); [|apply reads_childTypes].
  apply bind_fst_reads in E as (asUser & Hu & E); [|apply reads_append_loopM; intros; apply reads_fetch].
  injection E as <-.
  unfold childTypes in Hc. apply bind_fst_reads in Hc as (prs & Hp & Hc); [|unfold wrapf; solve_reads].
  injection Hc as <-. rewrite wrapf_fst, on_k8s_fst in Hp.
  apply append_loopM_reads in Hu as [HA HB]; [|intros; apply reads_fetch].
  exists found, prs. split_and!; [done|done|done|]. intros t. by rewrite elem_of_app, HB.
Qed.

(** The filters [naming] reads with. *)
Definition asked (prs : list ProtectedResource) (gk : GroupKind) (name : string) (k : TupleKeyWithoutCondition) : Prop :=
  let object := ObjectName (gk_Group gk) (gk_Kind gk) name in
  matches (mkReadKey "" "" object) k = true ∨
  ∃ child, child ∈ childTypes_loop (gk_Group gk +:+ "/" +:+ gk_Kind gk) ∅ prs ∧
    matches (mkReadKey object "" (child +:+ ":")) k = true.

Lemma naming_asked gk name w l :
  (naming o gk name w).1 = Ok l →
  ∃ prs, (k_List (w_k8s w)).1 = Ok prs ∧
    (∀ t, t ∈ l → stored w !! wc_of t = Some (TupleCondition t) ∧ asked prs gk name (wc_of t)) ∧
    (not_found_is_end (w_fga w) (ot_storeID o) →
     ∀ t, stored w !! wc_of t = Some (TupleCondition t) → asked prs gk name (wc_of t) → t ∈ l).
Proof.
  intros (found & prs & Hf & Hp & Hcs & Hl)%naming_parts. exists prs. split; [done|]. unfold asked. split.
  - intros t. rewrite Hl. intros [Ht|(child & ts & Hc & Hts & Ht)]; (eapply fetch_sound in Ht; [|done]);
      apply elem_of_matching in Ht as [Hs Hm]; (split; [done|]); [by left|right; eauto].
  - intros Hnf t Hs Ha. rewrite Hl. destruct Ha as [Hm|(child & Hc & Hm)].
    + left. apply fetch_Ok in Hf; [|done]. by rewrite Hf, elem_of_matching.
    + right. destruct (Hcs _ Hc) as [ts Hts]. exists child, ts. split_and!; [done..|].
      apply fetch_Ok in Hts; [|done]. by rewrite Hts, elem_of_matching.
Qed.

(** Whatever [naming] returns mentions the object. *)
Lemma naming_sound gk name w l t :
  name ≠ "" → (naming o gk name w).1 = Ok l → t ∈ l →
  stored w !! wc_of t = Some (TupleCondition t) ∧ mentions gk name (wc_of t).
Proof.
  intros Hn (prs & _ & HA & _)%naming_asked Ht. destruct (HA t Ht) as [Hs Ha]. split; [done|].
  unfold mentions. destruct Ha as [Hm|(child & _ & Hm)].
  - left. by apply matches_object in Hm; [|apply names_ObjectName].
  - right. unfold matches in Hm. simpl in Hm.
    rewrite (proj2 (String.eqb_neq (ObjectName _ _ _) "") (proj1 (names_ObjectName _ _ _ Hn))) in Hm. simpl in Hm.
    apply andb_true_iff in Hm as [Hm _]. rewrite andb_true_r in Hm. by apply String.eqb_eq in Hm.
Qed.

(** [naming] misses no tuple that names the object. *)
Lemma naming_complete gk name w l k :
  name ≠ "" → not_found_is_end (w_fga w) (ot_storeID o) → (naming o gk name w).1 = Ok l →
  k ∈ dom (stored w) → names (w_k8s w) gk name k → k ∈ convertTuplesForDelete l.
Proof.
  intros Hn Hnf (prs & Hp & _ & HA)%naming_asked [c Hk]%elem_of_dom Hname.
  apply elem_of_map. exists (tuple_of k c). rewrite wc_tuple_of. split; [|done].
  apply HA; rewrite ?wc_tuple_of; [done|by destruct k|]. unfold asked.
  destruct Hname as [Ho|(Hu & key & pr & Hpr & Hne & Hd & Ht)].
  - left. apply matches_object; [by apply names_ObjectName|done].
  - right. exists (child_type pr). split.
    + apply elem_of_childTypes. split_and!; [set_solver|done|]. exists pr. split_and!; [|done|done].
      rewrite (k_List_Ok (w_k8s w) prs Hp), elem_of_map. exists (key, pr). split; [|done].
      by apply elem_of_map_to_list.
    + apply matches_child; [by apply names_ObjectName|by eapply object_of_type_byte|by split].
Qed.

Lemma naming_fuel gk name w : size (stored w) < ot_fuel o → (naming o gk name w).1 ≠ OutOfFuel.
Proof.
  intros Hf. unfold naming.
  assert (∀ key w1, w_fga w1 = w_fga w → (fetch (K := K) o key w1).1 ≠ OutOfFuel) as HF.
  { intros key w1 E. unfold fetch. rewrite on_fga_fst, E. by apply fetch_fuel. }
  apply bind_fuel; [by apply HF|]. intros found w1 E1.
  apply reads_inv in E1 as [-> _]; [|apply reads_fetch].
  apply bind_fuel.
  { unfold childTypes. apply bind_fuel; [|done]. unfold wrapf. rewrite map_err_fuel, on_k8s_fst. apply k_List_result. }
  intros children w2 E2. apply reads_inv in E2 as [-> _]; [|apply reads_childTypes].
  apply bind_fuel; [|done].
  assert (∀ l w1, w_fga w1 = w_fga w →
    (append_loopM (λ child, fetch (K := K) o (mkReadKey (ObjectName (gk_Group gk) (gk_Kind gk) name) "" (child +:+ ":"))) l w1).1
      ≠ OutOfFuel) as HL; [|by apply HL].
  induction l as [|c l IH]; intros w1 E; [done|]. simpl. apply bind_fuel; [by apply HF|].
  intros ts w3 E3. apply reads_inv in E3 as [-> _]; [|apply reads_fetch].
  apply bind_fuel; [by apply IH|done].
Qed.

(** ** [clear] *)

(** Clearing only deletes tuples that mention the object, and leaves Kubernetes
    alone. *)
Definition clears (gk : GroupKind) (name : string) w w' : Prop :=
  w_k8s w' = w_k8s w ∧
  (∀ k, k ∈ dom (stored w') → k ∈ dom (stored w)) ∧
  (∀ k, k ∈ dom (stored w) → k ∉ dom (stored w') → mentions gk name k).

Lemma clears_refl gk name w : clears gk name w w.
Proof. by split_and!. Qed.

Lemma clear_run gk name w r w' :
  name ≠ "" → clear o gk name w = (r, w') → clears gk name w w'.
Proof.
  intros Hn E. unfold clear in E. apply bind_reads_inv in E; [|apply reads_naming].
  destruct E as [(found & Hf & E)|[-> _]]; [|apply clears_refl].
  apply bind_inv in E as (r1 & w1 & E1 & E).
  assert (w' = w1) as -> by (destruct E as [(a & _ & E)|[_ ->]]; [by injection E|done]).
  apply on_fga_run in E1 as (f1 & E1 & ->). apply DeleteTuples_effect in E1 as [_ [HA HB]]. simpl.
  split_and!; [done| |].
  - intros k [?|Hk]%HA; [done|]. by apply elem_of_nil in Hk.
  - intros k Hk Hk'. destruct (decide (k ∈ convertTuplesForDelete found)) as [Hd|Hd].
    + apply elem_of_map in Hd as (t & Ht & ->). by eapply naming_sound.
    + by destruct (Hk' (HB k Hk Hd)).
Qed.

(** A clear that succeeds leaves no tuple that names the object. *)
Lemma clear_Ok gk name w n w' :
  name ≠ "" → not_found_is_end (w_fga w) (ot_storeID o) → clear o gk name w = (Ok n, w') →
  ∀ k, k ∈ dom (stored w') → ¬ names (w_k8s w) gk name k.
Proof.
  intros Hn Hnf (found & w1 & Hf & (u & w2 & E & Hret)%bind_Ok)%bind_Ok.
  injection Hret as _ <-. apply reads_inv in Hf as [-> Hf]; [|apply reads_naming].
  apply on_fga_run in E as (f1 & E & ->). destruct u. unfold DeleteTuples in E.
  apply DeleteTuples_loop_Ok in E as (HA & _). simpl. intros k [Hk Hd]%HA Hname.
  apply Hd. by eapply naming_complete.
Qed.

Lemma remaining_Ok gk name w w' :
  name ≠ "" → not_found_is_end (w_fga w) (ot_storeID o) → remaining o gk name w = (Ok tt, w') →
  w' = w ∧ ∀ k, k ∈ dom (stored w) → ¬ names (w_k8s w) gk name k.
Proof.
  intros Hn Hnf (l & w1 & Hl & E)%bind_Ok. apply reads_inv in Hl as [-> Hl]; [|apply reads_naming].
  destruct l as [|t l]; [|done]. injection E as <-. split; [done|]. intros k Hk Hname.
  by pose proof (naming_complete _ _ _ _ _ Hn Hnf Hl Hk Hname) as Hx%elem_of_nil.
Qed.

Lemma reads_remaining gk name : reads (remaining o gk name).
Proof. unfold remaining. apply reads_bind; [apply reads_naming|]. intros l. by case_match. Qed.

(** A store without such tuples, read in full, lets the object go. *)
Lemma remaining_none gk name w :
  name ≠ "" → (∀ k, k ∈ dom (stored w) → ¬ mentions gk name k) → is_ok (naming o gk name w).1 = true →
  remaining o gk name w = (Ok tt, w).
Proof.
  intros Hn Hno Hok. unfold remaining. pose proof (reads_naming gk name w) as HR.
  destruct (naming o gk name w) as [[l|e|] w1] eqn:E; simpl in *; subst; [|done..].
  rewrite (bind_run_Ok _ _ _ _ _ E). destruct l as [|t l]; [done|]. exfalso.
  destruct (naming_sound gk name w (t :: l) t) as [Hs Hm]; [done|by rewrite E|left|].
  apply (Hno (wc_of t)); [|done]. apply elem_of_dom. eauto.
Qed.
(** ** [finalizeWhenClear] *)

(** The object as it is written when it is released. *)
Definition released (obj : KObject) : KObject :=
  obj_with_meta obj (remove_finalizer (obj_Meta obj) resourceOwnerHierarchyFinalizer).

Lemma groupKind_objectName obj gk :
  groupKind obj = Ok gk → objectName obj = Ok (ObjectName (gk_Group gk) (gk_Kind gk) (om_Name (obj_Meta obj))).
Proof. unfold objectName. by intros ->. Qed.

Lemma logic_Clear_run obj gk w r w' :
  groupKind obj = Ok gk → logic_Clear o obj w = (r, w') →
  ∃ r1, clear o gk (om_Name (obj_Meta obj)) w = (r1, w') ∧ (r = Ok tt → ∃ n, r1 = Ok n).
Proof.
  unfold logic_Clear. intros -> E. change (lift (Ok gk) ≫= _) with (λ w, (clear o gk (om_Name (obj_Meta obj)) ;; mret tt) w) in E.
  apply bind_inv in E as (r1 & w1 & E1 & E). destruct E as [(n & -> & E)|[Hr ->]].
  - injection E as <- <-. eauto.
  - exists r1. split; [done|]. intros ->. by destruct (Hr tt).
Qed.

(** The part under the lock, from any world. *)
Lemma releaseUnderLock_cases obj gk w r w' :
  groupKind obj = Ok gk → om_DeletionTimestamp (obj_Meta obj) ≠ None →
  ContainsFinalizer (obj_Meta obj) resourceOwnerHierarchyFinalizer = true →
  releaseUnderLock o obj w = (r, w') →
  ∃ r2 w2, remaining o gk (om_Name (obj_Meta obj)) w = (r2, w2) ∧
    ((∃ e e', r2 = Err e ∧ r = Err e' ∧ w' = w2) ∨ r2 = OutOfFuel ∨
     (r2 = Ok tt ∧ on_k8s (d_Update (released obj)) w2 = (r, w'))).
Proof.
  intros Hgk Hd Hc E. unfold releaseUnderLock in E.
  assert (logic_Finalize o obj w = remaining o gk (om_Name (obj_Meta obj)) w) as Hfin
    by by (unfold logic_Finalize; rewrite Hgk).
  destruct (remaining o gk (om_Name (obj_Meta obj)) w) as [r2 w2] eqn:E2. exists r2, w2. split; [done|].
  destruct r2 as [[]|e|]; [right; right|left|by right; left].
  - split; [done|].
    rewrite (bind_run_Ok _ _ w (true, remove_finalizer (obj_Meta obj) resourceOwnerHierarchyFinalizer) w2) in E; [done|].
    apply Finalize_run; [done..|by rewrite Hfin].
  - destruct (Finalize_fail _ resourceOwnerHierarchyFinalizer (logic_Finalize o obj) (obj_Meta obj) w e w2)
      as (e' & He'); [done..|by rewrite Hfin|].
    rewrite (bind_run_Err _ _ _ _ _ He') in E. injection E as <- <-. eauto.
Qed.

Lemma remaining_fuel gk name w : size (stored w) < ot_fuel o → (remaining o gk name w).1 ≠ OutOfFuel.
Proof. intros Hf. unfold remaining. apply bind_fuel; [by apply naming_fuel|]. intros l w2 _. by case_match. Qed.

(** Whatever others did to the store while the lock was awaited, a tuple they wrote
    holds the object up: under the lock it is written only when no tuple names it. *)
Lemma releaseUnderLock_checks obj gk w r w' :
  groupKind obj = Ok gk → om_Name (obj_Meta obj) ≠ "" → om_DeletionTimestamp (obj_Meta obj) ≠ None →
  ContainsFinalizer (obj_Meta obj) resourceOwnerHierarchyFinalizer = true →
  not_found_is_end (w_fga w) (ot_storeID o) → size (stored w) < ot_fuel o →
  releaseUnderLock o obj w = (r, w') →
  w_fga w' = w_fga w ∧
  (w_k8s w' = w_k8s w ∧ (∀ x, r ≠ Ok x) ∨
   w_k8s w' = (d_Update (released obj) (w_k8s w)).2 ∧ r = (d_Update (released obj) (w_k8s w)).1 ∧
   ∀ k, k ∈ dom (stored w) → ¬ names (w_k8s w) gk (om_Name (obj_Meta obj)) k).
Proof.
  intros Hgk Hname Hd Hc Hnf Hfuel (r2 & w2 & Hrem & Hrun)%(releaseUnderLock_cases _ gk); [|done..].
  pose proof (reads_inv _ _ _ _ (reads_remaining _ _) Hrem) as [-> Hrem1].
  destruct Hrun as [(e & e' & -> & -> & ->)|[->|[-> Hup]]].
  - split; [done|]. by left.
  - by destruct (remaining_fuel gk (om_Name (obj_Meta obj)) w Hfuel).
  - apply on_k8s_run in Hup as (k' & Hup & ->). simpl in *. split; [done|]. right. rewrite Hup. simpl.
    split_and!; [done..|]. by apply remaining_Ok in Hrem as [_ Hrem].
Qed.

(** The run, step by step. *)
Lemma finalizeWhenClear_cases obj gk w r w' :
  groupKind obj = Ok gk → om_DeletionTimestamp (obj_Meta obj) ≠ None →
  ContainsFinalizer (obj_Meta obj) resourceOwnerHierarchyFinalizer = true →
  finalizeWhenClear o obj w = (r, w') →
  ∃ r1 w1, logic_Clear o obj w = (r1, w1) ∧
    (((∀ x, r ≠ Ok x) ∧ w' = w1) ∨
     (r1 = Ok tt ∧ ∃ r2 w2, remaining o gk (om_Name (obj_Meta obj)) w1 = (r2, w2) ∧
        ((∃ e e', r2 = Err e ∧ r = Err e' ∧ w' = w2) ∨ r2 = OutOfFuel ∨
         (r2 = Ok tt ∧ on_k8s (d_Update (released obj)) w2 = (r, w'))))).
Proof.
  intros Hgk Hd Hc E. unfold finalizeWhenClear in E. rewrite (groupKind_objectName _ _ Hgk) in E.
  change ((lift (Ok ?x) ;; ?m) w) with (m w) in E.
  apply bind_inv in E as (r1 & w1 & E1 & E). exists r1, w1. split; [done|].
  destruct E as [([] & -> & E)|[Hr ->]]; [right; split; [done|]|by left].
  by apply (releaseUnderLock_cases _ gk) in E.
Qed.

(** C11: An object is released only when no tuple names it. Releasing a Project or
    an Organization whose deletion has started, whatever answers its calls get,
    only deletes tuples that mention it, and writes the object, without the
    finalizer, only in a state in which no tuple of the store is on the object or
    has it as its user on a child type. The one assumption is that OpenFGA does not
    answer NotFound to a Read while tuples are left. *)
Theorem release_only_when_clear obj gk w r w'
  (Hgk : groupKind obj = Ok gk) (Hname : om_Name (obj_Meta obj) ≠ "")
  (Hdel : om_DeletionTimestamp (obj_Meta obj) ≠ None)
  (Hfin : ContainsFinalizer (obj_Meta obj) resourceOwnerHierarchyFinalizer = true)
  (Hnf : not_found_is_end (w_fga w') (ot_storeID o))
  (Hrun : finalizeWhenClear o obj w = (r, w')) (Hfuel : size (stored w) < ot_fuel o) :
  (∀ k, k ∈ dom (stored w') → k ∈ dom (stored w)) ∧
  (∀ k, k ∈ dom (stored w) → k ∉ dom (stored w') → mentions gk (om_Name (obj_Meta obj)) k) ∧
  (w_k8s w' = w_k8s w ∧ (∀ x, r ≠ Ok x) ∨
   w_k8s w' = (d_Update (released obj) (w_k8s w)).2 ∧ r = (d_Update (released obj) (w_k8s w)).1 ∧
   ∀ k, k ∈ dom (stored w') → ¬ names (w_k8s w) gk (om_Name (obj_Meta obj)) k).
Proof.
  apply (finalizeWhenClear_cases _ gk) in Hrun as (r1 & w1 & Hc & Hrun); [|done..].
  apply (logic_Clear_run _ gk) in Hc as (rc & Hc & _); [|done].
  apply clear_run in Hc as (Hk & HA & HB); [|done].
  destruct Hrun as [[Hr ->]|(-> & r2 & w2 & Hrem & Hrun)]; [split_and!; [done..|by left]|].
  pose proof (reads_inv _ _ _ _ (reads_remaining _ _) Hrem) as [-> Hrem1].
  destruct Hrun as [(e & e' & -> & -> & ->)|[->|[-> Hup]]].
  - split_and!; [done..|]. left. done.
  - exfalso. revert Hrem1. apply remaining_fuel. apply (Nat.le_lt_trans _ (size (stored w))); [|done].
    rewrite <- !(size_dom (D := gset _)). apply subseteq_size. intros k. apply HA.
  - apply on_k8s_run in Hup as (k' & Hup & ->). simpl in *. rewrite Hk in Hup.
    split_and!; [done..|]. right. rewrite Hup. simpl. split_and!; [done..|].
    apply remaining_Ok in Hrem as [_ Hrem]; [|done..]. by rewrite Hk in Hrem.
Qed.

(** Releasing makes progress. When OpenFGA answers the reads and carries out
    the deletes, and nothing writes in between, one pass clears the object's tuples,
    finds none left and writes the object without the finalizer: the check under
    the lock never blocks a release on tuples the clear has deleted. *)
Theorem release_progress obj gk w found f1
  (Hgk : groupKind obj = Ok gk) (Hname : om_Name (obj_Meta obj) ≠ "")
  (Hdel : om_DeletionTimestamp (obj_Meta obj) ≠ None)
  (Hfin : ContainsFinalizer (obj_Meta obj) resourceOwnerHierarchyFinalizer = true)
  (Hnf : not_found_is_end (w_fga w) (ot_storeID o))
  (Hread : (naming o gk (om_Name (obj_Meta obj)) w).1 = Ok found)
  (Hdelete : DeleteTuples (ot_ctx_Err o) (ot_deadline o) (ot_storeID o) "" found (w_fga w) = (Ok tt, f1))
  (Hagain : is_ok (naming o gk (om_Name (obj_Meta obj)) (mkWorld f1 (w_k8s w) (w_provider w))).1 = true) :
  finalizeWhenClear o obj w = on_k8s (d_Update (released obj)) (mkWorld f1 (w_k8s w) (w_provider w)).
Proof.
  set (w1 := mkWorld f1 (w_k8s w) (w_provider w)) in *.
  pose proof (reads_naming gk (om_Name (obj_Meta obj)) w) as HR.
  assert (naming o gk (om_Name (obj_Meta obj)) w = (Ok found, w)) as Hrun.
  { destruct (naming o gk (om_Name (obj_Meta obj)) w). simpl in *. congruence. }
  assert (clear o gk (om_Name (obj_Meta obj)) w = (Ok (length found), w1)) as Hc.
  { unfold clear. rewrite (bind_run_Ok _ _ _ _ _ Hrun).
    rewrite (bind_run_Ok _ _ _ tt w1); [done|]. unfold on_fga. by rewrite Hdelete. }
  assert (remaining o gk (om_Name (obj_Meta obj)) w1 = (Ok tt, w1)) as Hrem.
  { unfold remaining. pose proof (reads_naming gk (om_Name (obj_Meta obj)) w1) as HR1.
    destruct (naming o gk (om_Name (obj_Meta obj)) w1) as [[l|e|] w2] eqn:E; simpl in HR1, Hagain; subst; [|done..].
    rewrite (bind_run_Ok _ _ _ _ _ E). destruct l as [|t l]; [done|]. exfalso.
    destruct (naming_asked gk (om_Name (obj_Meta obj)) w found) as (prs & Hp & _ & HC); [done|].
    destruct (naming_asked gk (om_Name (obj_Meta obj)) w1 (t :: l)) as (prs1 & Hp1 & HS & _); [by rewrite E|].
    simpl in Hp1. rewrite Hp in Hp1. injection Hp1 as <-.
    destruct (HS t) as [Hs Ha]; [left|]. unfold DeleteTuples in Hdelete.
    apply DeleteTuples_loop_Ok in Hdelete as (HD & _).
    destruct (HD (wc_of t)) as [Hin Hnd]; [apply elem_of_dom; eauto|].
    apply elem_of_dom in Hin as [c Hin]. apply Hnd, elem_of_map. exists (tuple_of (wc_of t) c).
    rewrite wc_tuple_of. split; [|done]. apply HC; [done|by rewrite wc_tuple_of; destruct t|by rewrite wc_tuple_of]. }
  unfold finalizeWhenClear. rewrite (groupKind_objectName _ _ Hgk).
  change ((lift (Ok ?x) ;; ?m) w) with (m w).
  rewrite (bind_run_Ok _ _ w tt w1).
  2:{ unfold logic_Clear. rewrite Hgk. change (lift (Ok gk) ≫= ?f) with (λ w, f gk w). cbv beta.
      by rewrite (bind_run_Ok _ _ _ _ _ Hc). }
  unfold releaseUnderLock.
  rewrite (bind_run_Ok _ _ w1 (true, remove_finalizer (obj_Meta obj) resourceOwnerHierarchyFinalizer) w1); [done|].
  apply Finalize_run; [done..|]. unfold logic_Finalize. by rewrite Hgk.
Qed.
End spec.

(** ** Examples: a Project being deleted, a tuple on it and one of its child *)

Definition ex_project_meta (deleting : option Z) (finalizers : list string) : ObjectMeta :=
  mkObjectMeta "p1" "" "uid-p1" 1 deleting finalizers
    [mkOwnerReference "resourcemanager.miloapis.com/v1alpha1" "Organization" "acme" "uid-acme"].
Definition ex_project (deleting : option Z) (finalizers : list string) : KObject :=
  mkKObject (ref_gvk projectKind) (ex_project_meta deleting finalizers) "1".
Definition ex_dying_project : KObject := ex_project (Some 9%Z) [resourceOwnerHierarchyFinalizer].

Definition ex_hold_pr (kind : string) (parents : list ParentResourceRef) : ProtectedResource :=
  mkPR (mkObjectMeta kind "" kind 1 None [] []) (mkPRSpec "resourcemanager.miloapis.com" kind kind ["get"] [] parents)
    (mkPRStatus 0 []).
Definition ex_hold_prs : list ProtectedResource :=
  [ex_hold_pr "Organization" []; ex_hold_pr "Project" [mkParentRef "resourcemanager.miloapis.com" "Organization"];
   ex_hold_pr "Network" [mkParentRef "resourcemanager.miloapis.com" "Project"]].

Definition ex_p1 : string := "resourcemanager.miloapis.com/Project:p1".
Definition ex_n1 : string := "resourcemanager.miloapis.com/Network:n1".
Definition ex_hold_store : tuple_map :=
  {[ mkTupleWC "u" "r" ex_p1 := None; mkTupleWC ex_p1 "parent" ex_n1 := None; mkTupleWC "u" "r" ex_n1 := None ]}.
Definition ex_hold_k8s (objects : list KObject) : RefK8s :=
  mkRefK8s ∅ ∅ (by_key pr_Meta ex_hold_prs) ∅ (by_obj_key objects) None.
Definition ex_hold_world (objects : list KObject) : World RefStore RefK8s :=
  mkWorld (mkRefStore ex_hold_store [] 0 None) (ex_hold_k8s objects) None.
Definition ex_objectTuples : objectTuples RefStore := mkObjectTuples "store" (λ _, None) 5000 9.

Lemma ref_not_found_is_end f s : rs_down f = None → not_found_is_end f s.
Proof. intros E req rest e _ _ He. simpl in He. unfold rs_up in He. by rewrite E in He. Qed.

Definition ex_release := finalizeWhenClear ex_objectTuples ex_dying_project (ex_hold_world [ex_dying_project]).

(** The tuples naming the project are gone, the other stays, and the project with
    its last finalizer. *)
Lemma release_only_when_clear_witness :
  (∀ k, k ∈ dom (rs_tuples (w_fga ex_release.2)) →
     ¬ names (w_k8s (ex_hold_world [ex_dying_project])) (mkGK "resourcemanager.miloapis.com" "Project") "p1" k) ∧
  mkTupleWC "u" "r" ex_n1 ∈ dom (rs_tuples (w_fga ex_release.2)) ∧
  size (rk_objects (w_k8s ex_release.2)) = 0.
Proof.
  destruct (release_only_when_clear ex_objectTuples ex_dying_project (mkGK "resourcemanager.miloapis.com" "Project")
    (ex_hold_world [ex_dying_project]) ex_release.1 ex_release.2) as (_ & _ & HR).
  - reflexivity.
  - done.
  - done.
  - vm_compute. reflexivity.
  - apply ref_not_found_is_end. vm_compute. reflexivity.
  - apply surjective_pairing.
  - vm_compute. lia.
  - split; [|split; [apply (bool_decide_unpack _); vm_compute; exact I|vm_compute; reflexivity]].
    destruct HR as [[_ Hr]|(_ & _ & HR)]; [exfalso|exact HR].
    assert (is_ok ex_release.1 = true) as Hok by (vm_compute; reflexivity).
    destruct ex_release.1 as [x|e|]; [by apply (Hr x)|discriminate Hok..].
Defined.

Definition ex_project_gk : GroupKind := mkGK "resourcemanager.miloapis.com" "Project".
Definition ex_found : list TupleKey :=
  ex_ok [] (naming ex_objectTuples ex_project_gk "p1" (ex_hold_world [ex_dying_project])).1.
Definition ex_cleared : RefStore :=
  (DeleteTuples (λ _, None) 5000%Z "store" "" ex_found (w_fga (ex_hold_world [ex_dying_project]))).2.

Lemma release_progress_witness :
  is_ok ex_release.1 = true ∧
  ex_release = on_k8s (d_Update (released ex_dying_project)) (mkWorld ex_cleared (ex_hold_k8s [ex_dying_project]) None).
Proof.
  split; [vm_compute; reflexivity|].
  apply (release_progress ex_objectTuples ex_dying_project ex_project_gk (ex_hold_world [ex_dying_project])
    ex_found ex_cleared).
  - reflexivity.
  - done.
  - done.
  - vm_compute. reflexivity.
  - apply ref_not_found_is_end. reflexivity.
  - apply ex_ok_eq. vm_compute. reflexivity.
  - apply (ok_run (DeleteTuples _ _ _ _ _)). vm_compute. reflexivity.
  - vm_compute. reflexivity.
Defined.
