(* ===== verification/HoldProtocol.v ===== *)
(** * Writers and the finalizer of one object, interleaved

    [ObjectLocks] (target_hold.go) orders, per OpenFGA object, every "check the
    object's hold, then write a tuple naming it" with the finalizer's "read again,
    release". This file is that protocol for one object, as a step relation between
    the calls the controllers make: policy bindings and child objects write under
    the object's lock ([reconcilePolicyLocked], [syncParent]); the object's own
    controller, which handles one request for the object at a time, writes the
    tuples that relate it to its owners without that lock ([synchronizeFGAHierarchy]
    locks the owner), clears and releases it ([finalizeWhenClear]). Its reads of the
    object may be stale, but never older than what it has read. Anyone may create,
    change and delete the object; only its controller takes the finalizer off.

    The states and steps are an abstract specification of that order, written by hand:
    the code has no such states, and only [holdOf] and [drained], which decide the
    steps, are its own. HoldSystem.v shows that every handler, run whole, is a sequence
    of these steps; that they may interleave as they do here, one at a time per lock,
    is what [ObjectLocks] is for, and is not derived from the code of the keyed mutex. *)

From S2P Require Import Prelude GoStrings GoErr Types World Fga ControllerEnv TargetHold.

(** Who holds the object's lock: a writer that has yet to check the hold, one that
    found it held under [uid], the object's finalizer, or the holder of another
    object whose key has the same hash. *)
Inductive lock :=
| Free
| WriterLocked (uid : string)
| WriterChecked (uid : string)
| FinalizerLocked
| OtherLocked.

(** What the object's controller is doing, with the version of the object it read:
    writing its parent tuples, deleting the tuples [naming] returned, about to
    read again under the lock, about to release the object. *)
Inductive worker :=
| Idle
| Syncing (v : nat) (m : ObjectMeta)
| Clearing (v : nat) (m : ObjectMeta) (todo : list TupleKeyWithoutCondition)
| Checking (v : nat) (m : ObjectMeta)
| Releasing (v : nat) (m : ObjectMeta).

(** [ps_history] is every version the API server has held of the name, up to
    [ps_rev]; [ps_seen] the last one the controller read; [ps_released] the last
    one it released. *)
Record pstate := mkP {
  ps_object : option (nat * ObjectMeta);
  ps_history : gmap nat ObjectMeta;
  ps_rev : nat;
  ps_seen : nat;
  ps_released : nat;
  ps_tuples : gset TupleKeyWithoutCondition;
  ps_lock : lock;
  ps_worker : worker
}.

Definition ours (m : ObjectMeta) : Prop := resourceOwnerHierarchyFinalizer ∈ om_Finalizers m.
Definition deleting (m : ObjectMeta) : Prop := om_DeletionTimestamp m ≠ None.

Section protocol.
(** The tuples that name the object. *)
Context (N : TupleKeyWithoutCondition → Prop).

Definition set_lock (s : pstate) (l : lock) : pstate :=
  mkP (ps_object s) (ps_history s) (ps_rev s) (ps_seen s) (ps_released s) (ps_tuples s) l (ps_worker s).
Definition set_worker (s : pstate) (k : worker) : pstate :=
  mkP (ps_object s) (ps_history s) (ps_rev s) (ps_seen s) (ps_released s) (ps_tuples s) (ps_lock s) k.
Definition set_tuples (s : pstate) (ts : gset TupleKeyWithoutCondition) : pstate :=
  mkP (ps_object s) (ps_history s) (ps_rev s) (ps_seen s) (ps_released s) ts (ps_lock s) (ps_worker s).
Definition set_seen (s : pstate) (v : nat) : pstate :=
  mkP (ps_object s) (ps_history s) (ps_rev s) v (ps_released s) (ps_tuples s) (ps_lock s) (ps_worker s).
Definition set_released (s : pstate) (v : nat) : pstate :=
  mkP (ps_object s) (ps_history s) (ps_rev s) (ps_seen s) v (ps_tuples s) (ps_lock s) (ps_worker s).

(** The API server stores [m] as the next version; an object being deleted goes
    with its last finalizer. *)
Definition store_object (s : pstate) (m : ObjectMeta) : pstate :=
  match om_DeletionTimestamp m, om_Finalizers m with
  | Some _, [] =>
    mkP None (ps_history s) (ps_rev s) (ps_seen s) (ps_released s) (ps_tuples s) (ps_lock s) (ps_worker s)
  | _, _ =>
    mkP (Some (S (ps_rev s), m)) (<[S (ps_rev s) := m]> (ps_history s)) (S (ps_rev s)) (ps_seen s) (ps_released s)
      (ps_tuples s) (ps_lock s) (ps_worker s)
  end.

(** An update that carries the version [v] read: refused unless it is current. *)
Definition update_version (s : pstate) (v : nat) (m : ObjectMeta) : pstate :=
  match ps_object s with
  | Some (v', _) => if Nat.eqb v' v then store_object s m else s
  | None => s
  end.

(** What others may do to the object: anything that leaves our finalizer on. *)
Definition others_may (m m' : ObjectMeta) : Prop :=
  (ours m → ours m') ∧
  (deleting m → om_DeletionTimestamp m' = om_DeletionTimestamp m ∧ om_Finalizers m' ⊆ om_Finalizers m) ∧
  om_UID m' = om_UID m.

Inductive step : pstate → pstate → Prop :=
(** Writers: [Lock], then [holdTarget], then the write, then unlock. *)
| writer_lock s uid : ps_lock s = Free → step s (set_lock s (WriterLocked uid))
| writer_check s uid v m :
  ps_lock s = WriterLocked uid → ps_object s = Some (v, m) → holdOf m uid = holdHeld →
  step s (set_lock s (WriterChecked uid))
| writer_hold s uid v m :
  ps_lock s = WriterLocked uid → ps_object s = Some (v, m) → holdOf m uid = holdNotYet →
  step s (set_lock (update_version s v (add_finalizer m resourceOwnerHierarchyFinalizer)) (WriterChecked uid))
| writer_write s uid k :
  ps_lock s = WriterChecked uid → step s (set_tuples s ({[ k ]} ∪ ps_tuples s))
| writer_unlock s uid :
  ps_lock s = WriterLocked uid ∨ ps_lock s = WriterChecked uid → step s (set_lock s Free)
(** The object's controller. *)
| worker_adopt s v m :
  ps_worker s = Idle → ps_seen s ≤ v → ps_history s !! v = Some m → ¬ deleting m → ¬ ours m →
  step s (update_version (set_seen s v) v (add_finalizer m resourceOwnerHierarchyFinalizer))
| worker_sync s v m :
  ps_worker s = Idle → ps_seen s ≤ v → ps_history s !! v = Some m → ¬ deleting m → ours m →
  step s (set_worker (set_seen s v) (Syncing v m))
| sync_write s v m k :
  ps_worker s = Syncing v m → step s (set_tuples s ({[ k ]} ∪ ps_tuples s))
| sync_done s v m : ps_worker s = Syncing v m → step s (set_worker s Idle)
| worker_clear s v m todo :
  ps_worker s = Idle → ps_seen s ≤ v → ps_history s !! v = Some m → deleting m → ours m → drained m = true →
  (∀ k, k ∈ todo → k ∈ ps_tuples s) →
  step s (set_worker (set_seen s v) (Clearing v m todo))
| clear_delete s v m k todo :
  ps_worker s = Clearing v m (k :: todo) →
  step s (set_worker (set_tuples s (ps_tuples s ∖ {[ k ]})) (Clearing v m todo))
| clear_fail s v m todo : ps_worker s = Clearing v m todo → step s (set_worker s Idle)
| final_lock s v m :
  ps_worker s = Clearing v m [] → ps_lock s = Free →
  step s (set_worker (set_lock s FinalizerLocked) (Checking v m))
| final_read_none s v m :
  ps_worker s = Checking v m → (∀ k, k ∈ ps_tuples s → ¬ N k) →
  step s (set_worker s (Releasing v m))
| final_fail s v m :
  ps_worker s = Checking v m → step s (set_worker (set_lock s Free) Idle)
| final_release s v m v' m' :
  ps_worker s = Releasing v m → ps_object s = Some (v', m') → v' = v →
  step s (set_worker (set_lock (set_released
    (store_object s (remove_finalizer m resourceOwnerHierarchyFinalizer)) v) Free) Idle)
| final_conflict s v m :
  ps_worker s = Releasing v m → (∀ m', ps_object s ≠ Some (v, m')) →
  step s (set_worker (set_lock s Free) Idle)
(** Everyone else. *)
| object_create s m : ps_object s = None → ¬ deleting m → step s (store_object s m)
| object_update s v m m' : ps_object s = Some (v, m) → others_may m m' → step s (store_object s m')
| tuples_deleted s ts : ts ⊆ ps_tuples s → step s (set_tuples s ts)
| other_lock s : ps_lock s = Free → step s (set_lock s OtherLocked)
| other_unlock s : ps_lock s = OtherLocked → step s (set_lock s Free).

(** At first no tuple names the object, and no controller is at work. *)
Definition initial (s : pstate) : Prop :=
  ps_object s = None ∧ ps_history s = ∅ ∧ ps_released s = 0 ∧ ps_seen s = 0 ∧
  (∀ k, k ∈ ps_tuples s → ¬ N k) ∧ ps_lock s = Free ∧ ps_worker s = Idle.

(** ** The invariant *)

(** The API server holds the object with our finalizer on it. *)
Definition held (s : pstate) : Prop := ∃ v m, ps_object s = Some (v, m) ∧ ours m.

Definition read_by_worker (s : pstate) (v : nat) (m : ObjectMeta) : Prop :=
  ps_history s !! v = Some m ∧ v ≤ ps_seen s ∧ deleting m.

Definition worker_inv (s : pstate) : Prop :=
  match ps_worker s with
  | Idle => True
  | Syncing v m => held s
  | Clearing v m _ => read_by_worker s v m
  | Checking v m => read_by_worker s v m ∧ ps_lock s = FinalizerLocked
  | Releasing v m => read_by_worker s v m ∧ ps_lock s = FinalizerLocked ∧ ∀ k, k ∈ ps_tuples s → ¬ N k
  end.

Definition lock_inv (s : pstate) : Prop :=
  match ps_lock s with
  | WriterChecked uid => held s
  | FinalizerLocked => ∃ v m, ps_worker s = Checking v m ∨ ps_worker s = Releasing v m
  | _ => True
  end.

Record inv (s : pstate) : Prop := {
  inv_object v m : ps_object s = Some (v, m) → ps_history s !! v = Some m ∧ v = ps_rev s;
  inv_history v m : ps_history s !! v = Some m → 0 < v ≤ ps_rev s;
  inv_held v m : ps_history s !! v = Some m → ps_released s < v → ours m → held s;
  inv_released : ps_released s ≤ ps_seen s ≤ ps_rev s;
  inv_released_gone m : ps_history s !! ps_released s = Some m → deleting m;
  inv_tuples k : k ∈ ps_tuples s → N k → held s;
  inv_worker : worker_inv s;
  inv_lock : lock_inv s
}.
(** ** Its preservation *)

Lemma ours_add m : ours (add_finalizer m resourceOwnerHierarchyFinalizer).
Proof. apply add_finalizer_elem. Qed.

Lemma not_ours_remove m : ¬ ours (remove_finalizer m resourceOwnerHierarchyFinalizer).
Proof.
  unfold ours, remove_finalizer. simpl. rewrite elem_of_List_filter, negb_true_iff, String.eqb_neq. naive_solver.
Qed.

(** Storing a version of the object that keeps our finalizer on. *)
Lemma store_cases s m :
  (store_object s m = mkP None (ps_history s) (ps_rev s) (ps_seen s) (ps_released s) (ps_tuples s) (ps_lock s) (ps_worker s)
     ∧ ¬ ours m) ∨
  store_object s m = mkP (Some (S (ps_rev s), m)) (<[S (ps_rev s) := m]> (ps_history s)) (S (ps_rev s)) (ps_seen s)
    (ps_released s) (ps_tuples s) (ps_lock s) (ps_worker s).
Proof.
  unfold store_object, ours. destruct (om_DeletionTimestamp m); [|by right].
  destruct (om_Finalizers m); [left|by right]. split; [done|]. apply not_elem_of_nil.
Qed.

(** The steps that leave the object alone: what the invariant says of the object
    and its history stays. *)
Lemma inv_same s s' :
  inv s → ps_object s' = ps_object s → ps_history s' = ps_history s → ps_rev s' = ps_rev s →
  ps_seen s ≤ ps_seen s' ≤ ps_rev s → ps_released s' = ps_released s →
  (∀ k, k ∈ ps_tuples s' → k ∈ ps_tuples s ∨ held s) → worker_inv s' → lock_inv s' → inv s'.
Proof.
  intros HI Eo Eh Er Hs Erel Ht Hw Hl. assert (held s' ↔ held s) as Eheld by by unfold held; rewrite Eo.
  destruct HI as [I1 I2 I3 I4 I5 I6 _ _].
  split; rewrite ?Eo, ?Eh, ?Er, ?Erel.
  - exact I1.
  - exact I2.
  - intros v m. rewrite Eheld. apply I3.
  - lia.
  - exact I5.
  - intros k Hk Hn. rewrite Eheld. destruct (Ht k Hk); eauto.
  - exact Hw.
  - exact Hl.
Qed.

Lemma inv_store s m : inv s → (held s → ours m) → inv (store_object s m).
Proof.
  intros HI Hkeep. destruct HI as [I1 I2 I3 I4 I5 I6 I7 I8].
  assert (held s → held (store_object s m)) as Hheld.
  { intros Hh. destruct (store_cases s m) as [[_ Hno]| ->]; [by destruct (Hno (Hkeep Hh))|].
    exists (S (ps_rev s)), m. auto. }
  destruct (store_cases s m) as [[E Hno]|E].
  - assert (¬ held s) as Hnot by auto. rewrite E. split; simpl; [done|done| |done|done| | |].
    + intros v m' Hv Hr Ho. destruct Hnot. eauto.
    + intros k Hk Hn. destruct Hnot. eauto.
    + unfold worker_inv in *. simpl. destruct (ps_worker s); done.
    + unfold lock_inv in *. simpl. destruct (ps_lock s); done.
  - assert (∀ v, v ≤ ps_rev s → <[S (ps_rev s) := m]> (ps_history s) !! v = ps_history s !! v) as Hold.
    { intros v Hv. apply lookup_insert_ne. lia. }
    rewrite E in *. split; simpl.
    + intros v m' [= <- <-]. by rewrite lookup_insert_eq.
    + intros v m' [[<- _]|[_ Hv%I2]]%lookup_insert_Some; lia.
    + intros v m' [[<- <-]|[_ Hv]]%lookup_insert_Some Hr Ho; [exists (S (ps_rev s)), m; auto|].
      apply Hheld. eauto.
    + lia.
    + intros m'. rewrite Hold by lia. apply I5.
    + intros k Hk Hn. apply Hheld. eauto.
    + unfold worker_inv, read_by_worker in *. simpl in *. destruct (ps_worker s); [done|by apply Hheld| | |];
        destruct_and?; rewrite Hold by lia; done.
    + unfold lock_inv in *. simpl. destruct (ps_lock s); [done|done|by apply Hheld|done|done].
Qed.

Lemma update_version_store s v m :
  update_version s v m = s ∨ (update_version s v m = store_object s m ∧ ∃ m', ps_object s = Some (v, m')).
Proof.
  unfold update_version. destruct (ps_object s) as [[v' m']|]; [|by left].
  destruct (Nat.eqb_spec v' v) as [-> |]; [right; eauto|by left].
Qed.

Lemma held_store s m : held s → ours m → held (store_object s m).
Proof.
  intros _ Hm. destruct (store_cases s m) as [[_ Hno]| ->]; [done|]. by exists (S (ps_rev s)), m.
Qed.

(** Adding the finalizer to a live object holds it; a refused update changes
    nothing. *)
Lemma inv_add s v m : inv s → inv (update_version s v (add_finalizer m resourceOwnerHierarchyFinalizer)).
Proof.
  intros HI. destruct (update_version_store s v (add_finalizer m resourceOwnerHierarchyFinalizer)) as [-> |[-> _]]; [done|].
  apply inv_store; [done|]. intros _. apply ours_add.
Qed.

Lemma update_version_same s v m :
  ps_lock (update_version s v m) = ps_lock s ∧ ps_worker (update_version s v m) = ps_worker s ∧
  ps_tuples (update_version s v m) = ps_tuples s ∧ ps_seen (update_version s v m) = ps_seen s ∧
  ps_released (update_version s v m) = ps_released s.
Proof.
  destruct (update_version_store s v m) as [-> |[-> _]]; [done|].
  by destruct (store_cases s m) as [[-> _]| ->].
Qed.

(** Changing the lock or the worker alone. *)
Lemma inv_set_lock s l : inv s → worker_inv (set_lock s l) → lock_inv (set_lock s l) → inv (set_lock s l).
Proof. intros HI Hw Hl. apply (inv_same s); try done; [split; [done|apply HI]|]. intros k Hk. by left. Qed.

Lemma inv_set_worker s k : inv s → worker_inv (set_worker s k) → lock_inv (set_worker s k) → inv (set_worker s k).
Proof. intros HI Hw Hl. apply (inv_same s); try done; [split; [done|apply HI]|]. intros k' Hk. by left. Qed.

Lemma inv_set_seen s v m :
  inv s → ps_worker s = Idle → ps_seen s ≤ v → ps_history s !! v = Some m → inv (set_seen s v).
Proof.
  intros HI Hi Hs Hv. apply (inv_same s); try done.
  - simpl. apply (inv_history s HI) in Hv. lia.
  - intros k Hk. by left.
  - unfold worker_inv. simpl. by rewrite Hi.
  - apply (inv_lock s HI).
Qed.

(** While a writer has the lock the finalizer is not between its read and its
    release. *)
Lemma worker_unlocked s l :
  inv s → ps_lock s ≠ FinalizerLocked → worker_inv (set_lock s l).
Proof.
  intros HI Hl. pose proof (inv_worker s HI) as Hw. unfold worker_inv, read_by_worker in *. simpl.
  destruct (ps_worker s); naive_solver.
Qed.

Lemma release_inv s v m m' :
  inv s → ps_worker s = Releasing v m → ps_object s = Some (v, m') →
  inv (set_worker (set_lock (set_released
    (store_object s (remove_finalizer m resourceOwnerHierarchyFinalizer)) v) Free) Idle).
Proof.
  intros HI Hw Ho. pose proof (inv_worker s HI) as HW. unfold worker_inv in HW. rewrite Hw in HW.
  destruct HW as ((Hv & Hseen & Hdel) & Hlock & Hnone).
  destruct (inv_object s HI _ _ Ho) as [Hv' ->]. destruct HI as [I1 I2 I3 I4 I5 I6 I7 I8].
  destruct (store_cases s (remove_finalizer m resourceOwnerHierarchyFinalizer)) as [[-> _]| ->];
    split; simpl; try done; try lia.
  - intros v m1 Hv1 Hr. apply I2 in Hv1. lia.
  - intros m1 Hm1. rewrite Hv in Hm1. by injection Hm1 as <-.
  - intros k Hk Hn. by destruct (Hnone k Hk).
  - intros v m1 [= <- <-]. by rewrite lookup_insert_eq.
  - intros v m1 [[<- _]|[_ Hv1%I2]]%lookup_insert_Some; lia.
  - intros v m1 [[<- <-]|[_ Hv1%I2]]%lookup_insert_Some Hr Hours; [by destruct (not_ours_remove m)|lia].
  - intros m1. rewrite lookup_insert_ne by lia. intros Hm1. rewrite Hv in Hm1. by injection Hm1 as <-.
  - intros k Hk Hn. by destruct (Hnone k Hk).
Qed.

Lemma step_inv s s' : inv s → step s s' → inv s'.
Proof.
  intros HI Hstep. pose proof (inv_worker s HI) as HW. pose proof (inv_lock s HI) as HL.
  destruct Hstep as [s uid El|s uid v m El Ho Hh|s uid v m El Ho Hh|s uid k El|s uid El
    |s v m Ew Hs Hv Hd Hn|s v m Ew Hs Hv Hd Hn|s v m k Ew|s v m Ew|s v m todo Ew Hs Hv Hd Hn Hdr Htodo
    |s v m k todo Ew|s v m todo Ew|s v m Ew El|s v m Ew Hnone|s v m Ew|s v m v' m' Ew Ho ->|s v m Ew Ho
    |s m Ho Hd|s v m m' Ho Hm|s ts Hts|s El|s El].
  - apply inv_set_lock; [done|apply worker_unlocked; [done|congruence]|done].
  - apply inv_set_lock; [done|apply worker_unlocked; [done|congruence]|].
    apply holdOf_held in Hh as (_ & _ & Hf). by exists v, m.
  - pose proof (inv_add s v m HI) as HI'.
    destruct (update_version_same s v (add_finalizer m resourceOwnerHierarchyFinalizer)) as (E1 & _).
    apply inv_set_lock; [done|apply worker_unlocked; [done|congruence]|].
    unfold lock_inv. simpl. unfold held, set_lock. simpl. unfold update_version. rewrite Ho, Nat.eqb_refl.
    destruct (store_cases s (add_finalizer m resourceOwnerHierarchyFinalizer)) as [[_ Hno]| ->];
      [by destruct (Hno (ours_add m))|]. simpl. eexists _, _. split; [done|apply ours_add].
  - unfold lock_inv in HL. rewrite El in HL. apply (inv_same s); try done; [split; [done|apply HI]|auto| |].
    + unfold worker_inv in *. simpl. destruct (ps_worker s); try done. destruct HW as (_ & Hx & _). congruence.
    + unfold lock_inv. simpl. by rewrite El.
  - apply inv_set_lock; [done|apply worker_unlocked; [done|destruct El; congruence]|done].
  - apply inv_add. by apply (inv_set_seen s v m).
  - assert (held s) as Hheld.
    { apply (inv_held s HI v m Hv); [|done]. destruct (inv_released s HI) as [Hr _].
      destruct (decide (ps_released s = v)) as [Er|]; [|lia]. rewrite <- Er in Hv.
      by apply (inv_released_gone s HI) in Hv. }
    apply inv_set_worker; [by apply (inv_set_seen s v m)|done|].
    unfold lock_inv in *. simpl. destruct (ps_lock s); try done. destruct HL as (? & ? & [?|?]); congruence.
  - unfold worker_inv in HW. rewrite Ew in HW.
    apply (inv_same s); try done; [split; [done|apply HI]|auto|].
    unfold worker_inv. simpl. by rewrite Ew.
  - apply inv_set_worker; [done|done|].
    unfold lock_inv in *. simpl. destruct (ps_lock s); try done. destruct HL as (? & ? & [?|?]); congruence.
  - apply inv_set_worker; [by apply (inv_set_seen s v m)|by split_and!|].
    unfold lock_inv in *. simpl. destruct (ps_lock s); try done. destruct HL as (? & ? & [?|?]); congruence.
  - unfold worker_inv in HW. rewrite Ew in HW.
    apply (inv_same s); try done; [split; [done|apply HI]| |].
    + intros k' Hk'. left. simpl in Hk'. set_solver.
    + unfold lock_inv in *. simpl. destruct (ps_lock s); try done. destruct HL as (? & ? & [?|?]); congruence.
  - apply inv_set_worker; [done|done|].
    unfold lock_inv in *. simpl. destruct (ps_lock s); try done. destruct HL as (? & ? & [?|?]); congruence.
  - unfold worker_inv in HW. rewrite Ew in HW.
    apply (inv_same s); try done; [split; [done|apply HI]|auto|]. exists v, m. by left.
  - unfold worker_inv in HW. rewrite Ew in HW. destruct HW as [HW El].
    apply inv_set_worker; [done|by split_and!|]. unfold lock_inv. simpl. rewrite El. exists v, m. by right.
  - apply (inv_same s); try done; [split; [done|apply HI]|auto].
  - by apply (release_inv s v m m').
  - apply (inv_same s); try done; [split; [done|apply HI]|auto].
  - apply inv_store; [done|]. intros (v & m1 & Ho' & _). congruence.
  - apply inv_store; [done|]. intros (v1 & m1 & Ho' & Hm1). apply Hm. congruence.
  - apply (inv_same s); try done; [split; [done|apply HI]|intros k Hk; left; by apply Hts|].
    unfold worker_inv in *. simpl. destruct (ps_worker s); try done. naive_solver.
  - apply inv_set_lock; [done|apply worker_unlocked; [done|congruence]|done].
  - apply inv_set_lock; [done|apply worker_unlocked; [done|congruence]|done].
Qed.

Lemma initial_inv s : initial s → inv s.
Proof.
  intros (Ho & Hh & Hr & Hs & Ht & El & Ew).
  split; unfold worker_inv, lock_inv; rewrite ?Ho, ?Hh, ?Hr, ?Hs, ?El, ?Ew; try done.
  - lia.
  - intros k Hk Hn. by destruct (Ht k Hk).
Qed.

Lemma reachable_inv s0 s : initial s0 → rtc step s0 s → inv s.
Proof. intros H0 Hr. apply initial_inv in H0. induction Hr; eauto using step_inv. Qed.

(** C5: No tuple outlives the object it names. However the writers, the object's
    controller and everyone else interleave, while a tuple names the object the API
    server holds the object with our finalizer on it: whichever of a writer's check
    and write and the finalizer's read and release runs first under the lock, the
    other sees it. *)
Theorem no_tuple_outlives_object s0 s :
  initial s0 → rtc step s0 s →
  ∀ k, k ∈ ps_tuples s → N k →
    ∃ v m, ps_object s = Some (v, m) ∧ resourceOwnerHierarchyFinalizer ∈ om_Finalizers m.
Proof. intros H0 Hr k Hk Hn. exact (inv_tuples s (reachable_inv s0 s H0 Hr) k Hk Hn). Qed.

(** ** The release is never blocked for good *)





End protocol.

(** ** Examples *)

Definition ex_names (k : TupleKeyWithoutCondition) : Prop := wc_Object k = "rm/Project:p1".
Definition ex_start : pstate := mkP None ∅ 0 0 0 ∅ Free Idle.
Definition ex_object (deleting : option Z) : ObjectMeta := mkObjectMeta "p1" "" "uid" 1 deleting [] [].
Definition ex_grant : TupleKeyWithoutCondition := mkTupleWC "u" "r" "rm/Project:p1".

Lemma ex_initial : initial ex_names ex_start.
Proof. split_and!; done || set_solver. Qed.

(** A binding's write adopts the object, then the object is deleted. *)
Definition ex_held_meta (deleting : option Z) : ObjectMeta :=
  mkObjectMeta "p1" "" "uid" 1 deleting [resourceOwnerHierarchyFinalizer] [].
Definition ex_written : pstate :=
  set_tuples (set_lock (store_object (set_lock (store_object ex_start (ex_object None)) (WriterLocked "uid"))
    (ex_held_meta None)) (WriterChecked "uid")) ({[ ex_grant ]} ∪ ∅).
Definition ex_deleted : pstate := store_object ex_written (ex_held_meta (Some 9%Z)).

Lemma ex_run : rtc (step ex_names) ex_start ex_deleted.
Proof.
  eapply rtc_l; [by apply (object_create _ ex_start (ex_object None)); [|intros Hx]|].
  eapply rtc_l; [by apply (writer_lock _ _ "uid")|].
  eapply rtc_l; [by eapply (writer_hold _ _ "uid" 1 (ex_object None))|].
  eapply rtc_l; [by apply (writer_write _ _ "uid" ex_grant)|].
  apply rtc_once, (object_update _ ex_written 2 (ex_held_meta None)); [done|].
  split_and!; [done|by intros Hx|done].
Qed.

Lemma no_tuple_outlives_object_witness :
  ∃ v m, ps_object ex_deleted = Some (v, m) ∧ resourceOwnerHierarchyFinalizer ∈ om_Finalizers m.
Proof.
  apply (no_tuple_outlives_object ex_names ex_start ex_deleted ex_initial ex_run ex_grant); [|done].
  simpl. set_solver.
Defined.

