(* ===== verification/ResourceOwnerHierarchy.v ===== *)
(** * [internal/controller/resourceownerhierarchy_controller.go] and
      [organization_controller.go]

    The Project controller keeps a Project's parent tuples in step with its owner
    references and releases a deleted Project; the Organization controller holds
    and releases Organizations. Typed Projects and Organizations are read as
    [KObject]s of the kind the scheme gives them. *)

From S2P Require Import Prelude GoStrings GoErr Types World Fga Tuples ControllerEnv TargetHold ObjectTuples.
Local Open Scope Z_scope.

Definition RelationName : string := "parent".

(** The keys of a Go map of desired tuples, by user. *)
Abbreviation tuples_by_user := (gmap string TupleKey).

Section pure.
Context `{ResourceManager} `{APIVersions}.

Definition parentUser (ref : OwnerReference) : string :=
  let gvk := FromAPIVersionAndKind (or_APIVersion ref) (or_Kind ref) in
  ObjectName (gvk_Group gvk) (gvk_Kind gvk) (or_Name ref).

Definition projectParentGVKs : gset GroupVersionKind := {[ mkGVK rm_Group rm_Version organizationKind ]}.

Definition buildChildFGAIdentifierForResource (resource : KObject) (gvk : GroupVersionKind)
    (serviceNameForResource : string) : string :=
  (serviceNameForResource +:+ "/" +:+ gvk_Kind gvk) +:+ ":" +:+ om_Name (obj_Meta resource).

(** A later reference to the same owner replaces the tuple of an earlier one. *)
Definition determineDesiredParentTuplesForResource (resource : KObject) (validParentGVKs : gset GroupVersionKind)
    (childFGAObjectStr relationName : string) : tuples_by_user :=
  foldl (λ desired ref,
    if bool_decide (FromAPIVersionAndKind (or_APIVersion ref) (or_Kind ref) ∈ validParentGVKs)
    then <[parentUser ref := mkTuple (parentUser ref) relationName childFGAObjectStr None]> desired
    else desired) ∅ (om_OwnerReferences (obj_Meta resource)).

Definition tuplesOfUser (tuples : list TupleKey) (user : string) : list TupleKey :=
  List.filter (λ t, String.eqb (User t) user) tuples.

(** The last tuple of each user. *)
Definition existingParentUsers (existing : list TupleKey) : tuples_by_user :=
  foldl (λ m tk, <[User tk := tk]> m) ∅ existing.

(** The loops range over Go maps: the order of the two lists is not specified. *)
Definition computeTupleDifferences (desired : tuples_by_user) (existing : list TupleKey) :
    list TupleKey * list TupleKeyWithoutCondition :=
  let users := existingParentUsers existing in
  (map snd (List.filter (λ kt, match users !! kt.1 with Some _ => false | None => true end) (map_to_list desired)),
   map (λ kt, wc_of kt.2)
     (List.filter (λ kt, match desired !! kt.1 with Some _ => false | None => true end) (map_to_list users))).
End pure.

(** [hr_tuples] has the store, and the fuel of the loops over pages. *)
Record ResourceOwnerHierarchyReconciler (F : Type) := mkHierarchyReconciler {
  hr_tuples : objectTuples F;
  hr_validProjectParentGVKs : gset GroupVersionKind
}.
Arguments mkHierarchyReconciler {_}.
Arguments hr_tuples {_}.
Arguments hr_validProjectParentGVKs {_}.

Section controller.
Context {F K : Type} `{FgaClient F} `{KClient K ProtectedResource} `{KDynamic K} `{Scheme} `{Finalizers}
  `{ResourceManager} `{APIVersions}.
Context (r : ResourceOwnerHierarchyReconciler F).
Abbreviation Mw := (M (World F K)).

Definition applyOpenFGATupleChanges (writes : list TupleKey) (deletes : list TupleKeyWithoutCondition) : Mw unit :=
  match deletes, writes with
  | [], [] => mret tt
  | _, _ =>
    on_fga (fga_Write (mkWrite (ot_storeID (hr_tuples r)) ""
      (match writes with [] => None | _ => Some (mkWrites writes "") end)
      (match deletes with [] => None | _ => Some (mkDeletes deletes "") end)))
  end.

Definition applyParentChanges (writes : list TupleKey) (deletes : list TupleKeyWithoutCondition) : Mw unit :=
  match deletes, writes with
  | [], [] => mret tt
  | _, _ => applyOpenFGATupleChanges writes deletes
  end.

Definition ownerHold (namespace : string) (ref : OwnerReference) : M K hold :=
  got ← try (d_Get (FromAPIVersionAndKind (or_APIVersion ref) (or_Kind ref)) (mkNN namespace (or_Name ref)));
  match got with
  | inr err => if IsNotFound err then mret holdMissing else throw err
  | inl owner => holdTarget owner (or_UID ref)
  end.

(** Runs under the owner's lock. *)
Definition syncParent (namespace : string) (ref : OwnerReference) (tuple : TupleKey) (existing : list TupleKey) : Mw unit :=
  h ← on_k8s (ownerHold namespace ref);
  match h with
  | holdDeleting => mret tt
  | _ =>
    let desired := match h with holdHeld => {[ User tuple := tuple ]} | _ => ∅ end in
    let (writes, deletes) := computeTupleDifferences desired (tuplesOfUser existing (User tuple)) in
    applyParentChanges writes deletes
  end.

Definition synchronizeFGAHierarchy (resource : KObject) (gvk : GroupVersionKind) (serviceNameForChildResource : string)
    (validParentGVKsForChild : gset GroupVersionKind) : Mw Result :=
  let childFGAObjectStr := buildChildFGAIdentifierForResource resource gvk serviceNameForChildResource in
  existing ← fetch (hr_tuples r) (mkReadKey "" RelationName childFGAObjectStr);
  let desired := determineDesiredParentTuplesForResource resource validParentGVKsForChild childFGAObjectStr RelationName in
  applyParentChanges [] (computeTupleDifferences desired existing).2 ;;
  for_each (om_OwnerReferences (obj_Meta resource)) (λ ref,
    match desired !! parentUser ref with
    | None => mret tt
    | Some tuple => syncParent (om_Namespace (obj_Meta resource)) ref tuple existing
    end) ;;
  mret done_result.

Definition handleProjectDeletion (project : KObject) : Mw Result :=
  if negb (drained (obj_Meta project)) then mret done_result
  else
    project ← finalizeWhenClear (hr_tuples r) project;
    if ContainsFinalizer (obj_Meta project) resourceOwnerHierarchyFinalizer then mret requeue_result
    else mret done_result.

Definition ensureProjectFinalizer (project : KObject) : Mw bool :=
  if negb (ContainsFinalizer (obj_Meta project) resourceOwnerHierarchyFinalizer) then
    on_k8s (d_Update (obj_with_meta project (add_finalizer (obj_Meta project) resourceOwnerHierarchyFinalizer))) ;;
    mret true
  else mret false.

Definition reconcileProject (project : KObject) (gvk : GroupVersionKind) : Mw Result :=
  match om_DeletionTimestamp (obj_Meta project) with
  | Some _ => handleProjectDeletion project
  | None =>
    requeueNeeded ← ensureProjectFinalizer project;
    if requeueNeeded : bool then mret requeue_result
    else synchronizeFGAHierarchy project gvk (gvk_Group gvk) (hr_validProjectParentGVKs r)
  end.

(** [projectGVK] is the kind the typed client reads Projects under. *)
Definition project_Reconcile (projectGVK : GroupVersionKind) (req : NamespacedName) : Mw Result :=
  got ← try (on_k8s (d_Get projectGVK req));
  match got with
  | inr err => if IsNotFound err then mret done_result else throw err
  | inl project =>
    let failed := "failed to get GVK for project " +:+ nn_Namespace req +:+ "/" +:+ nn_Name req +:+ ": " in
    gvks ← wrapf failed (lift (ObjectKinds project));
    match gvks with
    | [] => throw (ErrText (failed +:+ "%!w(<nil>)"))
    | gvk :: _ => reconcileProject project gvk
    end
  end.

(** ** organization_controller.go *)

Definition organization_Reconcile (organizationGVK : GroupVersionKind) (req : NamespacedName) : Mw Result :=
  got ← try (on_k8s (d_Get organizationGVK req));
  match got with
  | inr err => if IsNotFound err then mret done_result else throw err
  | inl org =>
    let failed := "failed to finalize Organization " +:+ om_Name (obj_Meta org) +:+ ": " in
    match om_DeletionTimestamp (obj_Meta org) with
    | Some _ =>
      if negb (drained (obj_Meta org)) then mret done_result
      else wrapf failed (finalizeWhenClear (hr_tuples r) org) ;; mret done_result
    | None =>
      res ← wrapf failed
        (Finalizers_Finalize resourceOwnerHierarchyFinalizer (logic_Finalize (hr_tuples r) org) (obj_Meta org));
      let '(updated, meta) := res in
      if updated : bool then on_k8s (d_Update (obj_with_meta org meta)) ;; mret done_result
      else mret done_result
    end
  end.
End controller.

(** ** Which events matter *)

Definition equalFinalizers (a b : list string) : bool :=
  Nat.eqb (length a) (length b) && forallb (λ x, bool_decide (x ∈ (list_to_set a : gset string))) b.

(** The last reference with each UID. *)
Definition refs_by_uid (a : list OwnerReference) : gmap string OwnerReference :=
  foldl (λ m ref, <[or_UID ref := ref]> m) ∅ a.

Definition equalOwnerReferences (a b : list OwnerReference) : bool :=
  Nat.eqb (length a) (length b) &&
  forallb (λ refB,
    match refs_by_uid a !! or_UID refB with
    | None => false
    | Some refA => String.eqb (or_APIVersion refA) (or_APIVersion refB) && String.eqb (or_Kind refA) (or_Kind refB) &&
                   String.eqb (or_Name refA) (or_Name refB)
    end) b.

Definition projectUpdateMatters (objOld objNew : option ObjectMeta) : bool :=
  match objOld, objNew with
  | Some old, Some new =>
    negb (om_Generation new =? om_Generation old) ||
    negb (equalOwnerReferences (om_OwnerReferences new) (om_OwnerReferences old)) ||
    negb (equalFinalizers (om_Finalizers new) (om_Finalizers old)) ||
    match om_DeletionTimestamp new, om_DeletionTimestamp old with
    | Some _, None | None, Some _ => true
    | _, _ => false
    end
  | _, _ => false
  end.

Definition projectDeleteMatters (obj : option ObjectMeta) (deleteStateUnknown : bool) : bool :=
  match obj with
  | None => false
  | Some m => ContainsFinalizer m resourceOwnerHierarchyFinalizer || deleteStateUnknown
  end.
