(* ===== verification/ResourceOwnerHierarchySpec.v ===== *)
(** * What the Project controller guarantees about parent tuples *)

From S2P Require Import Prelude GoStrings GoErr Types World Fga Tuples TuplesFacts.
From S2P Require Import ControllerEnv TargetHold ObjectTuples ObjectTuplesFacts ResourceOwnerHierarchy.
From S2P Require Import RefK8s RefObjects.
From Stdlib Require Import Ascii.

(** ** Differences *)

Lemma existingParentUsers_aux (existing : list TupleKey) (m : tuples_by_user) u :
  let m' := foldl (λ m tk, <[User tk := tk]> m) m existing in
  (∀ tk, m' !! u = Some tk → (tk ∈ existing ∧ User tk = u) ∨ m !! u = Some tk) ∧
  (m' !! u = None → m !! u = None ∧ ∀ tk, tk ∈ existing → User tk ≠ u).
Proof.
  revert m. induction existing as [|t existing IH]; intros m; cbn [foldl].
  - split; [by right|]. intros Hm. split; [done|]. set_solver.
  - destruct (IH (<[User t := t]> m)) as [HA HB]. split.
    + intros tk Htk. destruct (HA tk Htk) as [[Hin Hu]|Hm]; [left; set_solver|].
      apply lookup_insert_Some in Hm as [[Hu ->]|[_ Hm]]; [left; set_solver|by right].
    + intros Hm. destruct (HB Hm) as [Hn Hall]. apply lookup_insert_None in Hn as [Hn Hne].
      split; [done|]. intros tk [->|Hin]%elem_of_cons; auto.
Qed.

Lemma existingParentUsers_Some existing u tk :
  existingParentUsers existing !! u = Some tk → tk ∈ existing ∧ User tk = u.
Proof. intros Hu. destruct (existingParentUsers_aux existing ∅ u) as [HA _]. by destruct (HA tk Hu). Qed.

Lemma existingParentUsers_None existing u :
  existingParentUsers existing !! u = None ↔ ∀ tk, tk ∈ existing → User tk ≠ u.
Proof.
  split; [apply (existingParentUsers_aux existing ∅ u)|].
  intros HA. destruct (existingParentUsers existing !! u) as [tk|] eqn:E; [|done].
  apply existingParentUsers_Some in E as [Hin Hu]. by destruct (HA tk Hin).
Qed.

Lemma differences_writes desired existing t :
  t ∈ (computeTupleDifferences desired existing).1 ↔
  ∃ u, desired !! u = Some t ∧ ∀ tk, tk ∈ existing → User tk ≠ u.
Proof.
  simpl. rewrite elem_of_map. setoid_rewrite elem_of_List_filter. split.
  - intros ([u t'] & [Hin Hf] & ->). exists u. split; [by apply elem_of_map_to_list|].
    apply existingParentUsers_None. simpl in Hf. by destruct (existingParentUsers existing !! u).
  - intros (u & Hu & HA%existingParentUsers_None). exists (u, t). split; [|done].
    split; [by apply elem_of_map_to_list|]. simpl. by rewrite HA.
Qed.

Lemma differences_deletes desired existing k :
  k ∈ (computeTupleDifferences desired existing).2 →
  ∃ tk, tk ∈ existing ∧ desired !! User tk = None ∧ k = wc_of tk.
Proof.
  simpl. rewrite elem_of_map. setoid_rewrite elem_of_List_filter.
  intros ([u tk] & [Hin Hf] & ->). apply elem_of_map_to_list, existingParentUsers_Some in Hin as [Hin Hu].
  simpl in *. exists tk. subst u. by destruct (desired !! User tk).
Qed.

(** Of the existing tuples of one relation on one object, exactly the undesired
    ones are deleted. *)
Lemma differences_deletes_iff desired existing rel object u :
  (∀ tk, tk ∈ existing → Relation tk = rel ∧ Object tk = object) →
  mkTupleWC u rel object ∈ (computeTupleDifferences desired existing).2 ↔
  desired !! u = None ∧ ∃ tk, tk ∈ existing ∧ User tk = u.
Proof.
  intros Hro. split.
  - intros (tk & Hin & Hd & E)%differences_deletes. injection E as ? ? ?. subst. eauto.
  - intros [Hd (tk & Hin & Hu)]. simpl. rewrite elem_of_map. setoid_rewrite elem_of_List_filter.
    destruct (existingParentUsers existing !! u) as [tk'|] eqn:E.
    + exists (u, tk'). simpl. rewrite Hd. split; [split; [by apply elem_of_map_to_list|done]|].
      apply existingParentUsers_Some in E as [Hin' <-]. destruct (Hro tk' Hin') as [<- <-]. by destruct tk'.
    + by destruct (proj1 (existingParentUsers_None existing u) E tk Hin).
Qed.

Lemma elem_of_tuplesOfUser tuples user t : t ∈ tuplesOfUser tuples user ↔ t ∈ tuples ∧ User t = user.
Proof. unfold tuplesOfUser. by rewrite elem_of_List_filter, String.eqb_eq. Qed.

(** ** Desired parents *)

Section desired.
Context `{ResourceManager} `{APIVersions}.

Definition ref_gvk_of (ref : OwnerReference) : GroupVersionKind :=
  FromAPIVersionAndKind (or_APIVersion ref) (or_Kind ref).

Definition desired_test (valid : gset GroupVersionKind) (refs : list OwnerReference) (u : string) : bool :=
  existsb (λ ref, bool_decide (ref_gvk_of ref ∈ valid) && String.eqb (parentUser ref) u) refs.

Lemma desired_aux valid child rel refs (m : tuples_by_user) u :
  foldl (λ (desired : tuples_by_user) ref,
    if bool_decide (ref_gvk_of ref ∈ valid)
    then <[parentUser ref := mkTuple (parentUser ref) rel child None]> desired
    else desired) m refs !! u =
  if desired_test valid refs u then Some (mkTuple u rel child None) else m !! u.
Proof.
  revert m. induction refs as [|ref refs IH]; intros m; cbn [foldl]; [done|].
  rewrite IH. unfold desired_test. cbn [existsb]. fold (desired_test valid refs u).
  destruct (desired_test valid refs u); [by rewrite orb_true_r|]. rewrite orb_false_r.
  destruct (bool_decide (ref_gvk_of ref ∈ valid)); simpl; [|done].
  destruct (String.eqb_spec (parentUser ref) u) as [<-|Hne]; [by rewrite lookup_insert_eq|by rewrite lookup_insert_ne].
Qed.

Definition desired_parent (resource : KObject) (valid : gset GroupVersionKind) (u : string) : Prop :=
  ∃ ref, ref ∈ om_OwnerReferences (obj_Meta resource) ∧ ref_gvk_of ref ∈ valid ∧ parentUser ref = u.

Lemma desired_lookup resource valid child rel u t :
  determineDesiredParentTuplesForResource resource valid child rel !! u = Some t ↔
  desired_parent resource valid u ∧ t = mkTuple u rel child None.
Proof.
  unfold determineDesiredParentTuplesForResource.
  rewrite (eq_trans (desired_aux valid child rel (om_OwnerReferences (obj_Meta resource)) ∅ u) eq_refl).
  assert (desired_test valid (om_OwnerReferences (obj_Meta resource)) u = true ↔ desired_parent resource valid u) as HT.
  { unfold desired_test, desired_parent. rewrite existsb_elem. f_equiv. intros ref.
    by rewrite andb_true_iff, bool_decide_eq_true, String.eqb_eq. }
  rewrite lookup_empty. destruct (desired_test _ _ _); naive_solver.
Qed.

Lemma desired_lookup_None resource valid child rel u :
  determineDesiredParentTuplesForResource resource valid child rel !! u = None ↔ ¬ desired_parent resource valid u.
Proof.
  rewrite eq_None_not_Some. split; intros Hn HD; apply Hn.
  - eexists. by apply desired_lookup.
  - destruct HD as [t HD]. by apply desired_lookup in HD as [? _].
Qed.
End desired.

Section spec.
Context {F K : Type} `{FgaLaws F} `{KReadLaws K ProtectedResource} `{KDynamicLaws K} `{Scheme} `{FinalizersLaws}
  `{ResourceManager} `{APIVersions}.
Context (r : ResourceOwnerHierarchyReconciler F).
Implicit Types w : World F K.

Abbreviation stored w := (fga_tuples (w_fga w) (ot_storeID (hr_tuples r))).

(** ** Writing differences *)

Lemma applyParentChanges_Ok writes deletes w w' :
  applyParentChanges r writes deletes w = (Ok tt, w') →
  w_k8s w' = w_k8s w ∧
  ∀ k, k ∈ dom (stored w') ↔ k ∈ map wc_of writes ∨ (k ∈ dom (stored w) ∧ k ∉ deletes).
Proof.
  intros E. destruct (decide (writes = [] ∧ deletes = [])) as [[-> ->]|Hne].
  { injection E as <-. split; [done|]. intros k. set_solver. }
  assert (on_fga (fga_Write (mkWrite (ot_storeID (hr_tuples r)) ""
      (match writes with [] => None | _ => Some (mkWrites writes "") end)
      (match deletes with [] => None | _ => Some (mkDeletes deletes "") end))) w = (Ok tt, w')) as E'.
  { unfold applyParentChanges, applyOpenFGATupleChanges in E. destruct writes, deletes; tauto || exact E. }
  apply on_fga_run in E' as (f' & E' & ->). apply fga_Write_Ok in E' as [Et _]. simpl in *.
  split; [done|]. intros k. rewrite Et, apply_write_dom. unfold write_keys, delete_keys. simpl.
  destruct writes, deletes; simpl; done.
Qed.

(** ** The owner's hold *)

(** The hold the API server's object gives the owner a reference names. *)
Definition current_hold (k8s : K) (namespace : string) (ref : OwnerReference) : hold :=
  match d_view k8s !! (ref_gvk_of ref, mkNN namespace (or_Name ref)) with
  | Some x => holdOf (obj_Meta x) (or_UID ref)
  | None => holdMissing
  end.

Lemma ownerHold_Ok namespace ref k h k' :
  ownerHold namespace ref k = (Ok h, k') →
  current_hold k' namespace ref = h ∧
  ∀ key, key ≠ (ref_gvk_of ref, mkNN namespace (or_Name ref)) → d_view k' !! key = d_view k !! key.
Proof.
  unfold ownerHold. intros (got & k1 & Hg & E)%bind_Ok. fold (ref_gvk_of ref) in Hg.
  pose proof (d_Get_world (ref_gvk_of ref) (mkNN namespace (or_Name ref)) k) as HW.
  destruct got as [owner|err].
  - apply (proj1 (try_inl _ _ _ _)) in Hg. rewrite Hg in HW. simpl in HW. subst k1.
    assert (d_view k !! (ref_gvk_of ref, mkNN namespace (or_Name ref)) = Some owner) as Hv
      by (apply d_Get_Ok; by rewrite Hg).
    pose proof (d_view_keyed k _ _ Hv) as Hkey. rewrite <- Hkey in Hv.
    apply holdTarget_run in E as (HA & HB & _); [|done]. destruct (HB h eq_refl) as (x & Hx & Hh).
    rewrite <- Hkey. split; [|done]. unfold current_hold. rewrite <- Hkey, Hx. done.
  - apply (proj1 (try_inr _ _ _ _)) in Hg. rewrite Hg in HW. simpl in HW. subst k1.
    destruct (IsNotFound err) eqn:Hnf; [|done]. injection E as <- <-. split; [|done].
    unfold current_hold. by rewrite (d_Get_NotFound (ref_gvk_of ref) (mkNN namespace (or_Name ref)) k err) by (by rewrite ?Hg).
Qed.

(** ** One owner *)

Definition parent_key (child u : string) : TupleKeyWithoutCondition := mkTupleWC u RelationName child.

(** The snapshot of parent tuples still says what the store holds for [u]. *)
Definition up_to_date (existing : list TupleKey) (child u : string) w : Prop :=
  parent_key child u ∈ dom (stored w) ↔ ∃ tk, tk ∈ existing ∧ User tk = u.

Lemma syncParent_Ok namespace ref existing child u w w' :
  (∀ tk, tk ∈ existing → Relation tk = RelationName ∧ Object tk = child) →
  up_to_date existing child u w →
  syncParent r namespace ref (mkTuple u RelationName child None) existing w = (Ok tt, w') →
  (parent_key child u ∈ dom (stored w') ↔
     current_hold (w_k8s w') namespace ref = holdHeld ∨
     (current_hold (w_k8s w') namespace ref = holdDeleting ∧ parent_key child u ∈ dom (stored w))) ∧
  (∀ k, k ≠ parent_key child u → k ∈ dom (stored w') ↔ k ∈ dom (stored w)) ∧
  (∀ key, key ≠ (ref_gvk_of ref, mkNN namespace (or_Name ref)) → d_view (w_k8s w') !! key = d_view (w_k8s w) !! key).
Proof.
  intros Hro Hup (h & w1 & Hh & E)%bind_Ok. apply on_k8s_run in Hh as (k1 & Hh & ->).
  apply ownerHold_Ok in Hh as [Hcur Hview].
  destruct (decide (h = holdDeleting)) as [->|Hnd].
  { injection E as <-. simpl. rewrite Hcur. split_and!; [naive_solver|done|done]. }
  set (desired := match h with holdHeld => {[ u := mkTuple u RelationName child None ]} | _ => ∅ end : tuples_by_user).
  set (D := computeTupleDifferences desired (tuplesOfUser existing u)).
  assert (applyParentChanges r D.1 D.2 (mkWorld (w_fga w) k1 (w_provider w)) = (Ok tt, w')) as E'
    by (unfold D, desired; destruct h; try done; exact E).
  apply applyParentChanges_Ok in E' as [Hk Hst]. cbn [w_k8s w_fga] in Hk, Hst. rewrite Hk, Hcur.
  assert (∀ tk, tk ∈ tuplesOfUser existing u → Relation tk = RelationName ∧ Object tk = child) as Hro'
    by (intros tk [Hin _]%elem_of_tuplesOfUser; auto).
  assert (∀ k, k ∈ map wc_of D.1 ↔ h = holdHeld ∧ k = parent_key child u ∧ k ∉ dom (stored w)) as HW.
  { intros k. rewrite elem_of_map. unfold D. setoid_rewrite differences_writes.
    unfold up_to_date in Hup. split.
    - intros (t & (u' & Hd & Hno) & ->). unfold desired in Hd. destruct h; try (by rewrite lookup_empty in Hd).
      apply lookup_singleton_Some in Hd as [<- <-]. split_and!; [done|done|]. unfold wc_of. simpl.
      fold (parent_key child u). rewrite Hup.
      intros (tk & Hin & Hu). apply (Hno tk); [by apply elem_of_tuplesOfUser|done].
    - intros (-> & -> & Hno). exists (mkTuple u RelationName child None). split; [|done]. exists u. unfold desired.
      rewrite lookup_singleton_eq. split; [done|]. intros tk [Hin Hu]%elem_of_tuplesOfUser _.
      apply Hno, Hup. eauto. }
  assert (∀ k, k ∈ D.2 → h ≠ holdHeld ∧ k = parent_key child u) as HD.
  { intros k (tk & [Hin Hu]%elem_of_tuplesOfUser & Hd & ->)%differences_deletes. destruct (Hro tk Hin) as [E1 E2]. split.
    - intros ->. unfold desired in Hd. by rewrite Hu, lookup_singleton_eq in Hd.
    - unfold wc_of, parent_key. congruence. }
  assert (h ≠ holdHeld → parent_key child u ∈ dom (stored w) → parent_key child u ∈ D.2) as HD2.
  { intros Hne (tk & Hin & Hu)%Hup. apply (differences_deletes_iff desired _ RelationName child u Hro').
    split; [unfold desired; destruct h; by rewrite ?lookup_empty|]. exists tk. by rewrite elem_of_tuplesOfUser. }
  split_and!; [| |exact Hview].
  - rewrite Hst, HW. split.
    + intros [(-> & _)|[Hin Hn]]; [by left|]. left. destruct (decide (h = holdHeld)); [done|]. by destruct (Hn (HD2 n Hin)).
    + intros [-> |[-> _]]; [|done]. destruct (decide (parent_key child u ∈ dom (stored w))) as [Hin|Hin]; [|by left].
      right. split; [done|]. by intros [? _]%HD.
  - intros k Hne. rewrite Hst, HW. split; [naive_solver|]. intros Hin. right. split; [done|]. by intros [_ ?]%HD.
Qed.
(** ** All owners *)

Definition owner_key (namespace : string) (ref : OwnerReference) : GroupVersionKind * NamespacedName :=
  (ref_gvk_of ref, mkNN namespace (or_Name ref)).

Lemma owner_key_user namespace ref1 ref2 :
  owner_key namespace ref1 = owner_key namespace ref2 → parentUser ref1 = parentUser ref2.
Proof. intros [= E1 E2]. unfold parentUser. fold (ref_gvk_of ref1) (ref_gvk_of ref2). by rewrite E1, E2. Qed.

Definition sync_all (namespace : string) (desired : tuples_by_user) (existing : list TupleKey) (refs : list OwnerReference) :
    M (World F K) unit :=
  for_each refs (λ ref,
    match desired !! parentUser ref with
    | None => mret tt
    | Some tuple => syncParent r namespace ref tuple existing
    end).

Lemma sync_all_Ok namespace desired existing child refs w w' :
  (∀ tk, tk ∈ existing → Relation tk = RelationName ∧ Object tk = child) →
  (∀ u t, desired !! u = Some t → t = mkTuple u RelationName child None) →
  NoDup (map parentUser refs) →
  (∀ ref, ref ∈ refs → desired !! parentUser ref ≠ None → up_to_date existing child (parentUser ref) w) →
  sync_all namespace desired existing refs w = (Ok tt, w') →
  (∀ ref, ref ∈ refs → desired !! parentUser ref ≠ None →
     (parent_key child (parentUser ref) ∈ dom (stored w') ↔
        current_hold (w_k8s w') namespace ref = holdHeld ∨
        (current_hold (w_k8s w') namespace ref = holdDeleting ∧ parent_key child (parentUser ref) ∈ dom (stored w)))) ∧
  (∀ k, (∀ ref, ref ∈ refs → desired !! parentUser ref ≠ None → k ≠ parent_key child (parentUser ref)) →
     k ∈ dom (stored w') ↔ k ∈ dom (stored w)) ∧
  (∀ key, (∀ ref, ref ∈ refs → key ≠ owner_key namespace ref) → d_view (w_k8s w') !! key = d_view (w_k8s w) !! key).
Proof.
  intros Hro Hdes. revert w. induction refs as [|ref refs IH]; intros w Hnd Hup E.
  { injection E as <-. split_and!; [by intros ? ?%elem_of_nil|done|done]. }
  cbn [map] in Hnd. apply NoDup_cons in Hnd as [Hnot Hnd]. apply bind_Ok in E as ([] & w1 & E1 & E2).
  assert (∀ ref', ref' ∈ refs → parentUser ref' ≠ parentUser ref) as Hother.
  { intros ref' Hin Heq. apply Hnot. rewrite <- Heq, elem_of_map. eauto. }
  destruct (desired !! parentUser ref) as [t|] eqn:Ed.
  - rewrite (Hdes _ _ Ed) in E1. apply (syncParent_Ok _ _ _ child) in E1 as (HA & HB & HC);
      [|done|by apply Hup; [left|rewrite Ed]].
    destruct (IH w1 Hnd) as (IA & IB & IC); [|exact E2|].
    { intros ref' Hin Hd. unfold up_to_date. rewrite HB; [|intros [= ?]; by apply (Hother ref')].
      apply Hup; [by right|done]. }
    assert (current_hold (w_k8s w') namespace ref = current_hold (w_k8s w1) namespace ref) as Hcur.
    { unfold current_hold. fold (owner_key namespace ref). rewrite IC; [done|].
      intros ref' Hin Heq. apply owner_key_user in Heq. by apply (Hother ref'). }
    split_and!.
    + intros ref' [->|Hin]%elem_of_cons Hd.
      * rewrite Hcur, IB; [exact HA|]. intros ref' Hin _ [= Heq]. by apply (Hother ref').
      * rewrite (IA ref' Hin Hd), HB; [done|]. intros [= ?]. by apply (Hother ref').
    + intros k Hk. rewrite IB by (intros ref' Hin; apply Hk; by right).
      apply HB. apply Hk; [left|by rewrite Ed].
    + intros key Hkey. rewrite IC by (intros ref' Hin; apply Hkey; by right).
      apply HC. apply (Hkey ref). left.
  - injection E1 as <-. destruct (IH w Hnd) as (IA & IB & IC); [|exact E2|].
    { intros ref' Hin Hd. apply Hup; [by right|done]. }
    split_and!.
    + intros ref' [->|Hin]%elem_of_cons Hd; [done|by apply IA].
    + intros k Hk. apply IB. intros ref' Hin. apply Hk. by right.
    + intros key Hkey. apply IC. intros ref' Hin. apply Hkey. by right.
Qed.

(** C22: The parent tuples follow the owner references. When a Project is
    synchronized without an error, the parent tuples on it are those of its owner
    references of a valid kind whose owner our finalizer now holds, and those,
    already there, of owners being deleted; parents replaced, gone or no longer
    referenced are removed, and every other tuple of the store is as it was. The
    owners are distinct, and OpenFGA does not answer NotFound to a Read while
    tuples are left. *)
Theorem parents_follow_owners resource gvk service valid w w' res
  (Hname : om_Name (obj_Meta resource) ≠ "")
  (Hnf : not_found_is_end (w_fga w) (ot_storeID (hr_tuples r)))
  (Hdistinct : NoDup (map parentUser (om_OwnerReferences (obj_Meta resource))))
  (Hrun : synchronizeFGAHierarchy r resource gvk service valid w = (Ok res, w')) :
  let child := buildChildFGAIdentifierForResource resource gvk service in
  (∀ u, parent_key child u ∈ dom (stored w') ↔
     ∃ ref, ref ∈ om_OwnerReferences (obj_Meta resource) ∧ ref_gvk_of ref ∈ valid ∧ parentUser ref = u ∧
       (current_hold (w_k8s w') (om_Namespace (obj_Meta resource)) ref = holdHeld ∨
        (current_hold (w_k8s w') (om_Namespace (obj_Meta resource)) ref = holdDeleting ∧
         parent_key child u ∈ dom (stored w)))) ∧
  (∀ k, ¬ (wc_Relation k = RelationName ∧ wc_Object k = child) → k ∈ dom (stored w') ↔ k ∈ dom (stored w)).
Proof.
  intros child. unfold synchronizeFGAHierarchy in Hrun. fold child in Hrun.
  apply bind_Ok in Hrun as (existing & w1 & Hf & Hrun).
  apply reads_inv in Hf as [-> Hf]; [|apply reads_on_fga, fetch_reads].
  unfold fetch in Hf. rewrite on_fga_fst in Hf. apply fetch_Ok in Hf; [|done].
  assert (names_object child) as Hchild by by apply names_object_intro.
  assert (∀ tk, tk ∈ existing ↔
    stored w !! wc_of tk = Some (TupleCondition tk) ∧ Relation tk = RelationName ∧ Object tk = child) as Hex.
  { intros tk. rewrite Hf, elem_of_matching. f_equiv. destruct Hchild as [Hne Hto]. unfold matches.
    cbn [rk_User rk_Relation rk_Object]. rewrite Hto, (proj2 (String.eqb_neq child "") Hne).
    change (String.eqb RelationName "") with false. change (String.eqb "" "") with true.
    cbn [orb andb]. rewrite andb_true_iff, !String.eqb_eq. cbn [wc_of wc_Relation wc_Object]. split; intros [E1 E2]; split; by symmetry. }
  assert (∀ u, parent_key child u ∈ dom (stored w) ↔ ∃ tk, tk ∈ existing ∧ User tk = u) as Hsnap.
  { intros u. rewrite elem_of_dom. split.
    - intros [c Hc]. exists (mkTuple u RelationName child c). rewrite Hex. done.
    - intros (tk & (Hs & E1 & E2)%Hex & <-). unfold wc_of in Hs. rewrite E1, E2 in Hs. eauto. }
  set (desired := determineDesiredParentTuplesForResource resource valid child RelationName) in *.
  apply bind_Ok in Hrun as ([] & w2 & Hst & Hrun). apply bind_Ok in Hrun as ([] & w3 & Hsync & Hrun).
  injection Hrun as _ ->. apply applyParentChanges_Ok in Hst as [Hk2 Hst].
  assert (∀ u, parent_key child u ∈ dom (stored w2) ↔
    parent_key child u ∈ dom (stored w) ∧ desired_parent resource valid u) as Hst2.
  { intros u. rewrite Hst. split.
    - intros [Hn|[Hin Hnd]]; [by apply elem_of_nil in Hn|]. split; [done|].
      destruct (desired !! u) as [t|] eqn:Ed; [by apply desired_lookup in Ed as [? _]|].
      destruct Hnd. apply differences_deletes_iff; [by intros tk [_ ?]%Hex|]. split; [done|]. by apply Hsnap.
    - intros [Hin Hd]. right. split; [done|]. intros [Hn _]%differences_deletes_iff; [|by intros tk [_ ?]%Hex].
      by apply desired_lookup_None in Hn. }
  apply (sync_all_Ok _ desired existing child) in Hsync as (HA & HB & HC).
  2: by intros tk [_ ?]%Hex.
  2: by intros u t [_ ->]%desired_lookup.
  2: done.
  2:{ intros ref Hin Hd. unfold up_to_date. rewrite Hst2, Hsnap. split; [by intros [? _]|]. intros ?. split; [done|].
      destruct (desired !! parentUser ref) as [t|] eqn:Ed; [|done]. by apply desired_lookup in Ed as [? _]. }
  assert (∀ ref, ref ∈ om_OwnerReferences (obj_Meta resource) → ref_gvk_of ref ∈ valid → desired !! parentUser ref ≠ None)
    as Hdes.
  { intros ref Hin Hv Hn. apply desired_lookup_None in Hn. apply Hn. by exists ref. }
  split.
  - intros u. split.
    + intros Hin. destruct (desired !! u) as [t|] eqn:Ed.
      * apply desired_lookup in Ed as [(ref & Hr & Hv & <-) _]. exists ref. split_and!; [done..|].
        apply (HA ref Hr (Hdes ref Hr Hv)) in Hin as [?|[? Hin]]; [by left|right]. split; [done|]. by apply Hst2 in Hin as [? _].
      * rewrite HB in Hin; [|intros ref Hr Hd [= ->]; by rewrite Ed in Hd].
        apply Hst2 in Hin as [_ Hd]. by apply desired_lookup_None in Ed.
    + intros (ref & Hr & Hv & <- & Hhold). apply (HA ref Hr (Hdes ref Hr Hv)).
      destruct Hhold as [?|[? Hin]]; [by left|right]. split; [done|]. apply Hst2. split; [done|]. by exists ref.
  - intros k Hk. rewrite HB by (intros ref _ _ ->; by apply Hk). rewrite Hst. split.
    + intros [Hn|[? _]]; [by apply elem_of_nil in Hn|done].
    + intros Hin. right. split; [done|]. intros (tk & (_ & ? & ?)%Hex & _ & ->)%differences_deletes. by apply Hk.
Qed.
End spec.

(** ** Events *)

(** What [projectUpdateMatters] lets through unnoticed: a list of finalizers, or of
    owners, that loses an entry and repeats another compares equal. *)
Example equalFinalizers_repeats : equalFinalizers ["a"; "b"] ["a"; "a"] = true.
Proof. reflexivity. Qed.

Lemma equalFinalizers_complete a b : a ≡ₚ b → equalFinalizers a b = true.
Proof.
  intros HP. unfold equalFinalizers. apply andb_true_iff. split; [by apply Nat.eqb_eq, Permutation_length|].
  apply forallb_forall. intros x Hx%list_elem_of_In. apply bool_decide_eq_true, elem_of_list_to_set. by rewrite HP.
Qed.

(** ** Examples: a Project whose owner is live and not yet held *)

Definition ex_h_ref : OwnerReference :=
  mkOwnerReference "resourcemanager.miloapis.com/v1alpha1" "Organization" "acme" "uid-acme".
Definition ex_h_project : KObject :=
  mkKObject (ref_gvk projectKind)
    (mkObjectMeta "p1" "" "uid-p1" 1 None [resourceOwnerHierarchyFinalizer] [ex_h_ref]) "1".
Definition ex_h_org : KObject :=
  mkKObject (ref_gvk organizationKind) (mkObjectMeta "acme" "" "uid-acme" 1 None [] []) "1".
Definition ex_h_child : string := "resourcemanager.miloapis.com/Project:p1".
Definition ex_h_acme : string := "resourcemanager.miloapis.com/Organization:acme".
Definition ex_h_store : tuple_map :=
  {[ parent_key ex_h_child "resourcemanager.miloapis.com/Organization:old" := None;
     mkTupleWC "u" "r" ex_h_child := None ]}.
Definition ex_h_world : World RefStore RefK8s :=
  mkWorld (mkRefStore ex_h_store [] 0 None) (mkRefK8s ∅ ∅ ∅ ∅ (by_obj_key [ex_h_project; ex_h_org]) None) None.
Definition ex_h_reconciler : ResourceOwnerHierarchyReconciler RefStore :=
  mkHierarchyReconciler (mkObjectTuples "store" (λ _, None) 5000 9) projectParentGVKs.
Definition ex_h_run : outcome Result * World RefStore RefK8s :=
  synchronizeFGAHierarchy ex_h_reconciler ex_h_project (ref_gvk projectKind) "resourcemanager.miloapis.com"
    projectParentGVKs ex_h_world.

(** The owner is held now and has its parent tuple; the old parent has none. *)
Lemma parents_follow_owners_witness :
  parent_key ex_h_child ex_h_acme ∈ dom (rs_tuples (w_fga ex_h_run.2)) ∧
  parent_key ex_h_child "resourcemanager.miloapis.com/Organization:old" ∉ dom (rs_tuples (w_fga ex_h_run.2)) ∧
  current_hold (w_k8s ex_h_run.2) "" ex_h_ref = holdHeld.
Proof.
  assert (current_hold (w_k8s ex_h_run.2) "" ex_h_ref = holdHeld) as Hheld by (vm_compute; reflexivity).
  destruct (parents_follow_owners ex_h_reconciler ex_h_project (ref_gvk projectKind) "resourcemanager.miloapis.com"
    projectParentGVKs ex_h_world ex_h_run.2 done_result) as [HA _].
  - done.
  - intros req rest e _ _ He. simpl in He. done.
  - apply (bool_decide_unpack _). vm_compute. exact I.
  - apply run_ok. vm_compute. reflexivity.
  - split_and!; [| |exact Hheld].
    + apply (HA ex_h_acme). exists ex_h_ref. split_and!; [left| |reflexivity|by left].
      apply (bool_decide_unpack _). vm_compute. exact I.
    + intros Hin. apply (HA "resourcemanager.miloapis.com/Organization:old") in Hin as (ref & Hr & _ & Hu & _).
      apply list_elem_of_singleton in Hr as ->. vm_compute in Hu. discriminate Hu.
Defined.
