(* ===== verification/GroupMembership.v ===== *)
(** * Group memberships

    [internal/openfga/group_member_reconciler.go]: the membership tuple;
    [internal/controller/groupmembership_controller.go]: the controller that keeps
    it in step with the GroupMembership's references. *)

From S2P Require Import Prelude GoStrings GoErr Types Constants World Fga Tuples ControllerEnv.
Local Open Scope Z_scope.

(** ** group_member_reconciler.go *)

Record GroupMembershipRequest := mkMembershipRequest { MemberUID : string; GroupUID : string }.

(** The group's object and the member's user. *)
Definition getOpenFGAGroupAndMember (request : GroupMembershipRequest) : string * string :=
  (TypeInternalUserGroup +:+ ":" +:+ GroupUID request, TypeInternalUser +:+ ":" +:+ MemberUID request).

Definition membership_tuple (request : GroupMembershipRequest) : TupleKey :=
  let (openFGAGroupObject, openFGAMemberUser) := getOpenFGAGroupAndMember request in
  mkTuple openFGAMemberUser "member" openFGAGroupObject None.

Section members.
Context {F K : Type} `{FgaClient F}.
Context (storeID : string).
Abbreviation Mw := (M (World F K)).

Definition checkIfTupleKeyExists (t : TupleKey) : Mw bool :=
  wrapf "failed to check if GroupMember tuple key exists: "
    (on_fga (fga_Check (mkCheck storeID "" (mkCheckKey (User t) (Relation t) (Object t))))).

Definition AddMemberToGroup (request : GroupMembershipRequest) : Mw unit :=
  let t := membership_tuple request in
  allowed ← wrapf "failed to check if GroupMember tuple key exists: " (checkIfTupleKeyExists t);
  if negb allowed then
    modelID ← getModelID;
    result ← try (on_fga (fga_Write (mkWrite storeID modelID (Some (mkWrites [t] "")) None)));
    match result with
    | inl _ => mret tt
    | inr err =>
      if IsAlreadyExistsErr err then mret tt
      else throw (ErrWrap "failed to write group membership tuple: " err)
    end
  else mret tt.

Definition RemoveMemberFromGroup (request : GroupMembershipRequest) : Mw unit :=
  let t := membership_tuple request in
  allowed ← wrapf "failed to check if GroupMember tuple key exists: " (checkIfTupleKeyExists t);
  if allowed : bool then
    modelID ← getModelID;
    result ← try (on_fga (fga_Write (mkWrite storeID modelID None
      (Some (mkDeletes (convertTuplesForDelete [t]) "")))));
    match result with
    | inl _ => mret tt
    | inr err =>
      if IsTupleNotFoundErr err then mret tt
      else throw (ErrWrap "failed to delete group membership: " err)
    end
  else mret tt.
End members.

(** ** groupmembership_controller.go *)

Definition groupMembershipFinalizerKey : string := "iam.miloapis.com/groupmembership".
Definition ConditionTypeUserRefValid : string := "UserRefValid".
Definition ConditionTypeGroupRefValid : string := "GroupRefValid".
Definition groupMembershipUserRefIndexField : string := "groupmembership.userRef.name".
Definition groupMembershipGroupRefIndexField : string := "groupmembership.groupRef".

Definition gm_with_meta (gm : GroupMembership) (m : ObjectMeta) : GroupMembership :=
  mkGM m (gm_Spec gm) (gm_Status gm).

Section status.
Context `{StatusConditions}.

Definition gm_set_condition (gm : GroupMembership) (c : Condition) : GroupMembership :=
  mkGM (gm_Meta gm) (gm_Spec gm) (mkGMStatus (SetStatusCondition (gmst_Conditions (gm_Status gm)) c)).
End status.

Section controller.
Context {F K : Type} `{FgaClient F} `{KDynamic K} `{KClient K GroupMembership} `{KWriter K GroupMembership}
  `{Finalizers} `{StatusConditions} `{SemanticEquality GroupMembershipStatus} `{IAMKinds}.
Context (storeID : string).
Abbreviation Mw := (M (World F K)).

(** An object that is not found is the zero object. *)
Definition get_or_zero (gvk : GroupVersionKind) (key : NamespacedName) : Mw (option KObject) :=
  got ← try (on_k8s (d_Get gvk key));
  match got with
  | inl x => mret (Some x)
  | inr err => if IsNotFound err then mret None else throw err
  end.

Definition groupKey (spec : GroupMembershipSpec) : NamespacedName :=
  mkNN (gms_GroupRef_Namespace spec) (gms_GroupRef_Name spec).

Definition membership_request (user group : KObject) : GroupMembershipRequest :=
  mkMembershipRequest (om_Name (obj_Meta user)) (om_UID (obj_Meta group)).

(** [UserGroupFinalizer.Finalize]. *)
Definition membership_Finalize (gm : GroupMembership) : Mw unit :=
  user ← get_or_zero UserGVK (mkNN "" (gms_UserRef_Name (gm_Spec gm)));
  group ← get_or_zero GroupGVK (groupKey (gm_Spec gm));
  match user, group with
  | Some user, Some group =>
    if String.eqb (om_UID (obj_Meta group)) "" || String.eqb (om_UID (obj_Meta user)) "" then mret tt
    else RemoveMemberFromGroup storeID (membership_request user group)
  | _, _ => mret tt
  end.

(** The object, when it is found, and the membership with the condition. *)
Definition validateRef (gvk : GroupVersionKind) (key : NamespacedName) (conditionType : string)
    (gm : GroupMembership) : Mw (option KObject * GroupMembership) :=
  got ← try (on_k8s (d_Get gvk key));
  match got with
  | inr err =>
    if IsNotFound err then
      mret (None, gm_set_condition gm (mkCondition conditionType ConditionFalse ReasonValidationFailed
        ("Reference not found: " +:+ Error err) 0))
    else throw err
  | inl obj =>
    mret (Some obj, gm_set_condition gm (mkCondition conditionType ConditionTrue ReasonValidationSuccessful
      "Reference is valid." 0))
  end.

Definition update_membership_status (gm : GroupMembership) (oldStatus : GroupMembershipStatus) : Mw unit :=
  if negb (Semantic_DeepEqual oldStatus (gm_Status gm))
  then on_k8s (k_StatusUpdate gm) ;; mret tt
  else mret tt.

Definition membership_Reconcile (req : NamespacedName) : Mw Result :=
  got ← try (on_k8s (k_Get req));
  match got with
  | inr err => if IsNotFound err then mret done_result else throw err
  | inl gm =>
    let oldStatus := gm_Status gm in
    finalizeResult ← wrapf "failed to run finalizers for GroupMembership: "
      (Finalizers_Finalize groupMembershipFinalizerKey (membership_Finalize gm) (gm_Meta gm));
    let '(updated, meta) := finalizeResult in
    let gm := gm_with_meta gm meta in
    if updated : bool then on_k8s (k_Update gm) ;; mret requeue_result
    else
      match om_DeletionTimestamp meta with
      | Some _ => mret done_result
      | None =>
        userRef ← validateRef UserGVK (mkNN "" (gms_UserRef_Name (gm_Spec gm))) ConditionTypeUserRefValid gm;
        let (user, gm) := (userRef : option KObject * GroupMembership) in
        groupRef ← validateRef GroupGVK (groupKey (gm_Spec gm)) ConditionTypeGroupRefValid gm;
        let (group, gm) := (groupRef : option KObject * GroupMembership) in
        match user, group with
        | Some user, Some group =>
          wrapf "failed to write group membership tuple: "
            (AddMemberToGroup storeID (membership_request user group)) ;;
          update_membership_status
            (gm_set_condition gm (mkCondition "Ready" ConditionTrue "Reconciled"
               "Group membership successfully reconciled" 0)) oldStatus ;;
          mret done_result
        | _, _ =>
          update_membership_status
            (gm_set_condition gm (mkCondition "Ready" ConditionFalse "ReferenceInvalid"
               ("User and/or Group reference are invalid. See " +:+ ConditionTypeUserRefValid +:+ " and " +:+
                ConditionTypeGroupRefValid +:+ " conditions for details.") 0)) oldStatus ;;
          mret done_result
        end
      end
  end.

(** ** Which memberships a change concerns *)

Definition requests_for (field value : string) : M K (list NamespacedName) :=
  memberships ← try (k_ListField field value);
  mret match memberships with
       | inl items => map (λ gm, key_of (gm_Meta gm)) items
       | inr _ => []
       end.

Definition enqueueGroupMembershipsForUserChange (user : ObjectMeta) : M K (list NamespacedName) :=
  requests_for groupMembershipUserRefIndexField (om_Name user).

Definition enqueueGroupMembershipsForGroupChange (group : ObjectMeta) : M K (list NamespacedName) :=
  requests_for groupMembershipGroupRefIndexField (om_Namespace group +:+ "/" +:+ om_Name group).
End controller.

(** The two field indexes of [SetupWithManager]. *)
Definition GroupMembership_index (field : string) (gm : GroupMembership) : list string :=
  if String.eqb field groupMembershipUserRefIndexField then [gms_UserRef_Name (gm_Spec gm)]
  else if String.eqb field groupMembershipGroupRefIndexField then
    if negb (String.eqb (om_Namespace (gm_Meta gm)) (gms_GroupRef_Namespace (gm_Spec gm))) then []
    else [gms_GroupRef_Namespace (gm_Spec gm) +:+ "/" +:+ gms_GroupRef_Name (gm_Spec gm)]
  else [].
