(* ===== verification/GroupMembershipSpec.v ===== *)
(** * What the group membership controller guarantees *)

From S2P Require Import Prelude GoStrings GoErr Types Constants World Fga Tuples TuplesFacts.
From S2P Require Import ControllerEnv GroupMembership RefK8s RefObjects.
Local Open Scope Z_scope.

(** ** The membership tuple *)

Section members.
Context {F K : Type} `{FgaLaws F}.
Context (storeID : string).
Implicit Types w : World F K.

Abbreviation stored w := (fga_tuples (w_fga w) storeID).

(** A subject that the service reports as a group's member has its own tuple. *)
Definition members_are_stored (f : F) : Prop :=
  ∀ request, fga_allows f storeID ""
      (mkCheckKey (User (membership_tuple request)) (Relation (membership_tuple request)) (Object (membership_tuple request)))
    ↔ wc_of (membership_tuple request) ∈ dom (fga_tuples f storeID).

(** An error that says a tuple exists, or does not, is true of the store. *)
Definition write_errors_true (f : F) : Prop :=
  ∀ req e f' t, wr_StoreId req = storeID → fga_Write req f = (Err e, f') →
    (write_keys req = [t] → delete_keys req = [] → IsAlreadyExistsErr e = true → wc_of t ∈ dom (fga_tuples f' storeID)) ∧
    (write_keys req = [] → delete_keys req = [wc_of t] → IsTupleNotFoundErr e = true →
     wc_of t ∉ dom (fga_tuples f' storeID)).

Lemma check_run t w b w1 :
  wrapf "failed to check if GroupMember tuple key exists: " (checkIfTupleKeyExists storeID t) w = (Ok b, w1) →
  w1 = w ∧ (b = true ↔ fga_allows (w_fga w) storeID "" (mkCheckKey (User t) (Relation t) (Object t))).
Proof.
  intros E%wrapf_Ok. unfold checkIfTupleKeyExists in E. apply wrapf_Ok, on_fga_run in E as (f' & E & ->).
  pose proof (fga_Check_world (mkCheck storeID "" (mkCheckKey (User t) (Relation t) (Object t))) (w_fga w)) as HW.
  rewrite E in HW. simpl in HW. subst f'. rewrite mkWorld_eta. split; [done|].
  apply (fga_Check_Ok (mkCheck storeID "" (mkCheckKey (User t) (Relation t) (Object t)))). by rewrite E.
Qed.

(** Adding a member adds exactly its tuple. *)
Lemma AddMemberToGroup_Ok request w w' :
  members_are_stored (w_fga w) → write_errors_true (w_fga w) →
  AddMemberToGroup storeID request w = (Ok tt, w') →
  w_k8s w' = w_k8s w ∧
  ∀ k, k ∈ dom (stored w') ↔ k = wc_of (membership_tuple request) ∨ k ∈ dom (stored w).
Proof.
  intros Hm He (b & w1 & [-> Hb]%check_run & E)%bind_Ok. set (t := membership_tuple request) in *.
  destruct b; simpl in E.
  { injection E as <-. split; [done|]. assert (wc_of t ∈ dom (stored w)) by by apply Hm, Hb.
    intros k. split; [by right|]. by intros [-> |]. }
  apply bind_Ok in E as (id & w1 & Hid & E). injection Hid as <- <-.
  apply bind_Ok in E as (got & w1 & Hw & E).
  set (req := mkWrite storeID (ModelIDFrom (w_provider w)) (Some (mkWrites [t] "")) None) in *.
  unfold try, on_fga in Hw. destruct (fga_Write req (w_fga w)) as [o f'] eqn:Ew.
  assert (∀ k, k ∈ dom (apply_write req (stored w)) ↔ k = wc_of t ∨ k ∈ dom (stored w)) as Happ.
  { intros k. rewrite apply_write_dom. simpl. set_solver. }
  destruct o as [[]|e|]; simpl in Hw; [injection Hw as <- <-|injection Hw as <- <-|done].
  - injection E as <-. split; [done|]. apply fga_Write_Ok in Ew as [Et _]. simpl in *. by setoid_rewrite Et.
  - destruct (IsAlreadyExistsErr e) eqn:Ea; [|done]. injection E as <-. split; [done|]. simpl.
    destruct (He req e f' t eq_refl Ew) as [Hex _]. specialize (Hex eq_refl eq_refl Ea).
    apply fga_Write_Err in Ew as [[Et|Et] _].
    + rewrite Et in *. intros k. split; [by right|]. by intros [-> |].
    + simpl in Et. by setoid_rewrite Et.
Qed.

(** Removing a member removes exactly its tuple. *)
Lemma RemoveMemberFromGroup_Ok request w w' :
  members_are_stored (w_fga w) → write_errors_true (w_fga w) →
  RemoveMemberFromGroup storeID request w = (Ok tt, w') →
  w_k8s w' = w_k8s w ∧
  ∀ k, k ∈ dom (stored w') ↔ k ≠ wc_of (membership_tuple request) ∧ k ∈ dom (stored w).
Proof.
  intros Hm He (b & w1 & [-> Hb]%check_run & E)%bind_Ok. set (t := membership_tuple request) in *.
  destruct b.
  2:{ injection E as <-. split; [done|]. assert (wc_of t ∉ dom (stored w)) by (intros Hin%Hm%Hb; done).
      intros k. split; [|by intros [_ ?]]. intros Hk. split; [by intros -> |done]. }
  apply bind_Ok in E as (id & w1 & Hid & E). injection Hid as <- <-.
  apply bind_Ok in E as (got & w1 & Hw & E).
  set (req := mkWrite storeID (ModelIDFrom (w_provider w)) None
    (Some (mkDeletes (convertTuplesForDelete [t]) ""))) in *.
  unfold try, on_fga in Hw. destruct (fga_Write req (w_fga w)) as [o f'] eqn:Ew.
  assert (∀ k, k ∈ dom (apply_write req (stored w)) ↔ k ≠ wc_of t ∧ k ∈ dom (stored w)) as Happ.
  { intros k. rewrite apply_write_dom. simpl. set_solver. }
  destruct o as [[]|e|]; simpl in Hw; [injection Hw as <- <-|injection Hw as <- <-|done].
  - injection E as <-. split; [done|]. apply fga_Write_Ok in Ew as [Et _]. simpl in *. by setoid_rewrite Et.
  - destruct (IsTupleNotFoundErr e) eqn:Ea; [|done]. injection E as <-. split; [done|]. simpl.
    destruct (He req e f' t eq_refl Ew) as [_ Hno]. specialize (Hno eq_refl eq_refl Ea).
    apply fga_Write_Err in Ew as [[Et|Et] _].
    + rewrite Et in *. intros k. split; [|by intros [_ ?]]. intros Hk. split; [by intros -> |done].
    + simpl in Et. by setoid_rewrite Et.
Qed.
End members.

(** ** The controller *)

Section controller.
Context {F K : Type} `{FgaLaws F} `{KDynamicLaws K} `{KReadLaws K GroupMembership} `{KWriter K GroupMembership}
  `{!KStatusLaws K GroupMembership} `{FinalizersLaws} `{StatusConditionsLaws}
  `{SemanticEqualityLaws GroupMembershipStatus} `{IAMKinds}.
Context (storeID : string).
Implicit Types w : World F K.
Implicit Types gm : GroupMembership.
(** A membership's key is its namespace and name; a status update stores the status. *)
Context (Hkey : ∀ gm, k_key gm = key_of (gm_Meta gm))
  (Hstatus : ∀ old new, k_with_status old new = mkGM (gm_Meta old) (gm_Spec old) (gm_Status new)).

Abbreviation stored w := (fga_tuples (w_fga w) storeID).

(** The referenced user and group, as the API server has them. *)
Definition the_user w gm : option KObject :=
  d_view (w_k8s w) !! (UserGVK, mkNN "" (gms_UserRef_Name (gm_Spec gm))).
Definition the_group w gm : option KObject :=
  d_view (w_k8s w) !! (GroupGVK, groupKey (gm_Spec gm)).

Lemma validateRef_Ok gvk key ct gm w o gm' w1 :
  validateRef gvk key ct gm w = (Ok (o, gm'), w1) →
  w1 = w ∧ o = d_view (w_k8s w) !! (gvk, key) ∧
  ∃ c, gm' = gm_set_condition gm c ∧ c_Type c = ct ∧ (c_Status c = ConditionTrue ↔ is_Some o).
Proof.
  intros (got & w2 & [-> Hg]%d_get_run & E)%bind_Ok. destruct got as [x|e].
  - injection E as <- <- <-. split_and!; [done|by rewrite Hg|]. eexists. by split_and!.
  - destruct (IsNotFound e); [|done]. injection E as <- <- <-. split_and!; [done|by rewrite Hg|].
    eexists. split_and!; [done|done|]. simpl. split; [done|by intros []].
Qed.

Lemma get_or_zero_Ok gvk key w o w1 :
  get_or_zero gvk key w = (Ok o, w1) → w1 = w ∧ o = d_view (w_k8s w) !! (gvk, key).
Proof.
  intros (got & w2 & [-> Hg]%d_get_run & E)%bind_Ok. destruct got as [x|e].
  - injection E as <- <-. by rewrite Hg.
  - destruct (IsNotFound e); [|done]. injection E as <- <-. by rewrite Hg.
Qed.

Lemma update_membership_status_Ok gm old0 w w' :
  k_view (w_k8s w) !! key_of (gm_Meta gm) = Some old0 →
  update_membership_status gm (gm_Status old0) w = (Ok tt, w') →
  w_fga w' = w_fga w ∧
  k_view (w_k8s w') !! key_of (gm_Meta gm) = Some (mkGM (gm_Meta old0) (gm_Spec old0) (gm_Status gm)).
Proof.
  intros Hs. unfold update_membership_status. destruct (Semantic_DeepEqual (gm_Status old0) (gm_Status gm)) eqn:E; simpl.
  - intros [= <-]. split; [done|]. apply (proj1 (Semantic_DeepEqual_eq _ _)) in E. rewrite Hs, <- E. by destruct old0.
  - intros (y & w1 & Hu & Hr)%bind_Ok. injection Hr as <-. apply on_k8s_run in Hu as (k' & Hu & ->).
    apply k_StatusUpdate_Ok in Hu as (st & Hst & -> & Hv). rewrite Hkey, Hs in Hst. injection Hst as <-.
    simpl. split; [done|]. by rewrite Hv, Hkey, Hstatus, lookup_insert_eq.
Qed.

(** C23: A membership's tuple follows its references. After a reconcile of a live
    GroupMembership that returned no error, the member's tuple is in the store when
    both the user and the group exist, and no other tuple changed; when one is
    missing the store is as it was. The status says which: Ready exactly when both
    exist, and a condition for each reference. *)
Theorem membership_follows_references gm w w' res
  (Hstored : k_view (w_k8s w) !! key_of (gm_Meta gm) = Some gm)
  (Hlive : om_DeletionTimestamp (gm_Meta gm) = None)
  (Hfin : ContainsFinalizer (gm_Meta gm) groupMembershipFinalizerKey = true)
  (Hmembers : members_are_stored storeID (w_fga w)) (Herrors : write_errors_true storeID (w_fga w))
  (Hrun : membership_Reconcile storeID (key_of (gm_Meta gm)) w = (Ok res, w')) :
  (match the_user w gm, the_group w gm with
   | Some user, Some group =>
     ∀ k, k ∈ dom (stored w') ↔ k = wc_of (membership_tuple (membership_request user group)) ∨ k ∈ dom (stored w)
   | _, _ => w_fga w' = w_fga w
   end) ∧
  ∃ st, k_view (w_k8s w') !! key_of (gm_Meta gm) = Some (mkGM (gm_Meta gm) (gm_Spec gm) st) ∧
    (condition_true (gmst_Conditions st) "Ready" ↔ is_Some (the_user w gm) ∧ is_Some (the_group w gm)) ∧
    (condition_true (gmst_Conditions st) ConditionTypeUserRefValid ↔ is_Some (the_user w gm)) ∧
    (condition_true (gmst_Conditions st) ConditionTypeGroupRefValid ↔ is_Some (the_group w gm)).
Proof.
  unfold membership_Reconcile in Hrun. apply bind_Ok in Hrun as (got & w1 & Hg & Hrun).
  destruct (k_get_stored _ w gm Hstored) as [(e & He & Hn)|He]; rewrite He in Hg; injection Hg as <- <-;
    [by rewrite Hn in Hrun|].
  apply bind_Ok in Hrun as ([upd meta] & w1 & Hf & Hrun). apply wrapf_Ok in Hf.
  rewrite (Finalize_live _ _ _ _ _ Hlive Hfin) in Hf. injection Hf as <- <- <-. rewrite Hlive in Hrun.
  replace (gm_with_meta gm (gm_Meta gm)) with gm in Hrun by by destruct gm.
  apply bind_Ok in Hrun as ([user gm1] & w1 & Hu & Hrun). apply validateRef_Ok in Hu as (-> & Eu & cu & -> & Tu & Su).
  apply bind_Ok in Hrun as ([group gm2] & w1 & Hgr & Hrun). apply validateRef_Ok in Hgr as (-> & Eg & cg & -> & Tg & Sg).
  cbn [gm_set_condition gm_Spec] in Eg. fold (the_user w gm) in Eu. fold (the_group w gm) in Eg.
  rewrite <- Eu, <- Eg.
  assert (∀ cr w1, c_Type cr = "Ready" →
    update_membership_status (gm_set_condition (gm_set_condition (gm_set_condition gm cu) cg) cr) (gm_Status gm) w1 = (Ok tt, w') →
    k_view (w_k8s w1) = k_view (w_k8s w) →
    w_fga w' = w_fga w1 ∧
    ∃ st, k_view (w_k8s w') !! key_of (gm_Meta gm) = Some (mkGM (gm_Meta gm) (gm_Spec gm) st) ∧
      (condition_true (gmst_Conditions st) "Ready" ↔ c_Status cr = ConditionTrue) ∧
      (condition_true (gmst_Conditions st) ConditionTypeUserRefValid ↔ is_Some user) ∧
      (condition_true (gmst_Conditions st) ConditionTypeGroupRefValid ↔ is_Some group)) as Hst.
  { intros cr w1 Tr Hup Hv.
    apply (update_membership_status_Ok (gm_set_condition (gm_set_condition (gm_set_condition gm cu) cg) cr)) in Hup
      as [Hf Hup]; [|by rewrite Hv]. split; [done|]. eexists. split; [exact Hup|]. simpl. split_and!.
    - rewrite <- Tr. apply condition_set_same.
    - rewrite <- Su. rewrite condition_set_other by by rewrite Tr. rewrite condition_set_other by by rewrite Tg.
      rewrite <- Tu. apply condition_set_same.
    - rewrite <- Sg. rewrite condition_set_other by by rewrite Tr. rewrite <- Tg. apply condition_set_same. }
  destruct user as [user|], group as [group|].
  - apply bind_Ok in Hrun as ([] & w1 & Ha & Hrun). apply wrapf_Ok in Ha.
    apply AddMemberToGroup_Ok in Ha as [Hk Ha]; [|done..].
    apply bind_Ok in Hrun as ([] & w2 & Hup & Hrun). injection Hrun as _ ->.
    apply Hst in Hup as [Hf (st & ? & Hr & ?)]; [|done|by rewrite Hk]. rewrite Hf. split; [done|].
    exists st. split_and!; [done| |tauto..]. rewrite Hr. simpl. naive_solver.
  - apply bind_Ok in Hrun as ([] & w2 & Hup & Hrun). injection Hrun as _ ->.
    apply Hst in Hup as [Hf (st & ? & Hr & ?)]; [|done|done]. split; [done|].
    exists st. split_and!; [done| |tauto..]. rewrite Hr. simpl. split; [done|]. by intros [_ []].
  - apply bind_Ok in Hrun as ([] & w2 & Hup & Hrun). injection Hrun as _ ->.
    apply Hst in Hup as [Hf (st & ? & Hr & ?)]; [|done|done]. split; [done|].
    exists st. split_and!; [done| |tauto..]. rewrite Hr. simpl. split; [done|]. by intros [[] _].
  - apply bind_Ok in Hrun as ([] & w2 & Hup & Hrun). injection Hrun as _ ->.
    apply Hst in Hup as [Hf (st & ? & Hr & ?)]; [|done|done]. split; [done|].
    exists st. split_and!; [done| |tauto..]. rewrite Hr. simpl. split; [done|]. by intros [[] _].
Qed.
(** ** Deletion *)

Lemma keeps_membership_Finalize gm : keeps_k8s (membership_Finalize storeID gm).
Proof.
  unfold membership_Finalize, get_or_zero, RemoveMemberFromGroup, checkIfTupleKeyExists, wrapf, getModelID.
  solve_keeps.
Qed.

Lemma membership_Finalize_fuel gm w : (membership_Finalize storeID gm w).1 ≠ OutOfFuel.
Proof.
  assert (∀ gvk key w, (get_or_zero (F := F) gvk key w).1 ≠ OutOfFuel) as Hg.
  { intros gvk key w1. apply bind_fuel; [rewrite try_fuel, on_k8s_fst; apply d_Get_result|].
    intros [x|e] w2 _; [done|]. by destruct (IsNotFound e). }
  apply bind_fuel; [apply Hg|]. intros user w1 _. apply bind_fuel; [apply Hg|]. intros group w2 _.
  destruct user, group; [|done..]. destruct (_ || _); [done|]. apply bind_fuel.
  - unfold checkIfTupleKeyExists, wrapf. rewrite !map_err_fuel, on_fga_fst. apply fga_Check_result.
  - intros [|] w3 _; [|done]. apply bind_fuel; [done|]. intros id w4 _.
    apply bind_fuel; [rewrite try_fuel, on_fga_fst; apply fga_Write_result|].
    intros [[]|e] w5 _; [done|]. by destruct (IsTupleNotFoundErr e).
Qed.

(** What the cleanup of a membership does when it succeeds. *)
Lemma membership_Finalize_Ok gm w w' :
  members_are_stored storeID (w_fga w) → write_errors_true storeID (w_fga w) →
  membership_Finalize storeID gm w = (Ok tt, w') →
  match the_user w gm, the_group w gm with
  | Some user, Some group =>
    om_UID (obj_Meta user) ≠ "" → om_UID (obj_Meta group) ≠ "" →
    ∀ k, k ∈ dom (stored w') ↔ k ≠ wc_of (membership_tuple (membership_request user group)) ∧ k ∈ dom (stored w)
  | _, _ => w_fga w' = w_fga w
  end.
Proof.
  intros Hm He (user & w1 & [-> Hu]%get_or_zero_Ok & E)%bind_Ok.
  apply bind_Ok in E as (group & w1 & [-> Hg]%get_or_zero_Ok & E).
  fold (the_user w gm) in Hu. fold (the_group w gm) in Hg. rewrite <- Hu, <- Hg.
  destruct user as [user|], group as [group|]; [|by injection E as <-..].
  intros Hu1 Hg1. rewrite (proj2 (String.eqb_neq _ "") Hu1), (proj2 (String.eqb_neq _ "") Hg1) in E. simpl in E.
  by apply RemoveMemberFromGroup_Ok in E as [_ ?].
Qed.

(** C24: A deleted membership gives its tuple back before it goes. Reconciling a
    GroupMembership that is being deleted either fails and does not write it, or
    writes it without the finalizer after removing the member's tuple, and nothing
    else, when both the user and the group still exist. *)
Theorem membership_deletion_revokes gm w o w'
  (Hstored : k_view (w_k8s w) !! key_of (gm_Meta gm) = Some gm)
  (Hdel : om_DeletionTimestamp (gm_Meta gm) ≠ None)
  (Hfin : ContainsFinalizer (gm_Meta gm) groupMembershipFinalizerKey = true)
  (Hmembers : members_are_stored storeID (w_fga w)) (Herrors : write_errors_true storeID (w_fga w))
  (Hrun : membership_Reconcile storeID (key_of (gm_Meta gm)) w = (o, w')) :
  (w_k8s w' = w_k8s w ∧ ∃ e, o = Err e) ∨
  (w_k8s w' = (k_Update (gm_with_meta gm (remove_finalizer (gm_Meta gm) groupMembershipFinalizerKey)) (w_k8s w)).2 ∧
   match the_user w gm, the_group w gm with
   | Some user, Some group =>
     om_UID (obj_Meta user) ≠ "" → om_UID (obj_Meta group) ≠ "" →
     ∀ k, k ∈ dom (stored w') ↔ k ≠ wc_of (membership_tuple (membership_request user group)) ∧ k ∈ dom (stored w)
   | _, _ => w_fga w' = w_fga w
   end).
Proof.
  unfold membership_Reconcile in Hrun.
  destruct (k_get_stored _ w gm Hstored) as [(e & He & Hn)|He]; rewrite (bind_run_Ok _ _ _ _ _ He) in Hrun.
  { rewrite Hn in Hrun. injection Hrun as <- <-. left. eauto. }
  pose proof (keeps_membership_Finalize gm w) as Hk.
  set (fin := Finalizers_Finalize groupMembershipFinalizerKey (membership_Finalize storeID gm) (gm_Meta gm)) in *.
  destruct (fin w) as [fo wf] eqn:Ef.
  assert (wrapf "failed to run finalizers for GroupMembership: " fin w =
    match fo with Err e => (Err (ErrWrap "failed to run finalizers for GroupMembership: " e), wf) | _ => (fo, wf) end) as Hw
    by (rewrite wrapf_run, Ef; by destruct fo).
  apply Finalize_deleting in Ef as [[Ef ->]|[(e & e' & Ef & ->)|Ef]]; [| |by apply membership_Finalize_fuel in Ef|done|done];
    rewrite Ef in Hk; simpl in Hk.
  - rewrite (bind_run_Ok _ _ _ _ _ Hw) in Hrun. right.
    pose proof (membership_Finalize_Ok gm w wf Hmembers Herrors Ef) as Hspec.
    apply bind_inv in Hrun as (ou & w2 & Hu & Hrun).
    assert (w' = w2) as -> by (destruct Hrun as [(y & _ & Hrun)|[_ ->]]; [by injection Hrun|done]).
    apply on_k8s_run in Hu as (k' & Hu & ->). simpl. rewrite Hk in Hu. rewrite Hu. split; [done|exact Hspec].
  - rewrite (bind_run_Err _ _ _ _ _ Hw) in Hrun. injection Hrun as <- <-. left. eauto.
Qed.
End controller.

(** ** Examples *)

#[export] Instance ref_GM_client : KClient RefK8s GroupMembership :=
  ref_client rk_memberships GroupMembership_index "groupmemberships".
#[export] Instance ref_GM_laws : KReadLaws RefK8s GroupMembership :=
  ref_laws rk_memberships GroupMembership_index "groupmemberships".

#[export] Instance ref_GM_status : KStatusLaws RefK8s GroupMembership :=
  ref_status_laws rk_memberships set_rk_memberships _ "groupmemberships" gm_Meta ref_gm_status (λ _ _, eq_refl).

Lemma ref_gm_key (gm : GroupMembership) : k_key (K := RefK8s) gm = key_of (gm_Meta gm).
Proof. reflexivity. Qed.
Lemma ref_gm_with_status (old new : GroupMembership) :
  k_with_status (K := RefK8s) old new = mkGM (gm_Meta old) (gm_Spec old) (gm_Status new).
Proof. reflexivity. Qed.

Lemma ref_members_are_stored s f : members_are_stored s (f : RefStore).
Proof. done. Qed.
Lemma ref_write_errors_true s (f : RefStore) : rs_down f = None → write_errors_true s f.
Proof. intros E req e f' t _ Hw. simpl in Hw. unfold rs_up in Hw. by rewrite E in Hw. Qed.

Definition ex_gm (name : string) (deleting : option Z) : GroupMembership :=
  mkGM (mkObjectMeta name "iam" name 1 deleting [groupMembershipFinalizerKey] [])
    (mkGMSpec "alice" "admins" "iam") (mkGMStatus []).
Definition ex_gm_user (uid : string) : KObject := mkKObject UserGVK (mkObjectMeta "alice" "" uid 1 None [] []) "1".
Definition ex_gm_group : KObject := mkKObject GroupGVK (mkObjectMeta "admins" "iam" "uid-admins" 1 None [] []) "1".
Definition ex_gm_key : TupleKeyWithoutCondition :=
  mkTupleWC "iam.miloapis.com/InternalUser:alice" "member" "iam.miloapis.com/InternalUserGroup:uid-admins".
Definition ex_gm_world (ts : tuple_map) (gms : list GroupMembership) (objects : list KObject) : World RefStore RefK8s :=
  mkWorld (mkRefStore ts [] 0 None) (mkRefK8s ∅ ∅ ∅ (by_key gm_Meta gms) (by_obj_key objects) None) None.

Definition ex_gm_run (w : World RefStore RefK8s) (name : string) : outcome Result * World RefStore RefK8s :=
  membership_Reconcile "store" (mkNN "iam" name) w.
Definition ex_gm_live : World RefStore RefK8s := ex_gm_world ∅ [ex_gm "m" None] [ex_gm_user "uid-alice"; ex_gm_group].
Definition ex_gm_dying : World RefStore RefK8s :=
  ex_gm_world {[ ex_gm_key := None ]} [ex_gm "m" (Some 9)] [ex_gm_user "uid-alice"; ex_gm_group].

Lemma membership_follows_references_witness :
  ex_gm_key ∈ dom (rs_tuples (w_fga (ex_gm_run ex_gm_live "m").2)) ∧
  ∃ st, condition_true (gmst_Conditions st) "Ready".
Proof.
  destruct (membership_follows_references (F := RefStore) (K := RefK8s) "store" ref_gm_key ref_gm_with_status
    (ex_gm "m" None) ex_gm_live (ex_gm_run ex_gm_live "m").2 done_result) as [HA (st & _ & HR & _)].
  - vm_compute. reflexivity.
  - reflexivity.
  - vm_compute. reflexivity.
  - apply ref_members_are_stored.
  - apply ref_write_errors_true. reflexivity.
  - apply run_ok. vm_compute. reflexivity.
  - assert (the_user ex_gm_live (ex_gm "m" None) = Some (ex_gm_user "uid-alice")) as Eu by (vm_compute; reflexivity).
    assert (the_group ex_gm_live (ex_gm "m" None) = Some ex_gm_group) as Eg by (vm_compute; reflexivity).
    rewrite Eu, Eg in HA, HR. split; [apply HA; left; reflexivity|]. exists st. apply HR. split; by eexists.
Defined.

Lemma membership_deletion_revokes_witness :
  ex_gm_key ∉ dom (rs_tuples (w_fga (ex_gm_run ex_gm_dying "m").2)).
Proof.
  assert (is_ok (ex_gm_run ex_gm_dying "m").1 = true) as Hok by (vm_compute; reflexivity).
  destruct (membership_deletion_revokes (F := RefStore) (K := RefK8s) "store"
    (ex_gm "m" (Some 9)) ex_gm_dying (ex_gm_run ex_gm_dying "m").1 (ex_gm_run ex_gm_dying "m").2) as [[_ (e & He)]|[_ HA]].
  - vm_compute. reflexivity.
  - done.
  - vm_compute. reflexivity.
  - apply ref_members_are_stored.
  - apply ref_write_errors_true. reflexivity.
  - apply surjective_pairing.
  - exfalso. rewrite He in Hok. discriminate Hok.
  - assert (the_user ex_gm_dying (ex_gm "m" (Some 9)) = Some (ex_gm_user "uid-alice")) as Eu by (vm_compute; reflexivity).
    assert (the_group ex_gm_dying (ex_gm "m" (Some 9)) = Some ex_gm_group) as Eg by (vm_compute; reflexivity).
    rewrite Eu, Eg in HA. intros Hin. apply HA in Hin as [Hne _]; [|done..]. apply Hne. reflexivity.
Defined.

(** A membership whose user is already gone is released with its tuple still in
    the store: the tuple names the user by name, so a new user of that name is a
    member again without any GroupMembership. *)
Definition ex_gm_orphan : World RefStore RefK8s :=
  ex_gm_world {[ ex_gm_key := None ]} [ex_gm "m" (Some 9)] [ex_gm_group].
Example membership_outlives_user :
  let w := (ex_gm_run ex_gm_orphan "m").2 in
  rk_memberships (w_k8s w) = ∅ ∧ ex_gm_key ∈ dom (rs_tuples (w_fga w)).
Proof. split; [vm_compute; reflexivity|apply (bool_decide_unpack _); vm_compute; exact I]. Qed.

(** Two memberships of one user in one group share a tuple: deleting one takes it
    away from the other. *)
Definition ex_gm_two : World RefStore RefK8s :=
  ex_gm_world {[ ex_gm_key := None ]} [ex_gm "m" (Some 9); ex_gm "n" None] [ex_gm_user "uid-alice"; ex_gm_group].
Example shared_membership_lost :
  let w := (ex_gm_run ex_gm_two "m").2 in
  is_Some (rk_memberships (w_k8s w) !! mkNN "iam" "n") ∧ ex_gm_key ∉ dom (rs_tuples (w_fga w)).
Proof. split; [vm_compute; eauto|apply (bool_decide_unpack _); vm_compute; exact I]. Qed.
