(* ===== verification/SystemGroup.v ===== *)
(** * [internal/controller/systemgroup_controller.go]: the system:authenticated group

    Every User and ServiceAccount is a member of system:authenticated by a stored
    tuple, from when it has the controller's finalizer until it is deleted. *)

From S2P Require Import Prelude GoStrings GoErr Types World Fga Tuples ControllerEnv GroupMembership.
Local Open Scope Z_scope.

Definition systemGroupFinalizerKey : string := "iam.miloapis.com/system-group-membership".
Definition systemAuthenticatedGroup : string := "system_authenticated".

(** The typed objects the controller reconciles. *)
Inductive principal :=
| PUser (x : KObject)
| PServiceAccount (x : KObject).

Definition principal_object (p : principal) : KObject :=
  match p with PUser x | PServiceAccount x => x end.
Definition principal_with (p : principal) (x : KObject) : principal :=
  match p with PUser _ => PUser x | PServiceAccount _ => PServiceAccount x end.

Definition systemGroupTupleKey (p : principal) : TupleKey :=
  let identityToken := match p with
                       | PUser x => om_Name (obj_Meta x)
                       | PServiceAccount x => om_UID (obj_Meta x)
                       end in
  mkTuple ("iam.miloapis.com/InternalUser:" +:+ identityToken) "member"
    ("iam.miloapis.com/InternalUserGroup:" +:+ systemAuthenticatedGroup) None.

Section controller.
Context {F K : Type} `{FgaClient F} `{KDynamic K} `{IAMKinds}.
Context (storeID : string).
Abbreviation Mw := (M (World F K)).

Definition systemGroupTupleExists (t : TupleKey) : Mw bool :=
  resp ← on_fga (fga_Read (mkRead storeID "" (Some 1) (mkReadKey (User t) (Relation t) (Object t))));
  mret (0 <? length (rd_Tuples resp))%nat.

(** A read that fails does not keep the tuple from being written. *)
Definition writeSystemGroupTuple (p : principal) : Mw unit :=
  let t := systemGroupTupleKey p in
  exists_ ← try (systemGroupTupleExists t);
  match exists_ with
  | inl true => mret tt
  | _ =>
    modelID ← getModelID;
    result ← try (on_fga (fga_Write (mkWrite storeID modelID (Some (mkWrites [t] "")) None)));
    match result with
    | inl _ => mret tt
    | inr err =>
      if IsAlreadyExistsErr err then mret tt
      else throw (ErrWrap ("failed to write system group membership tuple for " +:+
                           om_Name (obj_Meta (principal_object p)) +:+ ": ") err)
    end
  end.

Definition deleteSystemGroupTuple (p : principal) : Mw unit :=
  let t := systemGroupTupleKey p in
  modelID ← getModelID;
  result ← try (on_fga (fga_Write (mkWrite storeID modelID None
    (Some (mkDeletes [mkTupleWC (User t) (Relation t) (Object t)] "")))));
  match result with
  | inl _ => mret tt
  | inr err =>
    if IsTupleNotFoundErr err then mret tt
    else throw (ErrWrap ("failed to delete system group membership tuple for " +:+
                         om_Name (obj_Meta (principal_object p)) +:+ ": ") err)
  end.

Definition principal_text (p : principal) : string :=
  gvk_Kind (obj_GVK (principal_object p)) +:+ " " +:+ om_Name (obj_Meta (principal_object p)).

Definition system_handleDeletion (p : principal) : Mw Result :=
  let x := principal_object p in
  if negb (ContainsFinalizer (obj_Meta x) systemGroupFinalizerKey) then mret done_result
  else
    deleteSystemGroupTuple p ;;
    wrapf ("failed to remove finalizer from " +:+ principal_text p +:+ ": ")
      (on_k8s (d_Update (obj_with_meta x (remove_finalizer (obj_Meta x) systemGroupFinalizerKey)))) ;;
    mret done_result.

Definition reconcileObject (p : principal) : Mw Result :=
  let x := principal_object p in
  match om_DeletionTimestamp (obj_Meta x) with
  | Some _ => system_handleDeletion p
  | None =>
    if negb (ContainsFinalizer (obj_Meta x) systemGroupFinalizerKey) then
      wrapf ("failed to add finalizer to " +:+ principal_text p +:+ ": ")
        (on_k8s (d_Update (obj_with_meta x (add_finalizer (obj_Meta x) systemGroupFinalizerKey)))) ;;
      mret requeue_result
    else
      writeSystemGroupTuple p ;;
      mret done_result
  end.

Definition reconcileUser (req : NamespacedName) : Mw Result :=
  got ← try (on_k8s (d_Get UserGVK req));
  match got with
  | inr err => if IsNotFound err then mret done_result else throw err
  | inl user => reconcileObject (PUser user)
  end.

Definition reconcileServiceAccount (req : NamespacedName) : Mw Result :=
  got ← try (on_k8s (d_Get ServiceAccountGVK req));
  match got with
  | inr err => if IsNotFound err then mret done_result else throw err
  | inl sa => reconcileObject (PServiceAccount sa)
  end.
End controller.

(** [reconcileServiceAccountMultiCluster]: the same against the API server of the
    cluster the request names; [GetCluster] and [set_cluster] reach it among the
    clusters [C] of the multicluster manager. *)
Section clusters.
Context {F K C : Type} `{FgaClient F} `{KDynamic K} `{IAMKinds}.
Context (GetCluster : string → C → outcome K) (set_cluster : string → K → C → C).

Definition reconcileServiceAccountMultiCluster (storeID ClusterName : string) (req : NamespacedName) :
    M (World F C) Result := λ w,
  match outcome_map_err (ErrWrap ("failed to get cluster " +:+ ClusterName +:+ " from manager: "))
          (GetCluster ClusterName (w_k8s w)) with
  | Ok k =>
    let (o, w') := reconcileServiceAccount storeID req (mkWorld (w_fga w) k (w_provider w)) in
    (o, mkWorld (w_fga w') (set_cluster ClusterName (w_k8s w') (w_k8s w)) (w_provider w'))
  | Err e => (Err e, w)
  | OutOfFuel => (OutOfFuel, w)
  end.
End clusters.
