(* ===== verification/SystemGroupSpec.v ===== *)
(** * What the system group controller guarantees *)

From S2P Require Import Prelude GoStrings GoErr Types World Fga Tuples TuplesFacts ControllerEnv.
From S2P Require Import GroupMembership GroupMembershipSpec SystemGroup RefK8s RefObjects.
Local Open Scope Z_scope.

Section spec.
Context {F K : Type} `{FgaLaws F} `{KDynamicLaws K} `{IAMKinds}.
Context (storeID : string).
Implicit Types w : World F K.

Abbreviation stored w := (fga_tuples (w_fga w) storeID).
Abbreviation tuple_key p := (wc_of (systemGroupTupleKey p)).

(** One page of one tuple tells whether the tuple is stored. *)
Lemma systemGroupTupleExists_run p w b w1 :
  systemGroupTupleExists storeID (systemGroupTupleKey p) w = (Ok b, w1) →
  w1 = w ∧ (b = true ↔ tuple_key p ∈ dom (stored w)).
Proof.
  set (t := systemGroupTupleKey p). set (key := mkReadKey (User t) (Relation t) (Object t)).
  intros (resp & w2 & Hr & E)%bind_Ok. injection E as <- <-. apply on_fga_run in Hr as (f' & Hr & ->).
  pose proof (fga_Read_world (mkRead storeID "" (Some 1) key) (w_fga w)) as HW. fold t key in Hr. rewrite Hr in HW.
  simpl in HW. subst f'. rewrite mkWorld_eta. split; [done|].
  destruct (fga_Read_start (w_fga w) storeID key) as (rest & Hc & Hrest).
  destruct (fga_Read_page (mkRead storeID "" (Some 1) key) (w_fga w) rest resp Hc) as (later & Hsplit & Hlater);
    [by rewrite Hr|].
  assert (∀ x, x ∈ rest ↔ stored w !! wc_of x = Some (TupleCondition x) ∧ wc_of x = wc_of t) as Hin.
  { intros x. rewrite Hrest, elem_of_matching. f_equiv. apply matches_exact; done. }
  rewrite Nat.ltb_lt. split.
  - intros Hlen. destruct (rd_Tuples resp) as [|x l]; [simpl in Hlen; lia|].
    destruct (proj1 (Hin x)) as [Hs <-]; [rewrite Hsplit; left|]. apply elem_of_dom. eauto.
  - intros [c Hs]%elem_of_dom. assert (tuple_of (wc_of t) c ∈ rest) as Hx by by apply Hin.
    destruct (rd_Tuples resp) as [|x l]; [|simpl; lia]. rewrite Hsplit in Hx.
    destruct Hlater as [[_ ->]|(_ & Hne & _)]; [by apply elem_of_nil in Hx|done].
Qed.

Lemma systemGroupTupleExists_reads t : reads (systemGroupTupleExists (K := K) storeID t).
Proof.
  unfold systemGroupTupleExists. apply reads_bind; [apply reads_on_fga; intros f; apply fga_Read_world|]. done.
Qed.

(** Writing the tuple: whatever was read before, the tuple is stored in the end and
    nothing else changed. *)
Lemma writeSystemGroupTuple_Ok p w w' :
  write_errors_true storeID (w_fga w) → writeSystemGroupTuple storeID p w = (Ok tt, w') →
  w_k8s w' = w_k8s w ∧ ∀ k, k ∈ dom (stored w') ↔ k = tuple_key p ∨ k ∈ dom (stored w).
Proof.
  intros He (ex & w1 & Hex & E)%bind_Ok.
  apply reads_inv in Hex as [-> Hex]; [|apply reads_try, systemGroupTupleExists_reads].
  apply (try_fst _ _ ex) in Hex.
  set (t := systemGroupTupleKey p) in *. cbv zeta in E.
  assert ((ex = inl true ∧ w' = w) ∨
    (getModelID ≫= (λ modelID, try (on_fga (fga_Write (mkWrite storeID modelID (Some (mkWrites [t] "")) None))) ≫= λ result,
       match result with
       | inl _ => mret tt
       | inr err => if IsAlreadyExistsErr err then mret tt
                    else throw (ErrWrap ("failed to write system group membership tuple for " +:+
                           om_Name (obj_Meta (principal_object p)) +:+ ": ") err)
       end)) w = (Ok tt, w')) as [[-> ->]|E'].
  { destruct ex as [[|]|err]; [left; by injection E|by right..]. }
  - assert (systemGroupTupleExists storeID t w = (Ok true, w)) as Hrun%systemGroupTupleExists_run.
    { pose proof (systemGroupTupleExists_reads t w) as HW. destruct (systemGroupTupleExists storeID t w).
      simpl in *. congruence. }
    split; [done|]. destruct Hrun as [_ Hb]. assert (tuple_key p ∈ dom (stored w)) by by apply Hb.
    intros k. split; [by right|]. by intros [-> |].
  - apply bind_Ok in E' as (id & w1 & Hid & E'). injection Hid as <- <-.
    apply bind_Ok in E' as (got & w1 & Hw & E').
    set (req := mkWrite storeID (ModelIDFrom (w_provider w)) (Some (mkWrites [t] "")) None) in *.
    unfold try, on_fga in Hw. destruct (fga_Write req (w_fga w)) as [o f'] eqn:Ew.
    assert (∀ k, k ∈ dom (apply_write req (stored w)) ↔ k = wc_of t ∨ k ∈ dom (stored w)) as Happ.
    { intros k. rewrite apply_write_dom. simpl. set_solver. }
    destruct o as [[]|e|]; simpl in Hw; [injection Hw as <- <-|injection Hw as <- <-|done].
    + injection E' as <-. split; [done|]. apply fga_Write_Ok in Ew as [Et _]. simpl in *. by setoid_rewrite Et.
    + destruct (IsAlreadyExistsErr e) eqn:Ea; [|done]. injection E' as <-. split; [done|]. simpl.
      destruct (He req e f' t eq_refl Ew) as [Hin _]. specialize (Hin eq_refl eq_refl Ea).
      apply fga_Write_Err in Ew as [[Et|Et] _].
      * rewrite Et in *. intros k. split; [by right|]. by intros [-> |].
      * simpl in Et. by setoid_rewrite Et.
Qed.

Lemma deleteSystemGroupTuple_Ok p w w' :
  write_errors_true storeID (w_fga w) → deleteSystemGroupTuple storeID p w = (Ok tt, w') →
  w_k8s w' = w_k8s w ∧ ∀ k, k ∈ dom (stored w') ↔ k ≠ tuple_key p ∧ k ∈ dom (stored w).
Proof.
  intros He (id & w1 & Hid & E)%bind_Ok. injection Hid as <- <-. set (t := systemGroupTupleKey p) in *.
  apply bind_Ok in E as (got & w1 & Hw & E).
  set (req := mkWrite storeID (ModelIDFrom (w_provider w)) None
    (Some (mkDeletes [mkTupleWC (User t) (Relation t) (Object t)] ""))) in *.
  unfold try, on_fga in Hw. destruct (fga_Write req (w_fga w)) as [o f'] eqn:Ew.
  assert (∀ k, k ∈ dom (apply_write req (stored w)) ↔ k ≠ wc_of t ∧ k ∈ dom (stored w)) as Happ.
  { intros k. rewrite apply_write_dom. simpl. set_solver. }
  destruct o as [[]|e|]; simpl in Hw; [injection Hw as <- <-|injection Hw as <- <-|done].
  - injection E as <-. split; [done|]. apply fga_Write_Ok in Ew as [Et _]. simpl in *. by setoid_rewrite Et.
  - destruct (IsTupleNotFoundErr e) eqn:Ea; [|done]. injection E as <-. split; [done|]. simpl.
    destruct (He req e f' t eq_refl Ew) as [_ Hno]. specialize (Hno eq_refl eq_refl Ea).
    apply fga_Write_Err in Ew as [[Et|Et] _].
    + rewrite Et in *. intros k. split; [|by intros [_ ?]]. intros Hk. split; [by intros -> |done].
    + simpl in Et. by setoid_rewrite Et.
Qed.

(** The tuple is given back, or the world is as it was but for the error. *)
Lemma deleteSystemGroupTuple_fuel p w : (deleteSystemGroupTuple (K := K) storeID p w).1 ≠ OutOfFuel.
Proof.
  unfold deleteSystemGroupTuple. apply bind_fuel; [done|]. intros id w1 _. apply bind_fuel.
  - rewrite try_fuel, on_fga_fst. apply fga_Write_result.
  - intros [[]|e] w2 _; [done|]. by destruct (IsTupleNotFoundErr e).
Qed.

Lemma keeps_deleteSystemGroupTuple p : keeps_k8s (deleteSystemGroupTuple (K := K) storeID p).
Proof. unfold deleteSystemGroupTuple, getModelID. solve_keeps. Qed.

Lemma keeps_writeSystemGroupTuple p : keeps_k8s (writeSystemGroupTuple (K := K) storeID p).
Proof. unfold writeSystemGroupTuple, systemGroupTupleExists, getModelID. solve_keeps. Qed.

(** The reconcile of the principal's own kind, and that kind. *)
Definition reconcile_principal (p : principal) (req : NamespacedName) : M (World F K) Result :=
  match p with
  | PUser _ => reconcileUser storeID req
  | PServiceAccount _ => reconcileServiceAccount storeID req
  end.
Definition principal_gvk (p : principal) : GroupVersionKind :=
  match p with PUser _ => UserGVK | PServiceAccount _ => ServiceAccountGVK end.

Lemma reconcile_principal_run p w o w' :
  d_view (w_k8s w) !! (principal_gvk p, key_of (obj_Meta (principal_object p))) = Some (principal_object p) →
  reconcile_principal p (key_of (obj_Meta (principal_object p))) w = (o, w') →
  (w' = w ∧ ∃ e, o = Err e) ∨ reconcileObject storeID p w = (o, w').
Proof.
  intros Hs Hrun.
  destruct (d_get_stored _ _ w _ Hs) as [(e & He & Hn)|He].
  - left. destruct p; simpl in *; unfold reconcileUser, reconcileServiceAccount in Hrun;
      rewrite (bind_run_Ok _ _ _ _ _ He), Hn in Hrun; injection Hrun as <- <-; eauto.
  - right. destruct p; simpl in *; unfold reconcileUser, reconcileServiceAccount in Hrun;
      by rewrite (bind_run_Ok _ _ _ _ _ He) in Hrun.
Qed.

(** C25: Membership of system:authenticated follows the principal's life. A
    reconcile of a stored User or ServiceAccount writes no tuple before the
    finalizer is on the object. With the finalizer on a live object, a reconcile
    that returns no error leaves the membership tuple in the store, changes no
    other tuple and nothing in Kubernetes. On an object being deleted, the
    reconcile either fails with the object as it was, or takes the membership
    tuple out, and no other, before it writes the object without the finalizer. *)
Theorem system_membership_lifecycle p w o w'
  (Hstored : d_view (w_k8s w) !! (principal_gvk p, key_of (obj_Meta (principal_object p))) =
             Some (principal_object p))
  (Herrors : write_errors_true storeID (w_fga w))
  (Hrun : reconcile_principal p (key_of (obj_Meta (principal_object p))) w = (o, w')) :
  let x := principal_object p in
  match ContainsFinalizer (obj_Meta x) systemGroupFinalizerKey, om_DeletionTimestamp (obj_Meta x) with
  | false, _ => w_fga w' = w_fga w
  | true, None =>
    w_k8s w' = w_k8s w ∧
    (is_ok o = true → ∀ k, k ∈ dom (stored w') ↔ k = tuple_key p ∨ k ∈ dom (stored w))
  | true, Some _ =>
    (w_k8s w' = w_k8s w ∧ ∃ e, o = Err e) ∨
    (w_k8s w' = (d_Update (obj_with_meta x (remove_finalizer (obj_Meta x) systemGroupFinalizerKey)) (w_k8s w)).2 ∧
     ∀ k, k ∈ dom (stored w') ↔ k ≠ tuple_key p ∧ k ∈ dom (stored w))
  end.
Proof.
  intros x. subst x. set (x := principal_object p) in *. pose proof (keeps_writeSystemGroupTuple p w) as Kw.
  pose proof (keeps_deleteSystemGroupTuple p w) as Kd. pose proof (deleteSystemGroupTuple_fuel p w) as Fd.
  set (fin := ContainsFinalizer (obj_Meta x) systemGroupFinalizerKey) in *.
  set (del := om_DeletionTimestamp (obj_Meta x)) in *.
  apply reconcile_principal_run in Hrun as [[-> (e & ->)]|Hrun]; [|unfold reconcileObject, system_handleDeletion in Hrun; fold x fin del in Hrun|done].
  { destruct fin, del; [left; eauto|by split|done..]. }
  destruct fin, del; simpl in Hrun.
  - destruct (deleteSystemGroupTuple storeID p w) as [[[]|e|] w1] eqn:Ed; [|left|done].
    + right. rewrite (bind_run_Ok _ _ _ _ _ Ed) in Hrun. simpl in Kd.
      apply deleteSystemGroupTuple_Ok in Ed as [_ Hd]; [|done].
      apply bind_inv in Hrun as (ou & w2 & Hu & Hrun).
      assert (w' = w2) as -> by (destruct Hrun as [(y & _ & Hrun)|[_ ->]]; [by injection Hrun|done]).
      pose proof (f_equal snd Hu) as Hs. unfold wrapf in Hs. rewrite map_err_snd in Hs. simpl in Hs. subst w2. simpl.
      rewrite Kd. split; [done|exact Hd].
    + rewrite (bind_run_Err _ _ _ _ _ Ed) in Hrun. injection Hrun as <- <-. eauto.
  - destruct (writeSystemGroupTuple storeID p w) as [o1 w1] eqn:Ew. unfold mbind, M_bind in Hrun. rewrite Ew in Hrun.
    simpl in Kw. destruct o1 as [[]|e|]; injection Hrun as <- <-; (split; [done|]); [intros _|by intros..].
    by apply writeSystemGroupTuple_Ok in Ew as [_ ?].
  - by injection Hrun as _ <-.
  - apply (keeps_run w_fga) in Hrun; [done|]. unfold wrapf. solve_keeps.
Qed.
End spec.

(** ** An example: a user is admitted, written, and revoked *)

Definition ex_sg_user (fins : list string) (deleting : option Z) : KObject :=
  mkKObject UserGVK (mkObjectMeta "alice" "" "uid-alice" 1 deleting fins []) "1".
Definition ex_sg_world (ts : tuple_map) (x : KObject) : World RefStore RefK8s :=
  mkWorld (mkRefStore ts [] 0 None) (mkRefK8s ∅ ∅ ∅ ∅ (by_obj_key [x]) None) None.
Definition ex_sg_live : World RefStore RefK8s := ex_sg_world ∅ (ex_sg_user [systemGroupFinalizerKey] None).
Definition ex_sg_other : TupleKeyWithoutCondition :=
  mkTupleWC "iam.miloapis.com/InternalUser:bob" "member" "iam.miloapis.com/InternalUserGroup:system_authenticated".
Definition ex_sg_dying : World RefStore RefK8s :=
  ex_sg_world {[ wc_of (systemGroupTupleKey (PUser (ex_sg_user [] None))) := None; ex_sg_other := None ]}
    (ex_sg_user [systemGroupFinalizerKey] (Some 9)).
Definition ex_sg_run (w : World RefStore RefK8s) : outcome Result * World RefStore RefK8s :=
  reconcileUser "store" (mkNN "" "alice") w.

Lemma system_membership_lifecycle_witness :
  wc_of (systemGroupTupleKey (PUser (ex_sg_user [] None))) ∈ dom (rs_tuples (w_fga (ex_sg_run ex_sg_live).2)) ∧
  ex_sg_other ∈ dom (rs_tuples (w_fga (ex_sg_run ex_sg_dying).2)) ∧
  wc_of (systemGroupTupleKey (PUser (ex_sg_user [] None))) ∉ dom (rs_tuples (w_fga (ex_sg_run ex_sg_dying).2)).
Proof.
  destruct (system_membership_lifecycle (F := RefStore) (K := RefK8s) "store"
    (PUser (ex_sg_user [systemGroupFinalizerKey] None)) ex_sg_live
    (ex_sg_run ex_sg_live).1 (ex_sg_run ex_sg_live).2) as [_ HL];
    [vm_compute; reflexivity|by apply ref_write_errors_true|apply surjective_pairing|].
  pose proof (λ H1 H2 H3, system_membership_lifecycle (F := RefStore) (K := RefK8s) "store"
    (PUser (ex_sg_user [systemGroupFinalizerKey] (Some 9))) ex_sg_dying
    (ex_sg_run ex_sg_dying).1 (ex_sg_run ex_sg_dying).2 H1 H2 H3) as HD.
  destruct HD as [[_ (e & He)]|[_ HD]];
    [vm_compute; reflexivity|by apply ref_write_errors_true|apply surjective_pairing| |].
  { exfalso. assert (is_ok (ex_sg_run ex_sg_dying).1 = true) as OD by (vm_compute; reflexivity).
    rewrite He in OD. discriminate OD. }
  split; [apply HL; [vm_compute; reflexivity|by left]|].
  split; [apply HD|intros Hin; apply HD in Hin as [Hin _]; by apply Hin].
  split; [discriminate|]. apply (bool_decide_unpack _). vm_compute. exact I.
Defined.
