(* ===== verification/AuthModelController.v ===== *)
(** * [internal/controller/authorizationmodel_controller.go]: the registrations' controller

    Every change of a ProtectedResource rebuilds the authorization model from all
    registrations; a deleted one is released once the model is rebuilt without it. *)

From S2P Require Import Prelude GoStrings GoErr Types World Fga ControllerEnv AuthModel.
Local Open Scope Z_scope.

Definition protectedResourceFinalizerKey : string := "iam.miloapis.com/protectedresource".

Definition pr_with_meta (pr : ProtectedResource) (m : ObjectMeta) : ProtectedResource :=
  mkPR m (pr_Spec pr) (pr_Status pr).
Definition pr_with_status (pr : ProtectedResource) (st : ProtectedResourceStatus) : ProtectedResource :=
  mkPR (pr_Meta pr) (pr_Spec pr) st.

Section controller.
Context {F K : Type} `{FgaClient F} `{KClient K ProtectedResource} `{KWriter K ProtectedResource}
  `{ConfigMapClient K} `{ModelCmp} `{Finalizers} `{StatusConditions} `{SemanticEquality ProtectedResourceStatus}.
(** The [modelBuilder] that [SetupWithManager] makes. *)
Context (r : AuthorizationModelReconciler).
Abbreviation Mw := (M (World F K)).

(** [ProtectedResourceFinalizer.Finalize]. *)
Definition pr_Finalize (pr : ProtectedResource) : Mw unit :=
  currentPRs ← wrapf "failed to list ProtectedResources during finalization: " (on_k8s k_List);
  let activePRs := List.filter (λ item, negb (String.eqb (om_UID (pr_Meta item)) (om_UID (pr_Meta pr)))) currentPRs in
  wrapf "failed to reconcile FGA model during finalization: " (ReconcileAuthorizationModel r activePRs).

Definition rebuildAuthorizationModel : Mw unit :=
  prList ← wrapf "failed to list ProtectedResources: " (on_k8s k_List);
  let active := List.filter (λ pr, match om_DeletionTimestamp (pr_Meta pr) with
                                   | None => true
                                   | Some _ => false
                                   end) prList in
  wrapf "failed to reconcile IAM authorization model: " (ReconcileAuthorizationModel r active).

Definition updateTriggeringPRStatus (pr : ProtectedResource) (oldStatus : ProtectedResourceStatus)
    (isSuccess : bool) (reasonForCondition messageForCondition : string) : Mw unit :=
  let conditionStatus := if isSuccess then ConditionTrue else ConditionFalse in
  let pr := pr_with_status pr (mkPRStatus (om_Generation (pr_Meta pr))
    (SetStatusCondition (prst_Conditions (pr_Status pr))
       (mkCondition "Ready" conditionStatus reasonForCondition messageForCondition 0))) in
  if negb (Semantic_DeepEqual oldStatus (pr_Status pr))
  then on_k8s (k_StatusUpdate pr) ;; mret tt
  else mret tt.

Definition reconcileProtectedResource (triggeringPR : ProtectedResource) : Mw Result :=
  if prst_ObservedGeneration (pr_Status triggeringPR) =? om_Generation (pr_Meta triggeringPR) then mret done_result
  else
    let oldStatus := pr_Status triggeringPR in
    rebuildAuthorizationModel ;;
    wrapf "failed to update ProtectedResource status: "
      (updateTriggeringPRStatus triggeringPR oldStatus true "IAMSystemConfigured"
         "Resource is configured to be protected by the IAM system.") ;;
    mret done_result.

(** A request without a name is the startup's. *)
Definition authorizationmodel_Reconcile (req : NamespacedName) : Mw Result :=
  if String.eqb (nn_Name req) "" then rebuildAuthorizationModel ;; mret done_result
  else
    got ← try (on_k8s (k_Get req));
    match got with
    | inr err => if IsNotFound err then mret done_result else throw err
    | inl triggeringPR =>
      finalizeResult ← wrapf "failed to run finalizers for ProtectedResource: "
        (Finalizers_Finalize protectedResourceFinalizerKey (pr_Finalize triggeringPR) (pr_Meta triggeringPR));
      let '(updated, meta) := finalizeResult in
      let triggeringPR := pr_with_meta triggeringPR meta in
      (if updated : bool then on_k8s (k_Update triggeringPR) ;; mret tt else mret tt) ;;
      match om_DeletionTimestamp meta with
      | Some _ => mret done_result
      | None => reconcileProtectedResource triggeringPR
      end
    end.
End controller.

(** ** What wakes the controller *)

(** The startup source adds one request, of no resource. *)
Definition authorizationModelStartupSource (queue : list NamespacedName) : list NamespacedName :=
  queue ++ [mkNN "" ""].

Definition deleting (pr : ProtectedResource) : bool :=
  match om_DeletionTimestamp (pr_Meta pr) with Some _ => true | None => false end.

(** [CreateFunc] and [UpdateFunc] of the predicate; [None] is an object of another type. *)
Definition predicate_CreateFunc (Object : option ProtectedResource) (IsInInitialList : bool) : bool :=
  match Object with
  | None => false
  | Some pr =>
    negb IsInInitialList ||
    negb (prst_ObservedGeneration (pr_Status pr) =? om_Generation (pr_Meta pr)) ||
    deleting pr ||
    negb (ContainsFinalizer (pr_Meta pr) protectedResourceFinalizerKey)
  end.

Definition predicate_UpdateFunc (ObjectOld ObjectNew : option ProtectedResource) : bool :=
  match ObjectOld, ObjectNew with
  | Some oldPR, Some newPR =>
    let deletionStarted := negb (deleting oldPR) && deleting newPR in
    let finalizerMissing :=
      negb (deleting newPR) && negb (ContainsFinalizer (pr_Meta newPR) protectedResourceFinalizerKey) in
    negb (om_Generation (pr_Meta oldPR) =? om_Generation (pr_Meta newPR)) || deletionStarted || finalizerMissing
  | _, _ => false
  end.
