(* ===== verification/AuthModelControllerSpec.v ===== *)
(** * What the registrations' controller guarantees *)

From S2P Require Import Prelude GoStrings GoErr Types Constants Permissions ResourceGraph ResourceGraphFacts ResourceGraphSpec.
From S2P Require Import World Fga Tuples TuplesFacts ControllerEnv AuthModel AuthModelFacts AuthModelSpec AuthModelController.
From S2P Require Import RefK8s RefObjects.
Local Open Scope Z_scope.

(** ** The types of the latest model *)

(** Reachability depends on the live registrations alone. *)
Lemma pr_reachable_mono prs1 prs2 ty :
  (∀ pr, live pr = true → pr ∈ prs1 → pr ∈ prs2) → pr_reachable prs1 ty → pr_reachable prs2 ty.
Proof.
  intros E (x & (pr & Hin & Hl & ?) & Hp). exists x. split; [exists pr; auto|].
  eapply rtc_subrel; [|exact Hp]. intros a b (q & Hq & Hlq & ?). exists q. auto.
Qed.

Lemma pr_reachable_live prs1 prs2 ty :
  (∀ pr, live pr = true → pr ∈ prs1 ↔ pr ∈ prs2) → pr_reachable prs1 ty ↔ pr_reachable prs2 ty.
Proof. intros E. split; apply pr_reachable_mono; intros pr Hl; by apply E. Qed.

Lemma expected_types r prs m ty :
  createExpectedAuthorizationModel r prs = Ok m → NoDup (live_types prs) → TypeRoot ∉ live_types prs →
  iamSystemType ty = false → ty ∈ map td_Type (am_TypeDefinitions m) ↔ pr_reachable prs ty.
Proof.
  intros Hm ND HR Hsys. unfold iamSystemType in Hsys. bool_prop. rewrite !String.eqb_neq in *.
  destruct (decide (prs = [])) as [->|Hne].
  - injection Hm as <-. simpl. rewrite !elem_of_cons, elem_of_nil. split; [naive_solver|].
    by intros (x & (? & []%elem_of_nil & _) & _).
  - destruct (createExpected_Ok r prs m Hm ND Hne) as (g & Hg & ->). cbn [am_TypeDefinitions]. split.
    + intros (td & Hin%elem_of_expectedTypes & ->)%elem_of_map.
      destruct Hin as [->|[->|[(ty & Hl)| ->]]]; [done|done| |by rewrite td_Type_root in *].
      apply type_definitions_lookup in Hl as (n & Hs & En & Hr & ->). rewrite td_Type_resource in *.
      apply getResourceGraph_Ok in Hg as (nodes & -> & Hf & Hroots).
      apply (graph_node_reachable _ (amr_EnableSubresourceAuthorization r) nodes); [done..|]. exists n. split; [|done].
      inversion Hs as [|? c ? Hc Hcm]; subst; [done|]. by exists c.
    + intros Hre. destruct (reachable_definition prs _ g Hg ND HR ty Hre) as (n & pr & _ & _ & _ & En & _ & Hin).
      apply elem_of_map. eexists. split; [exact Hin|]. by rewrite td_Type_resource.
Qed.

(** Of the types with a slash, the merge has those of the new model. *)
Lemma merged_slash_types current new ty :
  has_byte slash_byte ty = true →
  ty ∈ map td_Type (am_TypeDefinitions (mergeAuthorizationModels current new)) ↔ ty ∈ map td_Type (am_TypeDefinitions new).
Proof.
  intros Hs. unfold mergeAuthorizationModels. cbn [am_TypeDefinitions].
  set (keptTypes := List.filter kept (am_TypeDefinitions current)).
  assert (ty ∉ map td_Type keptTypes) as Hk.
  { intros (td & [_ Hk%kept_no_slash]%elem_of_List_filter & ->)%elem_of_map. congruence. }
  rewrite map_app, elem_of_app.
  destruct (addNewTypes_spec (list_to_set (map td_Type keptTypes)) (am_TypeDefinitions new)) as (_ & HB & HC). split.
  - intros [?|(td & [Hin _]%HB & ->)%elem_of_map]; [done|]. apply elem_of_map. eauto.
  - intros [?%elem_of_list_to_set|?]%HC; [done|by right].
Qed.

(** Two models that compare equal define the same types. *)
Definition cmp_same_types `{ModelCmp} : Prop :=
  ∀ a b, cmp_Equal a b = true →
    ∀ ty, ty ∈ map td_Type (am_TypeDefinitions a) ↔ ty ∈ map td_Type (am_TypeDefinitions b).

(** The types of the model the store has as its latest. *)
Definition latest_types {F} `{FgaLaws F} (f : F) (storeID ty : string) : Prop :=
  ∃ m, head (fga_models f storeID) = Some m ∧ ty ∈ map td_Type (am_TypeDefinitions m).

(** A type that registrations name. *)
Definition registrable (ty : string) : Prop := has_byte slash_byte ty = true ∧ iamSystemType ty = false.

Section reconcile.
Context {F K : Type} `{FgaLaws F} `{ConfigMapClient K} `{ModelCmp}.
Context (r : AuthorizationModelReconciler).
Implicit Types w : World F K.

Lemma reads_current :
  reads (wrapf "failed to get current authorization model: " (getCurrentAuthorizationModel r) : M (World F K) _).
Proof.
  unfold wrapf, getCurrentAuthorizationModel.
  apply reads_map_err, reads_bind; [apply reads_on_fga, latestAuthorizationModel_reads|done].
Qed.

Lemma current_Ok w cur :
  (getCurrentAuthorizationModel r w).1 = Ok cur → cur = default emptyModel (head (fga_models (w_fga w) (amr_StoreID r))).
Proof.
  unfold getCurrentAuthorizationModel. intros Hcur.
  apply bind_fst_reads in Hcur as (om & Hom & [= <-]); [|apply reads_on_fga, latestAuthorizationModel_reads].
  rewrite on_fga_fst in Hom. apply latestAuthorizationModel_Ok in Hom. by rewrite Hom.
Qed.

Lemma ReconcileAuthorizationModel_types prs w w' ty :
  cmp_same_types → NoDup (live_types prs) → TypeRoot ∉ live_types prs → registrable ty →
  ReconcileAuthorizationModel r prs w = (Ok tt, w') →
  latest_types (w_fga w') (amr_StoreID r) ty ↔ pr_reachable prs ty.
Proof.
  intros Hcmp ND HR [Hsl Hsys] E. unfold ReconcileAuthorizationModel in E.
  apply bind_reads_inv in E as [(cur & Hcur & E)|[_ [(? & ? & _)|[? _]]]]; [|done|done|exact reads_current].
  apply bind_reads_inv in E as [(new & Hnew & E)|[_ [(? & ? & _)|[? _]]]]; [|done|done|apply reads_map_err, reads_lift].
  rewrite wrapf_fst, lift_fst in Hnew. rewrite wrapf_fst in Hcur. apply current_Ok in Hcur.
  rewrite <- (expected_types r prs new ty Hnew ND HR Hsys), <- (merged_slash_types cur new ty Hsl).
  simpl in E. destruct (cmp_Equal cur _) eqn:Ec.
  - apply publish_fga in E. rewrite E. pose proof (Hcmp _ _ Ec) as HE. rewrite <- HE. unfold latest_types.
    destruct (head (fga_models (w_fga w) (amr_StoreID r))) as [m|]; simpl in Hcur; subst cur; [naive_solver|].
    change (map td_Type (am_TypeDefinitions emptyModel)) with (@nil string). rewrite elem_of_nil. naive_solver.
  - apply bind_Ok in E as (id & w3 & Hw & E). apply publish_fga in E. rewrite E.
    apply wrapf_Ok, on_fga_run in Hw as (f3 & Hw & ->). apply fga_WriteModel_Ok in Hw as [Hm _]. simpl in Hm.
    unfold latest_types. simpl. rewrite Hm. simpl. naive_solver.
Qed.
End reconcile.

(** ** The controller *)

Section controller.
Context {F K : Type} `{FgaLaws F} `{KReadLaws K ProtectedResource} `{KWriter K ProtectedResource}
  `{!KStatusLaws K ProtectedResource} `{ConfigMapClient K} `{ModelCmp} `{FinalizersLaws} `{StatusConditionsLaws}
  `{SemanticEqualityLaws ProtectedResourceStatus}.
Context (r : AuthorizationModelReconciler).
Implicit Types w : World F K.
Implicit Types pr : ProtectedResource.
(** Writing the ConfigMap leaves the registrations alone, and ends. *)
Context (Hcm : ∀ key f k, k_view (T := ProtectedResource) (cm_CreateOrUpdate key f k).2 = k_view k)
  (Hcm_ends : ∀ key f (k : K), (cm_CreateOrUpdate key f k).1 ≠ OutOfFuel)
  (Hkey : ∀ pr, k_key pr = key_of (pr_Meta pr))
  (Hstatus : ∀ old new, k_with_status old new = mkPR (pr_Meta old) (pr_Spec old) (pr_Status new))
  (Hcmp : cmp_same_types).

Abbreviation view w := (k_view (T := ProtectedResource) (w_k8s w)).

Definition registered w : list ProtectedResource := map snd (map_to_list (view w)).

(** Live registrations are of different types, none of them the root's. *)
Definition distinct_types w : Prop := NoDup (live_types (registered w)) ∧ TypeRoot ∉ live_types (registered w).

Lemma elem_of_registered w pr : pr ∈ registered w ↔ ∃ key, view w !! key = Some pr.
Proof.
  unfold registered. rewrite elem_of_map. split.
  - intros ([key x] & Hk%elem_of_map_to_list & ->). eauto.
  - intros (key & Hk). exists (key, pr). split; [by apply elem_of_map_to_list|done].
Qed.

Lemma publish_view id w o w' : publish r id w = (o, w') → view w' = view w.
Proof.
  intros E. apply (f_equal snd) in E. simpl in E. subst w'. unfold publish. case_match; [|done].
  unfold wrapf, writeModelIDToConfigMap, wrapf. rewrite !map_err_snd. apply Hcm.
Qed.

(** A rebuild from any part of the registrations leaves them alone. *)
Lemma ReconcileAuthorizationModel_view prs w o w' :
  ReconcileAuthorizationModel r prs w = (o, w') → view w' = view w.
Proof.
  intros E. unfold ReconcileAuthorizationModel in E.
  apply bind_reads_inv in E as [(cur & _ & E)|[-> _]]; [|done|exact (reads_current r)].
  apply bind_reads_inv in E as [(new & _ & E)|[-> _]]; [|done|apply reads_map_err, reads_lift].
  case_match; [by eapply publish_view|]. apply bind_inv in E as (o1 & w1 & Hw & E).
  assert (view w1 = view w) as <-.
  { apply (f_equal snd) in Hw. unfold wrapf in Hw. rewrite map_err_snd in Hw. simpl in Hw. by subst. }
  destruct E as [(id & _ & E)|[_ ->]]; [by eapply publish_view|done].
Qed.

Lemma ReconcileAuthorizationModel_fuel prs w : (ReconcileAuthorizationModel r prs w).1 ≠ OutOfFuel.
Proof.
  assert (∀ id w, (publish (F := F) r id w).1 ≠ OutOfFuel) as Hp.
  { intros id w1. unfold publish. case_match; [|done]. unfold wrapf, writeModelIDToConfigMap, wrapf.
    rewrite !map_err_fuel. apply Hcm_ends. }
  unfold ReconcileAuthorizationModel. apply bind_fuel; [|intros cur w1 _; apply bind_fuel; [|intros new w2 _]].
  - unfold wrapf, getCurrentAuthorizationModel. rewrite map_err_fuel. apply bind_fuel; [|done].
    apply latestAuthorizationModel_fuel.
  - unfold wrapf. rewrite map_err_fuel, lift_fst. unfold createExpectedAuthorizationModel. destruct prs as [|pr prs]; [done|].
    pose proof (getResourceGraph_no_fuel_error (sortedPRs (pr :: prs)) (amr_EnableSubresourceAuthorization r)).
    by destruct (getResourceGraph _ _).
  - case_match; [apply Hp|]. apply bind_fuel; [|intros; apply Hp]. unfold wrapf.
    rewrite map_err_fuel, on_fga_fst. apply fga_WriteModel_result.
Qed.

(** Listing, filtering and rebuilding, which both paths do. *)
Lemma rebuild_from p1 p2 (keep : ProtectedResource → bool) w w' ty :
  distinct_types w → registrable ty →
  (∀ pr, pr ∈ registered w → live pr = true → keep pr = true) →
  (prList ← wrapf p1 (on_k8s k_List);
   wrapf p2 (ReconcileAuthorizationModel r (List.filter keep prList))) w = (Ok tt, w') →
  latest_types (w_fga w') (amr_StoreID r) ty ↔ pr_reachable (registered w) ty.
Proof.
  intros [ND HR] Hty Hkeep (l & w1 & Hl & E)%bind_Ok. apply wrapf_Ok, on_k8s_run in Hl as (k1 & Hl & ->).
  pose proof (k_List_world (w_k8s w)) as HW. pose proof (k_List_Ok (w_k8s w) l) as HP. rewrite Hl in HW, HP.
  simpl in HW. subst k1. rewrite mkWorld_eta in E. specialize (HP eq_refl). fold (registered w) in HP.
  apply wrapf_Ok in E.
  assert (live_types (List.filter keep l) ≡ₚ live_types (registered w)) as P.
  { rewrite <- (live_types_perm _ _ HP). unfold live_types. f_equiv.
    assert (∀ pr, pr ∈ l → live pr = true → keep pr = true) as Hk by (intros pr Hin; apply Hkeep; by rewrite <- HP).
    clear -Hk. induction l as [|pr l IH]; [done|]. assert (∀ pr, pr ∈ l → live pr = true → keep pr = true) as Hk' by (intros; apply Hk; [by right|done]).
    specialize (IH Hk'). simpl. destruct (keep pr) eqn:Ek; simpl; [destruct (live pr); by rewrite IH|].
    destruct (live pr) eqn:El; [|done]. rewrite Hk in Ek; [done|left|done]. }
  rewrite (ReconcileAuthorizationModel_types r (List.filter keep l) w w' ty Hcmp); [|by rewrite P|by rewrite P|done|done].
  apply pr_reachable_live. intros pr Hl'. rewrite elem_of_List_filter, HP. naive_solver.
Qed.

Lemma rebuild_Ok w w' ty :
  distinct_types w → registrable ty → rebuildAuthorizationModel r w = (Ok tt, w') →
  latest_types (w_fga w') (amr_StoreID r) ty ↔ pr_reachable (registered w) ty.
Proof.
  intros HD Hty. apply rebuild_from; [done..|]. intros pr _. unfold live. by destruct (om_DeletionTimestamp _).
Qed.

Lemma pr_Finalize_Ok pr w w' ty :
  distinct_types w → registrable ty → om_DeletionTimestamp (pr_Meta pr) ≠ None →
  (∀ q, q ∈ registered w → om_UID (pr_Meta q) = om_UID (pr_Meta pr) → q = pr) →
  pr_Finalize r pr w = (Ok tt, w') →
  latest_types (w_fga w') (amr_StoreID r) ty ↔ pr_reachable (registered w) ty.
Proof.
  intros HD Hty Hdel Huid. apply rebuild_from; [done..|]. intros q Hq Hl. apply negb_true_iff, String.eqb_neq.
  intros E%Huid; [|done]. subst q. unfold live in Hl. by destruct (om_DeletionTimestamp _).
Qed.

Lemma list_then_view {A} p (f : list ProtectedResource → M (World F K) A) w o w' :
  (∀ l w o w', f l w = (o, w') → view w' = view w) →
  (wrapf p (on_k8s k_List) ≫= f) w = (o, w') → view w' = view w.
Proof.
  intros Hf E. apply bind_reads_inv in E as [(l & _ & E)|[-> _]]; [by eapply Hf|done|].
  unfold wrapf. apply reads_map_err, reads_on_k8s, reads_k_List.
Qed.

Lemma wrapf_view {A} p (m : M (World F K) A) :
  (∀ w o w', m w = (o, w') → view w' = view w) → ∀ w o w', wrapf p m w = (o, w') → view w' = view w.
Proof.
  intros Hm w o w' E. apply (f_equal snd) in E. unfold wrapf in E. rewrite map_err_snd in E. simpl in E. subst w'.
  destruct (m w) eqn:E. by eapply Hm.
Qed.

Lemma rebuild_view w o w' : rebuildAuthorizationModel r w = (o, w') → view w' = view w.
Proof. apply list_then_view. intros l. apply wrapf_view. intros ???. apply ReconcileAuthorizationModel_view. Qed.
Lemma pr_Finalize_view pr w o w' : pr_Finalize r pr w = (o, w') → view w' = view w.
Proof. apply list_then_view. intros l. apply wrapf_view. intros ???. apply ReconcileAuthorizationModel_view. Qed.

Lemma pr_Finalize_fuel pr w : (pr_Finalize r pr w).1 ≠ OutOfFuel.
Proof.
  unfold pr_Finalize, wrapf. apply bind_fuel; [rewrite map_err_fuel, on_k8s_fst; apply k_List_result|].
  intros l w1 _. rewrite map_err_fuel. apply ReconcileAuthorizationModel_fuel.
Qed.

Lemma updateTriggeringPRStatus_Ok pr old w w' :
  view w !! key_of (pr_Meta pr) = Some old → pr_Status pr = pr_Status old →
  updateTriggeringPRStatus pr (pr_Status old) true "IAMSystemConfigured"
    "Resource is configured to be protected by the IAM system." w = (Ok tt, w') →
  w_fga w' = w_fga w ∧
  ∃ pr', view w' !! key_of (pr_Meta pr) = Some pr' ∧
    prst_ObservedGeneration (pr_Status pr') = om_Generation (pr_Meta pr) ∧
    condition_true (prst_Conditions (pr_Status pr')) "Ready".
Proof.
  intros Hs Hst. unfold updateTriggeringPRStatus. set (c := mkCondition "Ready" _ _ _ _).
  assert (∀ l, condition_true (SetStatusCondition l c) "Ready") as Hc by (intros l; by apply (condition_set_same l c)).
  destruct (Semantic_DeepEqual (pr_Status old) _) eqn:E; simpl.
  - intros [= <-]. split; [done|]. apply (proj1 (Semantic_DeepEqual_eq _ _)) in E. exists old. split; [done|]. rewrite E. simpl. eauto.
  - intros (y & w1 & Hu & Hr)%bind_Ok. injection Hr as <-. apply on_k8s_run in Hu as (k' & Hu & ->). simpl. split; [done|].
    apply k_StatusUpdate_Ok in Hu as (st & Hst' & -> & Hv). rewrite Hkey in Hst', Hv. simpl in Hst'. rewrite Hs in Hst'.
    injection Hst' as <-. rewrite Hv, Hstatus. simpl. rewrite lookup_insert_eq. eexists. split; [done|]. simpl. eauto.
Qed.

(** C13: The model follows the registrations. After the startup request, or the
    reconcile of a live ProtectedResource of a generation not seen before,
    returned without an error, the store's latest model defines exactly the types
    that the registrations reach from a root (and OpenFGA's own types and the
    IAM system's): stale types are gone and no reached one is missing (a type whose
    declared parents are not registered is not reached). The registration reports the generation it was seen at and that it is Ready. *)
Theorem model_follows_registrations req w w' res
  (Hdistinct : distinct_types w)
  (Hreq : nn_Name req = "" ∨
    ∃ pr, req = key_of (pr_Meta pr) ∧ view w !! req = Some pr ∧ om_DeletionTimestamp (pr_Meta pr) = None ∧
      ContainsFinalizer (pr_Meta pr) protectedResourceFinalizerKey = true ∧
      prst_ObservedGeneration (pr_Status pr) ≠ om_Generation (pr_Meta pr))
  (Hrun : authorizationmodel_Reconcile r req w = (Ok res, w')) :
  (∀ ty, registrable ty → latest_types (w_fga w') (amr_StoreID r) ty ↔ pr_reachable (registered w) ty) ∧
  (nn_Name req ≠ "" → ∃ pr', view w' !! req = Some pr' ∧
    (∀ pr, view w !! req = Some pr → prst_ObservedGeneration (pr_Status pr') = om_Generation (pr_Meta pr)) ∧
    condition_true (prst_Conditions (pr_Status pr')) "Ready").
Proof.
  unfold authorizationmodel_Reconcile in Hrun. destruct (String.eqb_spec (nn_Name req) "") as [En|En].
  { apply bind_Ok in Hrun as ([] & w1 & Hr & Hrun). injection Hrun as _ ->. split; [|done].
    intros ty Hty. by apply rebuild_Ok. }
  destruct Hreq as [?|(pr & -> & Hs & Hlive & Hfin & Hgen)]; [done|].
  destruct (k_get_stored _ w pr Hs) as [(e & He & Hn)|He]; rewrite (bind_run_Ok _ _ _ _ _ He) in Hrun; [by rewrite Hn in Hrun|].
  apply bind_Ok in Hrun as ([upd meta] & w1 & Hf & Hrun). apply wrapf_Ok in Hf.
  rewrite (Finalize_live _ _ _ _ _ Hlive Hfin) in Hf. injection Hf as <- <- <-. rewrite Hlive in Hrun.
  replace (pr_with_meta pr (pr_Meta pr)) with pr in Hrun by by destruct pr.
  apply bind_Ok in Hrun as ([] & w1 & Hw & Hrun). injection Hw as <-. unfold reconcileProtectedResource in Hrun.
  rewrite (proj2 (Z.eqb_neq _ _) Hgen) in Hrun. apply bind_Ok in Hrun as ([] & w1 & Hr & Hrun).
  apply bind_Ok in Hrun as ([] & w2 & Hu & Hrun). injection Hrun as _ ->. apply wrapf_Ok in Hu.
  pose proof (rebuild_view _ _ _ Hr) as Hv.
  apply updateTriggeringPRStatus_Ok in Hu as [Hf (pr' & Hp & Hg & Hc)]; [|by rewrite Hv|done]. split.
  - intros ty Hty. rewrite Hf. by apply rebuild_Ok.
  - intros _. exists pr'. split_and!; [done| |done]. intros q Hq. rewrite Hs in Hq. by injection Hq as <-.
Qed.

(** C12: A registration is released only after its type is withdrawn. Reconciling a
    ProtectedResource that is being deleted either fails and leaves every
    registration as it was, or first makes the latest model define exactly the
    types that the other live registrations reach, and only then writes the
    object without the finalizer. *)
Theorem registration_deletion_withdraws pr w o w'
  (Hdistinct : distinct_types w)
  (Huid : ∀ q, q ∈ registered w → om_UID (pr_Meta q) = om_UID (pr_Meta pr) → q = pr)
  (Hname : om_Name (pr_Meta pr) ≠ "")
  (Hstored : view w !! key_of (pr_Meta pr) = Some pr)
  (Hdel : om_DeletionTimestamp (pr_Meta pr) ≠ None)
  (Hfin : ContainsFinalizer (pr_Meta pr) protectedResourceFinalizerKey = true)
  (Hrun : authorizationmodel_Reconcile r (key_of (pr_Meta pr)) w = (o, w')) :
  (view w' = view w ∧ ∃ e, o = Err e) ∨
  (∃ k1, k_view k1 = view w ∧
    w_k8s w' = (k_Update (pr_with_meta pr (remove_finalizer (pr_Meta pr) protectedResourceFinalizerKey)) k1).2 ∧
    ∀ ty, registrable ty → latest_types (w_fga w') (amr_StoreID r) ty ↔ pr_reachable (registered w) ty).
Proof.
  unfold authorizationmodel_Reconcile in Hrun. cbn [key_of nn_Name] in Hrun.
  rewrite (proj2 (String.eqb_neq _ _) Hname) in Hrun.
  destruct (k_get_stored _ w pr Hstored) as [(e & He & Hn)|He]; rewrite (bind_run_Ok _ _ _ _ _ He) in Hrun.
  { rewrite Hn in Hrun. injection Hrun as <- <-. left. eauto. }
  set (fin := Finalizers_Finalize protectedResourceFinalizerKey (pr_Finalize r pr) (pr_Meta pr)) in *.
  destruct (fin w) as [fo wf] eqn:Ef.
  assert (wrapf "failed to run finalizers for ProtectedResource: " fin w =
    match fo with Err e => (Err (ErrWrap "failed to run finalizers for ProtectedResource: " e), wf) | _ => (fo, wf) end) as Hw
    by (rewrite wrapf_run, Ef; by destruct fo).
  apply Finalize_deleting in Ef as [[Ef ->]|[(e & e' & Ef & ->)|Ef]]; [| |by apply pr_Finalize_fuel in Ef|done..].
  - rewrite (bind_run_Ok _ _ _ _ _ Hw) in Hrun. right. exists (w_k8s wf). split; [by eapply pr_Finalize_view|].
    change (om_DeletionTimestamp (remove_finalizer ?m _)) with (om_DeletionTimestamp m) in Hrun.
    destruct (om_DeletionTimestamp (pr_Meta pr)) as [t|] eqn:Ed; [|done].
    assert (w' = mkWorld (w_fga wf) (k_Update (pr_with_meta pr (remove_finalizer (pr_Meta pr) protectedResourceFinalizerKey))
      (w_k8s wf)).2 (w_provider wf)) as ->.
    { apply (f_equal snd) in Hrun. simpl in Hrun. subst w'. unfold mbind, M_bind, on_k8s.
      by destruct (k_Update _ (w_k8s wf)) as [[]]. }
    split; [done|]. intros ty Hty. apply (pr_Finalize_Ok pr w wf); try done. by rewrite Ed.
  - rewrite (bind_run_Err _ _ _ _ _ Hw) in Hrun. injection Hrun as <- <-. left. split; [by eapply pr_Finalize_view|eauto].
Qed.
End controller.

(** ** Examples *)

(** ConfigMaps are not among the reference server's objects. *)
#[export] Instance ref_ConfigMaps : ConfigMapClient RefK8s := {| cm_CreateOrUpdate _ _ k := (Ok tt, k) |}.

Lemma ref_cm_view key f (k : RefK8s) : k_view (T := ProtectedResource) (cm_CreateOrUpdate key f k).2 = k_view k.
Proof. reflexivity. Qed.
Lemma ref_cm_ends key f (k : RefK8s) : (cm_CreateOrUpdate key f k).1 ≠ OutOfFuel.
Proof. done. Qed.
Lemma ref_pr_key (pr : ProtectedResource) : k_key (K := RefK8s) pr = key_of (pr_Meta pr).
Proof. reflexivity. Qed.
Lemma ref_pr_with_status (old new : ProtectedResource) :
  k_with_status (K := RefK8s) old new = mkPR (pr_Meta old) (pr_Spec old) (pr_Status new).
Proof. reflexivity. Qed.

Definition ex_amc_pr (deleting : option Z) (svc kind plural : string) (parents : list ParentResourceRef) : ProtectedResource :=
  mkPR (mkObjectMeta plural "" ("uid-" +:+ plural) 1 deleting [protectedResourceFinalizerKey] [])
    (mkPRSpec svc kind plural ["get"] [] parents) (mkPRStatus 0 []).
Definition ex_amc_org : ProtectedResource := ex_amc_pr None "rm" "Organization" "organizations" [].
Definition ex_amc_project (deleting : option Z) : ProtectedResource :=
  ex_amc_pr deleting "rm" "Project" "projects" [mkParentRef "rm" "Organization"].
Definition ex_amc_world (deleting : option Z) (models : list AuthorizationModel) : World RefStore RefK8s :=
  mkWorld (mkRefStore ∅ models 1 None)
    (mkRefK8s ∅ ∅ (by_key pr_Meta [ex_amc_org; ex_amc_project deleting]) ∅ ∅ None) None.
#[local] Instance ex_amc_cmp : ModelCmp := ex_cmp.

Definition ex_amc_run (w : World RefStore RefK8s) (name : string) : outcome Result * World RefStore RefK8s :=
  authorizationmodel_Reconcile ex_amr (mkNN "" name) w.
Definition ex_amc_live : World RefStore RefK8s := ex_amc_world None [ex_current].
(** The world the first reconcile leaves, with the project now being deleted. *)
Definition ex_amc_dying : World RefStore RefK8s :=
  ex_amc_world (Some 9) (rs_models (w_fga (ex_amc_run ex_amc_live "projects").2)).

Lemma ex_cmp_same_types : cmp_same_types.
Proof. intros a b HE ty. unfold cmp_Equal, ex_amc_cmp, ex_cmp in HE. bool_prop. by match goal with E : _ = _ |- _ => rewrite E end. Qed.

Lemma ex_amc_registered deleting models :
  registered (ex_amc_world deleting models) ≡ₚ [ex_amc_org; ex_amc_project deleting].
Proof.
  unfold registered. etransitivity; [apply Permutation_map, map_to_list_to_map|reflexivity].
  apply (bool_decide_unpack _). vm_compute. exact I.
Qed.

Lemma ex_amc_distinct deleting models : distinct_types (ex_amc_world deleting models).
Proof.
  unfold distinct_types. rewrite !(live_types_perm _ _ (ex_amc_registered deleting models)).
  destruct deleting; split; apply (bool_decide_unpack _); vm_compute; exact I.
Qed.

Lemma ex_amc_reaches : pr_reachable (registered ex_amc_live) "rm/Project".
Proof.
  apply (pr_reachable_mono [ex_amc_org; ex_amc_project None]).
  { intros pr _. unfold ex_amc_live. by rewrite (ex_amc_registered None). }
  exists "rm/Organization". split; [exists ex_amc_org; split_and!; [left|done..]|].
  apply rtc_once. exists (ex_amc_project None). split_and!; [right; left|done|done| |done]. vm_compute. left.
Qed.

Lemma ex_amc_gone : ¬ pr_reachable (registered ex_amc_dying) "rm/Project".
Proof.
  intros Hr. apply (pr_reachable_mono _ [ex_amc_org; ex_amc_project (Some 9)]) in Hr.
  2:{ intros pr _. unfold ex_amc_dying. by rewrite (ex_amc_registered (Some 9)). }
  apply reachable_registered in Hr. revert Hr. apply (bool_decide_unpack _). vm_compute. exact I.
Qed.

Lemma model_follows_registrations_witness :
  latest_types (w_fga (ex_amc_run ex_amc_live "projects").2) "store" "rm/Project".
Proof.
  destruct (model_follows_registrations (F := RefStore) (K := RefK8s) ex_amr ref_cm_view ref_pr_key ref_pr_with_status
    ex_cmp_same_types (mkNN "" "projects") ex_amc_live (ex_amc_run ex_amc_live "projects").2 done_result) as [HT _].
  - apply ex_amc_distinct.
  - right. exists (ex_amc_project None). split_and!; [reflexivity|vm_compute; reflexivity|reflexivity|reflexivity|discriminate].
  - apply run_ok. vm_compute. reflexivity.
  - apply (HT "rm/Project"); [split; reflexivity|]. exact ex_amc_reaches.
Defined.

Lemma registration_deletion_withdraws_witness :
  ¬ latest_types (w_fga (ex_amc_run ex_amc_dying "projects").2) "store" "rm/Project".
Proof.
  assert (is_ok (ex_amc_run ex_amc_dying "projects").1 = true) as Hok by (vm_compute; reflexivity).
  destruct (registration_deletion_withdraws (F := RefStore) (K := RefK8s) ex_amr ref_cm_view ref_cm_ends
    ex_cmp_same_types (ex_amc_project (Some 9)) ex_amc_dying (ex_amc_run ex_amc_dying "projects").1
    (ex_amc_run ex_amc_dying "projects").2) as [[_ (e & He)]|(k1 & _ & _ & HT)].
  - apply ex_amc_distinct.
  - intros q Hq. unfold ex_amc_dying in Hq. rewrite (ex_amc_registered (Some 9)) in Hq.
    apply elem_of_cons in Hq as [->|[->|[]%elem_of_nil]%elem_of_cons]; [intros E; discriminate E|reflexivity].
  - discriminate.
  - vm_compute. reflexivity.
  - done.
  - reflexivity.
  - apply surjective_pairing.
  - exfalso. rewrite He in Hok. discriminate Hok.
  - intros Hl. apply HT in Hl; [by apply ex_amc_gone|split; reflexivity].
Defined.
