(* ===== verification/RoleController.v ===== *)
(** * [internal/controller/role_controller.go]: the Role controller

    [Reconcile] computes a role's effective permissions, checks that registered
    resources define them, and records the outcome in the role's status;
    [DeleteRole] (internal/openfga/role_reconciler.go) removes a deleted role's
    tuples. Events and logs are not modelled. *)

From S2P Require Import Prelude GoStrings GoErr Types Constants Permissions World Fga Tuples.
From S2P Require Import TuplesFacts RoleGraph ControllerEnv.
Local Open Scope Z_scope.

Definition roleFinalizerKey : string := "iam.miloapis.com/openfga-role".

Record RoleReconciler := mkRoleReconciler {
  rr_EnableSubresourceAuthorization : bool;
  rr_StoreID : string;
  rr_fuel : nat
}.

(** ** Validation *)

(** A live registration defines the permission. *)
Definition permission_defined (protectedResources : list ProtectedResource) (permission : Permission) : bool :=
  existsb (λ pr, match om_DeletionTimestamp (pr_Meta pr) with
                 | None => permissions_Defined (pr_Spec pr) permission true
                 | Some _ => false
                 end) protectedResources.

Definition validateRolePermissions (protectedResources : list ProtectedResource)
    (effectivePermissions : list string) : list string :=
  sort_Strings (omap (λ permStr,
    let (permission, isValidFormat) := Parse permStr in
    if negb isValidFormat then Some (permStr +:+ " (invalid format)")
    else if permission_defined protectedResources permission then None
    else Some permStr) effectivePermissions).

Definition inertSubresourcePermissions (r : RoleReconciler) (effectivePermissions : list string) : list string :=
  if rr_EnableSubresourceAuthorization r then []
  else sort_Strings (List.filter (λ permStr,
    let (p, ok) := Parse permStr in ok && negb (String.eqb (p_Subresource p) "")) effectivePermissions).

(** ** Status *)

Definition role_with_status (role : Role) (st : RoleStatus) : Role :=
  mkRole (role_Meta role) (role_Spec role) st.
Definition role_with_meta (role : Role) (m : ObjectMeta) : Role :=
  mkRole m (role_Spec role) (role_Status role).

Section status.
Context `{StatusConditions}.

Definition set_role_condition (role : Role) (c : Condition) : Role :=
  let st := role_Status role in
  role_with_status role
    (mkRoleStatus (rst_EffectivePermissions st) (rst_ObservedGeneration st)
       (SetStatusCondition (rst_Conditions st) c)).

Definition setDegradedCondition (role : Role) (unresolvedRoles : list unresolvedInheritedRole)
    (generation : Z) : Role :=
  match unresolvedRoles with
  | [] => set_role_condition role (mkCondition "Degraded" ConditionFalse "AllInheritedRolesResolved"
            "All inheritedRoles references resolved." generation)
  | _ => set_role_condition role (mkCondition "Degraded" ConditionTrue "UnresolvedInheritedRoles"
           (unresolvedMessage unresolvedRoles) generation)
  end.

(** The [PermissionsValid] condition. *)
Definition permissions_condition (r : RoleReconciler) (invalidPermissions effectivePermissions : list string)
    (generation : Z) : Condition :=
  match invalidPermissions with
  | _ :: _ => mkCondition "PermissionsValid" ConditionFalse "InvalidPermissions"
      ("Role contains invalid/undefined permissions: " +:+ Join invalidPermissions ", ") generation
  | [] =>
    match inertSubresourcePermissions r effectivePermissions with
    | [] => mkCondition "PermissionsValid" ConditionTrue "ValidationSuccessful"
              "All permissions validated successfully." generation
    | inert => mkCondition "PermissionsValid" ConditionTrue "ValidationSuccessful"
        ("All permissions validated successfully. Subresource authorization is disabled, so these permissions grant nothing: "
         +:+ Join inert ", ") generation
    end
  end.

(** The [Ready] condition, once effective permissions are known. *)
Definition ready_condition (permValidation : Condition) (unresolvedRoles : list unresolvedInheritedRole)
    (generation : Z) : Condition :=
  match c_Status permValidation with
  | ConditionTrue =>
    match unresolvedRoles with
    | _ :: _ => mkCondition "Ready" ConditionFalse "UnresolvedInheritedRoles"
                  (unresolvedMessage unresolvedRoles) generation
    | [] => mkCondition "Ready" ConditionTrue "ReconciliationSuccessful"
              "Role reconciled successfully with OpenFGA." generation
    end
  | ConditionFalse => mkCondition "Ready" ConditionFalse "InvalidPermissions" (c_Message permValidation) generation
  end.

(** The role with the status a full reconcile gives it. *)
Definition settle_status (r : RoleReconciler) (role : Role) (protectedResources : list ProtectedResource)
    (effectivePermissions : list string) (unresolvedRoles : list unresolvedInheritedRole) : Role :=
  let generation := om_Generation (role_Meta role) in
  let role := role_with_status role
    (mkRoleStatus effectivePermissions (rst_ObservedGeneration (role_Status role))
       (rst_Conditions (role_Status role))) in
  let role := setDegradedCondition role unresolvedRoles generation in
  let invalidPermissions := validateRolePermissions protectedResources effectivePermissions in
  let permValidationCondition := permissions_condition r invalidPermissions effectivePermissions generation in
  let role := set_role_condition role permValidationCondition in
  set_role_condition role (ready_condition permValidationCondition unresolvedRoles generation).
End status.

(** ** Reconciling *)

Section controller.
Context {F K : Type} `{FgaClient F} `{KClient K Role} `{KClient K ProtectedResource} `{KWriter K Role}
  `{Finalizers} `{StatusConditions} `{SemanticEquality RoleStatus}.
Context (r : RoleReconciler).
Abbreviation Mw := (M (World F K)).

(** [ReconcileRole] of role_reconciler.go: a no-op. *)
Definition ReconcileRole (_ : Role) : Mw unit := mret tt.

Definition DeleteRole (role : Role) : Mw unit :=
  let roleObjectIdentifier := TypeInternalRole +:+ ":" +:+ om_UID (role_Meta role) in
  existingTupleKeys ← wrapf "failed to get existing tuples: "
    (on_fga (getTupleKeys (rr_fuel r) (rr_StoreID r) (mkReadKey "" "" roleObjectIdentifier)));
  match existingTupleKeys with
  | [] => mret tt
  | _ =>
    modelID ← getModelID;
    wrapf "failed to delete role: " (on_fga (fga_Write (mkWrite (rr_StoreID r) modelID None
      (Some (mkDeletes (convertTuplesForDelete existingTupleKeys) "")))))
  end.

Definition role_Finalize (role : Role) : Mw unit :=
  wrapf "failed to delete role configuration: " (DeleteRole role).

Definition updateRoleStatus (actualRole : Role) (oldStatus : RoleStatus) : Mw unit :=
  if negb (Semantic_DeepEqual oldStatus (role_Status actualRole))
  then wrapf "failed to update role status: " (on_k8s (k_StatusUpdate actualRole)) ;; mret tt
  else mret tt.

Definition role_Reconcile (req : NamespacedName) : Mw Result :=
  got ← try (on_k8s (k_Get req));
  match got with
  | inr err => if IsNotFound err then mret done_result else throw err
  | inl role =>
    let oldStatus := role_Status role in
    let currentGeneration := om_Generation (role_Meta role) in
    let role := role_with_status role
      (mkRoleStatus (rst_EffectivePermissions oldStatus) currentGeneration (rst_Conditions oldStatus)) in
    finalizeResult ← wrapf "failed to run finalizers for Role: "
      (Finalizers_Finalize roleFinalizerKey (role_Finalize role) (role_Meta role));
    let '(updated, meta) := finalizeResult in
    let role := role_with_meta role meta in
    if updated : bool then
      wrapf "failed to update Role after finalizer operation: " (on_k8s (k_Update role)) ;; mret requeue_result
    else
      match om_DeletionTimestamp meta with
      | Some _ => mret done_result
      | None =>
        protectedResourceList ← on_k8s k_List;
        effective ← try (on_k8s (getAllEffectivePermissions (rr_fuel r) role ∅));
        match effective with
        | inr err =>
          let role := set_role_condition role (mkCondition "Ready" ConditionFalse "EffectivePermissionsError"
            ("Failed to compute effective permissions: " +:+ Error err) currentGeneration) in
          try (updateRoleStatus role oldStatus) ;; throw err
        | inl result =>
          let '(permissionSet, unresolvedRoles, _) := result in
          let effectivePermissions := sort_Strings (elements permissionSet) in
          (match validateRolePermissions protectedResourceList effectivePermissions with
           | [] => ReconcileRole role
           | _ => mret tt
           end) ;;
          updateRoleStatus (settle_status r role protectedResourceList effectivePermissions unresolvedRoles) oldStatus ;;
          mret done_result
        end
      end
  end.

(** ** Which roles a registration concerns *)

Definition isRoleAffectedByProtectedResource (role : Role) (pr : ProtectedResource) : M K bool :=
  result ← getAllEffectivePermissions (rr_fuel r) role ∅;
  let changedPrAPIGroup := prs_ServiceRef_Name (pr_Spec pr) in
  let changedPrPlural := prs_Plural (pr_Spec pr) in
  if String.eqb changedPrAPIGroup "" || String.eqb changedPrPlural "" then
    throw (ErrText ("ProtectedResource " +:+ om_Name (pr_Meta pr) +:+ " has empty ServiceRef.Name or Plural"))
  else
    mret (existsb (λ permStr,
      let (permission, isValidFormat) := Parse permStr in
      isValidFormat && String.eqb (p_APIGroup permission) changedPrAPIGroup &&
      String.eqb (p_Resource permission) changedPrPlural) (elements result.1.1)).

(** A role whose check fails is left out. *)
Definition enqueueRequestsForProtectedResourceChange (pr : ProtectedResource) : M K (list NamespacedName) :=
  roles ← try k_List;
  match roles with
  | inr _ => mret []
  | inl roleList =>
    append_loopM (λ role,
      affected ← try (isRoleAffectedByProtectedResource role pr);
      mret match affected with
           | inl true => [role_key role]
           | _ => []
           end) roleList
  end.
End controller.
