(* ===== verification/RoleControllerSpec.v ===== *)
(** * What the Role controller guarantees *)

From S2P Require Import Prelude GoStrings GoErr Types Constants Permissions World Fga Tuples.
From S2P Require Import TuplesFacts Indexes RefK8s RoleGraph RoleGraphFacts RoleGraphSpec ControllerEnv.
From S2P Require Import RefObjects RoleController.
Local Open Scope Z_scope.

(** ** Conditions of the settled status *)

Section conditions.
Context `{StatusConditionsLaws}.

Lemma set_role_condition_eff role c :
  rst_EffectivePermissions (role_Status (set_role_condition role c)) = rst_EffectivePermissions (role_Status role) ∧
  rst_ObservedGeneration (role_Status (set_role_condition role c)) = rst_ObservedGeneration (role_Status role) ∧
  rst_Conditions (role_Status (set_role_condition role c)) = SetStatusCondition (rst_Conditions (role_Status role)) c ∧
  role_Meta (set_role_condition role c) = role_Meta role ∧ role_Spec (set_role_condition role c) = role_Spec role.
Proof. done. Qed.

Definition degraded_condition (us : list unresolvedInheritedRole) (generation : Z) : Condition :=
  match us with
  | [] => mkCondition "Degraded" ConditionFalse "AllInheritedRolesResolved"
            "All inheritedRoles references resolved." generation
  | _ => mkCondition "Degraded" ConditionTrue "UnresolvedInheritedRoles" (unresolvedMessage us) generation
  end.

Lemma setDegraded_eq role us g : setDegradedCondition role us g = set_role_condition role (degraded_condition us g).
Proof. by destruct us. Qed.

Lemma permissions_condition_type r inv eff g : c_Type (permissions_condition r inv eff g) = "PermissionsValid".
Proof. unfold permissions_condition. by repeat case_match. Qed.
Lemma permissions_condition_true r inv eff g :
  c_Status (permissions_condition r inv eff g) = ConditionTrue ↔ inv = [].
Proof. unfold permissions_condition. destruct inv; [by case_match|done]. Qed.
Lemma degraded_condition_type us g : c_Type (degraded_condition us g) = "Degraded".
Proof. by destruct us. Qed.
Lemma degraded_condition_true us g : c_Status (degraded_condition us g) = ConditionTrue ↔ us ≠ [].
Proof. by destruct us. Qed.
Lemma ready_condition_type pv us g : c_Type (ready_condition pv us g) = "Ready".
Proof. unfold ready_condition. by repeat case_match. Qed.
Lemma ready_condition_true pv us g :
  c_Status (ready_condition pv us g) = ConditionTrue ↔ c_Status pv = ConditionTrue ∧ us = [].
Proof. unfold ready_condition. destruct (c_Status pv), us; simpl; naive_solver. Qed.

Lemma settle_fields r role prs eff us :
  role_key (settle_status r role prs eff us) = role_key role ∧
  rst_EffectivePermissions (role_Status (settle_status r role prs eff us)) = eff ∧
  rst_ObservedGeneration (role_Status (settle_status r role prs eff us)) = rst_ObservedGeneration (role_Status role).
Proof. unfold settle_status. by rewrite setDegraded_eq. Qed.

(** The three conditions of a settled role. *)
Lemma settle_conditions r role prs eff us :
  let l := rst_Conditions (role_Status (settle_status r role prs eff us)) in
  let inv := validateRolePermissions prs eff in
  (condition_true l "Ready" ↔ inv = [] ∧ us = []) ∧
  (condition_true l "PermissionsValid" ↔ inv = []) ∧
  (condition_true l "Degraded" ↔ us ≠ []).
Proof.
  unfold settle_status. rewrite setDegraded_eq. cbn [set_role_condition role_Status role_with_status rst_Conditions].
  set (pv := permissions_condition _ _ _ _). set (rc := ready_condition _ _ _).
  pose proof (permissions_condition_type r (validateRolePermissions prs eff) eff (om_Generation (role_Meta role))) as Tp.
  pose proof (ready_condition_type pv us (om_Generation (role_Meta role))) as Tr.
  pose proof (degraded_condition_type us (om_Generation (role_Meta role))) as Td. fold pv in Tp. fold rc in Tr.
  split_and!.
  - rewrite <- Tr at 1. rewrite condition_set_same. unfold rc. rewrite ready_condition_true. unfold pv.
    by rewrite permissions_condition_true.
  - rewrite condition_set_other by by rewrite Tr. rewrite <- Tp at 1. rewrite condition_set_same. unfold pv.
    by rewrite permissions_condition_true.
  - rewrite condition_set_other by by rewrite Tr. rewrite condition_set_other by by rewrite Tp.
    rewrite <- Td at 1. by rewrite condition_set_same, degraded_condition_true.
Qed.
End conditions.

(** The invalid permissions are those no live registration defines. *)
Definition valid_permission (prs : list ProtectedResource) (p : string) : Prop :=
  (Parse p).2 = true ∧ permission_defined prs (Parse p).1 = true.

Lemma validate_nil prs eff :
  validateRolePermissions prs eff = [] ↔ ∀ p, p ∈ eff → valid_permission prs p.
Proof.
  unfold validateRolePermissions, valid_permission.
  match goal with |- context [ omap ?g _ ] => set (f := g) end.
  assert (∀ p, f p = None ↔ (Parse p).2 = true ∧ permission_defined prs (Parse p).1 = true) as Hf.
  { intros p. unfold f. destruct (Parse p) as [q [|]]; simpl; [|naive_solver].
    destruct (permission_defined prs q); naive_solver. }
  setoid_rewrite <- Hf. split.
  - intros E p Hp. destruct (f p) as [x|] eqn:Ex; [|done]. exfalso.
    assert (x ∈ sort_Strings (omap f eff)) as Hx by (apply elem_of_sort_Strings, list_elem_of_omap; eauto).
    rewrite E in Hx. by apply elem_of_nil in Hx.
  - intros E. apply list_empty_iff. intros x Hx. rewrite elem_of_sort_Strings, list_elem_of_omap in Hx.
    destruct Hx as (p & Hp & Hx). by rewrite E in Hx.
Qed.

(** ** The reconciler *)

Section reconcile.
Context {F K : Type} `{FgaLaws F} `{KReadLaws K Role} `{KReadLaws K ProtectedResource} `{KWriter K Role}
  `{!KStatusLaws K Role} `{FinalizersLaws} `{StatusConditionsLaws} `{SemanticEqualityLaws RoleStatus}.
Context (r : RoleReconciler).
Implicit Types w : World F K.
(** A Role's key is its namespace and name; a status update stores the status. *)
Context (Hkey : ∀ role : Role, k_key role = role_key role)
  (Hstatus : ∀ old new : Role, k_with_status old new = role_with_status old (role_Status new)).

Definition observed (role : Role) : Role :=
  role_with_status role
    (mkRoleStatus (rst_EffectivePermissions (role_Status role)) (om_Generation (role_Meta role))
       (rst_Conditions (role_Status role))).

Lemma updateRoleStatus_Ok role old stored w w' :
  k_view (w_k8s w) !! role_key role = Some stored → role_Status stored = old →
  updateRoleStatus role old w = (Ok tt, w') →
  w_fga w' = w_fga w ∧
  k_view (w_k8s w') = <[role_key role := role_with_status stored (role_Status role)]> (k_view (w_k8s w)).
Proof.
  intros Hs <-. unfold updateRoleStatus. destruct (Semantic_DeepEqual (role_Status stored) (role_Status role)) eqn:E; simpl.
  - intros [= <-]. split; [done|]. apply (proj1 (Semantic_DeepEqual_eq _ _)) in E. rewrite insert_id; [done|].
    rewrite Hs. f_equal. rewrite <- E. by destruct stored.
  - intros (y & w1 & Hu & Hr)%bind_Ok. injection Hr as <-. apply wrapf_Ok, on_k8s_run in Hu as (k' & Hu & ->).
    apply k_StatusUpdate_Ok in Hu as (st & Hst & -> & Hv). rewrite Hkey, Hs in Hst. injection Hst as <-.
    simpl. split; [done|]. by rewrite Hv, Hkey, Hstatus.
Qed.

(** A live role that has the finalizer is reconciled without writing it first. *)
Lemma role_Reconcile_live key role w o w' :
  k_view (w_k8s w) !! key = Some role →
  om_DeletionTimestamp (role_Meta role) = None → ContainsFinalizer (role_Meta role) roleFinalizerKey = true →
  role_Reconcile r key w = (Ok o, w') →
  o = done_result ∧ ∃ prs ps us V,
    (k_List (w_k8s w)).1 = Ok prs ∧
    (getAllEffectivePermissions (rr_fuel r) (observed role) ∅ (w_k8s w)).1 = Ok (ps, us, V) ∧
    updateRoleStatus (settle_status r (observed role) prs (sort_Strings (elements ps)) us) (role_Status role) w
      = (Ok tt, w').
Proof.
  intros Hs Hd Hf. unfold role_Reconcile. intros (got & w1 & Hg & HR)%bind_Ok.
  destruct (k_get_stored key w role Hs) as [(e & He & Hn)|He]; rewrite He in Hg; injection Hg as <- <-.
  { by rewrite Hn in HR. }
  apply bind_Ok in HR as ([upd meta] & w1 & Hfin & HR). apply wrapf_Ok in Hfin.
  fold (observed role) in Hfin, HR. cbn [observed role_with_status role_Meta] in Hfin.
  rewrite (Finalize_live _ _ _ _ _ Hd Hf) in Hfin. injection Hfin as <- <- <-.
  change (role_with_meta (observed role) (role_Meta role)) with (observed role) in HR. rewrite Hd in HR.
  apply bind_Ok in HR as (prs & w1 & HL & HR).
  apply on_k8s_run in HL as (k1 & HL & ->). pose proof (k_List_world (T := ProtectedResource) (w_k8s w)) as HW.
  rewrite HL in HW. simpl in HW. subst k1. rewrite mkWorld_eta in HR.
  apply bind_Ok in HR as (eff & w1 & HE & HR).
  destruct eff as [[[ps us] V]|err].
  - apply (proj1 (try_inl _ _ _ _)) in HE. apply on_k8s_run in HE as (k1 & HE & ->).
    destruct (reads_inv _ _ _ _ (reads_getAll _ _ _) HE) as [-> _]. rewrite mkWorld_eta in HR.
    apply bind_Ok in HR as ([] & w1 & Hrr & HR).
    assert (w1 = w) as -> by (destruct (validateRolePermissions _ _); by injection Hrr as <-).
    apply bind_Ok in HR as ([] & w2 & Hu & HR). injection HR as <- <-. split; [done|].
    exists prs, ps, us, V. rewrite HL, HE. done.
  - exfalso. by apply bind_Ok in HR as (? & ? & _ & ?).
Qed.
(** The registrations the API server holds. *)
Definition registered w (pr : ProtectedResource) : Prop := ∃ key, k_view (w_k8s w) !! key = Some pr.

(** A live registration defines the permission. *)
Definition permission_valid w (p : string) : Prop :=
  (Parse p).2 = true ∧
  ∃ pr, registered w pr ∧ om_DeletionTimestamp (pr_Meta pr) = None ∧
    permissions_Defined (pr_Spec pr) (Parse p).1 true = true.

Lemma valid_permission_registered w prs p :
  (k_List (w_k8s w)).1 = Ok prs → valid_permission prs p ↔ permission_valid w p.
Proof.
  intros HL. unfold valid_permission, permission_valid, permission_defined. rewrite existsb_elem.
  assert (∀ pr, pr ∈ prs ↔ registered w pr) as HR.
  { intros pr. rewrite (k_List_Ok _ _ HL), elem_of_map. unfold registered. split.
    - intros ([key x] & Hx%elem_of_map_to_list & ->). by exists key.
    - intros [key Hx]. exists (key, pr). split; [by apply elem_of_map_to_list|done]. }
  setoid_rewrite HR. split; intros (HP & pr & Hpr & Hd); (split; [done|]); exists pr;
    destruct (om_DeletionTimestamp (pr_Meta pr)); naive_solver.
Qed.

(** C27: A reconciled role's status tells the truth. When a reconcile of a live
    role succeeds, OpenFGA and every other role are untouched, and the stored
    role keeps its spec and metadata and gets a status in which the effective
    permissions are, sorted, exactly those of the roles it reaches; it is
    Degraded exactly when some reachable reference names no role; its
    permissions are valid exactly when live registrations define all of them;
    and it is Ready exactly when it is valid and not degraded. *)
Theorem role_Reconcile_status key (role : Role) w res w'
  (Hkeyed : roles_keyed (w_k8s w)) (Hrole : k_view (w_k8s w) !! key = Some role)
  (Hlive : om_DeletionTimestamp (role_Meta role) = None)
  (Hfin : ContainsFinalizer (role_Meta role) roleFinalizerKey = true)
  (Hrec : role_Reconcile r key w = (Ok res, w')) :
  w_fga w' = w_fga w ∧ res = done_result ∧
  ∃ st, k_view (w_k8s w') = <[key := role_with_status role st]> (k_view (w_k8s w)) ∧
    rst_ObservedGeneration st = om_Generation (role_Meta role) ∧
    StronglySorted String.le (rst_EffectivePermissions st) ∧
    (∀ p, p ∈ rst_EffectivePermissions st ↔ included_in (w_k8s w) (rtc (inherits (w_k8s w)) key) p) ∧
    let dangling := ∃ u, rtc (inherits (w_k8s w)) key u ∧ ¬ exists_role (w_k8s w) u in
    let valid := ∀ p, p ∈ rst_EffectivePermissions st → permission_valid w p in
    (condition_true (rst_Conditions st) "Ready" ↔ valid ∧ ¬ dangling) ∧
    (condition_true (rst_Conditions st) "PermissionsValid" ↔ valid) ∧
    (condition_true (rst_Conditions st) "Degraded" ↔ dangling).
Proof.
  destruct (role_Reconcile_live key role w res w' Hrole Hlive Hfin Hrec) as (-> & prs & ps & us & V & HL & HE & HU).
  destruct (Hkeyed _ _ Hrole) as [Ek _]. subst key.
  set (role' := settle_status _ _ _ _ _) in HU.
  destruct (settle_fields r (observed role) prs (sort_Strings (elements ps)) us) as (Fk & Fe & Fg).
  fold role' in Fk, Fe, Fg. change (role_key (observed role)) with (role_key role) in Fk.
  apply (updateRoleStatus_Ok role' (role_Status role) role) in HU as [Hf Hv]; [|by rewrite Fk|reflexivity].
  rewrite Fk in Hv.
  split; [done|]. split; [done|]. exists (role_Status role').
  split; [exact Hv|]. split; [exact Fg|].
  unfold observed in HE. unfold role_with_status in HE. rewrite getAll_status in HE.
  destruct (getAllEffectivePermissions (rr_fuel r) role ∅ (w_k8s w)) as [o k'] eqn:HG. simpl in HE. subst o.
  destruct (effective_aux _ Hkeyed _ _ _ _ _ _ Hrole HG) as (_ & HP & HX).
  assert (∀ p, p ∈ sort_Strings (elements ps) ↔ p ∈ ps) as HS by (intros p; by rewrite elem_of_sort_Strings, elem_of_elements).
  rewrite Fe.
  split; [apply sort_Strings_sorted|]. split; [intros p; by rewrite HS, HP|].
  destruct (settle_conditions r (observed role) prs (sort_Strings (elements ps)) us) as (C1 & C2 & C3).
  rewrite validate_nil in C1, C2. setoid_rewrite (valid_permission_registered w prs _ HL) in C1.
  setoid_rewrite (valid_permission_registered w prs _ HL) in C2.
  assert (us ≠ [] ↔ ∃ u, rtc (inherits (w_k8s w)) (role_key role) u ∧ ¬ exists_role (w_k8s w) u) as Hd.
  { setoid_rewrite <- HX. destruct us as [|u us]; [|split; [intros _; exists u; left|done]].
    split; [done|]. intros (u & Hu). by apply elem_of_nil in Hu. }
  cbn zeta in *. rewrite <- Hd. split; [|done]. unfold role'. rewrite C1. destruct us; naive_solver.
Qed.
(** ** Deletion *)

Definition role_object (role : Role) : string := TypeInternalRole +:+ ":" +:+ om_UID (role_Meta role).

Lemma role_object_names role : om_UID (role_Meta role) ≠ "" → names_object (role_object role).
Proof. apply (names_object_intro TypeInternalRole). Qed.

Lemma DeleteRole_Ok role w w' :
  om_UID (role_Meta role) ≠ "" →
  DeleteRole r role w = (Ok tt, w') →
  w_k8s w' = w_k8s w ∧
  ∀ k, k ∈ dom (fga_tuples (w_fga w') (rr_StoreID r)) ↔
    k ∈ dom (fga_tuples (w_fga w) (rr_StoreID r)) ∧ wc_Object k ≠ role_object role.
Proof.
  unfold DeleteRole. fold (role_object role). intros Huid (l & w1 & Hl & HR)%bind_Ok.
  apply wrapf_Ok in Hl. destruct (reads_inv _ _ _ _ (reads_on_fga _ (getTupleKeys_reads _ _ _)) Hl) as [-> _].
  apply on_fga_run in Hl as (f' & Hl & _).
  assert ((getTupleKeys (rr_fuel r) (rr_StoreID r) (mkReadKey "" "" (role_object role)) (w_fga w)).1 = Ok l)
    as HP%getTupleKeys_Ok by by rewrite Hl.
  assert (∀ k, k ∈ convertTuplesForDelete l ↔
    k ∈ dom (fga_tuples (w_fga w) (rr_StoreID r)) ∧ wc_Object k = role_object role) as HK.
  { intros k. rewrite (convertTuples_perm _ _ _ HP), elem_of_matched_keys, matches_object; [done|]. by apply role_object_names. }
  destruct l as [|t l].
  - injection HR as <-. split; [done|]. intros k. specialize (HK k). simpl in HK. set_solver.
  - apply bind_Ok in HR as (id & w1 & Hid & HR). injection Hid as <- <-.
    apply wrapf_Ok, on_fga_run in HR as (f1 & HR & ->). split; [done|]. intros k.
    apply fga_Write_Ok in HR as [Ht _]. simpl in Ht |- *. rewrite Ht, apply_write_dom. simpl. 
    specialize (HK k). simpl in HK. set_solver.
Qed.

(** C26: A deleted role is let go only when no tuple names it. While a role with
    the finalizer is being deleted, a reconcile that fails to remove the tuples
    on its object reports the error and does not write the role, so the
    finalizer stays; one that succeeds has removed exactly those tuples and then
    writes the role without the finalizer. *)
Theorem role_deletion_clears_first key (role : Role) w
  (Hrole : (k_Get key (w_k8s w)).1 = Ok role) (Hdel : om_DeletionTimestamp (role_Meta role) ≠ None)
  (Hfin : ContainsFinalizer (role_Meta role) roleFinalizerKey = true) (Huid : om_UID (role_Meta role) ≠ "") :
  let released := role_with_meta (observed role) (remove_finalizer (role_Meta role) roleFinalizerKey) in
  (∀ e w1, DeleteRole r (observed role) w = (Err e, w1) →
     ∃ e', role_Reconcile r key w = (Err e', w1)) ∧
  (∀ w1, DeleteRole r (observed role) w = (Ok tt, w1) →
     w_fga (role_Reconcile r key w).2 = w_fga w1 ∧
     w_k8s (role_Reconcile r key w).2 = (k_Update released (w_k8s w)).2 ∧
     ∀ k, k ∈ dom (fga_tuples (w_fga w1) (rr_StoreID r)) ↔
       k ∈ dom (fga_tuples (w_fga w) (rr_StoreID r)) ∧ wc_Object k ≠ role_object role).
Proof.
  pose proof (k_Get_world (T := Role) key (w_k8s w)) as HW.
  assert (try (on_k8s (k_Get (T := Role) key)) w = (Ok (inl role), w)) as HG.
  { unfold try, on_k8s. rewrite Hrole, HW. simpl. by rewrite mkWorld_eta. }
  set (fin := Finalizers_Finalize (W := World F K) roleFinalizerKey (role_Finalize r (observed role)) (role_Meta role)).
  assert (∀ e w1, fin w = (Err e, w1) →
    role_Reconcile r key w = (Err (ErrWrap "failed to run finalizers for Role: " e), w1)) as HE.
  { intros e w1 HE. unfold role_Reconcile. rewrite (bind_run_Ok _ _ _ _ _ HG).
    apply bind_run_Err. change (wrapf "failed to run finalizers for Role: " fin w = (Err (ErrWrap "failed to run finalizers for Role: " e), w1)).
    by rewrite wrapf_run, HE. }
  assert (∀ meta w1, fin w = (Ok (true, meta), w1) →
    role_Reconcile r key w =
    (wrapf "failed to update Role after finalizer operation: "
       (on_k8s (k_Update (role_with_meta (observed role) meta))) ;; mret requeue_result) w1) as HU.
  { intros meta w1 HE1. unfold role_Reconcile. rewrite (bind_run_Ok _ _ _ _ _ HG).
    eapply eq_trans; [apply (bind_run_Ok (wrapf "failed to run finalizers for Role: " fin) _ w (true, meta) w1)|reflexivity].
    by rewrite wrapf_run, HE1. }
  split.
  - intros e w1 HD.
    destruct (Finalize_fail _ roleFinalizerKey (role_Finalize r (observed role)) (role_Meta role) w
      (ErrWrap "failed to delete role configuration: " e) w1 Hdel Hfin) as (e' & HF).
    { unfold role_Finalize. rewrite wrapf_run. by rewrite HD. }
    eexists. by apply HE.
  - intros w1 HD. pose proof (DeleteRole_Ok (observed role) _ _ Huid HD) as [Hk Ht].
    assert (fin w = (Ok (true, remove_finalizer (role_Meta role) roleFinalizerKey), w1)) as HF.
    { apply Finalize_run; [done|done|]. unfold role_Finalize. rewrite wrapf_run. by rewrite HD. }
    rewrite (HU _ _ HF). split_and!; [| |exact Ht]; unfold mbind, M_bind, wrapf, map_err, on_k8s; rewrite Hk;
      by destruct (k_Update _ (w_k8s w)) as [[]].
Qed.
End reconcile.

(** ** Examples *)

Lemma ref_role_key (role : Role) : k_key (K := RefK8s) role = role_key role.
Proof. reflexivity. Qed.
Lemma ref_role_with_status (old new : Role) :
  k_with_status (K := RefK8s) old new = role_with_status old (role_Status new).
Proof. reflexivity. Qed.

(** A live role with the finalizer that inherits one existing role and one that
    does not exist. *)
Definition ex_held_meta (deleting : option Z) : ObjectMeta :=
  mkObjectMeta "viewer" "iam" "uid-viewer" 3 deleting [roleFinalizerKey] [].
Definition ex_live_role : Role :=
  mkRole (ex_held_meta None) (mkRoleSpec ["rm/projects.get"] [mkRoleRef "auditor" ""; mkRoleRef "gone" ""])
    (mkRoleStatus [] 0 []).
Definition ex_dying_role : Role :=
  mkRole (ex_held_meta (Some 9)) (mkRoleSpec [] []) (mkRoleStatus [] 0 []).

Definition ex_role_store : tuple_map :=
  {[ mkTupleWC "u" "r" "iam.miloapis.com/InternalRole:uid-viewer" := None; mkTupleWC "u" "r" "rm/Project:p" := None ]}.
Definition ex_role_state (roles : list Role) : World RefStore RefK8s :=
  mkWorld (mkRefStore ex_role_store [] 1 None) (ex_role_world roles) None.
Definition ex_role_r : RoleReconciler := mkRoleReconciler false "store" 9.

Lemma role_Reconcile_status_witness :
  let w := ex_role_state [ex_live_role; ex_auditor] in
  ∃ st, condition_true (rst_Conditions st) "Degraded" ↔
    ∃ u, rtc (inherits (w_k8s w)) (role_key ex_live_role) u ∧ ¬ exists_role (w_k8s w) u.
Proof.
  intros w.
  destruct (role_Reconcile_status (F := RefStore) (K := RefK8s) ex_role_r ref_role_key ref_role_with_status (role_key ex_live_role) ex_live_role w
    done_result (role_Reconcile ex_role_r (role_key ex_live_role) w).2) as (_ & _ & st & _ & _ & _ & _ & _ & _ & HD).
  - apply keyed_test_ok. vm_compute. reflexivity.
  - vm_compute. reflexivity.
  - reflexivity.
  - vm_compute. reflexivity.
  - rewrite (surjective_pairing (role_Reconcile _ _ w)). f_equal.
  - by exists st.
Defined.

Lemma role_deletion_clears_first_witness :
  let w := ex_role_state [ex_dying_role] in
  w_k8s (role_Reconcile ex_role_r (role_key ex_dying_role) w).2 =
    (k_Update (role_with_meta (observed ex_dying_role) (remove_finalizer (role_Meta ex_dying_role) roleFinalizerKey))
      (w_k8s w)).2.
Proof.
  intros w.
  destruct (role_deletion_clears_first (F := RefStore) (K := RefK8s) ex_role_r ref_role_key ref_role_with_status (role_key ex_dying_role) ex_dying_role w) as [_ HA].
  - vm_compute. reflexivity.
  - done.
  - vm_compute. reflexivity.
  - done.
  - apply (HA (DeleteRole ex_role_r (observed ex_dying_role) w).2).
    apply ok_run. vm_compute. reflexivity.
Defined.
