(* ===== verification/PolicyBindingController.v ===== *)
(** * [internal/controller/policybinding_controller.go]: the PolicyBinding controller

    [Reconcile] validates a binding's target and subjects, has the policy
    reconciler write its tuples, and says in the binding's status what came of it.
    A write onto a Project or an Organization waits for the target's hold
    (TargetHold.v); the lock around it is part of the protocol in HoldProtocol.v. *)

From S2P Require Import Prelude GoStrings GoErr Types Constants World Fga Tuples.
From S2P Require Import PolicyReconciler Indexes RoleGraph ControllerEnv TargetHold.
Local Open Scope Z_scope.

Definition policyBindingFinalizerKey : string := "iam.miloapis.com/policybinding".
Definition ConditionTypeSubjectValid : string := "SubjectValid".
Definition ConditionTypeTargetValid : string := "TargetValid".
Definition ConditionTypeRoleValid : string := "RoleValid".
Definition reasonWaitingForTarget : string := "WaitingForTarget".

(** [meta.RESTMapper]: a kind's version and whether it is namespaced; with it the
    texts of [GroupKind.String] and of [meta.NoKindMatchError]. *)
Record mapping := mkMapping { mapping_GVK : GroupVersionKind; mapping_namespaced : bool }.
Class RESTMapper (K : Type) := {
  RESTMapping : GroupKind → M K mapping;
  GroupKind_String : GroupKind → string;
  NoKindMatch_text : GroupKind → string
}.

Record PolicyBindingReconciler := mkPBReconciler {
  pbr_EnableSubresourceAuthorization : bool;
  pbr_StoreID : string;
  pbr_fuel : nat
}.

Definition pb_with_meta (pb : PolicyBinding) (m : ObjectMeta) : PolicyBinding :=
  mkPB m (pb_Spec pb) (pb_Status pb).
Definition pb_with_status (pb : PolicyBinding) (st : PolicyBindingStatus) : PolicyBinding :=
  mkPB (pb_Meta pb) (pb_Spec pb) st.

Definition in_namespace (namespace : string) : string :=
  if String.eqb namespace "" then "cluster-scoped" else namespace.

(** The message for an object whose UID is not the one the binding names. *)
Definition uid_mismatch (kind name namespace fetched wanted : string) : string :=
  "The " +:+ kind +:+ " '" +:+ name +:+ "' in namespace '" +:+ in_namespace namespace +:+ "' has UID '" +:+ fetched +:+
  "', but the PolicyBinding references UID '" +:+ wanted +:+ "'. " +:+
  "Update the PolicyBinding to use the correct UID, or delete and recreate the PolicyBinding.".

Section controller.
Context {F K : Type} `{FgaClient F} `{KClient K Role} `{KClient K PolicyBinding} `{KClient K ProtectedResource}
  `{KWriter K PolicyBinding} `{KDynamic K} `{ApiErrors} `{RESTMapper K} `{ResourceManager} `{IAMKinds}
  `{Finalizers} `{StatusConditions} `{SemanticEquality PolicyBindingStatus}.
Context (r : PolicyBindingReconciler).
Abbreviation Mw := (M (World F K)).
Implicit Types pb : PolicyBinding.

Definition pb_set_condition (pb : PolicyBinding) (c : Condition) : PolicyBinding :=
  let st := pb_Status pb in
  pb_with_status pb (mkPBStatus (pbst_ObservedGeneration st) (SetStatusCondition (pbst_Conditions st) c)).

(** [updatePolicyBindingStatus]: the update's answer replaces the object in hand. *)
Definition updatePolicyBindingStatus (pb : PolicyBinding) (oldStatus : PolicyBindingStatus) (observedGen : Z) :
    Mw PolicyBinding :=
  let pb := pb_with_status pb (mkPBStatus observedGen (pbst_Conditions (pb_Status pb))) in
  if negb (Semantic_DeepEqual oldStatus (pb_Status pb)) then on_k8s (k_StatusUpdate pb) else mret pb.

(** ** Looking objects up *)

(** The key of an object of a mapped kind. *)
Definition scoped_key (m : mapping) (gk : GroupKind) (name namespace : string) : outcome NamespacedName :=
  if mapping_namespaced m then
    if String.eqb namespace "" then Err (MissingNamespaceError (GroupKind_String gk) name)
    else Ok (mkNN namespace name)
  else Ok (mkNN "" name).

Definition getSubjectResource (apiGroup kind name namespace : string) : Mw KObject :=
  let gk := mkGK apiGroup kind in
  m ← on_k8s (RESTMapping gk);
  key ← lift (scoped_key m gk name namespace);
  gvk ← lift (if String.eqb kind "User" then Ok UserGVK
              else if String.eqb kind "Group" then Ok GroupGVK
              else if String.eqb kind "ServiceAccount" then Ok ServiceAccountGVK
              else Err (ErrNoMatch (NoKindMatch_text gk)));
  on_k8s (d_Get gvk key).

Definition getUnstructuredResourceAndMapping (apiGroup kind name namespace : string) : Mw KObject :=
  let gk := mkGK apiGroup kind in
  m ← on_k8s (RESTMapping gk);
  key ← lift (scoped_key m gk name namespace);
  on_k8s (d_Get (mapping_GVK m) key).

Definition validateResourceType (apiGroup kind : string) : Mw (bool * string) :=
  if String.eqb apiGroup "" || String.eqb kind "" then mret (false, "APIGroup or Kind is empty.")
  else
    protectedResourceList ← wrapf "failed to list ProtectedResources by service/kind index: "
      (on_k8s (k_ListField (T := ProtectedResource) protectedResourceServiceKindIndexField (apiGroup +:+ "/" +:+ kind)));
    mret match protectedResourceList with
         | [] => (false, "No ProtectedResource found defining type '" +:+ apiGroup +:+ "/" +:+ kind +:+ "'.")
         | _ => (true, "Resource type is registered.")
         end.

(** ** The target *)

Definition target_condition (st : ConditionStatus) (reason message : string) (generation : Z) : Condition :=
  mkCondition ConditionTypeTargetValid st reason message generation.

(** Why looking the target up failed, when that is the binding's fault: the
    condition's reason and message, and whether the target may yet appear. *)
Definition target_lookup_failure (ref : ResourceRef) (err : goerr) : option (string * string * bool) :=
  if IsNoMatchError err then
    Some ("TargetKindNotRecognized",
          "Target Kind '" +:+ ref_Kind ref +:+ "' in group '" +:+ ref_APIGroup ref +:+ "' not recognized by the API server.",
          IsNotFound err)
  else if IsNotFound err then
    Some ("TargetNotFound",
          "Target resource " +:+ ref_Kind ref +:+ "/" +:+ ref_Name ref +:+ " (namespace: '" +:+ ref_Namespace ref +:+ "') not found.",
          IsNotFound err)
  else match err with
       | MissingNamespaceError _ _ => Some ("TargetNamespaceMissing", Error err, IsNotFound err)
       | _ => None
       end.

(** [(isValid, targetMissing)] and the binding with its [TargetValid] condition. *)
Definition validateResourceRef (pb : PolicyBinding) (resourceRef : ResourceRef) (currentGeneration : Z) :
    Mw (bool * bool * PolicyBinding) :=
  known ← validateResourceType (ref_APIGroup resourceRef) (ref_Kind resourceRef);
  let '(isKnownType, typeValidationReason) := known in
  let fails reason message missing :=
    mret (false, missing, pb_set_condition pb (target_condition ConditionFalse reason message currentGeneration)) in
  if negb isKnownType then
    fails ReasonValidationFailed
      ("Target resource type is not registered or ambiguously defined: " +:+ typeValidationReason) false
  else
    fetched ← try (getUnstructuredResourceAndMapping (ref_APIGroup resourceRef) (ref_Kind resourceRef)
      (ref_Name resourceRef) (ref_Namespace resourceRef));
    match fetched with
    | inr err =>
      match target_lookup_failure resourceRef err with
      | Some (reason, errMsg, missing) => fails reason errMsg missing
      | None => throw (ErrWrap ("failed to validate target " +:+ ref_Kind resourceRef +:+ "/" +:+ ref_Name resourceRef +:+ ": ") err)
      end
    | inl fetchedTarget =>
      if negb (String.eqb (om_UID (obj_Meta fetchedTarget)) (ref_UID resourceRef)) then
        fails "TargetUIDMismatch"
          (uid_mismatch (ref_Kind resourceRef) (ref_Name resourceRef) (ref_Namespace resourceRef)
             (om_UID (obj_Meta fetchedTarget)) (ref_UID resourceRef)) false
      else
        mret (true, false, pb_set_condition pb (target_condition ConditionTrue ReasonValidationSuccessful
          "ResourceRef validated successfully." currentGeneration))
    end.

Definition validateResourceKind (pb : PolicyBinding) (resourceKind : ResourceKind) (currentGeneration : Z) :
    Mw (bool * PolicyBinding) :=
  known ← validateResourceType (rk_APIGroup resourceKind) (rk_Kind resourceKind);
  let '(isKnownType, typeValidationReason) := known in
  if negb isKnownType then
    mret (false, pb_set_condition pb (target_condition ConditionFalse ReasonValidationFailed
      ("Resource kind is not registered or ambiguously defined: " +:+ typeValidationReason) currentGeneration))
  else
    mret (true, pb_set_condition pb (target_condition ConditionTrue ReasonValidationSuccessful
      "ResourceKind validated successfully." currentGeneration)).

Definition reconcileResourceSelectorValidation (pb : PolicyBinding) (currentGeneration : Z) :
    Mw (bool * bool * PolicyBinding) :=
  let selector := pbs_ResourceSelector (pb_Spec pb) in
  match sel_ResourceRef selector, sel_ResourceKind selector with
  | Some resourceRef, _ => validateResourceRef pb resourceRef currentGeneration
  | None, Some resourceKind =>
    res ← validateResourceKind pb resourceKind currentGeneration;
    mret (res.1, false, res.2)
  | None, None => throw (ErrText "ResourceSelector is empty")
  end.

(** ** The subjects *)

(** One round of the loop: [None] for a valid subject, or its message and whether
    the subject may yet appear. *)
Definition validateSubject (subject : Subject) : Mw (option (string * bool)) :=
  let kn := subj_Kind subject +:+ "/" +:+ subj_Name subject in
  if String.eqb (subj_Kind subject) "Group" && HasPrefix (subj_Name subject) "system:" then mret None
  else if String.eqb (subj_UID subject) "" then mret (Some (kn +:+ " (UIDMissing)", false))
  else
    fetched ← try (getSubjectResource (gvk_Group UserGVK) (subj_Kind subject) (subj_Name subject) (subj_Namespace subject));
    match fetched with
    | inr err =>
      if IsNoMatchError err then mret (Some (kn +:+ " (KindNotRecognized)", false))
      else if IsNotFound err then
        if String.eqb (subj_Kind subject) "ServiceAccount" then mret None
        else mret (Some (kn +:+ " (NotFound)", true))
      else match err with
           | MissingNamespaceError _ _ => mret (Some (kn +:+ " (NamespaceMissing)", false))
           | _ => throw (ErrWrap ("failed to validate subject " +:+ kn +:+ ": ") err)
           end
    | inl fetchedSubject =>
      if negb (String.eqb (om_UID (obj_Meta fetchedSubject)) (subj_UID subject))
      then mret (Some (kn +:+ " (UIDMismatch)", false))
      else mret None
    end.

(** [(subjectsValid, subjectMissing, validationMessages)] as the loop goes on. *)
Fixpoint subjects_loop (subjects : list Subject) (acc : bool * bool * list string) : Mw (bool * bool * list string) :=
  match subjects with
  | [] => mret acc
  | subject :: subjects' =>
    o ← validateSubject subject;
    let '(subjectsValid, subjectMissing, validationMessages) := acc in
    subjects_loop subjects'
      match o with
      | None => acc
      | Some (message, missing) => (false, subjectMissing || missing, validationMessages ++ [message])
      end
  end.

Definition validatePolicyBindingSubjects (pb : PolicyBinding) : Mw (bool * bool * list string) :=
  subjects_loop (pbs_Subjects (pb_Spec pb)) (true, false, []).

Definition reconcileSubjectValidation (pb : PolicyBinding) : Mw (bool * bool * PolicyBinding) :=
  res ← wrapf "failed to validate PolicyBinding subjects: " (validatePolicyBindingSubjects pb);
  let '(subjectsAreValid, subjectMissing, subjectValidationMessages) := res in
  if negb subjectsAreValid then
    mret (false, subjectMissing, pb_set_condition pb (mkCondition ConditionTypeSubjectValid ConditionFalse ReasonValidationFailed
      ("Validation failed: The following subject issues were found: " +:+ Join subjectValidationMessages "; ") 0))
  else
    mret (true, false, pb_set_condition pb (mkCondition ConditionTypeSubjectValid ConditionTrue ReasonValidationSuccessful
      "All subjects validated successfully." 0)).

(** ** OpenFGA *)

Definition targetGuard (pb : PolicyBinding) : option (Mw string) :=
  match sel_ResourceRef (pbs_ResourceSelector (pb_Spec pb)) with
  | None => None
  | Some ref =>
    if negb (isHeldKind (ref_APIGroup ref) (ref_Kind ref)) then None
    else Some
      (got ← try (getUnstructuredResourceAndMapping (ref_APIGroup ref) (ref_Kind ref) (ref_Name ref) (ref_Namespace ref));
       match got with
       | inr err => if IsNotFound err then mret (whyNotHeld holdMissing (ref_Kind ref) (ref_Name ref)) else throw err
       | inl target =>
         h ← on_k8s (holdTarget target (ref_UID ref));
         mret (whyNotHeld h (ref_Kind ref) (ref_Name ref))
       end)
  end.

(** The [PolicyReconciler] of a reconcile, and the finalizer's, which has no guard. *)
Definition guarded_reconciler (pb : PolicyBinding) : PolicyReconciler F K :=
  mkPolicyReconciler F K (pbr_EnableSubresourceAuthorization r) (pbr_StoreID r) (targetGuard pb) (pbr_fuel r).
Definition plain_reconciler : PolicyReconciler F K :=
  mkPolicyReconciler F K (pbr_EnableSubresourceAuthorization r) (pbr_StoreID r) None (pbr_fuel r).

Definition reconcilePolicyLocked (policyReconciler : PolicyReconciler F K) (pb : PolicyBinding) : Mw unit :=
  (match pr_TargetGuard policyReconciler with
   | Some _ => lift (TargetObjectFromResourceSelector (pbs_ResourceSelector (pb_Spec pb))) ;; mret tt
   | None => mret tt
   end) ;;
  ReconcilePolicy policyReconciler pb.

Definition ready_false (reason message : string) : Condition := mkCondition "Ready" ConditionFalse reason message 0.

Definition deferWrite (pb : PolicyBinding) (oldStatus : PolicyBindingStatus) (currentGeneration : Z) (reason : string) :
    Mw Result :=
  let pb := pb_set_condition pb (ready_false reasonWaitingForTarget
    ("No permissions were written, because " +:+ reason +:+ ". Retrying.")) in
  wrapf "failed to update PolicyBinding status after deferring its write: "
    (updatePolicyBindingStatus pb oldStatus currentGeneration) ;;
  mret requeue_result.

(** The status of a binding whose write failed; the error's text tells a missing role. *)
Definition policy_failure (pb : PolicyBinding) (err : goerr) : PolicyBinding :=
  let roleMissing := Contains (Error err) "not found" && Contains (Error err) "role '" in
  let reason := if roleMissing then "RoleNotFoundForBinding" else "BindingCreationFailed" in
  let pb := if roleMissing
            then pb_set_condition pb (mkCondition ConditionTypeRoleValid ConditionFalse reason (Error err) 0)
            else pb in
  pb_set_condition pb (ready_false reason ("Failed to create authorization binding: " +:+ Error err)).

Definition reconcileOpenFGAPolicy (pb : PolicyBinding) (oldStatus : PolicyBindingStatus) (currentGeneration : Z) :
    Mw Result :=
  result ← try (reconcilePolicyLocked (guarded_reconciler pb) pb);
  match result with
  | inr err =>
    match as_TargetNotHeld err with
    | Some notHeld => deferWrite pb oldStatus currentGeneration notHeld
    | None => try (updatePolicyBindingStatus (policy_failure pb err) oldStatus currentGeneration) ;; throw err
    end
  | inl _ =>
    let pb := pb_set_condition pb (mkCondition ConditionTypeRoleValid ConditionTrue ReasonValidationSuccessful
      "Role validated successfully." 0) in
    let pb := pb_set_condition pb (mkCondition "Ready" ConditionTrue "ReconciliationSuccessful"
      "PolicyBinding reconciled successfully." 0) in
    wrapf "failed to update PolicyBinding status after successful reconciliation: "
      (updatePolicyBindingStatus pb oldStatus currentGeneration) ;;
    mret done_result
  end.

(** ** [Reconcile] *)

(** [openFGAFinalizer.Finalize]. *)
Definition pb_Finalize (pb : PolicyBinding) : Mw unit :=
  wrapf "failed to delete OpenFGA policy during finalization: " (DeletePolicy plain_reconciler pb).

Definition policybinding_Reconcile (req : NamespacedName) : Mw Result :=
  got ← try (on_k8s (k_Get req));
  match got with
  | inr err => if IsNotFound err then mret done_result else throw (ErrWrap "failed to get PolicyBinding: " err)
  | inl pb =>
    let oldStatus := pb_Status pb in
    let currentGeneration := om_Generation (pb_Meta pb) in
    finalizeResult ← wrapf "failed to finalize PolicyBinding: "
      (Finalizers_Finalize policyBindingFinalizerKey (pb_Finalize pb) (pb_Meta pb));
    let '(updated, meta) := finalizeResult in
    let pb := pb_with_meta pb meta in
    if updated : bool then on_k8s (k_Update pb) ;; mret requeue_result
    else match om_DeletionTimestamp meta with
    | Some _ => mret done_result
    | None =>
      selected ← wrapf "failed to validate resource selector: "
        (reconcileResourceSelectorValidation pb currentGeneration);
      let '(isValid, targetMissing, pb) := selected in
      if negb isValid then
        (if pbr_EnableSubresourceAuthorization r
         then wrapf "failed to revoke invalid resource selector: " (DeletePolicy plain_reconciler pb)
         else mret tt) ;;
        wrapf "failed to update PolicyBinding status after ResourceSelector validation failure: "
          (updatePolicyBindingStatus (pb_set_condition pb (ready_false "ResourceSelectorValidationFailed"
             "ResourceSelector validation failed. See TargetValid condition for details.")) oldStatus currentGeneration) ;;
        mret (mkResult targetMissing 0)
      else
        subjects ← wrapf "failed to validate subjects: " (reconcileSubjectValidation pb);
        let '(isValid, subjectMissing, pb) := subjects in
        if negb isValid then
          wrapf "failed to update PolicyBinding status after subject validation failure: "
            (updatePolicyBindingStatus (pb_set_condition pb (ready_false "SubjectValidationFailed"
               "Subject validation failed. See SubjectValid condition for details.")) oldStatus currentGeneration) ;;
          mret (mkResult subjectMissing 0)
        else
          pb ← wrapf "failed to update PolicyBinding status after successful validations before OpenFGA reconciliation: "
            (updatePolicyBindingStatus pb oldStatus currentGeneration);
          wrapf "failed to reconcile OpenFGA policy: "
            (reconcileOpenFGAPolicy pb (pb_Status pb) currentGeneration)
    end
  end.

(** ** What wakes the controller *)

Definition pb_request (pb : PolicyBinding) : NamespacedName := key_of (pb_Meta pb).

Definition enqueuePolicyBindingsForProtectedResourceChange (pr : ProtectedResource) : M K (list NamespacedName) :=
  policyBindings ← try (if pbr_EnableSubresourceAuthorization r then k_List
    else k_ListField TargetKindIndexField (prs_ServiceRef_Name (pr_Spec pr) +:+ "/" +:+ prs_Kind (pr_Spec pr)));
  mret match policyBindings with
       | inl items => map pb_request items
       | inr _ => []
       end.

Definition enqueuePolicyBindingsForRoleChange (changedRole : Role) : M K (list NamespacedName) :=
  affectedRoles ← try (rolesDependentOnRole (role_key changedRole));
  match affectedRoles with
  | inr _ => mret []
  | inl roles =>
    append_loopM (λ boundRole,
      let roleKey := RoleRefIndexKey (nn_Namespace boundRole) (mkRoleRef (nn_Name boundRole) (nn_Namespace boundRole)) in
      policyBindings ← try (k_ListField (T := PolicyBinding) RoleRefIndexField roleKey);
      mret match policyBindings with
           | inl items => map pb_request items
           | inr _ => []
           end) (elements roles)
  end.
End controller.
