(* ===== verification/PolicyBindingFacts.v ===== *)
(** * Facts about the PolicyBinding controller's steps *)

From S2P Require Import Prelude GoStrings GoErr Types Constants ResourceGraph World Fga Tuples TuplesFacts.
From S2P Require Import PolicyReconciler PolicyReconcilerFacts Indexes RoleGraph ControllerEnv TargetHold PolicyBindingController.
Local Open Scope Z_scope.

(** The REST mapper reads, and ends. *)
Class RESTMapperLaws (K : Type) `{RESTMapper K} := {
  RESTMapping_world gk k : (RESTMapping gk k).2 = k;
  RESTMapping_result gk k : (RESTMapping gk k).1 ≠ OutOfFuel
}.

(** ** The policy reconciler under the controller's guard *)

Section policy.
Context {F K : Type} `{FgaLaws F} `{KReadLaws K Role} `{KReadLaws K PolicyBinding} `{KReadLaws K ProtectedResource}
  `{ApiErrors}.
Context (r : PolicyReconciler F K).

Lemma keeps_transition req : keeps_k8s (writeWithModelTransitionRetry (F := F) (K := K) req).
Proof. intros w. destruct (writeWithModelTransitionRetry req w) as [o w'] eqn:E. by apply transition_any in E as (Hk & _). Qed.

Lemma keeps_DeletePolicy {X} (f : K → X) b : keeps (λ w, f (w_k8s w)) (DeletePolicy r b).
Proof.
  apply keeps_of_k8s. intros w. destruct (DeletePolicy r b w) as [o w'] eqn:E. simpl.
  apply DeletePolicy_cases in E as [[-> _]|(target & ex & _ & _ & E)]; [done|].
  destruct E as [[_ ->]|(valid & still & _ & _ & E)]; [done|].
  destruct E as [[_ ->]|(req & p & _ & _ & _ & E)]; [done|].
  by apply wrapf_transition in E as (o' & (Hk & _)%transition_any & _).
Qed.

(** A reconcile changes Kubernetes as its guard does. *)
Lemma keeps_reconcilePolicy {X} (f : K → X) b :
  (∀ g, pr_TargetGuard r = Some g → keeps (λ w, f (w_k8s w)) g) → keeps (λ w, f (w_k8s w)) (reconcilePolicy r b).
Proof.
  intros Hg w. destruct (reconcilePolicy r b w) as [o w'] eqn:E. simpl.
  apply reconcilePolicy_cases in E as [[-> _]|[(? & ? & _ & _ & _ & E & _)|E]]; [done|..].
  { by apply (keeps_run (λ w, f (w_k8s w)) _ _ _ _ (keeps_DeletePolicy f b)) in E. }
  destruct E as (? & ? & ? & ? & ? & ? & ? & _ & _ & _ & _ & _ & _ & _ & E).
  destruct E as [(_ & _ & _ & ->)|(_ & req & _ & _ & _ & E)]; [done|]. revert E. apply (keeps_run (λ w, f (w_k8s w))).
  apply keeps_bind; [|intros; apply keeps_map_err, keeps_of_k8s, keeps_transition].
  unfold checkTarget, wrapf. destruct (diffTuples _ _).1; [done|]. destruct (pr_TargetGuard r) as [g|] eqn:Eg; [|done].
  apply keeps_bind; [by apply keeps_map_err, Hg|]. intros reason. by case_match.
Qed.

(** A tuple is added only after the guard agreed, in the world the guard left. *)
Lemma reconcilePolicy_guarded b w o w' k g :
  guard_keeps_fga r → pr_TargetGuard r = Some g → reconcilePolicy r b w = (o, w') →
  k ∈ dom (tuples r w') → k ∉ dom (tuples r w) → (g w).1 = Ok "" ∧ w_k8s w' = w_k8s (g w).2.
Proof.
  intros Hg Eg E Hin Hout.
  apply reconcilePolicy_cases in E as [[-> _]|[(? & ? & _ & _ & _ & E & _)|E]]; [done|..].
  { apply DeletePolicy_cases in E as [[-> _]|(target & ex & _ & _ & E)]; [done|].
    destruct E as [[_ ->]|(valid & still & _ & _ & E)]; [done|].
    destruct E as [[_ ->]|(req & p & Es & Ew & _ & E)]; [done|].
    apply wrapf_transition in E as (o' & (_ & _ & Ha & _)%transition_any & _).
    unfold tuples in *. rewrite Es, Ew in Ha. apply Ha in Hin as [?|?%elem_of_nil]; done. }
  destruct E as (? & ? & ? & ? & ? & ? & ? & _ & _ & _ & _ & _ & _ & _ & E).
  destruct E as [(_ & _ & _ & ->)|(_ & req & Es & Ew & _ & E)]; [done|].
  unfold writeGuarded in E.
  destruct (g w) as [og wg] eqn:Egw. pose proof (Hg g w og wg Eg Egw) as Hf.
  assert (∀ w1, w_fga w1 = w_fga w → k ∉ dom (tuples r w1)) as Hsame by (intros w1 Ew1; unfold tuples; by rewrite Ew1).
  destruct (diffTuples _ _).1 as [|t added] eqn:Ead.
  { unfold checkTarget in E. rewrite bind_ret_l in E. apply wrapf_transition in E as (o' & (_ & _ & Ha & _)%transition_any & _).
    unfold tuples in *. rewrite Es, Ew in Ha. apply Ha in Hin as [?|?%elem_of_nil]; done. }
  unfold checkTarget in E. rewrite Eg in E. unfold mbind, M_bind in E. rewrite wrapf_run, Egw in E.
  destruct og as [reason|e|]; [|by injection E as _ <-; destruct (Hsame wg Hf)..].
  destruct (String.eqb_spec reason "") as [->|]; simpl in E; [|injection E as _ <-; by destruct (Hsame wg Hf)].
  apply wrapf_transition in E as (o' & (Hk & _)%transition_any & _). done.
Qed.
End policy.

(** ** The controller's steps *)

Section controller.
Context {F K : Type} `{FgaLaws F} `{KReadLaws K Role} `{KReadLaws K PolicyBinding} `{KReadLaws K ProtectedResource}
  `{KWriter K PolicyBinding} `{!KStatusLaws K PolicyBinding} `{KDynamicLaws K} `{ApiErrors} `{RESTMapperLaws K}
  `{ResourceManager} `{IAMKinds} `{FinalizersLaws} `{StatusConditionsLaws} `{SemanticEqualityLaws PolicyBindingStatus}.
Implicit Types w : World F K.
Implicit Types pb : PolicyBinding.

(** *** Lookups only read *)

Lemma reads_RESTMapping gk : reads (RESTMapping gk : M K mapping).
Proof. intros k. apply RESTMapping_world. Qed.
#[local] Hint Resolve reads_RESTMapping : reads.

Lemma reads_getUnstructured ag kind name ns : reads (getUnstructuredResourceAndMapping (F := F) ag kind name ns).
Proof. unfold getUnstructuredResourceAndMapping. solve_reads. Qed.
Lemma reads_getSubjectResource ag kind name ns : reads (getSubjectResource (F := F) ag kind name ns).
Proof. unfold getSubjectResource. solve_reads. Qed.
#[local] Hint Resolve reads_getUnstructured reads_getSubjectResource : reads.

Lemma reads_validateResourceType ag kind : reads (validateResourceType (F := F) ag kind).
Proof. unfold validateResourceType, wrapf. solve_reads. Qed.
#[local] Hint Resolve reads_validateResourceType : reads.

Lemma reads_selector_validation pb gen : reads (reconcileResourceSelectorValidation (F := F) pb gen).
Proof.
  unfold reconcileResourceSelectorValidation, validateResourceRef, validateResourceKind. solve_reads.
Qed.

Lemma reads_validateSubject s : reads (validateSubject (F := F) s).
Proof. unfold validateSubject. cbv zeta. solve_reads. Qed.
Lemma reads_subjects_loop l acc : reads (subjects_loop (F := F) l acc).
Proof.
  revert acc. induction l as [|s l IH]; intros acc; [done|]. simpl. apply reads_bind; [apply reads_validateSubject|].
  intros o. destruct acc as [[??]?]. apply IH.
Qed.
Lemma reads_subject_validation pb : reads (reconcileSubjectValidation (F := F) pb).
Proof.
  unfold reconcileSubjectValidation, validatePolicyBindingSubjects, wrapf. apply reads_bind; [apply reads_map_err, reads_subjects_loop|].
  intros [[??]?]. solve_reads.
Qed.

(** *** What validation establishes *)

(** The type is registered: some ProtectedResource names it. *)
Definition registered_type w (ag kind : string) : Prop :=
  ag ≠ "" ∧ kind ≠ "" ∧ ∃ key (pr : ProtectedResource), k_view (w_k8s w) !! key = Some pr ∧
    (ag +:+ "/" +:+ kind) ∈ k_index protectedResourceServiceKindIndexField pr.

(** The object a reference names, where the REST mapper says it is. *)
Definition found_target w (ref : ResourceRef) (x : KObject) : Prop :=
  let gk := mkGK (ref_APIGroup ref) (ref_Kind ref) in
  ∃ m key, (RESTMapping gk (w_k8s w)).1 = Ok m ∧ scoped_key m gk (ref_Name ref) (ref_Namespace ref) = Ok key ∧
    d_view (w_k8s w) !! (mapping_GVK m, key) = Some x.

(** The binding's target may be written: its type is registered and, when one
    object is named, that object exists under its UID. *)
Definition target_ok w pb : Prop :=
  match sel_ResourceRef (pbs_ResourceSelector (pb_Spec pb)), sel_ResourceKind (pbs_ResourceSelector (pb_Spec pb)) with
  | Some ref, _ => registered_type w (ref_APIGroup ref) (ref_Kind ref) ∧
      ∃ x, found_target w ref x ∧ om_UID (obj_Meta x) = ref_UID ref
  | None, Some rk => registered_type w (rk_APIGroup rk) (rk_Kind rk)
  | None, None => False
  end.

(** A subject is a system group, an object that exists under its UID, or a service
    account that this cluster does not have. *)
Definition subject_ok w (s : Subject) : Prop :=
  (subj_Kind s = "Group" ∧ HasPrefix (subj_Name s) "system:" = true) ∨
  (subj_UID s ≠ "" ∧
   let found := (getSubjectResource (gvk_Group UserGVK) (subj_Kind s) (subj_Name s) (subj_Namespace s) w).1 in
   (∃ x, found = Ok x ∧ om_UID (obj_Meta x) = subj_UID s) ∨
   (subj_Kind s = "ServiceAccount" ∧ ∃ e, found = Err e ∧ IsNotFound e = true)).

Lemma validateResourceType_Ok w ag kind b reason :
  (validateResourceType ag kind w).1 = Ok (b, reason) → b = true → registered_type w ag kind.
Proof.
  intros E ->. unfold validateResourceType in E.
  destruct (String.eqb_spec ag ""), (String.eqb_spec kind ""); simpl in E; try done.
  apply bind_fst_reads in E as (l & Hl & E); [|unfold wrapf; solve_reads]. rewrite wrapf_fst, on_k8s_fst in Hl.
  destruct l as [|pr l]; [done|]. split_and!; [done..|].
  destruct (proj1 (k_ListField_Ok _ _ _ _ Hl pr) (list_elem_of_here _ _)) as [[key Hk] Hi]. eauto.
Qed.

Lemma getUnstructured_Ok w ref x :
  (getUnstructuredResourceAndMapping (ref_APIGroup ref) (ref_Kind ref) (ref_Name ref) (ref_Namespace ref) w).1 = Ok x →
  found_target w ref x.
Proof.
  intros E. unfold getUnstructuredResourceAndMapping in E. apply bind_fst_reads in E as (m & Hm & E); [|solve_reads].
  apply bind_fst_reads in E as (key & Hkey & E); [|solve_reads]. rewrite on_k8s_fst in *. rewrite lift_fst in Hkey.
  exists m, key. split_and!; [done..|]. by apply d_Get_Ok.
Qed.

Lemma selector_validation_Ok w pb gen valid missing pb' :
  (reconcileResourceSelectorValidation pb gen w).1 = Ok (valid, missing, pb') →
  (valid = true → target_ok w pb) ∧
  ∃ c, pb' = pb_set_condition pb c ∧ c_Type c = ConditionTypeTargetValid ∧ (c_Status c = ConditionTrue ↔ valid = true).
Proof.
  unfold reconcileResourceSelectorValidation, target_ok.
  destruct (sel_ResourceRef _) as [ref|]; [|destruct (sel_ResourceKind _) as [rk|]; [|done]].
  - intros E. unfold validateResourceRef in E. apply bind_fst_reads in E as ([known reason] & Hk & E); [|solve_reads].
    destruct known; simpl in E; [|injection E as <- <- <-; split; [done|eexists; by split_and!]].
    pose proof (validateResourceType_Ok _ _ _ _ _ Hk eq_refl) as Hreg.
    apply bind_fst_reads in E as (got & Hg & E); [|solve_reads]. apply try_fst in Hg. destruct got as [x|e].
    + destruct (String.eqb_spec (om_UID (obj_Meta x)) (ref_UID ref)); simpl in E; injection E as <- <- <-.
      * split; [intros _; split; [done|]; exists x; split; [by apply getUnstructured_Ok|done]|eexists; by split_and!].
      * split; [done|eexists; by split_and!].
    + destruct (target_lookup_failure ref e) as [[[??]?]|]; [|done]. injection E as <- <- <-.
      split; [done|eexists; by split_and!].
  - intros E. apply bind_fst_reads in E as ([v p] & Hv & E); [|unfold validateResourceKind; solve_reads].
    injection E as <- <- <-. simpl. unfold validateResourceKind in Hv.
    apply bind_fst_reads in Hv as ([known reason] & Hk & E); [|solve_reads].
    destruct known; simpl in E; injection E as <- <-; (split; [|eexists; by split_and!]); [|done].
    intros _. by eapply validateResourceType_Ok.
Qed.

Lemma validateSubject_Ok w s : (validateSubject s w).1 = Ok None → subject_ok w s.
Proof.
  unfold validateSubject, subject_ok. cbv zeta. intros E.
  destruct (String.eqb_spec (subj_Kind s) "Group") as [Eg|]; [destruct (HasPrefix _ _) eqn:Ep; [by left|]|]; simpl in E.
  all: right; destruct (String.eqb_spec (subj_UID s) ""); [done|]; split; [done|].
  all: apply bind_fst_reads in E as (got & Hg & E); [|solve_reads]; apply try_fst in Hg; destruct got as [x|e].
  1,3: left; exists x; split; [done|]; by destruct (String.eqb_spec (om_UID (obj_Meta x)) (subj_UID s)).
  all: right; destruct (IsNoMatchError e); [done|]; destruct (IsNotFound e) eqn:En; [|by destruct e].
  all: destruct (String.eqb_spec (subj_Kind s) "ServiceAccount"); [|done]; eauto.
Qed.

Lemma subjects_loop_Ok w l acc valid missing msgs :
  (subjects_loop l acc w).1 = Ok (valid, missing, msgs) → valid = true → acc.1.1 = true ∧ ∀ s, s ∈ l → subject_ok w s.
Proof.
  revert acc. induction l as [|s l IH]; intros acc; simpl.
  - intros [= ->] ->. split; [done|]. by intros s ?%elem_of_nil.
  - intros E Hv. apply bind_fst_reads in E as (o & Ho & E); [|apply reads_validateSubject].
    destruct acc as [[a b] c]. apply IH in E as [Ha Hl]; [|done]. destruct o as [[message missing']|]; [done|].
    split; [done|]. intros s' [->|?]%elem_of_cons; [by apply validateSubject_Ok|auto].
Qed.

Lemma subject_validation_Ok w pb valid missing pb' :
  (reconcileSubjectValidation pb w).1 = Ok (valid, missing, pb') →
  (valid = true → ∀ s, s ∈ pbs_Subjects (pb_Spec pb) → subject_ok w s) ∧
  ∃ c, pb' = pb_set_condition pb c ∧ c_Type c = ConditionTypeSubjectValid ∧ (c_Status c = ConditionTrue ↔ valid = true).
Proof.
  intros E. unfold reconcileSubjectValidation in E. apply bind_fst_reads in E as ([[v m] msgs] & Hv & E).
  2:{ unfold wrapf, validatePolicyBindingSubjects. apply reads_map_err, reads_subjects_loop. }
  rewrite wrapf_fst in Hv. destruct v; simpl in E; injection E as <- <- <-; (split; [|eexists; by split_and!]); [|done].
  intros _. by apply (subjects_loop_Ok _ _ _ _ _ _ Hv).
Qed.

(** *** Status updates *)

(** Writing one kind leaves the others' objects alone. *)
Class SeparateKinds : Prop := {
  status_roles pb k : k_view (T := Role) (k_StatusUpdate pb k : _ * K).2 = k_view k;
  status_registrations pb k : k_view (T := ProtectedResource) (k_StatusUpdate pb k : _ * K).2 = k_view k;
  status_objects pb k : d_view (k_StatusUpdate pb k : _ * K).2 = d_view k;
  update_bindings x k : k_view (T := PolicyBinding) (d_Update x k : _ * K).2 = k_view k
}.

Context `{!SeparateKinds}.
(** A binding's key is its namespace and name; a status update stores the status. *)
Context (Hkey : ∀ pb, k_key (K := K) pb = key_of (pb_Meta pb))
  (Hstatus : ∀ old new, k_with_status (K := K) old new = mkPB (pb_Meta old) (pb_Spec old) (pb_Status new)).

(** The worlds differ in the status of [pb] at most. *)
Definition status_only pb w w1 : Prop :=
  w_fga w1 = w_fga w ∧ k_view (T := Role) (w_k8s w1) = k_view (w_k8s w) ∧
  k_view (T := ProtectedResource) (w_k8s w1) = k_view (w_k8s w) ∧ d_view (w_k8s w1) = d_view (w_k8s w) ∧
  ∃ st, k_view (w_k8s w1) = <[key_of (pb_Meta pb) := mkPB (pb_Meta pb) (pb_Spec pb) st]> (k_view (w_k8s w)).

Lemma updatePolicyBindingStatus_run pb old gen w o w' :
  k_view (w_k8s w) !! key_of (pb_Meta pb) = Some old → pb_Meta old = pb_Meta pb → pb_Spec old = pb_Spec pb →
  updatePolicyBindingStatus pb (pb_Status old) gen w = (o, w') →
  status_only pb w w' ∧
  ∀ y, o = Ok y → y = mkPB (pb_Meta pb) (pb_Spec pb) (mkPBStatus gen (pbst_Conditions (pb_Status pb))) ∧
    k_view (w_k8s w') !! key_of (pb_Meta pb) = Some y.
Proof.
  intros Hs Em Es. unfold updatePolicyBindingStatus. set (x := pb_with_status pb _).
  assert (k_view (w_k8s w) = <[key_of (pb_Meta pb) := mkPB (pb_Meta pb) (pb_Spec pb) (pb_Status old)]> (k_view (w_k8s w))) as Hid.
  { symmetry. apply insert_id. rewrite Hs. f_equal. destruct old; simpl in *; congruence. }
  destruct (Semantic_DeepEqual (pb_Status old) (pb_Status x)) eqn:E; simpl.
  - intros [= <- <-]. apply (proj1 (Semantic_DeepEqual_eq _ _)) in E. split; [by split_and!; eauto|]. intros y [= <-].
    split; [done|]. rewrite Hs. f_equal. destruct old; simpl in *. by subst.
  - intros Hu. apply on_k8s_run in Hu as (k' & Hu & ->).
    pose proof (status_roles x (w_k8s w)) as Hr. pose proof (status_registrations x (w_k8s w)) as Hp.
    pose proof (status_objects x (w_k8s w)) as Ho. rewrite Hu in Hr, Hp, Ho. simpl in Hr, Hp, Ho.
    destruct o as [y|e|]; [| |by destruct (k_StatusUpdate_result x (w_k8s w)); rewrite Hu].
    + apply k_StatusUpdate_Ok in Hu as (old' & Hold & -> & Hv). rewrite Hkey in Hold, Hv. simpl in Hold, Hv.
      rewrite Hs in Hold. injection Hold as <-. rewrite Hstatus, Em, Es in *. split.
      * split_and!; [done..|]. eexists. exact Hv.
      * intros y [= <-]. split; [done|]. simpl. by rewrite Hv, lookup_insert_eq.
    + apply k_StatusUpdate_Err in Hu. subst k'. split; [split_and!; [done..|by eauto]|done].
Qed.

Lemma status_only_refl pb w : k_view (w_k8s w) !! key_of (pb_Meta pb) = Some pb → status_only pb w w.
Proof.
  intros Hs. split_and!; [done..|]. exists (pb_Status pb). symmetry. apply insert_id. rewrite Hs. by destruct pb.
Qed.

(** *** The guard and the write *)

Context (r : PolicyBindingReconciler).

(** The binding's target, when our finalizer holds its kind, is live under the
    binding's UID and carries the finalizer. *)
Definition target_held w pb : Prop :=
  ∀ ref, sel_ResourceRef (pbs_ResourceSelector (pb_Spec pb)) = Some ref → isHeldKind (ref_APIGroup ref) (ref_Kind ref) = true →
    ∃ gvk ns x, d_view (w_k8s w) !! (gvk, mkNN ns (ref_Name ref)) = Some x ∧
      holdOf (obj_Meta x) (ref_UID ref) = holdHeld.

Lemma keeps_holdTarget x uid : keeps (F := F) (λ w, k_view (T := PolicyBinding) (w_k8s w)) (on_k8s (holdTarget x uid)).
Proof.
  intros w. simpl. unfold holdTarget, holdWithFinalizer. destruct (holdOf _ _); try done.
  set (y := obj_with_meta _ _). pose proof (update_bindings y (w_k8s w)) as Hu. unfold mbind, M_bind, wrapf, map_err.
  by destruct (d_Update y (w_k8s w)) as [[]].
Qed.

Lemma targetGuard_keeps pb g :
  targetGuard pb = Some g → keeps w_fga g ∧ keeps (F := F) (λ w, k_view (T := PolicyBinding) (w_k8s w)) g.
Proof.
  unfold targetGuard. destruct (sel_ResourceRef _) as [ref|]; [|done]. destruct (negb _); [done|]. intros [= <-].
  split; (apply keeps_bind; [apply keeps_reads, reads_try, reads_getUnstructured|]; intros [x|e]; [|by case_match]).
  - apply keeps_bind; [done|by intros].
  - apply keeps_bind; [apply keeps_holdTarget|by intros].
Qed.

Lemma guard_keeps pb : guard_keeps_fga (guarded_reconciler (F := F) r pb).
Proof. intros g w o w' Hg E. apply targetGuard_keeps in Hg as [Hf _]. specialize (Hf w). by rewrite E in Hf. Qed.

Lemma targetGuard_held pb g w w' : targetGuard pb = Some g → g w = (Ok "", w') → target_held w' pb.
Proof.
  unfold targetGuard, target_held. intros Eg E ref Href Hk. rewrite Href, Hk in Eg. simpl in Eg. injection Eg as <-.
  apply bind_Ok in E as (got & w1 & Hg & E). apply reads_inv in Hg as [-> Hg]; [|apply reads_try, reads_getUnstructured].
  apply try_fst in Hg. destruct got as [x|e].
  2:{ destruct (IsNotFound e); [|done]. injection E as E _. discriminate E. }
  apply getUnstructured_Ok in Hg as (m & key & _ & Hkey' & Hx).
  apply bind_Ok in E as (h & w1 & Hh & E). injection E as Ewhy ->. apply whyNotHeld_held in Ewhy as ->.
  apply on_k8s_run in Hh as (k' & Hh & ->). pose proof (d_view_keyed _ _ _ Hx) as Exk.
  rewrite <- Exk in Hx. destruct (holdTarget_run x (ref_UID ref) (w_k8s w) _ k' Hx Hh) as (_ & HH & _).
  destruct (HH holdHeld eq_refl) as (y & Hy & Hold). rewrite Exk in Hy.
  assert (nn_Name key = ref_Name ref) as <-.
  { unfold scoped_key in Hkey'. destruct (mapping_namespaced m); [destruct (String.eqb _ _); [done|]|]; by injection Hkey' as <-. }
  exists (mapping_GVK m), (nn_Namespace key), y. by destruct key.
Qed.

(** The reconcile under the lock: the policy reconciler's run, or none. *)
Lemma reconcilePolicyLocked_run pb w o w' :
  reconcilePolicyLocked (guarded_reconciler r pb) pb w = (o, w') →
  (w' = w ∧ ∀ a, o ≠ Ok a) ∨
  ∃ o2, reconcilePolicy (guarded_reconciler r pb) pb w = (o2, w') ∧ (o = Ok tt ↔ o2 = Ok tt).
Proof.
  intros E. unfold reconcilePolicyLocked in E.
  assert ((w' = w ∧ ∀ a, o ≠ Ok a) ∨ ReconcilePolicy (guarded_reconciler r pb) pb w = (o, w')) as [?|E2]; [|by left|].
  { destruct (pr_TargetGuard _); [|by right]. destruct (TargetObjectFromResourceSelector _) as [t|e|]; [by right| |];
      injection E as <- <-; by left. }
  right. unfold ReconcilePolicy, wrapf, map_err in E2. destruct (reconcilePolicy _ _ _) as [o2 w2].
  exists o2. destruct o2 as [[]|e|]; injection E2 as <- <-; (split; [done|]); split; done.
Qed.

Lemma conditions_set pb c t :
  t ≠ c_Type c → condition_true (pbst_Conditions (pb_Status (pb_set_condition pb c))) t ↔ condition_true (pbst_Conditions (pb_Status pb)) t.
Proof. apply condition_set_other. Qed.

(** A handler's last step: the status update whose answer it drops. *)
Lemma update_then p (res0 : Result) x pb gen w o w' :
  k_view (w_k8s w) !! key_of (pb_Meta pb) = Some pb → pb_Meta x = pb_Meta pb → pb_Spec x = pb_Spec pb →
  (wrapf p (updatePolicyBindingStatus x (pb_Status pb) gen) ;; mret res0) w = (o, w') →
  status_only pb w w' ∧
  ∀ res, o = Ok res → k_view (w_k8s w') !! key_of (pb_Meta pb) =
    Some (mkPB (pb_Meta pb) (pb_Spec pb) (mkPBStatus gen (pbst_Conditions (pb_Status x)))).
Proof.
  intros Hs Em Es E. destruct (updatePolicyBindingStatus x (pb_Status pb) gen w) as [ou w1] eqn:Eu.
  apply bind_inv in E as (ow & w3 & Hu & E).
  assert (w3 = w') as -> by (destruct E as [(a & _ & E)|[_ ->]]; [by injection E|done]).
  assert (w1 = w' ∧ ∀ a, ow = Ok a → ou = Ok a) as [-> Hou].
  { rewrite wrapf_run, Eu in Hu. by destruct ou; injection Hu as <- <-. }
  apply (updatePolicyBindingStatus_run x pb) in Eu as [Hst Hy]; [|by rewrite Em|done..].
  split; [destruct Hst as (? & ? & ? & ? & st & Hst); rewrite Em, Es in Hst; split_and!; eauto|].
  intros res ->. destruct E as [(y & -> & E)|[Hno _]]; [|by destruct (Hno res)].
  destruct (Hy y (Hou y eq_refl)) as [-> Hv]. by rewrite Em, Es in Hv.
Qed.

(** What is left of a reconcile once validation passed. *)
Lemma reconcileOpenFGAPolicy_run pb gen w o w' :
  k_view (w_k8s w) !! key_of (pb_Meta pb) = Some pb →
  reconcileOpenFGAPolicy r pb (pb_Status pb) gen w = (o, w') →
  ∃ o2 w2, ((w2 = w ∧ ∀ a, o2 ≠ Ok a) ∨ reconcilePolicy (guarded_reconciler r pb) pb w = (o2, w2)) ∧
    status_only pb w2 w' ∧
    ∀ res, o = Ok res → ∃ st, k_view (w_k8s w') !! key_of (pb_Meta pb) = Some (mkPB (pb_Meta pb) (pb_Spec pb) st) ∧
      pbst_ObservedGeneration st = gen ∧
      (condition_true (pbst_Conditions st) "Ready" → o2 = Ok tt ∧ condition_true (pbst_Conditions st) ConditionTypeRoleValid ∧
        ∀ t, t ≠ "Ready" → t ≠ ConditionTypeRoleValid →
          condition_true (pbst_Conditions st) t ↔ condition_true (pbst_Conditions (pb_Status pb)) t).
Proof.
  intros Hs E. unfold reconcileOpenFGAPolicy in E.
  destruct (reconcilePolicyLocked (guarded_reconciler r pb) pb w) as [ol w2] eqn:El.
  assert (k_view (w_k8s w2) !! key_of (pb_Meta pb) = Some pb) as Hs2.
  { apply reconcilePolicyLocked_run in El as [[-> _]|(o2 & El & _)]; [done|].
    apply (keeps_run (λ w, k_view (T := PolicyBinding) (w_k8s w))) in El; [by rewrite El|].
    apply keeps_reconcilePolicy. intros g Hg. by apply targetGuard_keeps in Hg as [_ ?]. }
  assert (∃ o2, ((w2 = w ∧ ∀ a, o2 ≠ Ok a) ∨ reconcilePolicy (guarded_reconciler r pb) pb w = (o2, w2)) ∧ (ol = Ok tt ↔ o2 = Ok tt))
    as (o2 & Hrun & Ho2).
  { apply reconcilePolicyLocked_run in El as [[-> Hno]|(o2 & El & Ho)]; [exists ol; split; [by left|done]|].
    exists o2. split; [by right|done]. }
  exists o2, w2. split; [done|].
  destruct ol as [[]|err|].
  - assert (try (reconcilePolicyLocked (guarded_reconciler r pb) pb) w = (Ok (inl ()), w2)) as Ht by (unfold try; by rewrite El).
    rewrite (bind_run_Ok _ _ _ _ _ Ht) in E. cbv zeta beta iota in E. set (x := pb_set_condition _ _) in E.
    apply (update_then _ _ x pb) in E as [Hst Hy]; [|done..]. split; [exact Hst|].
    intros res Eres. specialize (Hy res Eres). eexists. split; [exact Hy|]. split; [done|].
    cbn [pbst_Conditions]. intros _. split; [by apply Ho2|]. split.
    + apply (conditions_set (pb_set_condition _ _)); [done|]. by apply condition_set_same.
    + intros t Hr1 Hr2. unfold x. rewrite !conditions_set; done.
  - assert (try (reconcilePolicyLocked (guarded_reconciler r pb) pb) w = (Ok (inr err), w2)) as Ht by (unfold try; by rewrite El).
    rewrite (bind_run_Ok _ _ _ _ _ Ht) in E. cbv beta iota in E.
    destruct (as_TargetNotHeld err) as [reason|].
    + unfold deferWrite in E. cbv zeta in E. set (x := pb_set_condition _ _) in E.
      apply (update_then _ _ x pb) in E as [Hst Hy]; [|done..]. split; [exact Hst|].
      intros res Eres. specialize (Hy res Eres). eexists. split; [exact Hy|]. split; [done|].
      simpl. intros Hr. by apply (condition_set_same _ (ready_false _ _)) in Hr.
    + apply bind_inv in E as (ou & w3 & Hu & E).
      assert (w3 = w') as -> by (destruct E as [(a & _ & E)|[_ ->]]; [by injection E|done]).
      destruct (updatePolicyBindingStatus (policy_failure pb err) (pb_Status pb) gen w2) as [ou' w3] eqn:Eu.
      assert (w3 = w') as -> by (unfold try in Hu; rewrite Eu in Hu; by destruct ou'; injection Hu as <- <-).
      assert (pb_Meta (policy_failure pb err) = pb_Meta pb ∧ pb_Spec (policy_failure pb err) = pb_Spec pb) as [Em Es]
        by (unfold policy_failure; by destruct (Contains _ _ && _)).
      apply (updatePolicyBindingStatus_run _ pb) in Eu as [(? & ? & ? & ? & st & Hst) _]; [|by rewrite Em|done..].
      rewrite Em, Es in Hst. split; [split_and!; eauto|].
      intros res ->. destruct E as [(? & _ & E)|[Hno _]]; [discriminate E|by destruct (Hno res)].
  - unfold mbind, M_bind, try in E. rewrite El in E. injection E as <- <-. split; [by apply status_only_refl|done].
Qed.

(** *** A whole reconcile *)

Abbreviation stored w := (fga_tuples (w_fga w) (pbr_StoreID r)).

(** The status says when it was written and that the binding is not ready. *)
Definition settled_unready pb w' : Prop :=
  ∃ st, k_view (w_k8s w') !! key_of (pb_Meta pb) = Some (mkPB (pb_Meta pb) (pb_Spec pb) st) ∧
    pbst_ObservedGeneration st = om_Generation (pb_Meta pb) ∧ ¬ condition_true (pbst_Conditions st) "Ready".

(** Refusing a binding: what ran before touched no binding and added no tuple. *)
Lemma refuse_run (before : M (World F K) unit) p q (res0 : Result) pb x reason message w o w' :
  k_view (w_k8s w) !! key_of (pb_Meta pb) = Some pb → pb_Meta x = pb_Meta pb → pb_Spec x = pb_Spec pb →
  keeps (λ w, k_view (T := PolicyBinding) (w_k8s w)) before →
  (∀ w o w', before w = (o, w') → dom (stored w') ⊆ dom (stored w)) →
  (wrapf q before ;;
   wrapf p (updatePolicyBindingStatus (pb_set_condition x (ready_false reason message)) (pb_Status pb)
     (om_Generation (pb_Meta pb))) ;;
   mret res0) w = (o, w') →
  dom (stored w') ⊆ dom (stored w) ∧ ∀ res, o = Ok res → settled_unready pb w'.
Proof.
  intros Hs Em Es Hk Hd E. apply bind_inv in E as (ob & w1 & Hb & E).
  assert (k_view (T := PolicyBinding) (w_k8s w1) = k_view (w_k8s w) ∧ dom (stored w1) ⊆ dom (stored w)) as [Hk1 Hd1].
  { rewrite wrapf_run in Hb. destruct (before w) as [ob' w2] eqn:Eb.
    assert (w2 = w1) as -> by (by destruct ob'; injection Hb as _ <-).
    split; [by apply (keeps_run (λ w, k_view (T := PolicyBinding) (w_k8s w)) _ _ _ _ Hk Eb)|by eapply Hd]. }
  destruct E as [([] & _ & E)|[Hno ->]]; [|split; [done|by intros res ->; destruct (Hno res)]].
  apply (update_then _ _ _ pb) in E as [Hst Hy]; [|by rewrite Hk1|done..].
  destruct Hst as (Hf & _). rewrite Hf. split; [done|]. intros res Eres. eexists. split; [by eapply Hy|].
  split; [done|]. intros Hr. by apply (condition_set_same _ (ready_false _ _)) in Hr.
Qed.

Lemma keeps_nothing {X} (f : World F K → X) : keeps f (mret tt).
Proof. done. Qed.

Lemma plain_only_removes pb w o w' :
  names_target (pbs_ResourceSelector (pb_Spec pb)) → DeletePolicy (plain_reconciler r) pb w = (o, w') →
  dom (stored w') ⊆ dom (stored w).
Proof. intros Hn E. apply DeletePolicy_any in E as (_ & HA & _); [|done]. exact HA. Qed.

Lemma Reconcile_live pb w o w' :
  k_view (w_k8s w) !! key_of (pb_Meta pb) = Some pb → om_DeletionTimestamp (pb_Meta pb) = None →
  ContainsFinalizer (pb_Meta pb) policyBindingFinalizerKey = true → names_target (pbs_ResourceSelector (pb_Spec pb)) →
  policybinding_Reconcile r (key_of (pb_Meta pb)) w = (o, w') →
  (dom (stored w') ⊆ dom (stored w) ∧ ∀ res, o = Ok res → settled_unready pb w') ∨
  ∃ w1 st1, let pb1 := mkPB (pb_Meta pb) (pb_Spec pb) st1 in
    target_ok w pb ∧ (∀ s, s ∈ pbs_Subjects (pb_Spec pb) → subject_ok w s) ∧ status_only pb w w1 ∧
    k_view (w_k8s w1) !! key_of (pb_Meta pb) = Some pb1 ∧
    condition_true (pbst_Conditions st1) ConditionTypeTargetValid ∧
    condition_true (pbst_Conditions st1) ConditionTypeSubjectValid ∧
    ∃ o1, reconcileOpenFGAPolicy r pb1 st1 (om_Generation (pb_Meta pb)) w1 = (o1, w') ∧ ∀ res, o = Ok res → o1 = Ok res.
Proof.
  intros Hs Hlive Hfin Hnt E. unfold policybinding_Reconcile in E.
  destruct (k_get_stored _ w pb Hs) as [(e & He & Hn)|He]; rewrite (bind_run_Ok _ _ _ _ _ He) in E.
  { rewrite Hn in E. injection E as <- <-. by left. }
  assert (wrapf "failed to finalize PolicyBinding: "
    (Finalizers_Finalize policyBindingFinalizerKey (pb_Finalize r pb) (pb_Meta pb)) w = (Ok (false, pb_Meta pb), w)) as Hf
    by by rewrite wrapf_run, (Finalize_live _ _ _ _ _ Hlive Hfin).
  rewrite (bind_run_Ok _ _ _ _ _ Hf) in E. cbv beta iota zeta in E. rewrite Hlive in E.
  replace (pb_with_meta pb (pb_Meta pb)) with pb in E by by destruct pb.
  apply bind_reads_inv in E as [([[valid missing] pb2] & Hv & E)|[-> [(? & -> & _)|[-> _]]]];
    [|by left|by left|unfold wrapf; apply reads_map_err, reads_selector_validation].
  rewrite wrapf_fst in Hv. apply selector_validation_Ok in Hv as (Ht & ct & -> & Tt & Et).
  cbv beta iota in E. destruct valid; cbn [negb] in E.
  2:{ left. destruct (pbr_EnableSubresourceAuthorization r).
      - eapply (refuse_run (DeletePolicy (plain_reconciler r) (pb_set_condition pb ct))); [done|..|exact E]; try done.
        + apply keeps_DeletePolicy.
        + intros ???. by apply plain_only_removes.
      - eapply (refuse_run (mret tt) _ ""); [done|..|exact E]; try done. by intros ??? [= _ <-]. }
  specialize (Ht eq_refl). apply bind_reads_inv in E as [([[valid missing'] pb2] & Hv & E)|[-> [(? & -> & _)|[-> _]]]];
    [|by left|by left|unfold wrapf; apply reads_map_err, reads_subject_validation].
  rewrite wrapf_fst in Hv. apply subject_validation_Ok in Hv as (Hsub & cs & -> & Tsub & Esub).
  cbv beta iota in E. destruct valid; cbn [negb] in E.
  2:{ left. eapply (refuse_run (mret tt) _ ""); [done|..|exact E]; try done. by intros ??? [= _ <-]. }
  specialize (Hsub eq_refl). set (x := pb_set_condition (pb_set_condition pb ct) cs) in E.
  apply bind_inv in E as (ou & w1 & Hu & E).
  destruct (updatePolicyBindingStatus x (pb_Status pb) (om_Generation (pb_Meta pb)) w) as [ou' w2] eqn:Eu.
  assert (w2 = w1 ∧ ∀ a, ou = Ok a ↔ ou' = Ok a) as [-> Hou].
  { rewrite wrapf_run, Eu in Hu. by destruct ou'; injection Hu as <- <-. }
  apply (updatePolicyBindingStatus_run x pb) in Eu as [Hst Hy]; [|done..]. pose proof Hst as (Hfga & _).
  destruct E as [(y & -> & E)|[Hno ->]]; [right|left; rewrite Hfga; by split; [|intros res ->; destruct (Hno res)]].
  destruct (Hy y (proj1 (Hou y) eq_refl)) as [-> Hview]. eexists w1, _. split_and!; [done..|exact Hview| | |].
  - apply (conditions_set _ cs); [by rewrite Tsub|]. rewrite <- Tt. apply condition_set_same. by apply Et.
  - rewrite <- Tsub. apply condition_set_same. by apply Esub.
  - rewrite wrapf_run in E. destruct (reconcileOpenFGAPolicy r _ _ _ w1) as [o1 w2] eqn:Er in E.
    exists o1. assert (w2 = w') as -> by (by destruct o1; injection E as _ <-).
    split; [exact Er|]. intros res ->. destruct o1; [by injection E as ->|discriminate E..].
Qed.
End controller.
