(* ===== verification/PolicyBindingControllerSpec.v ===== *)
(** * What the PolicyBinding controller guarantees *)

From S2P Require Import Prelude GoStrings GoErr Types Constants Hash ResourceGraph World Fga Tuples TuplesFacts.
From S2P Require Import PolicyReconciler PolicyReconcilerFacts Indexes RoleGraph ControllerEnv TargetHold.
From S2P Require Import PolicyBindingController PolicyBindingFacts RefK8s RefObjects PolicyReconcilerSpec.
Local Open Scope Z_scope.

Section spec.
Context {F K : Type} `{FgaLaws F} `{KReadLaws K Role} `{KReadLaws K PolicyBinding} `{KReadLaws K ProtectedResource}
  `{KWriter K PolicyBinding} `{!KStatusLaws K PolicyBinding} `{KDynamicLaws K} `{ApiErrors} `{RESTMapperLaws K}
  `{ResourceManager} `{IAMKinds} `{FinalizersLaws} `{StatusConditionsLaws} `{SemanticEqualityLaws PolicyBindingStatus}
  `{!SeparateKinds}.
Context (r : PolicyBindingReconciler).
Implicit Types w : World F K.
Implicit Types pb : PolicyBinding.
(** A binding's key is its namespace and name; a status update stores the status. *)
Context (Hkey : ∀ pb, k_key (K := K) pb = key_of (pb_Meta pb))
  (Hstatus : ∀ old new, k_with_status (K := K) old new = mkPB (pb_Meta old) (pb_Spec old) (pb_Status new)).

Abbreviation stored w := (fga_tuples (w_fga w) (pbr_StoreID r)).

Lemma status_only_held pb w w1 : status_only pb w w1 → target_held w pb → target_held w1 pb.
Proof. intros (_ & _ & _ & Ho & _) Hh ref Href Hk. rewrite Ho. by apply Hh. Qed.

(** A live binding without the finalizer gets it and nothing else. *)
Lemma Reconcile_adopt pb w o w' :
  k_view (w_k8s w) !! key_of (pb_Meta pb) = Some pb → om_DeletionTimestamp (pb_Meta pb) = None →
  ContainsFinalizer (pb_Meta pb) policyBindingFinalizerKey = false →
  policybinding_Reconcile r (key_of (pb_Meta pb)) w = (o, w') → w_fga w' = w_fga w.
Proof.
  intros Hs Hlive Hfin E. unfold policybinding_Reconcile in E.
  destruct (k_get_stored _ w pb Hs) as [(e & He & Hn)|He]; rewrite (bind_run_Ok _ _ _ _ _ He) in E.
  { rewrite Hn in E. by injection E as _ <-. }
  set (m := set_finalizers (pb_Meta pb) (om_Finalizers (pb_Meta pb) ++ [policyBindingFinalizerKey])) in *.
  assert (wrapf "failed to finalize PolicyBinding: "
    (Finalizers_Finalize policyBindingFinalizerKey (pb_Finalize r pb) (pb_Meta pb)) w = (Ok (true, m), w)) as Hf
    by by rewrite wrapf_run, (Finalize_add _ _ _ _ _ Hlive Hfin).
  rewrite (bind_run_Ok _ _ _ _ _ Hf) in E. revert E. apply (keeps_run w_fga). solve_keeps.
Qed.

(** C2: Nothing is granted unvalidated. Whatever a reconcile of a live PolicyBinding
    returns, a tuple it added means: the target's type is registered and the target
    exists under the UID the binding names; every subject is a system group, an
    object under its UID or a service account kept in another cluster; the target,
    when it is a Project or an Organization, is live and carries our finalizer; and
    the binding's role grants the tuple to one of its subjects on that target. *)
Theorem binding_grants_validated pb w o w' k
  (Hstored : k_view (w_k8s w) !! key_of (pb_Meta pb) = Some pb)
  (Hlive : om_DeletionTimestamp (pb_Meta pb) = None)
  (Hnames : names_target (pbs_ResourceSelector (pb_Spec pb)))
  (Hrun : policybinding_Reconcile r (key_of (pb_Meta pb)) w = (o, w'))
  (Hnew : k ∈ dom (stored w')) (Hold : k ∉ dom (stored w)) :
  target_ok w pb ∧ (∀ s, s ∈ pbs_Subjects (pb_Spec pb) → subject_ok w s) ∧ target_held w' pb ∧
  ∃ w1 target valid role, status_only pb w w1 ∧
    TargetObjectFromResourceSelector (pbs_ResourceSelector (pb_Spec pb)) = Ok target ∧
    (getHierarchicalPermissionsForSelector (guarded_reconciler r pb) (pbs_ResourceSelector (pb_Spec pb)) w1).1 = Ok valid ∧
    (fetchRole (guarded_reconciler r pb) pb w1).1 = Ok role ∧
    wanted (pbr_EnableSubresourceAuthorization r) pb role target valid (tuple_of k None).
Proof.
  destruct (ContainsFinalizer (pb_Meta pb) policyBindingFinalizerKey) eqn:Hfin.
  2:{ apply Reconcile_adopt in Hrun; [|done..]. by rewrite Hrun in Hnew. }
  apply Reconcile_live in Hrun as [[Hsub _]|(w1 & st1 & Ht & Hs & Hst & Hv1 & _ & _ & o1 & Hrun & _)]; [by destruct (Hold (Hsub k Hnew))| |done..].
  set (pb1 := mkPB (pb_Meta pb) (pb_Spec pb) st1) in *. pose proof Hst as (Hf1 & _).
  apply (reconcileOpenFGAPolicy_run Hkey Hstatus r pb1) in Hrun as (o2 & w2 & Hrun & Hst2 & _); [|done..]. pose proof Hst2 as (Hf2 & _).
  rewrite Hf2 in Hnew. rewrite <- Hf1 in Hold.
  destruct Hrun as [[-> _]|Hrun]; [done|].
  destruct (reconcilePolicy_any (guarded_reconciler r pb1) pb1 w1 o2 w2) as [Hadd _]; [done|apply guard_keeps|done|].
  destruct (Hadd k Hnew Hold) as (target & valid & role & H1' & H2' & H3' & H4' & _).
  split_and!; [done..| |by exists w1, target, valid, role].
  apply (status_only_held pb1 w2); [done|]. intros ref Href Hk.
  destruct (targetGuard (F := F) pb1) as [g|] eqn:Eg;
    [|by unfold targetGuard in Eg; simpl in Eg, Href; rewrite Href, Hk in Eg].
  destruct (reconcilePolicy_guarded (guarded_reconciler r pb1) pb1 w1 o2 w2 k g) as [Hg Hk8s];
    [apply guard_keeps|done..|]. rewrite Hk8s. revert ref Href Hk.
  apply (targetGuard_held pb1 g w1 (g w1).2); [done|]. rewrite <- Hg. apply surjective_pairing.
Qed.

(** C7: Ready tells the truth. After a reconcile of a live PolicyBinding that
    returned no error, the binding's status is of the generation reconciled, and if
    it says Ready then its target and its subjects were validated, all the
    conditions are true, and the store holds, on the target and for the subjects,
    exactly the tuples the role grants and those live siblings want; the other
    tuples are as they were. *)
Theorem binding_ready_truthful pb w w' res
  (Hstored : k_view (w_k8s w) !! key_of (pb_Meta pb) = Some pb)
  (Hlive : om_DeletionTimestamp (pb_Meta pb) = None)
  (Hfin : ContainsFinalizer (pb_Meta pb) policyBindingFinalizerKey = true)
  (Hnames : names_target (pbs_ResourceSelector (pb_Spec pb)))
  (Hrun : policybinding_Reconcile r (key_of (pb_Meta pb)) w = (Ok res, w')) :
  ∃ st, k_view (w_k8s w') !! key_of (pb_Meta pb) = Some (mkPB (pb_Meta pb) (pb_Spec pb) st) ∧
    pbst_ObservedGeneration st = om_Generation (pb_Meta pb) ∧
    (condition_true (pbst_Conditions st) "Ready" →
      condition_true (pbst_Conditions st) ConditionTypeTargetValid ∧ target_ok w pb ∧
      condition_true (pbst_Conditions st) ConditionTypeSubjectValid ∧
      (∀ s, s ∈ pbs_Subjects (pb_Spec pb) → subject_ok w s) ∧
      condition_true (pbst_Conditions st) ConditionTypeRoleValid ∧
      ∃ w1 target valid role, status_only pb w w1 ∧
        TargetObjectFromResourceSelector (pbs_ResourceSelector (pb_Spec pb)) = Ok target ∧
        (getHierarchicalPermissionsForSelector (guarded_reconciler r pb) (pbs_ResourceSelector (pb_Spec pb)) w1).1 = Ok valid ∧
        (fetchRole (guarded_reconciler r pb) pb w1).1 = Ok role ∧
        ∀ k, k ∈ dom (stored w') ↔
          wanted (pbr_EnableSubresourceAuthorization r) pb role target valid (tuple_of k None) ∨
          (k ∈ dom (stored w) ∧ (on_target pb target k → protected (guarded_reconciler r pb) w1 pb target valid k))).
Proof.
  apply Reconcile_live in Hrun as [[_ Hun]|(w1 & st1 & Ht & Hs & Hst & Hv1 & Ct & Cs & o1 & Hrun & Ho)]; [| |done..].
  { destruct (Hun res eq_refl) as (st & Hv & Hg & Hr). exists st. split_and!; [done..|]. intros HR. by destruct (Hr HR). }
  set (pb1 := mkPB (pb_Meta pb) (pb_Spec pb) st1) in *. pose proof Hst as (Hf1 & _).
  apply (reconcileOpenFGAPolicy_run Hkey Hstatus r pb1) in Hrun as (o2 & w2 & Hrun & Hst2 & Hok); [|done..].
  destruct (Hok res (Ho res eq_refl)) as (st & Hv & Hg & Hready). exists st. split_and!; [done..|].
  intros HR. destruct (Hready HR) as (-> & HRole & Hother).
  destruct Hrun as [[_ Hno]|Hrun]; [by destruct (Hno tt)|].
  split_and!; [by apply Hother|done|by apply Hother|done|done|].
  apply reconcile_effect in Hrun as (target & valid & role & H1' & H2' & H3' & H4'); [|done|apply guard_keeps].
  exists w1, target, valid, role. split_and!; [done..|]. intros k. destruct Hst2 as (Hf2 & _). rewrite Hf2, <- Hf1. apply H4'.
Qed.

(** C10: Deletion revokes, then releases. Reconciling a PolicyBinding that is being
    deleted adds no tuple, and either fails and leaves Kubernetes as it was, or
    writes the binding without the finalizer after the store has lost, of its
    subjects' tuples on its target, exactly those that no live sibling wants. *)
Theorem binding_deletion_revokes pb w o w'
  (Hstored : k_view (w_k8s w) !! key_of (pb_Meta pb) = Some pb)
  (Hdel : om_DeletionTimestamp (pb_Meta pb) ≠ None)
  (Hfin : ContainsFinalizer (pb_Meta pb) policyBindingFinalizerKey = true)
  (Hnames : names_target (pbs_ResourceSelector (pb_Spec pb)))
  (Hfuel : (size (stored w) < pbr_fuel r)%nat)
  (Hrun : policybinding_Reconcile r (key_of (pb_Meta pb)) w = (o, w')) :
  dom (stored w') ⊆ dom (stored w) ∧
  ((w_k8s w' = w_k8s w ∧ ∃ e, o = Err e) ∨
   (w_k8s w' = (k_Update (pb_with_meta pb (remove_finalizer (pb_Meta pb) policyBindingFinalizerKey)) (w_k8s w)).2 ∧
    ∃ target, TargetObjectFromResourceSelector (pbs_ResourceSelector (pb_Spec pb)) = Ok target ∧
      ∀ t, in_store (plain_reconciler r) w t → binding_user pb (User t) → Object t = target →
        (wc_of t ∈ dom (stored w') ↔
         ∃ valid, (getHierarchicalPermissionsForSelector (plain_reconciler r) (pbs_ResourceSelector (pb_Spec pb)) w).1 = Ok valid ∧
           sibling_wants (plain_reconciler r) w pb target valid t))).
Proof.
  unfold policybinding_Reconcile in Hrun.
  destruct (k_get_stored _ w pb Hstored) as [(e & He & Hn)|He]; rewrite (bind_run_Ok _ _ _ _ _ He) in Hrun.
  { rewrite Hn in Hrun. injection Hrun as <- <-. eauto. }
  destruct (DeletePolicy (plain_reconciler r) pb w) as [od wd] eqn:Ed.
  pose proof (keeps_run w_k8s _ _ _ _ (keeps_DeletePolicy (plain_reconciler r) id pb) Ed) as Hk.
  pose proof (plain_only_removes r pb w od wd Hnames Ed) as Hsub.
  assert (pb_Finalize r pb w = match od with Err e => (Err (ErrWrap "failed to delete OpenFGA policy during finalization: " e), wd)
    | _ => (od, wd) end) as Ep by (unfold pb_Finalize; rewrite wrapf_run, Ed; by destruct od).
  set (fin := Finalizers_Finalize policyBindingFinalizerKey (pb_Finalize r pb) (pb_Meta pb)) in *.
  destruct (fin w) as [fo wf] eqn:Ef.
  assert (wrapf "failed to finalize PolicyBinding: " fin w =
    match fo with Err e => (Err (ErrWrap "failed to finalize PolicyBinding: " e), wf) | _ => (fo, wf) end) as Hw
    by (rewrite wrapf_run, Ef; by destruct fo).
  assert (od ≠ OutOfFuel) as Hno.
  { pose proof (DeletePolicy_fuel (plain_reconciler r) pb w Hfuel) as Hnf. by rewrite Ed in Hnf. }
  apply Finalize_deleting in Ef as [[Ef ->]|[(e & e' & Ef & ->)|Ef]]; [| |by rewrite Ep in Ef; destruct od|done..]; rewrite Ep in Ef.
  - destruct od as [[]|e|]; [|done..]. injection Ef as <-.
    rewrite (bind_run_Ok _ _ _ _ _ Hw) in Hrun. cbv beta iota zeta in Hrun.
    assert (w' = mkWorld (w_fga wd) (k_Update (pb_with_meta pb (remove_finalizer (pb_Meta pb) policyBindingFinalizerKey))
      (w_k8s wd)).2 (w_provider wd)) as ->.
    { apply (f_equal snd) in Hrun. simpl in Hrun. subst w'. unfold mbind, M_bind, on_k8s.
      by destruct (k_Update _ (w_k8s wd)) as [[]]. }
    simpl. split; [done|]. right. rewrite <- Hk. split; [done|].
    by apply (DeletePolicy_effect (plain_reconciler r) pb w wd).
  - destruct od as [[]|e0|]; [done| |done]. injection Ef as <- <-.
    rewrite (bind_run_Err _ _ _ _ _ Hw) in Hrun. injection Hrun as <- <-. split; [done|]. left. eauto.
Qed.
End spec.

(** ** An example: a user's role on a Project *)

#[export] Instance ref_RESTMapper : RESTMapper RefK8s := {
  RESTMapping gk k :=
    (Ok (mkMapping (mkGVK (gk_Group gk) "v1alpha1" (gk_Kind gk)) (String.eqb (gk_Kind gk) "ServiceAccount")), k);
  GroupKind_String gk := gk_Kind gk +:+ "." +:+ gk_Group gk;
  NoKindMatch_text gk := "no matches for kind " +:+ gk_Kind gk
}.
#[export] Instance ref_RESTMapperLaws : RESTMapperLaws RefK8s.
Proof. by split. Qed.

#[export] Instance ref_SeparateKinds : SeparateKinds (K := RefK8s).
Proof.
  split; simpl.
  1-3: intros pb k; destruct (rk_down k), (rk_bindings k !! key_of (pb_Meta pb)); done.
  intros x k. destruct (rk_down k), (ref_objects k !! obj_key x); try done. by destruct (ref_acceptable _ _).
Qed.

Lemma ref_pb_key (pb : PolicyBinding) : k_key (K := RefK8s) pb = key_of (pb_Meta pb).
Proof. reflexivity. Qed.
Lemma ref_pb_with_status (old new : PolicyBinding) :
  k_with_status (K := RefK8s) old new = mkPB (pb_Meta old) (pb_Spec old) (pb_Status new).
Proof. reflexivity. Qed.

Definition ex_pbc_group : string := "resourcemanager.miloapis.com".
Definition ex_pbc_perm : string := "resourcemanager.miloapis.com/projects.get".
Definition ex_pbc_pr : ProtectedResource :=
  mkPR (ex_meta "" "projects") (mkPRSpec ex_pbc_group "Project" "projects" ["get"] [] []) (mkPRStatus 1 []).
Definition ex_pbc_binding (deleting : option Z) : PolicyBinding :=
  mkPB (mkObjectMeta "b" "default" "b" 1 deleting [policyBindingFinalizerKey] [])
    (mkPBSpec (mkRoleRef "viewer" "iam") [mkSubject "User" "alice" "uid-alice" ""]
       (mkSelector (Some (mkResourceRef ex_pbc_group "Project" "p1" "uid-p1" "")) None)) (mkPBStatus 0 []).
Definition ex_pbc_objects : list KObject :=
  [mkKObject UserGVK (mkObjectMeta "alice" "" "uid-alice" 1 None [] []) "1";
   mkKObject (ref_gvk "Project") (mkObjectMeta "p1" "" "uid-p1" 1 None [] []) "1"].
Definition ex_pbc_world (ts : tuple_map) (deleting : option Z) : World RefStore RefK8s :=
  mkWorld (mkRefStore ts [] 1 None)
    (mkRefK8s (by_key role_Meta [ex_role "viewer" [ex_pbc_perm]]) (by_key pb_Meta [ex_pbc_binding deleting])
       (by_key pr_Meta [ex_pbc_pr]) ∅ (by_obj_key ex_pbc_objects) None) None.
Definition ex_pbc_reconciler : PolicyBindingReconciler := mkPBReconciler false "store" 10.
Definition ex_pbc_run (w : World RefStore RefK8s) : outcome Result * World RefStore RefK8s :=
  policybinding_Reconcile ex_pbc_reconciler (mkNN "default" "b") w.
Definition ex_pbc_live : World RefStore RefK8s := ex_pbc_world ∅ None.
Definition ex_pbc_tuple : TupleKeyWithoutCondition :=
  mkTupleWC "iam.miloapis.com/InternalUser:alice" (hashPermission ex_pbc_perm) "resourcemanager.miloapis.com/Project:p1".
Definition ex_pbc_dying : World RefStore RefK8s := ex_pbc_world {[ ex_pbc_tuple := None ]} (Some 9).

(** The run writes the tuple and takes the Project's hold. *)
Lemma binding_grants_validated_witness : target_held (ex_pbc_run ex_pbc_live).2 (ex_pbc_binding None).
Proof.
  apply (binding_grants_validated (F := RefStore) (K := RefK8s) ex_pbc_reconciler ref_pb_key ref_pb_with_status
    (ex_pbc_binding None) ex_pbc_live (ex_pbc_run ex_pbc_live).1 (ex_pbc_run ex_pbc_live).2 ex_pbc_tuple).
  - vm_compute. reflexivity.
  - reflexivity.
  - discriminate.
  - apply surjective_pairing.
  - apply (bool_decide_unpack _). vm_compute. exact I.
  - apply (bool_decide_unpack _). vm_compute. exact I.
Defined.

Lemma binding_ready_truthful_witness :
  ∃ st, k_view (w_k8s (ex_pbc_run ex_pbc_live).2) !! mkNN "default" "b" =
      Some (mkPB (pb_Meta (ex_pbc_binding None)) (pb_Spec (ex_pbc_binding None)) st) ∧
    pbst_ObservedGeneration st = 1.
Proof.
  destruct (binding_ready_truthful (F := RefStore) (K := RefK8s) ex_pbc_reconciler ref_pb_key ref_pb_with_status
    (ex_pbc_binding None) ex_pbc_live (ex_pbc_run ex_pbc_live).2 done_result) as (st & Hv & Hg & _).
  - vm_compute. reflexivity.
  - reflexivity.
  - reflexivity.
  - discriminate.
  - apply run_ok. vm_compute. reflexivity.
  - exists st. split; [exact Hv|exact Hg].
Defined.

(** The status after the run does say Ready, and the tuple is there. *)
Example binding_becomes_ready :
  match rk_bindings (w_k8s (ex_pbc_run ex_pbc_live).2) !! mkNN "default" "b" with
  | Some pb => existsb (λ c, String.eqb (c_Type c) "Ready" && bool_decide (c_Status c = ConditionTrue)) (pbst_Conditions (pb_Status pb))
  | None => false
  end = true ∧ ex_pbc_tuple ∈ dom (rs_tuples (w_fga (ex_pbc_run ex_pbc_live).2)).
Proof. split; [vm_compute; reflexivity|apply (bool_decide_unpack _); vm_compute; exact I]. Qed.

Lemma binding_deletion_revokes_witness :
  dom (rs_tuples (w_fga (ex_pbc_run ex_pbc_dying).2)) ⊆ dom (rs_tuples (w_fga ex_pbc_dying)).
Proof.
  destruct (binding_deletion_revokes (F := RefStore) (K := RefK8s) ex_pbc_reconciler
    (ex_pbc_binding (Some 9)) ex_pbc_dying (ex_pbc_run ex_pbc_dying).1 (ex_pbc_run ex_pbc_dying).2) as [HS _].
  - vm_compute. reflexivity.
  - discriminate.
  - reflexivity.
  - discriminate.
  - apply (bool_decide_unpack _). vm_compute. exact I.
  - apply surjective_pairing.
  - exact HS.
Defined.
Example deleted_binding_revoked : rs_tuples (w_fga (ex_pbc_run ex_pbc_dying).2) = ∅ ∧ rk_bindings (w_k8s (ex_pbc_run ex_pbc_dying).2) = ∅.
Proof. split; vm_compute; reflexivity. Qed.
