(* ===== verification/PolicyBindingRequeue.v ===== *)
(** * A binding that waits for an object is retried

    Nothing watches targets and subjects: what the PolicyBinding controller answers
    when one is not there yet is all that brings the binding back. *)

From S2P Require Import Prelude GoStrings GoErr Types Constants ResourceGraph World Fga Tuples TuplesFacts.
From S2P Require Import PolicyReconciler PolicyReconcilerFacts Indexes RoleGraph ControllerEnv TargetHold.
From S2P Require Import PolicyBindingController PolicyBindingFacts RefK8s RefObjects PolicyReconcilerSpec.
From S2P Require Import PolicyBindingControllerSpec.
Local Open Scope Z_scope.

Section requeue.
Context {F K : Type} `{FgaLaws F} `{KReadLaws K Role} `{KReadLaws K PolicyBinding} `{KReadLaws K ProtectedResource}
  `{KWriter K PolicyBinding} `{!KStatusLaws K PolicyBinding} `{KDynamicLaws K} `{ApiErrors} `{RESTMapperLaws K}
  `{ResourceManager} `{IAMKinds} `{FinalizersLaws} `{StatusConditionsLaws} `{SemanticEqualityLaws PolicyBindingStatus}
  `{!SeparateKinds}.
Context (r : PolicyBindingReconciler).
Implicit Types w : World F K.
Implicit Types pb : PolicyBinding.
(** A binding's key is its namespace and name; a status update stores the status. *)
Context (Hkey : ∀ pb, k_key (K := K) pb = key_of (pb_Meta pb))
  (Hstatus : ∀ old new, k_with_status (K := K) old new = mkPB (pb_Meta old) (pb_Spec old) (pb_Status new)).

#[local] Hint Resolve reads_RESTMapping reads_getUnstructured reads_getSubjectResource reads_validateResourceType : reads.

(** The lookups of the binding's target and of a subject. *)
Definition target_lookup w (ref : ResourceRef) : outcome KObject :=
  (getUnstructuredResourceAndMapping (ref_APIGroup ref) (ref_Kind ref) (ref_Name ref) (ref_Namespace ref) w).1.
Definition subject_lookup w (s : Subject) : outcome KObject :=
  (getSubjectResource (gvk_Group UserGVK) (subj_Kind s) (subj_Name s) (subj_Namespace s) w).1.

Definition not_found (o : outcome KObject) : Prop := ∃ e, o = Err e ∧ IsNotFound e = true.

(** The target's type is registered, but the target is not there. *)
Definition awaits_target w pb : Prop :=
  ∃ ref, sel_ResourceRef (pbs_ResourceSelector (pb_Spec pb)) = Some ref ∧
    registered_type w (ref_APIGroup ref) (ref_Kind ref) ∧ not_found (target_lookup w ref).

(** The target is in order. *)
Definition target_there w pb : Prop :=
  match sel_ResourceRef (pbs_ResourceSelector (pb_Spec pb)), sel_ResourceKind (pbs_ResourceSelector (pb_Spec pb)) with
  | Some ref, _ => registered_type w (ref_APIGroup ref) (ref_Kind ref) ∧
      ∃ x, target_lookup w ref = Ok x ∧ om_UID (obj_Meta x) = ref_UID ref
  | None, Some rk => registered_type w (rk_APIGroup rk) (rk_Kind rk)
  | None, None => False
  end.

(** A subject of a kind the API server knows, which this cluster must have, is not there. *)
Definition awaits_subject w pb : Prop :=
  ∃ s e, s ∈ pbs_Subjects (pb_Spec pb) ∧ subj_UID s ≠ "" ∧ subj_Kind s ≠ "ServiceAccount" ∧
    ¬ (subj_Kind s = "Group" ∧ HasPrefix (subj_Name s) "system:" = true) ∧
    subject_lookup w s = Err e ∧ IsNotFound e = true ∧ IsNoMatchError e = false.

Lemma validateResourceType_registered w ag kind b reason :
  (validateResourceType ag kind w).1 = Ok (b, reason) → registered_type w ag kind → b = true.
Proof.
  intros E (Hag & Hkind & key & pr & Hpr & Hi). unfold validateResourceType in E.
  rewrite (proj2 (String.eqb_neq _ _) Hag), (proj2 (String.eqb_neq _ _) Hkind) in E. simpl in E.
  apply bind_fst_reads in E as (l & Hl & E); [|unfold wrapf; solve_reads]. rewrite wrapf_fst, on_k8s_fst in Hl.
  destruct l as [|pr' l]; [|by injection E].
  assert (pr ∈ @nil ProtectedResource) as []%elem_of_nil by (apply (k_ListField_Ok _ _ _ _ Hl); eauto).
Qed.

Lemma selector_awaits w pb gen valid missing pb' :
  (reconcileResourceSelectorValidation pb gen w).1 = Ok (valid, missing, pb') → awaits_target w pb →
  valid = false ∧ missing = true.
Proof.
  intros E (ref & Href & Hreg & e & He & Hn). unfold reconcileResourceSelectorValidation, validateResourceRef in E.
  rewrite Href in E. apply bind_fst_reads in E as ([known reason] & Hk & E); [|solve_reads].
  rewrite (validateResourceType_registered _ _ _ _ _ Hk Hreg) in E. simpl in E.
  apply bind_fst_reads in E as (got & Hg & E); [|solve_reads]. apply try_fst in Hg. unfold target_lookup in He.
  destruct got as [x|e']; rewrite He in Hg; [done|]. injection Hg as <-. unfold target_lookup_failure in E. rewrite Hn in E.
  destruct (IsNoMatchError e); by injection E as <- <- _.
Qed.

Lemma selector_there w pb gen valid missing pb' :
  (reconcileResourceSelectorValidation pb gen w).1 = Ok (valid, missing, pb') → target_there w pb → valid = true.
Proof.
  unfold reconcileResourceSelectorValidation, target_there, validateResourceRef, validateResourceKind.
  destruct (sel_ResourceRef _) as [ref|]; [|destruct (sel_ResourceKind _) as [rk|]; [|done]].
  - intros E (Hreg & x & Hx & Hu). apply bind_fst_reads in E as ([known reason] & Hk & E); [|solve_reads].
    rewrite (validateResourceType_registered _ _ _ _ _ Hk Hreg) in E. simpl in E.
    apply bind_fst_reads in E as (got & Hg & E); [|solve_reads]. apply try_fst in Hg. unfold target_lookup in Hx.
    destruct got as [y|e']; rewrite Hx in Hg; [|done]. injection Hg as <-. rewrite Hu, String.eqb_refl in E. by injection E.
  - intros E Hreg. apply bind_fst_reads in E as ([v p] & Hv & E); [|solve_reads]. injection E as <- _ _.
    apply bind_fst_reads in Hv as ([known reason] & Hk & Hv); [|solve_reads].
    rewrite (validateResourceType_registered _ _ _ _ _ Hk Hreg) in Hv. by injection Hv as <-.
Qed.

Lemma subjects_loop_keeps_missing w l acc valid missing msgs :
  (subjects_loop l acc w).1 = Ok (valid, missing, msgs) → acc.1.1 = false → acc.1.2 = true → valid = false ∧ missing = true.
Proof.
  revert acc. induction l as [|s l IH]; intros [[a b] c]; simpl; [by intros [= -> -> _]|].
  intros E -> ->. apply bind_fst_reads in E as (o & _ & E); [|apply reads_validateSubject].
  apply IH in E; destruct o as [[??]|]; done.
Qed.

Lemma subjects_loop_awaits w l acc valid missing msgs s message :
  (subjects_loop l acc w).1 = Ok (valid, missing, msgs) → s ∈ l → (validateSubject s w).1 = Ok (Some (message, true)) →
  valid = false ∧ missing = true.
Proof.
  revert acc. induction l as [|s' l IH]; intros [[a b] c] E Hin Hs; [by apply elem_of_nil in Hin|]. simpl in E.
  apply bind_fst_reads in E as (o & Ho & E); [|apply reads_validateSubject].
  apply elem_of_cons in Hin as [<-|Hin]; [|by eapply IH]. rewrite Hs in Ho. injection Ho as <-.
  apply (subjects_loop_keeps_missing _ _ _ _ _ _ E); [done|apply orb_true_r].
Qed.

Lemma subject_validation_awaits w pb valid missing pb' :
  (reconcileSubjectValidation pb w).1 = Ok (valid, missing, pb') → awaits_subject w pb → valid = false ∧ missing = true.
Proof.
  intros E (s & e & Hin & Hu & Hsa & Hsys & He & Hn & Hm). unfold reconcileSubjectValidation in E.
  apply bind_fst_reads in E as ([[v m] msgs] & Hv & E).
  2:{ unfold wrapf, validatePolicyBindingSubjects. apply reads_map_err, reads_subjects_loop. }
  rewrite wrapf_fst in Hv. apply (subjects_loop_awaits _ _ _ _ _ _ s ((subj_Kind s +:+ "/" +:+ subj_Name s) +:+ " (NotFound)")) in Hv as [-> ->];
    [by injection E as <- <- _|done|].
  unfold validateSubject. cbv zeta. replace (String.eqb (subj_Kind s) "Group" && _) with false.
  2:{ symmetry. apply not_true_iff_false. intros [Eg%String.eqb_eq Ep]%andb_true_iff. by apply Hsys. }
  rewrite (proj2 (String.eqb_neq _ _) Hu).
  apply bind_fst_reads; [solve_reads|]. exists (inr e). rewrite try_fst. split; [by unfold subject_lookup in He; rewrite He|].
  cbv beta iota. by rewrite Hm, Hn, (proj2 (String.eqb_neq _ _) Hsa).
Qed.

(** A binding that waits is not validated. *)
Lemma awaits_target_not_ok w pb : awaits_target w pb → ¬ target_ok w pb.
Proof.
  intros (ref & Href & _ & e & He & Hn) Hok. unfold target_ok in Hok. rewrite Href in Hok.
  destruct Hok as (_ & x & (m & key & Hm & Hk & Hx) & _). unfold target_lookup, getUnstructuredResourceAndMapping in He.
  destruct (RESTMapping _ (w_k8s w)) as [om k'] eqn:Em in Hm. simpl in Hm. subst om.
  pose proof (RESTMapping_world (mkGK (ref_APIGroup ref) (ref_Kind ref)) (w_k8s w)) as Hw. rewrite Em in Hw. simpl in Hw. subst k'.
  rewrite (bind_run_Ok _ _ w m w) in He by (apply on_k8s_run; exists (w_k8s w); by rewrite mkWorld_eta).
  rewrite Hk in He. rewrite (bind_run_Ok _ _ w key w) in He by done. rewrite on_k8s_fst in He.
  by rewrite (d_Get_NotFound _ _ _ _ He Hn) in Hx.
Qed.

Lemma awaits_subject_not_ok w pb : awaits_subject w pb → ¬ ∀ s, s ∈ pbs_Subjects (pb_Spec pb) → subject_ok w s.
Proof.
  intros (s & e & Hin & _ & Hsa & Hsys & He & _) Hok. unfold subject_lookup in He.
  destruct (Hok s Hin) as [?|[_ [(x & Hx & _)|[? _]]]]; [done| |done]. rewrite He in Hx. done.
Qed.

(** What a reconcile answers is what its validations found; when one of them fails,
    the world is as it was. *)
Lemma Reconcile_result pb w o w' :
  k_view (w_k8s w) !! key_of (pb_Meta pb) = Some pb → om_DeletionTimestamp (pb_Meta pb) = None →
  ContainsFinalizer (pb_Meta pb) policyBindingFinalizerKey = true →
  policybinding_Reconcile r (key_of (pb_Meta pb)) w = (o, w') →
  (w' = w ∧ ∀ res, o ≠ Ok res) ∨
  ∃ valid missing c,
    (reconcileResourceSelectorValidation pb (om_Generation (pb_Meta pb)) w).1 = Ok (valid, missing, pb_set_condition pb c) ∧
    (valid = false → ∀ res, o = Ok res → res = mkResult missing 0) ∧
    (valid = true → ∃ valid' missing' pb',
      (reconcileSubjectValidation (pb_set_condition pb c) w).1 = Ok (valid', missing', pb') ∧
      (valid' = false → ∀ res, o = Ok res → res = mkResult missing' 0)).
Proof.
  intros Hs Hlive Hfin E. unfold policybinding_Reconcile in E.
  destruct (k_get_stored _ w pb Hs) as [(e & He & Hn)|He]; rewrite (bind_run_Ok _ _ _ _ _ He) in E.
  { rewrite Hn in E. injection E as <- <-. by left. }
  assert (wrapf "failed to finalize PolicyBinding: "
    (Finalizers_Finalize policyBindingFinalizerKey (pb_Finalize r pb) (pb_Meta pb)) w = (Ok (false, pb_Meta pb), w)) as Hf
    by by rewrite wrapf_run, (Finalize_live _ _ _ _ _ Hlive Hfin).
  rewrite (bind_run_Ok _ _ _ _ _ Hf) in E. cbv beta iota zeta in E. rewrite Hlive in E.
  replace (pb_with_meta pb (pb_Meta pb)) with pb in E by by destruct pb.
  apply bind_reads_inv in E as [([[valid missing] pb1] & Hv & E)|[-> [(? & -> & _)|[-> _]]]];
    [|by left|by left|unfold wrapf; apply reads_map_err, reads_selector_validation].
  rewrite wrapf_fst in Hv. pose proof (selector_validation_Ok _ _ _ _ _ _ Hv) as (_ & c & -> & _).
  destruct valid; cbn [negb] in E.
  - apply bind_reads_inv in E as [([[valid' missing'] pb2] & Hv' & E)|[-> [(? & -> & _)|[-> _]]]];
      [|by left|by left|unfold wrapf; apply reads_map_err, reads_subject_validation].
    rewrite wrapf_fst in Hv'. right. exists true, missing, c. split; [exact Hv|]. split; [done|]. intros _.
    exists valid', missing', pb2. split; [exact Hv'|]. intros -> res ->. cbn [negb] in E.
    apply bind_Ok in E as (? & ? & _ & E). by injection E.
  - right. exists false, missing, c. split; [exact Hv|]. split; [|done]. intros _ res ->.
    apply bind_Ok in E as (? & ? & _ & E). apply bind_Ok in E as (? & ? & _ & E). by injection E.
Qed.

(** A subject that could not be looked up: the reconcile fails, and no condition is
    written for it. *)
Lemma subject_lookup_error_unreported pb w o w' :
  k_view (w_k8s w) !! key_of (pb_Meta pb) = Some pb → om_DeletionTimestamp (pb_Meta pb) = None →
  ContainsFinalizer (pb_Meta pb) policyBindingFinalizerKey = true → target_there w pb →
  (∀ c, ∃ e, (reconcileSubjectValidation (pb_set_condition pb c) w).1 = Err e) →
  policybinding_Reconcile r (key_of (pb_Meta pb)) w = (o, w') → w' = w ∧ ∀ res, o ≠ Ok res.
Proof.
  intros Hs Hlive Hfin Ht He E.
  apply Reconcile_result in E as [?|(valid & missing & c & Hv & _ & Hvalid)]; [done| |done..].
  destruct Hvalid as (? & ? & ? & Hv' & _); [by apply (selector_there _ _ _ _ _ _ Hv)|].
  destruct (He c) as [e He']. by rewrite He' in Hv'.
Qed.

(** C16: A binding that waits is retried. When the target of a live PolicyBinding is
    of a registered type but not there, or the target is in order but a subject that
    this cluster must have is not there, a reconcile that returned no error asks to
    be run again, and leaves the binding not Ready. *)
Theorem waiting_binding_requeued pb w w' res
  (Hstored : k_view (w_k8s w) !! key_of (pb_Meta pb) = Some pb)
  (Hlive : om_DeletionTimestamp (pb_Meta pb) = None)
  (Hfin : ContainsFinalizer (pb_Meta pb) policyBindingFinalizerKey = true)
  (Hnames : names_target (pbs_ResourceSelector (pb_Spec pb)))
  (Hwaits : awaits_target w pb ∨ target_there w pb ∧ awaits_subject w pb)
  (Hrun : policybinding_Reconcile r (key_of (pb_Meta pb)) w = (Ok res, w')) :
  res = requeue_result ∧ settled_unready pb w'.
Proof.
  split.
  - destruct (Reconcile_result pb w (Ok res) w') as [[_ Hno]|(valid & missing & c & Hv & Hinvalid & Hvalid)];
      [done..|by destruct (Hno res)|].
    destruct Hwaits as [Ht|[Ht Hs]].
    + destruct (selector_awaits _ _ _ _ _ _ Hv Ht) as [-> ->]. by apply Hinvalid.
    + destruct Hvalid as (valid' & missing' & pb' & Hv' & Hres); [by apply (selector_there _ _ _ _ _ _ Hv)|].
      destruct (subject_validation_awaits _ _ _ _ _ Hv') as [-> ->]; [exact Hs|by apply Hres].
  - apply Reconcile_live in Hrun as [[_ Hun]|(w1 & st1 & Ht & Hs & _)]; [by apply (Hun res)| |done..]. exfalso.
    destruct Hwaits as [Hw|[_ Hw]]; [by apply awaits_target_not_ok in Hw|by apply awaits_subject_not_ok in Hw].
Qed.
End requeue.

(** ** An example: the Project of a binding is not there yet *)

Definition ex_wait_world : World RefStore RefK8s :=
  mkWorld (mkRefStore ∅ [] 1 None)
    (mkRefK8s (by_key role_Meta [ex_role "viewer" [ex_pbc_perm]]) (by_key pb_Meta [ex_pbc_binding None])
       (by_key pr_Meta [ex_pbc_pr]) ∅
       (by_obj_key [mkKObject UserGVK (mkObjectMeta "alice" "" "uid-alice" 1 None [] []) "1"]) None) None.

Lemma waiting_binding_requeued_witness :
  (ex_pbc_run ex_wait_world).1 = Ok requeue_result ∧ settled_unready (ex_pbc_binding None) (ex_pbc_run ex_wait_world).2.
Proof.
  split; [vm_compute; reflexivity|].
  apply (waiting_binding_requeued (F := RefStore) (K := RefK8s) ex_pbc_reconciler ref_pb_key ref_pb_with_status
    (ex_pbc_binding None) ex_wait_world (ex_pbc_run ex_wait_world).2 requeue_result).
  - vm_compute. reflexivity.
  - reflexivity.
  - reflexivity.
  - discriminate.
  - left. exists (mkResourceRef ex_pbc_group "Project" "p1" "uid-p1" ""). split; [reflexivity|]. split.
    + split; [discriminate|]. split; [discriminate|]. exists (mkNN "" "projects"), ex_pbc_pr. split; [vm_compute; reflexivity|]. apply (bool_decide_unpack _). vm_compute. exact I.
    + eexists. split; vm_compute; reflexivity.
  - apply run_ok. vm_compute. reflexivity.
Defined.

(** Once the Project is there, the binding's next run writes its tuple. *)
Example waiting_binding_converges :
  ex_pbc_tuple ∈ dom (rs_tuples (w_fga (ex_pbc_run ex_pbc_live).2)).
Proof. apply (bool_decide_unpack _). vm_compute. exact I. Qed.
