(* ===== verification/HoldEffects.v ===== *)
(** * What a run may do to an object's hold and tuples

    The steps of HoldProtocol.v are calls. This file says what a run of a whole
    handler, between two worlds, may do to one object and the tuples naming it
    ([effect]), and that every effect is a run of the protocol: a forward
    simulation from worlds to protocol states. HoldRefinement.v shows that the
    handlers have no other effects. *)

From S2P Require Import Prelude GoStrings GoErr Types World Fga Tuples ControllerEnv TargetHold.
From S2P Require Import ObjectTuples ObjectTuplesFacts HoldProtocol.
Local Open Scope nat_scope.

Section effects.
Context {F K : Type} `{FgaLaws F} `{KReadLaws K ProtectedResource} `{KDynamicLaws K}.
(** The store, the object, and the child types registered throughout. *)
Context (storeID : string) (tkey : GroupVersionKind * NamespacedName) (children : list string).
Implicit Types w : World F K.

Abbreviation stored w := (fga_tuples (w_fga w) storeID).
Abbreviation tname := (ObjectName (gvk_Group tkey.1) (gvk_Kind tkey.1) (nn_Name tkey.2)).
Abbreviation ttype := (gvk_Group tkey.1 +:+ "/" +:+ gvk_Kind tkey.1).

(** The object as the API server holds it. *)
Definition target w : option KObject := d_view (w_k8s w) !! tkey.

(** The tuples that name the object: on it, or of it as the parent of an object of
    one of [children]. *)
Definition names_target_object (k : TupleKeyWithoutCondition) : Prop :=
  wc_Object k = tname ∨ (wc_User k = tname ∧ ∃ c, c ∈ children ∧ object_of_type c (wc_Object k)).

(** Each of [children] is registered as a child of the object's type. *)
Definition children_registered w : Prop :=
  ∀ c, c ∈ children → ∃ key pr, k_view (T := ProtectedResource) (w_k8s w) !! key = Some pr ∧
    child_type pr = c ∧ c ≠ ttype ∧ declaresParent pr ttype = true.

(** *** Effects *)

(** A create, an update that leaves our finalizer on, or the last finalizer's
    going. *)
Definition object_change (o o' : option KObject) : Prop :=
  match o, o' with
  | None, None => True
  | None, Some y => ¬ deleting (obj_Meta y)
  | Some x, Some y => others_may (obj_Meta x) (obj_Meta y) ∧ (deleting (obj_Meta y) → om_Finalizers (obj_Meta y) ≠ [])
  | Some x, None => ∃ m, others_may (obj_Meta x) m ∧ deleting m ∧ om_Finalizers m = []
  end.

(** The object after our finalizer is taken off [m]: gone, or [m'] stored. *)
Definition release_of (m : ObjectMeta) (o : option KObject) : Prop :=
  let fs := om_Finalizers (remove_finalizer m resourceOwnerHierarchyFinalizer) in
  match o with
  | None => fs = []
  | Some y => fs ≠ [] ∧ om_UID (obj_Meta y) = om_UID m ∧ om_Finalizers (obj_Meta y) = fs ∧
      om_DeletionTimestamp (obj_Meta y) = om_DeletionTimestamp m
  end.

Definition no_new w w' : Prop := ∀ k, names_target_object k → k ∈ dom (stored w') → k ∈ dom (stored w).

Inductive effect w w' : Prop :=
| eff_quiet : target w' = target w → no_new w w' → effect w w'
| eff_object : object_change (target w) (target w') → no_new w w' → effect w w'
(** Written after the hold was checked, under the object's lock. *)
| eff_write x uid :
  target w = Some x → holdOf (obj_Meta x) uid = holdHeld → target w' = target w → effect w w'
(** Written by the object's own controller. *)
| eff_sync x :
  target w = Some x → ¬ deleting (obj_Meta x) → ours (obj_Meta x) → target w' = target w → effect w w'
| eff_release x :
  target w = Some x → deleting (obj_Meta x) → ours (obj_Meta x) → drained (obj_Meta x) = true →
  (∀ k, names_target_object k → k ∉ dom (stored w)) → no_new w w' →
  release_of (obj_Meta x) (target w') → effect w w'.

(** *** The simulation *)

(** The protocol state holds the same object and the same tuples naming it, and
    nobody is at work. *)
Record related w (s : pstate) : Prop := {
  rel_object : obj_Meta <$> target w = snd <$> ps_object s;
  rel_tuples k : names_target_object k → k ∈ ps_tuples s ↔ k ∈ dom (stored w);
  rel_lock : ps_lock s = Free;
  rel_worker : ps_worker s = Idle
}.

Abbreviation pstep := (step names_target_object).

Lemma related_Some w s x : related w s → target w = Some x → ∃ v, ps_object s = Some (v, obj_Meta x).
Proof.
  intros [Ho _ _ _] Hx. rewrite Hx in Ho. destruct (ps_object s) as [[v m]|]; [|done].
  injection Ho as ->. eauto.
Qed.

Lemma related_None w s : related w s → target w = None → ps_object s = None.
Proof. intros [Ho _ _ _] Hx. rewrite Hx in Ho. by destruct (ps_object s) as [[v m]|]. Qed.

(** Dropping the tuples the world no longer has. *)
Lemma sim_shrink w' s :
  obj_Meta <$> target w' = snd <$> ps_object s → ps_lock s = Free → ps_worker s = Idle →
  (∀ k, names_target_object k → k ∈ dom (stored w') → k ∈ ps_tuples s) →
  ∃ s', rtc pstep s s' ∧ related w' s'.
Proof.
  intros Ho El Ew Hsub. exists (set_tuples s (ps_tuples s ∩ dom (stored w'))). split.
  - apply rtc_once, tuples_deleted. set_solver.
  - split; [done| |done|done]. intros k Hk. simpl. set_solver.
Qed.

(** Writing a list of tuples, one step each, in states in which each can be written. *)
Lemma write_all (Q : pstate → Prop) s l :
  (∀ s ts, Q s → Q (set_tuples s ts)) → (∀ s k, Q s → pstep s (set_tuples s ({[ k ]} ∪ ps_tuples s))) → Q s →
  rtc pstep s (set_tuples s (list_to_set l ∪ ps_tuples s)).
Proof.
  intros HQ Hstep Hs. induction l as [|k l IH].
  - replace (set_tuples s _) with s; [apply rtc_refl|]. destruct s. unfold set_tuples. simpl. f_equal. set_solver.
  - eapply rtc_r; [exact IH|].
    replace (set_tuples s (list_to_set (k :: l) ∪ ps_tuples s)) with
      (set_tuples (set_tuples s (list_to_set l ∪ ps_tuples s)) ({[ k ]} ∪ (list_to_set l ∪ ps_tuples s)))
      by (unfold set_tuples; simpl; f_equal; set_solver).
    exact (Hstep (set_tuples s (list_to_set l ∪ ps_tuples s)) k (HQ s _ Hs)).
Qed.

Lemma sim_write w w' s x uid :
  related w s → target w = Some x → holdOf (obj_Meta x) uid = holdHeld → target w' = target w →
  ∃ s', rtc pstep s s' ∧ related w' s'.
Proof.
  intros HR Hx Hh Ht. destruct (related_Some w s x HR Hx) as [v Hv]. destruct HR as [Ro Rt El Ew].
  set (s2 := set_lock (set_lock s (WriterLocked uid)) (WriterChecked uid)).
  set (s3 := set_tuples s2 (list_to_set (elements (dom (stored w'))) ∪ ps_tuples s2)).
  destruct (sim_shrink w' (set_lock s3 Free)) as (s' & Hs' & HR'); [by rewrite Ht|done|done| |].
  { intros k _ Hk. simpl. apply elem_of_union_l, elem_of_list_to_set, elem_of_elements, Hk. }
  exists s'. split; [|done]. eapply rtc_l; [by apply (writer_lock _ s uid)|].
  eapply rtc_l; [by apply (writer_check _ (set_lock s (WriterLocked uid)) uid v (obj_Meta x))|].
  etrans; [apply (write_all (λ s, ps_lock s = WriterChecked uid) s2); [done| |done]|].
  { intros s4 k E4. by apply (writer_write _ _ uid). }
  eapply rtc_l; [apply (writer_unlock _ s3 uid); by right|]. exact Hs'.
Qed.

Lemma sim_sync w w' s x :
  inv names_target_object s → related w s → target w = Some x → ¬ deleting (obj_Meta x) → ours (obj_Meta x) →
  target w' = target w → ∃ s', rtc pstep s s' ∧ related w' s'.
Proof.
  intros HI HR Hx Hd Hours Ht. destruct (related_Some w s x HR Hx) as [v Hv]. destruct HR as [Ro Rt El Ew].
  destruct (inv_object _ s HI v (obj_Meta x) Hv) as [Hh ->].
  set (s2 := set_worker (set_seen s (ps_rev s)) (Syncing (ps_rev s) (obj_Meta x))).
  set (s3 := set_tuples s2 (list_to_set (elements (dom (stored w'))) ∪ ps_tuples s2)).
  destruct (sim_shrink w' (set_worker s3 Idle)) as (s' & Hs' & HR'); [by rewrite Ht|done|done| |].
  { intros k _ Hk. simpl. apply elem_of_union_l, elem_of_list_to_set, elem_of_elements, Hk. }
  exists s'. split; [|done]. eapply rtc_l; [apply (worker_sync _ s (ps_rev s) (obj_Meta x)); try done; apply HI|].
  etrans; [apply (write_all (λ s', ps_worker s' = Syncing (ps_rev s) (obj_Meta x)) s2); [done| |done]|].
  { intros s4 k E4. by apply (sync_write _ _ (ps_rev s) (obj_Meta x)). }
  eapply rtc_l; [by apply (sync_done _ s3 (ps_rev s) (obj_Meta x))|]. exact Hs'.
Qed.

(** The object after [store_object]. *)
Lemma store_object_object s m :
  snd <$> ps_object (store_object s m) =
    (if bool_decide (deleting m ∧ om_Finalizers m = []) then None else Some m) ∧
  ps_lock (store_object s m) = ps_lock s ∧ ps_worker (store_object s m) = ps_worker s ∧
  ps_tuples (store_object s m) = ps_tuples s.
Proof.
  case_bool_decide as HD; unfold store_object, deleting in *;
    destruct (om_DeletionTimestamp m), (om_Finalizers m); naive_solver.
Qed.

Lemma sim_object w w' s :
  related w s → object_change (target w) (target w') → no_new w w' → ∃ s', rtc pstep s s' ∧ related w' s'.
Proof.
  intros HR Hc Hn.
  assert (∃ s1, rtc pstep s s1 ∧ obj_Meta <$> target w' = snd <$> ps_object s1 ∧ ps_lock s1 = ps_lock s ∧
    ps_worker s1 = ps_worker s ∧ ps_tuples s1 = ps_tuples s) as (s1 & Hs1 & Ho1 & El1 & Ew1 & Et1).
  { unfold object_change in Hc. destruct (target w) as [x|] eqn:Hx.
    - destruct (related_Some w s x HR Hx) as [v Hv].
      assert (∀ m, others_may (obj_Meta x) m → ∃ s1, rtc pstep s s1 ∧
        snd <$> ps_object s1 = (if bool_decide (deleting m ∧ om_Finalizers m = []) then None else Some m) ∧
        ps_lock s1 = ps_lock s ∧ ps_worker s1 = ps_worker s ∧ ps_tuples s1 = ps_tuples s) as HU.
      { intros m Hm. exists (store_object s m). split; [by apply rtc_once, (object_update _ s v (obj_Meta x))|].
        apply store_object_object. }
      destruct (target w') as [y|].
      + destruct Hc as [Hm Hy]. destruct (HU (obj_Meta y) Hm) as (s1 & Hs1 & Ho1 & ?). exists s1.
        rewrite Ho1, bool_decide_false by naive_solver. done.
      + destruct Hc as (m & Hm & Hd & Hf). destruct (HU m Hm) as (s1 & Hs1 & Ho1 & ?). exists s1.
        rewrite Ho1, bool_decide_true by done. done.
    - pose proof (related_None w s HR Hx) as Hnone. destruct (target w') as [y|].
      + exists (store_object s (obj_Meta y)). destruct (store_object_object s (obj_Meta y)) as (Ho & ?).
        split; [by apply rtc_once, object_create|]. rewrite Ho, bool_decide_false by naive_solver. done.
      + exists s. rewrite Hnone. split_and!; [apply rtc_refl|done..]. }
  destruct HR as [_ Rt El Ew].
  destruct (sim_shrink w' s1) as (s' & Hs' & HR'); [done|congruence|congruence| |].
  { intros k Hk Hin. rewrite Et1, Rt by done. by apply Hn. }
  exists s'. split; [by etrans|done].
Qed.

(** Taking our finalizer off, and whatever else the update stored. *)
Lemma sim_released w' s m :
  deleting m → release_of m (target w') →
  (snd <$> ps_object s = if bool_decide (deleting m ∧ om_Finalizers (remove_finalizer m resourceOwnerHierarchyFinalizer) = [])
                         then None else Some (remove_finalizer m resourceOwnerHierarchyFinalizer)) →
  ∃ s', rtc pstep s s' ∧ obj_Meta <$> target w' = snd <$> ps_object s' ∧ ps_lock s' = ps_lock s ∧
    ps_worker s' = ps_worker s ∧ ps_tuples s' = ps_tuples s.
Proof.
  intros Hd Hr Ho. unfold release_of in Hr. destruct (target w') as [y|].
  - destruct Hr as (Hne & Hu & Hf & Ht). rewrite bool_decide_false in Ho by naive_solver.
    destruct (ps_object s) as [[v m1]|] eqn:Es; [|done]. simpl in Ho. injection Ho as ->.
    exists (store_object s (obj_Meta y)). destruct (store_object_object s (obj_Meta y)) as (Hy & ?).
    rewrite Hy, bool_decide_false by (rewrite Hf; by intros [_ ?]). split; [|done].
    apply rtc_once, (object_update _ s v _ _ Es). unfold others_may, ours. simpl. rewrite Hf, Ht, Hu. done.
  - exists s. rewrite Ho, bool_decide_true by done. split; [apply rtc_refl|done].
Qed.

Lemma sim_release w w' s x :
  inv names_target_object s → related w s → target w = Some x → deleting (obj_Meta x) → ours (obj_Meta x) →
  drained (obj_Meta x) = true → (∀ k, names_target_object k → k ∉ dom (stored w)) → no_new w w' →
  release_of (obj_Meta x) (target w') → ∃ s', rtc pstep s s' ∧ related w' s'.
Proof.
  intros HI HR Hx Hd Hours Hdr Hnone Hn Hrel. destruct (related_Some w s x HR Hx) as [v Hv].
  destruct HR as [Ro Rt El Ew]. destruct (inv_object _ s HI v (obj_Meta x) Hv) as [Hh ->].
  set (m := obj_Meta x) in *. set (v := ps_rev s).
  set (s1 := set_worker (set_seen s v) (Clearing v m [])).
  set (s2 := set_worker (set_lock s1 FinalizerLocked) (Checking v m)).
  set (s3 := set_worker s2 (Releasing v m)).
  set (s4 := set_worker (set_lock (set_released (store_object s3 (remove_finalizer m resourceOwnerHierarchyFinalizer)) v) Free) Idle).
  destruct (store_object_object s3 (remove_finalizer m resourceOwnerHierarchyFinalizer)) as (Ho & _ & _ & Et).
  destruct (sim_released w' s4 m Hd Hrel Ho) as (s5 & Hs5 & Ho5 & El5 & Ew5 & Et5).
  destruct (sim_shrink w' s5) as (s' & Hs' & HR'); [done|by rewrite El5|by rewrite Ew5| |].
  { intros k Hk Hin. by destruct (Hnone k Hk (Hn k Hk Hin)). }
  exists s'. split; [|done].
  eapply rtc_l; [apply (worker_clear _ s v m []); try done; [apply HI|]; by intros k ?%elem_of_nil|].
  eapply rtc_l; [by apply (final_lock _ s1 v m)|].
  eapply rtc_l; [apply (final_read_none _ s2 v m); [done|]|].
  { intros k Hk HN. simpl in Hk. rewrite Rt in Hk by done. by destruct (Hnone k HN). }
  eapply rtc_l; [by apply (final_release _ s3 v m v m)|]. by etrans.
Qed.

(** Every effect is a run of the protocol. *)
Lemma effect_simulated w w' s :
  inv names_target_object s → related w s → effect w w' → ∃ s', rtc pstep s s' ∧ related w' s'.
Proof.
  intros HI HR [Ht Hn|Hc Hn|x uid Hx Hh Ht|x Hx Hd Ho Ht|x Hx Hd Ho Hdr Hno Hn Hr].
  - apply sim_shrink; [by rewrite Ht; apply HR|apply HR|apply HR|]. intros k Hk Hin. apply HR; auto.
  - by apply (sim_object w).
  - by apply (sim_write w _ _ x uid).
  - by apply (sim_sync w _ _ x).
  - by apply (sim_release w _ _ x).
Qed.

Lemma effects_simulated w w' s :
  inv names_target_object s → related w s → rtc effect w w' → ∃ s', rtc pstep s s' ∧ related w' s'.
Proof.
  intros HI HR Hw. revert s HI HR. induction Hw as [w|w w1 w' E _ IH]; intros s HI HR; [exists s; split; [apply rtc_refl|done]|].
  destruct (effect_simulated w w1 s HI HR E) as (s1 & Hs1 & HR1).
  destruct (IH s1) as (s' & Hs' & HR'); [|done|].
  - clear -HI Hs1. induction Hs1; eauto using step_inv.
  - exists s'. split; [by etrans|done].
Qed.

(** *** Composing effects *)

(** What changes neither the object nor adds a tuple naming it. *)
Definition quiet w w' : Prop := target w' = target w ∧ no_new w w'.

Lemma quiet_effect w w' : quiet w w' → rtc effect w w'.
Proof. intros [? ?]. by apply rtc_once, eff_quiet. Qed.

#[global] Instance quiet_preorder : PreOrder quiet.
Proof.
  split; [intros w; split; [done|by intros ?]|]. intros w1 w2 w3 [T1 N1] [T2 N2]. split; [congruence|].
  intros k Hk Hin. eauto.
Qed.

(** Runs whose effects are [R]. *)
Definition runs {A} (R : World F K → World F K → Prop) (m : M (World F K) A) : Prop := ∀ w o w', m w = (o, w') → R w w'.

Lemma runs_at {A} R (m : M (World F K) A) w o w' : runs R m → m w = (o, w') → R w w'.
Proof. intros Hm. apply Hm. Qed.

Section runs.
Context (R : World F K → World F K → Prop) `{!PreOrder R}.

Lemma runs_reads {A} (m : M (World F K) A) : reads m → runs R m.
Proof. intros Hm w o w' E. apply reads_inv in E as [-> _]; done. Qed.
Lemma runs_bind {A B} (m : M (World F K) A) (f : A → M (World F K) B) :
  runs R m → (∀ a, runs R (f a)) → runs R (m ≫= f).
Proof.
  intros Hm Hf w o w' (o1 & w1 & E1 & E)%bind_inv. transitivity w1; [by eapply Hm|].
  destruct E as [(a & _ & E)|[_ ->]]; [by eapply Hf|done].
Qed.
Lemma runs_map_err {A} g (m : M (World F K) A) : runs R m → runs R (map_err g m).
Proof.
  intros Hm w o w' E. destruct (m w) as [o1 w1] eqn:Em. pose proof (map_err_snd g m w) as Hs.
  rewrite E, Em in Hs. simpl in Hs. subst w1. by eapply Hm.
Qed.
Lemma runs_try {A} (m : M (World F K) A) : runs R m → runs R (try m).
Proof.
  intros Hm w o w' E. destruct (m w) as [o1 w1] eqn:Em. pose proof (try_snd m w) as Hs.
  rewrite E, Em in Hs. simpl in Hs. subst w1. by eapply Hm.
Qed.
Lemma runs_for_each {A} (l : list A) (f : A → M (World F K) unit) :
  (∀ a, a ∈ l → runs R (f a)) → runs R (for_each l f).
Proof.
  induction l as [|a l IH]; intros Hf; [by apply runs_reads|]. simpl. apply runs_bind; [apply Hf; left|].
  intros _. apply IH. intros b Hb. apply Hf. by right.
Qed.
End runs.

Lemma runs_mono {A} (R1 R2 : World F K → World F K → Prop) (m : M (World F K) A) :
  (∀ w w', R1 w w' → R2 w w') → runs R1 m → runs R2 m.
Proof. intros HR Hm w o w' E. by apply HR, (Hm w o). Qed.
End effects.
