(* ===== verification/HoldRefinement.v ===== *)
(** * The handlers refine the hold protocol

    [policybinding_Reconcile], [project_Reconcile] and [organization_Reconcile], the
    reconcilers that share the lock pool, do to a Project or an Organization and to
    the tuples naming it only what HoldEffects.v allows, so their runs are runs of
    the protocol of HoldProtocol.v. *)

From S2P Require Import Prelude GoStrings GoErr Types Constants Hash ResourceGraph World Fga Tuples TuplesFacts.
From S2P Require Import PolicyReconciler PolicyReconcilerFacts RoleGraph ControllerEnv TargetHold.
From S2P Require Import PolicyBindingController PolicyBindingFacts ObjectTuples ObjectTuplesFacts ObjectTuplesSpec.
From S2P Require Import ResourceOwnerHierarchy ResourceOwnerHierarchySpec HoldProtocol HoldEffects.
From Stdlib Require Import Ascii.
Local Open Scope nat_scope.

Create HintDb runs.
Ltac solve_runs :=
  repeat first
    [ assumption | solve [eauto with runs nocore] | progress intros
    | apply runs_bind; [apply _| |] | apply runs_map_err | apply runs_try
    | solve [apply runs_reads; [apply _|unfold wrapf; solve_reads]]
    | case_match ].

(** What the controllers rely on of the API machinery around the kinds held: they are
    cluster-scoped and served at one version, the scheme knows objects by the kind
    they were read under, and writing one kind leaves the others alone. *)
Class HeldKindsLaws (K : Type) `{KReadLaws K ProtectedResource} `{KWriter K PolicyBinding} `{KDynamicLaws K}
    `{RESTMapper K} `{ResourceManager} `{Scheme} : Prop := {
  held_mapping kind k m : isHeldKind rm_Group kind = true →
    (RESTMapping (mkGK rm_Group kind) k).1 = Ok m → m = mkMapping (mkGVK rm_Group rm_Version kind) false;
  held_served (k : K) gvk key x : d_view k !! (gvk, key) = Some x → isHeldKind (gvk_Group gvk) (gvk_Kind gvk) = true →
    gvk_Version gvk = rm_Version ∧ nn_Namespace key = "";
  scheme_kinds x : ObjectKinds x = Ok [obj_GVK x];
  scheme_kind x : GVKForObject x = Ok (obj_GVK x);
  update_pb_objects (pb : PolicyBinding) (k : K) : d_view (k_Update pb k).2 = d_view k;
  update_pb_registrations (pb : PolicyBinding) (k : K) : k_view (T := ProtectedResource) (k_Update pb k).2 = k_view k;
  update_object_registrations x (k : K) : k_view (T := ProtectedResource) (d_Update x k).2 = k_view k;
  rm_Group_plain : has_byte "/"%char rm_Group = false ∧ has_byte ":"%char rm_Group = false
}.

Section refinement.
Context {F K : Type} `{FgaLaws F} `{KReadLaws K Role} `{KReadLaws K PolicyBinding} `{KReadLaws K ProtectedResource}
  `{KWriter K PolicyBinding} `{!KStatusLaws K PolicyBinding} `{KDynamicLaws K} `{ApiErrors} `{RESTMapperLaws K}
  `{ResourceManager} `{IAMKinds} `{FinalizersLaws} `{StatusConditionsLaws} `{SemanticEqualityLaws PolicyBindingStatus}
  `{!SeparateKinds} `{Scheme} `{APIVersions} `{!HeldKindsLaws K}.
Implicit Types w : World F K.

(** The object: a Project or an Organization of a name that Kubernetes accepts. *)
Context (storeID kind name : string) (children : list string).
Hypothesis Hkind : kind = projectKind ∨ kind = organizationKind.
Hypothesis Hname : name ≠ "" ∧ has_byte "/"%char name = false ∧ has_byte ":"%char name = false.

Abbreviation tkey := (mkGVK rm_Group rm_Version kind, mkNN "" name).
Abbreviation tname := (ObjectName rm_Group kind name).
Abbreviation stored w := (fga_tuples (w_fga w) storeID).
Abbreviation Names := (names_target_object tkey children).

(** ** Names *)

Lemma kind_plain : has_byte "/"%char kind = false ∧ has_byte ":"%char kind = false.
Proof. by destruct Hkind as [-> | ->]. Qed.

Lemma ObjectName_inj g k n : ObjectName g k n = tname → g = rm_Group ∧ k = kind ∧ n = name.
Proof.
  destruct Hname as (_ & Hn1 & Hn2). destruct kind_plain as [Hk1 Hk2]. destruct rm_Group_plain as [Hg1 Hg2].
  unfold ObjectName. rewrite !app_cons, !app_nil_l. intros E.
  apply app_byte_unique in E as [-> E]; [|done|].
  - apply app_byte_unique in E as [-> ->]; done.
  - rewrite has_byte_app. simpl. by rewrite Hk1, Hn1.
Qed.

(** An object of another kind is not the target. *)
Lemma other_kind g k n : k ≠ kind → ObjectName g k n ≠ tname.
Proof. by intros Hne (_ & ? & _)%ObjectName_inj. Qed.

Lemma not_a_user s u : getTupleUser s = Ok u → u ≠ tname.
Proof.
  assert (∀ x, TypeInternalUser +:+ ":" +:+ x ≠ tname ∧ TypeInternalUserGroup +:+ ":" +:+ x ≠ tname) as HN.
  { intros x. split; [apply (other_kind "iam.miloapis.com" "InternalUser" x)|apply (other_kind "iam.miloapis.com" "InternalUserGroup" x)];
      by destruct Hkind as [-> | ->]. }
  unfold getTupleUser. intros E. repeat case_match; try done; injection E as <-; apply HN.
Qed.

Lemma selects_target sel :
  TargetObjectFromResourceSelector sel = Ok tname →
  ∃ ref, sel_ResourceRef sel = Some ref ∧ ref_APIGroup ref = rm_Group ∧ ref_Kind ref = kind ∧ ref_Name ref = name.
Proof.
  unfold TargetObjectFromResourceSelector. destruct (sel_ResourceRef sel) as [ref|].
  - intros [= E]. exists ref. split; [done|]. by apply ObjectName_inj.
  - destruct (sel_ResourceKind sel) as [rk|]; [|done]. intros [= E]. exfalso. revert E.
    apply (other_kind "iam.miloapis.com" "Root"). by destruct Hkind as [-> | ->].
Qed.

Lemma kind_held : isHeldKind rm_Group kind = true.
Proof. unfold isHeldKind. rewrite String.eqb_refl. by destruct Hkind as [-> | ->]. Qed.

(** ** What a run leaves *)

Definition same_registrations w w' : Prop :=
  k_view (T := ProtectedResource) (w_k8s w') = k_view (w_k8s w).

(** Effects, and effects without any trace on the object. *)
Definition affects w w' : Prop := rtc (effect storeID tkey children) w w' ∧ same_registrations w w'.
Definition passes w w' : Prop := quiet storeID tkey children w w' ∧ same_registrations w w'.

#[global] Instance affects_preorder : PreOrder affects.
Proof.
  split; [by intros w; split; [apply rtc_refl|]|]. intros w1 w2 w3 [E1 S1] [E2 S2]. split; [by etrans|].
  unfold same_registrations in *. congruence.
Qed.
#[global] Instance passes_preorder : PreOrder passes.
Proof.
  split; [by intros w; split|]. intros w1 w2 w3 [E1 S1] [E2 S2]. split; [by etrans|].
  unfold same_registrations in *. congruence.
Qed.

Lemma passes_affects w w' : passes w w' → affects w w'.
Proof. intros [Hq Hs]. split; [by apply quiet_effect|done]. Qed.

(** Kubernetes is as it was, and no tuple naming the object was added. *)
Lemma passes_fga w w' :
  w_k8s w' = w_k8s w → (∀ k, Names k → k ∈ dom (stored w') → k ∈ dom (stored w)) → passes w w'.
Proof. intros Hk Hn. unfold passes, same_registrations, quiet, target. by rewrite Hk. Qed.

(** The object and OpenFGA are as they were. *)
Lemma passes_k8s w w' :
  w_fga w' = w_fga w → d_view (w_k8s w') !! tkey = d_view (w_k8s w) !! tkey → same_registrations w w' → passes w w'.
Proof. intros Hf Ht Hs. split; [|done]. split; [done|]. intros k _. by rewrite Hf. Qed.

Lemma runs_on_k8s {A} (m : M K A) :
  (∀ k, d_view (m k).2 = d_view k) → (∀ k, k_view (T := ProtectedResource) (m k).2 = k_view k) →
  runs passes (on_k8s m : M (World F K) A).
Proof.
  intros HD HP w o w' (k' & E & ->)%on_k8s_run. specialize (HD (w_k8s w)). specialize (HP (w_k8s w)).
  rewrite E in HD, HP. apply passes_k8s; simpl in *; [done|by rewrite HD|done].
Qed.

(** The finalizers' answer costs what the object's own finalizer does. *)
Lemma Finalize_runs R `{!PreOrder R} key (fin : M (World F K) unit) m w o w' :
  (∀ o w', fin w = (o, w') → R w w' ∧ o ≠ OutOfFuel) → Finalizers_Finalize key fin m w = (o, w') → R w w'.
Proof.
  intros HF E. destruct (om_DeletionTimestamp m) eqn:Hd, (ContainsFinalizer m key) eqn:Hc.
  - assert (om_DeletionTimestamp m ≠ None) as Hd' by congruence.
    destruct (fin w) as [ofin wf] eqn:Ef. destruct (HF ofin wf eq_refl) as [HR Hno].
    destruct ofin as [[]|e|]; [| |done].
    + rewrite (Finalize_run _ key fin m w wf Hd' Hc Ef) in E. by injection E as _ <-.
    + destruct (Finalize_fail _ key fin m w e wf Hd' Hc Ef) as (e' & E'). rewrite E' in E. by injection E as _ <-.
  - rewrite (Finalize_gone _ key fin m w) in E by congruence. by injection E as _ <-.
  - rewrite (Finalize_live _ key fin m w) in E by congruence. by injection E as _ <-.
  - rewrite (Finalize_add _ key fin m w) in E by congruence. by injection E as _ <-.
Qed.

(** ** Taking the hold *)

(** An update of an object as it was read is stored, or not. *)
Lemma update_read x m (k : K) o k' :
  d_view k !! obj_key x = Some x → key_of m = key_of (obj_Meta x) → d_Update (obj_with_meta x m) k = (o, k') →
  d_view k' = d_view k ∨
  ∃ y, d_accepts x (obj_with_meta x m) y ∧ d_view k' = d_stored (obj_with_meta x m) y (d_view k).
Proof.
  intros Hx Hm E. assert (obj_key (obj_with_meta x m) = obj_key x) as Ek by (unfold obj_key; simpl; by rewrite Hm).
  destruct o as [y|e|].
  - apply d_Update_Ok in E as (old & Hold & HA & HV). rewrite Ek, Hx in Hold. injection Hold as <-. right. eauto.
  - apply d_Update_Err in E as [->|(old & y & Hold & HA & HV)]; [by left|].
    rewrite Ek, Hx in Hold. injection Hold as <-. right. eauto.
  - pose proof (d_Update_result (obj_with_meta x m) k) as HR. by rewrite E in HR.
Qed.

(** It leaves the other objects alone. *)
Lemma update_other x m (k : K) o k' key :
  d_view k !! obj_key x = Some x → key_of m = key_of (obj_Meta x) → d_Update (obj_with_meta x m) k = (o, k') →
  key ≠ obj_key x → d_view k' !! key = d_view k !! key.
Proof.
  intros Hx Hm E Hne. destruct (update_read x m k o k' Hx Hm E) as [->|(y & _ & ->)]; [done|].
  assert (obj_key (obj_with_meta x m) = obj_key x) as Ek by (unfold obj_key; simpl; by rewrite Hm).
  unfold d_stored. rewrite Ek. by repeat case_match; rewrite ?lookup_insert_ne, ?lookup_delete_ne by done.
Qed.

(** An update that puts our finalizer on a live object as it was read. *)
Lemma adopt_affects x w o w' :
  d_view (w_k8s w) !! obj_key x = Some x → om_DeletionTimestamp (obj_Meta x) = None →
  on_k8s (d_Update (obj_with_meta x (add_finalizer (obj_Meta x) resourceOwnerHierarchyFinalizer))) w = (o, w') →
  affects w w' ∧ w_fga w' = w_fga w ∧ ∀ key, key ≠ obj_key x → d_view (w_k8s w') !! key = d_view (w_k8s w) !! key.
Proof.
  intros Hx Hlive (k' & E & ->)%on_k8s_run. set (m := add_finalizer _ _) in *.
  destruct (add_finalizer_meta (obj_Meta x) resourceOwnerHierarchyFinalizer) as (Hu & Hk & Hd). fold m in Hu, Hk, Hd.
  pose proof (update_object_registrations (obj_with_meta x m) (w_k8s w)) as HS. rewrite E in HS. simpl in HS.
  pose proof (update_other x m _ _ _ tkey Hx Hk E) as HO. cbn [w_k8s w_fga].
  split_and!; [|done|intros key; by apply (update_other x m _ o)].
  destruct (decide (tkey = obj_key x)) as [Et|Hne]; [|by apply passes_affects, passes_k8s; [|apply HO|]].
  destruct (update_read x m _ _ _ Hx Hk E) as [HV|(y & HA & HV)].
  { apply passes_affects, passes_k8s; [done|by simpl; rewrite HV|done]. }
  destruct HA as (_ & _ & _ & _ & Hyu & Hyt & Hyf). simpl in Hyu, Hyf.
  split; [|exact HS]. apply rtc_once, eff_object; [|by intros k _]. unfold target. simpl. rewrite HV. unfold d_stored.
  rewrite Hyt, Hlive. replace (obj_key (obj_with_meta x m)) with (obj_key x) by (unfold obj_key; simpl; by rewrite Hk).
  rewrite Et, lookup_insert_eq, Hx. simpl. unfold others_may, ours, deleting. rewrite Hyf, Hyt, Hyu, Hlive.
  split_and!; try done. intros _. apply add_finalizer_elem.
Qed.

Lemma holdTarget_affects x uid w o w' :
  d_view (w_k8s w) !! obj_key x = Some x → on_k8s (holdTarget x uid) w = (o, w') →
  affects w w' ∧ w_fga w' = w_fga w ∧
  (∀ key, key ≠ obj_key x → d_view (w_k8s w') !! key = d_view (w_k8s w) !! key) ∧
  (∀ h, o = Ok h → ∃ y, d_view (w_k8s w') !! obj_key x = Some y ∧ holdOf (obj_Meta y) uid = h).
Proof.
  intros Hx E. pose proof E as (k' & E' & ->)%on_k8s_run.
  destruct (holdTarget_run x uid (w_k8s w) o k' Hx E') as (HA & HB & _). cbn [w_k8s w_fga].
  split; [|by split_and!]. unfold holdTarget in E, E'. destruct (holdOf (obj_Meta x) uid) eqn:Eh.
  1,3-5: injection E' as _ <-; by rewrite mkWorld_eta.
  assert (om_DeletionTimestamp (obj_Meta x) = None) as Hlive.
  { unfold holdOf in Eh. destruct (negb _); [done|]. by destruct (om_DeletionTimestamp (obj_Meta x)). }
  apply bind_inv in E' as (o1 & k1 & E1 & E2).
  assert (k' = k1) as -> by (destruct E2 as [(y & _ & E2)|[_ ->]]; [by injection E2|done]).
  unfold holdWithFinalizer in E1. rewrite wrapf_run in E1.
  destruct (d_Update _ (w_k8s w)) as [ou ku] eqn:Eu.
  assert (k1 = ku) as -> by (by destruct ou; injection E1).
  by apply (adopt_affects x w ou (mkWorld (w_fga w) ku (w_provider w))); [| |apply on_k8s_run; eauto].
Qed.

(** ** PolicyBindings *)

Context (r : PolicyBindingReconciler).
Hypothesis Hstore : pbr_StoreID r = storeID.

Lemma write_quiet req w o w' :
  wr_StoreId req = storeID → (∀ t, t ∈ write_keys req → ¬ Names (wc_of t)) →
  writeWithModelTransitionRetry req w = (o, w') → passes w w'.
Proof.
  intros Es Hw (Hk & _ & Ha & _)%transition_any. apply passes_fga; [done|].
  intros k Hn Hin. rewrite <- Es in *. apply Ha in Hin as [?|(t & Ht & ->)%elem_of_map]; [done|]. by destruct (Hw t Ht).
Qed.

Lemma wrapf_write_quiet p req w o w' :
  wr_StoreId req = storeID → (∀ t, t ∈ write_keys req → ¬ Names (wc_of t)) →
  wrapf p (writeWithModelTransitionRetry req) w = (o, w') → passes w w'.
Proof. intros Es Hw (o' & E & _)%wrapf_transition. by eapply write_quiet. Qed.

Lemma DeletePolicy_passes pr pb : pr_StoreID pr = storeID → runs passes (DeletePolicy (F := F) (K := K) pr pb).
Proof.
  intros Es w o w' E. apply DeletePolicy_cases in E as [[-> _]|(tgt & ex & _ & _ & E)]; [done|].
  destruct E as [[_ ->]|(valid & still & _ & _ & E)]; [done|].
  destruct E as [[_ ->]|(req & p & Er & Ew & _ & E)]; [done|].
  apply wrapf_write_quiet in E; [done|congruence|]. rewrite Ew. by intros t ?%elem_of_nil.
Qed.

Lemma guard_affects pb g w o wg :
  targetGuard pb = Some g → g w = (o, wg) →
  affects w wg ∧ w_fga wg = w_fga w ∧
  (o = Ok "" → TargetObjectFromResourceSelector (pbs_ResourceSelector (pb_Spec pb)) = Ok tname →
   ∃ x uid, target tkey wg = Some x ∧ holdOf (obj_Meta x) uid = holdHeld).
Proof.
  unfold targetGuard. destruct (sel_ResourceRef (pbs_ResourceSelector (pb_Spec pb))) as [ref|] eqn:Eref; [|done].
  destruct (negb _); [done|]. intros [= <-] E.
  apply bind_reads_inv in E as [(got & Hg & E)|[-> HE]]; [| |apply reads_try, reads_getUnstructured].
  2: { split_and!; [done..|]. intros ->. by destruct HE as [(? & ? & _)|[? _]]. }
  apply try_fst in Hg. destruct got as [x|e].
  2: { assert (wg = w) as -> by (by destruct (IsNotFound e); injection E as _ <-).
       split_and!; [done..|]. destruct (IsNotFound e); intros ->; [|discriminate E]. injection E as E. discriminate E. }
  apply getUnstructured_Ok in Hg as (m & key & Hm & Hkey & Hx).
  pose proof (d_view_keyed _ _ _ Hx) as Exk. rewrite <- Exk in Hx.
  apply bind_inv in E as (oh & w1 & Hh & E).
  destruct (holdTarget_affects x (ref_UID ref) w oh w1 Hx Hh) as (Ha & Hf & _ & HB).
  assert (wg = w1) as -> by (destruct E as [(h & _ & E)|[_ ->]]; [by injection E|done]).
  split_and!; [done..|]. intros -> Hsel. destruct E as [(h & -> & E)|[Hno _]]; [|by destruct (Hno "")].
  injection E as Ewhy. apply whyNotHeld_held in Ewhy as ->.
  destruct (HB holdHeld eq_refl) as (y & Hy & Hheld). exists y, (ref_UID ref). split; [|done].
  apply selects_target in Hsel as (ref' & Eref' & Eg & Ekd & En). rewrite Eref in Eref'. injection Eref' as <-.
  rewrite Eg, Ekd in Hm, Hkey. apply held_mapping in Hm as ->; [|apply kind_held].
  unfold scoped_key in Hkey. simpl in Hkey. injection Hkey as <-. unfold target. by rewrite <- Hy, Exk, <- En.
Qed.

Lemma reconcilePolicy_affects pb : runs affects (reconcilePolicy (guarded_reconciler r pb) pb).
Proof.
  intros w o w' E. apply reconcilePolicy_cases in E as [[-> _]|[(? & ? & _ & _ & _ & E & _)|E]]; [done|..].
  { by apply passes_affects, (DeletePolicy_passes (guarded_reconciler r pb) pb Hstore _ _ _ E). }
  destruct E as (tgt & valid & role & desired & ex & sib & removed & Ht & _ & _ & Hb & _ & _ & _ & E).
  destruct E as [(_ & _ & _ & ->)|(_ & req & Es & Ew & _ & E)]; [done|]. simpl in Es. rewrite Hstore in Es.
  apply buildPermissionTuples_Ok in Hb as [_ Hb].
  assert (tgt ≠ tname → ∀ t, t ∈ write_keys req → ¬ Names (wc_of t)) as Hother.
  { intros Hne t Ht'. rewrite Ew in Ht'. apply diffTuples_added in Ht' as [Ht' _].
    apply Hb in Ht' as ((s & _ & Hu) & Ho & _). intros [Hn|[Hn _]]; simpl in Hn; [congruence|]. by apply (not_a_user s (User t)). }
  unfold writeGuarded in E. apply bind_inv in E as (oc & w1 & Hc & E). unfold checkTarget in Hc.
  destruct (diffTuples ex desired).1 as [|t0 added] eqn:Ead.
  { injection Hc as <- <-. destruct E as [(? & _ & E)|[_ ->]]; [|done].
    eapply passes_affects, wrapf_write_quiet; [exact Es| |exact E]. rewrite Ew. by intros t ?%elem_of_nil. }
  cbn [pr_TargetGuard guarded_reconciler] in Hc. destruct (targetGuard pb) as [g|] eqn:Eg.
  - apply bind_inv in Hc as (og & wg & Hg & Hc). rewrite wrapf_run in Hg.
    destruct (g w) as [og' wg'] eqn:Egw. destruct (guard_affects pb g w og' wg' Eg Egw) as (Ha & Hf & Hh).
    assert (wg = wg' ∧ ∀ a, og = Ok a → og' = Ok a) as [-> Hog] by (destruct og'; injection Hg as <- <-; done).
    transitivity wg'; [done|].
    destruct Hc as [(reason & -> & Hc)|[Hno ->]].
    2: { destruct E as [(a & -> & _)|[_ ->]]; [by destruct (Hno a)|done]. }
    destruct (String.eqb reason "") eqn:Er; simpl in Hc; injection Hc as <- <-; [apply String.eqb_eq in Er; subst reason|].
    2: { by destruct E as [(? & ? & _)|[_ ->]]. }
    destruct E as [(a & _ & E)|[_ ->]]; [|done].
    destruct (decide (tgt = tname)) as [->|Hne].
    + apply wrapf_transition in E as (o' & (Hk & _)%transition_any & _).
      destruct (Hh (Hog "" eq_refl) Ht) as (x & uid & Hx & Hheld). unfold affects, same_registrations. rewrite Hk.
      split; [|done]. apply rtc_once, (eff_write _ _ _ _ _ x uid); [done..|]. unfold target. by rewrite Hk.
    + eapply passes_affects, wrapf_write_quiet; [exact Es|exact (Hother Hne)|exact E].
  - injection Hc as <- <-. destruct E as [(? & _ & E)|[_ ->]]; [|done].
    eapply passes_affects, wrapf_write_quiet; [exact Es| |exact E]. apply Hother. intros ->.
    apply selects_target in Ht as (ref & Eref & Egr & Ekd & _). unfold targetGuard in Eg.
    by rewrite Eref, Egr, Ekd, kind_held in Eg.
Qed.

Lemma reconcilePolicyLocked_affects pb : runs affects (reconcilePolicyLocked (guarded_reconciler r pb) pb).
Proof.
  intros w o w' E. apply reconcilePolicyLocked_run in E as [[-> _]|(o2 & E & _)]; [done|].
  by eapply reconcilePolicy_affects.
Qed.

Lemma status_passes pb old gen : runs affects (updatePolicyBindingStatus (F := F) (K := K) pb old gen).
Proof.
  unfold updatePolicyBindingStatus. case_match; [|apply runs_reads; [apply _|solve_reads]].
  apply (runs_mono _ _ _ passes_affects), runs_on_k8s; intros k; [apply status_objects|apply status_registrations].
Qed.

Lemma update_passes pb : runs affects (on_k8s (k_Update pb) : M (World F K) PolicyBinding).
Proof. apply (runs_mono _ _ _ passes_affects), runs_on_k8s; intros k; [apply update_pb_objects|apply update_pb_registrations]. Qed.

Lemma DeletePolicy_affects pb : runs affects (DeletePolicy (F := F) (K := K) (plain_reconciler r) pb).
Proof. by apply (runs_mono _ _ _ passes_affects), DeletePolicy_passes. Qed.

Lemma validations_pass pb gen :
  runs affects (reconcileResourceSelectorValidation (F := F) (K := K) pb gen) ∧
  runs affects (reconcileSubjectValidation (F := F) (K := K) pb).
Proof. split; apply runs_reads; [apply _|apply reads_selector_validation|apply _|apply reads_subject_validation]. Qed.

#[local] Hint Extern 1 (runs affects (reconcileResourceSelectorValidation ?pb ?gen)) => apply (validations_pass pb gen) : runs.
#[local] Hint Extern 1 (runs affects (reconcileSubjectValidation ?pb)) => apply (validations_pass pb 0%Z) : runs.
#[local] Hint Resolve reconcilePolicyLocked_affects status_passes update_passes DeletePolicy_affects : runs.

Lemma reconcileOpenFGAPolicy_affects pb old gen : runs affects (reconcileOpenFGAPolicy (F := F) (K := K) r pb old gen).
Proof. unfold reconcileOpenFGAPolicy, deferWrite, wrapf. cbv zeta. solve_runs. Qed.

(** A whole reconcile. The fuel is for the finalizer's loops over pages. *)
Lemma policybinding_affects req w o w' :
  size (stored w) < pbr_fuel r → policybinding_Reconcile (F := F) (K := K) r req w = (o, w') → affects w w'.
Proof.
  rewrite <- Hstore. intros Hfuel E. unfold policybinding_Reconcile in E.
  apply bind_reads_inv in E as [(got & _ & E)|[-> _]]; [|done|apply reads_try; solve_reads].
  destruct got as [pb|e]; [|eapply (runs_reads affects); [|exact E]; by case_match]. cbv zeta in E.
  apply bind_inv in E as (o1 & w1 & E1 & E).
  assert (affects w w1) as H1'.
  { rewrite wrapf_run in E1. destruct (Finalizers_Finalize _ _ _ w) as [o2 w2] eqn:Ef.
    assert (w2 = w1) as <- by (by destruct o2; injection E1).
    eapply (Finalize_runs affects); [|exact Ef]. intros o3 w3 E3. unfold pb_Finalize in E3. split.
    - exact (runs_map_err affects _ _ (DeletePolicy_affects pb) _ _ _ E3).
    - pose proof (DeletePolicy_fuel (plain_reconciler r) pb w Hfuel) as Hno. rewrite wrapf_run in E3.
      destruct (DeletePolicy _ _ w) as [o4 w4]. by destruct o4; injection E3 as <- _. }
  transitivity w1; [done|]. destruct E as [([updated meta] & _ & E)|[_ ->]]; [|done]. cbv beta iota in E.
  revert E. apply runs_at. destruct updated; [solve_runs|]. unfold wrapf. solve_runs.
Qed.
End refinement.
