(* ===== verification/HoldSystem.v ===== *)
(** * The controllers together refine the hold protocol

    The Project and the Organization controllers' runs are runs of the protocol too,
    so any sequence of runs of the three controllers that share the lock pool, of the
    GroupMembership and system-group controllers, whose tuples name none of the
    objects, and of changes others may make, is one: what HoldProtocol.v proves of
    the protocol holds of the worlds the code leaves. *)

From S2P Require Import Prelude GoStrings GoErr Types Constants Hash ResourceGraph World Fga Tuples TuplesFacts.
From S2P Require Import PolicyReconciler PolicyReconcilerFacts RoleGraph ControllerEnv TargetHold.
From S2P Require Import PolicyBindingController PolicyBindingFacts ObjectTuples ObjectTuplesFacts ObjectTuplesSpec.
From S2P Require Import ResourceOwnerHierarchy ResourceOwnerHierarchySpec GroupMembership GroupMembershipSpec.
From S2P Require Import SystemGroup SystemGroupSpec HoldProtocol HoldEffects HoldRefinement.
From S2P Require Import RefK8s RefObjects PolicyReconcilerSpec PolicyBindingControllerSpec.
From Stdlib Require Import Ascii.
Local Open Scope nat_scope.

Section system.
Context {F K : Type} `{FgaLaws F} `{KReadLaws K Role} `{KReadLaws K PolicyBinding} `{KReadLaws K ProtectedResource}
  `{KWriter K PolicyBinding} `{!KStatusLaws K PolicyBinding} `{KDynamicLaws K} `{ApiErrors} `{RESTMapperLaws K}
  `{ResourceManager} `{IAMKinds} `{FinalizersLaws} `{StatusConditionsLaws} `{SemanticEqualityLaws PolicyBindingStatus}
  `{!SeparateKinds} `{Scheme} `{APIVersions} `{!HeldKindsLaws K}.
Implicit Types w : World F K.

(** The object: a Project or an Organization of a name that Kubernetes accepts. *)
Context (storeID kind name : string) (children : list string).
Hypothesis Hkind : kind = projectKind ∨ kind = organizationKind.
Hypothesis Hname : name ≠ "" ∧ has_byte "/"%char name = false ∧ has_byte ":"%char name = false.

Abbreviation tkey := (mkGVK rm_Group rm_Version kind, mkNN "" name).
Abbreviation tname := (ObjectName rm_Group kind name).
Abbreviation stored w := (fga_tuples (w_fga w) storeID).
Abbreviation Names := (names_target_object tkey children).
Abbreviation affects := (affects storeID kind name children).
Abbreviation passes := (passes storeID kind name children).

(** ** The controllers of Projects and Organizations *)

Context (h : ResourceOwnerHierarchyReconciler F).
Hypothesis Hstore : ot_storeID (hr_tuples h) = storeID.
Hypothesis Hvalid : hr_validProjectParentGVKs h = projectParentGVKs.

(** *** The release *)

Lemma release_affects x w o w' :
  d_view (w_k8s w) !! obj_key x = Some x → om_DeletionTimestamp (obj_Meta x) ≠ None → drained (obj_Meta x) = true →
  ContainsFinalizer (obj_Meta x) resourceOwnerHierarchyFinalizer = true →
  (obj_key x = tkey → ∀ k, k ∈ dom (stored w) → ¬ Names k) →
  on_k8s (d_Update (released x)) w = (o, w') → affects w w'.
Proof.
  intros Hx Hd Hdr Hc Hno (k' & E & ->)%on_k8s_run.
  set (m := remove_finalizer (obj_Meta x) resourceOwnerHierarchyFinalizer).
  pose proof (update_object_registrations (released x) (w_k8s w)) as HS. rewrite E in HS. simpl in HS.
  destruct (decide (tkey = obj_key x)) as [Et|Hne].
  2: { apply passes_affects, passes_k8s; [done|by apply (update_other x m _ o)|exact HS]. }
  destruct (update_read x m _ _ _ Hx eq_refl E) as [HV|(y & HA & HV)].
  { apply passes_affects, passes_k8s; [done|by simpl; rewrite HV|exact HS]. }
  destruct HA as (_ & _ & _ & _ & Hyu & Hyt & Hyf). simpl in Hyu, Hyf.
  split; [|exact HS]. apply rtc_once, (eff_release _ _ _ _ _ x); [by unfold target; rewrite Et|done| |done| | |].
  - by apply str_in_elem.
  - intros k Hk Hin. by destruct (Hno (eq_sym Et) k Hin).
  - by intros k _.
  - unfold target. simpl. rewrite HV. unfold d_stored, release_of. rewrite Et, Hyt, Hyf.
    replace (obj_key (obj_with_meta x m)) with (obj_key x) by done.
    destruct (om_DeletionTimestamp (obj_Meta x)) as [t|] eqn:Edt; [|done].
    change (List.filter _ _) with (om_Finalizers m). destruct (om_Finalizers m) eqn:Em.
    + by rewrite lookup_delete_eq.
    + rewrite lookup_insert_eq, Hyu, Hyt, Hyf. fold m. by rewrite Em.
Qed.

Lemma registered_names w k :
  children_registered tkey children w → Names k → names (w_k8s w) (mkGK rm_Group kind) name k.
Proof.
  intros Hr [?|(Hu & c & Hc & Ho)]; [by left|right]. split; [done|].
  destruct (Hr c Hc) as (key & pr & Hpr & <- & Hne & Hp). exists key, pr. done.
Qed.

Lemma finalizeWhenClear_affects x w o w' :
  d_view (w_k8s w) !! obj_key x = Some x → om_Name (obj_Meta x) ≠ "" →
  om_DeletionTimestamp (obj_Meta x) ≠ None → drained (obj_Meta x) = true →
  size (stored w) < ot_fuel (hr_tuples h) → not_found_is_end (w_fga w') storeID → children_registered tkey children w →
  finalizeWhenClear (hr_tuples h) x w = (o, w') → affects w w'.
Proof.
  intros Hx Hn Hd Hdr Hfuel Hnf Hreg E. remember (gvk_GroupKind (obj_GVK x)) as gk eqn:Egk.
  assert (groupKind x = Ok gk) as Hgk by (unfold groupKind; by rewrite scheme_kind, Egk).
  assert (∀ r1 w1, logic_Clear (hr_tuples h) x w = (r1, w1) →
    passes w w1 ∧ w_k8s w1 = w_k8s w ∧ size (stored w1) ≤ size (stored w)) as Hclear.
  { intros r1 w1 (rc & Hclr & _)%(logic_Clear_run _ x gk); [|done].
    apply clear_run in Hclr as (Hk & HA & _); [|done]. rewrite Hstore in HA. split_and!; [|done|].
    - apply passes_fga; [done|]. intros k _. apply HA.
    - rewrite <- !(size_dom (D := gset _)). apply subseteq_size. intros k. apply HA. }
  destruct (ContainsFinalizer (obj_Meta x) resourceOwnerHierarchyFinalizer) eqn:Hc.
  - destruct (finalizeWhenClear_cases (hr_tuples h) x gk w o w' Hgk Hd Hc E) as (r1 & w1 & Hclr & E').
    clear E. rename E' into E.
    destruct (Hclear r1 w1 Hclr) as (Hp & Hk & Hsize). transitivity w1; [by apply passes_affects|].
    destruct E as [[_ ->]|(-> & r2 & w2 & Hrem & E)]; [done|].
    pose proof (reads_inv _ _ _ _ (reads_remaining _ _ _) Hrem) as [-> Hrem1].
    destruct E as [(e & e' & _ & _ & ->)|[->|[-> Hup]]]; [done| |].
    + exfalso. revert Hrem1. unfold remaining. apply bind_fuel; [apply naming_fuel; rewrite Hstore; lia|].
      intros l w2 _. by case_match.
    + apply (release_affects x w1 o); try done; [by rewrite Hk|]. intros Et k Hin HN.
      assert (w_fga w' = w_fga w1) as Ef by (by apply on_k8s_run in Hup as (k' & _ & ->)). rewrite Ef in Hnf.
      apply remaining_Ok in Hrem as [_ Hrem]; [|done|by rewrite Hstore]. rewrite Hstore in Hrem.
      apply (Hrem k Hin). rewrite Hk, Egk. unfold obj_key in Et. injection Et as Eg _ En.
      rewrite Eg, En. by apply registered_names.
  - apply passes_affects. unfold finalizeWhenClear, releaseUnderLock in E. rewrite (groupKind_objectName _ _ Hgk) in E.
    change ((lift (Ok ?x) ;; ?m) w) with (m w) in E.
    apply bind_inv in E as (r1 & w1 & Hclr & E). destruct (Hclear r1 w1 Hclr) as (Hp & _).
    destruct E as [([] & -> & E)|[_ ->]]; [|done].
    rewrite (bind_run_Ok _ _ _ _ _ (Finalize_gone _ resourceOwnerHierarchyFinalizer (logic_Finalize (hr_tuples h) x) _ w1 Hd Hc)) in E.
    injection E as _ <-. done.
Qed.

(** *** The synchronization *)

Lemma applyParentChanges_run writes deletes w o w' :
  applyParentChanges h writes deletes w = (o, w') →
  w_k8s w' = w_k8s w ∧ ∀ k, k ∈ dom (stored w') → k ∈ dom (stored w) ∨ k ∈ map wc_of writes.
Proof.
  intros E. unfold applyParentChanges, applyOpenFGATupleChanges in E.
  assert (w' = w ∨ on_fga (fga_Write (mkWrite (ot_storeID (hr_tuples h)) ""
      (match writes with [] => None | _ => Some (mkWrites writes "") end)
      (match deletes with [] => None | _ => Some (mkDeletes deletes "") end))) w = (o, w')) as [->|E'].
  { destruct writes, deletes; [left; by injection E|by right..]. }
  - split; [done|]. auto.
  - apply on_fga_run in E' as (f' & E' & ->). apply fga_Write_effect in E' as [HA _]. simpl in *. rewrite Hstore in HA.
    split; [done|]. intros k [?|Hk]%HA; [by left|right]. by destruct writes.
Qed.

(** What the owner's lock protects: whether the owner is the object, and held. *)
Lemma ownerHold_run namespace ref w o w1 :
  on_k8s (ownerHold namespace ref) w = (o, w1) →
  affects w w1 ∧ w_fga w1 = w_fga w ∧
  (parentUser ref ≠ tname → target tkey w1 = target tkey w) ∧
  (o = Ok holdHeld → parentUser ref = tname → ∃ x uid, target tkey w1 = Some x ∧ holdOf (obj_Meta x) uid = holdHeld).
Proof.
  intros (k' & E & ->)%on_k8s_run. unfold ownerHold in E. fold (ref_gvk_of ref) in E.
  set (okey := (ref_gvk_of ref, mkNN namespace (or_Name ref))).
  apply bind_inv in E as (og & k1 & Hg & E).
  assert (k1 = w_k8s w) as -> by (apply reads_inv in Hg as [-> _]; [done|apply reads_try, reads_d_Get]).
  assert (affects w (mkWorld (w_fga w) (w_k8s w) (w_provider w))) as Hrefl by by rewrite mkWorld_eta.
  destruct E as [(got & -> & E)|[Hno ->]]; [|split_and!; [done..|by intros ->; destruct (Hno holdHeld)]].
  destruct got as [owner|e].
  2: { destruct (IsNotFound e); injection E as <- <-; split_and!; done. }
  apply (proj1 (try_inl _ _ _ _)) in Hg.
  assert (d_view (w_k8s w) !! okey = Some owner) as Hv by (apply d_Get_Ok; by rewrite Hg).
  pose proof (d_view_keyed _ _ _ Hv) as Ekey.
  assert (parentUser ref = tname → okey = tkey) as Hkey.
  { intros (Eg & Ek & En)%ObjectName_inj; [|done..]. destruct (held_served _ _ _ _ Hv) as [Ev Ens].
    { fold (ref_gvk_of ref) in Eg, Ek. rewrite Eg, Ek. by eapply kind_held. }
    unfold okey. fold (ref_gvk_of ref) in Eg, Ek. simpl in Ens. rewrite Ens, En. by destruct (ref_gvk_of ref); simpl in *; subst. }
  assert (okey = tkey → parentUser ref = tname) as Hkey'.
  { unfold okey, parentUser. fold (ref_gvk_of ref). by intros [= -> _ ->]. }
  rewrite <- Ekey in Hv. assert (on_k8s (holdTarget owner (or_UID ref)) w = (o, mkWorld (w_fga w) k' (w_provider w))) as E'
    by (apply on_k8s_run; eauto).
  destruct (holdTarget_affects storeID kind name children owner (or_UID ref) w o _ Hv E') as (Ha & _ & Hother & Hheld).
  split_and!; [done..| |].
  - intros Hne. unfold target. simpl. apply (Hother tkey). rewrite Ekey. intros Et. by apply Hne, Hkey'.
  - intros -> Hu. destruct (Hheld holdHeld eq_refl) as (y & Hy & Hh). rewrite Ekey, (Hkey Hu) in Hy. by exists y, (or_UID ref).
Qed.

(** The controller of the object itself has it as it read it. *)
Definition own (child : string) w : Prop :=
  child = tname → kind = projectKind ∧ ∃ x, target tkey w = Some x ∧ ¬ deleting (obj_Meta x) ∧ ours (obj_Meta x).
Definition synced (child : string) w w' : Prop := own child w → affects w w' ∧ own child w'.

#[local] Instance synced_preorder child : PreOrder (synced child).
Proof.
  split; [by intros w|]. intros w1 w2 w3 HA HB Ho. destruct (HA Ho) as [A1 O1]. destruct (HB O1) as [A2 O2].
  split; [by etrans|done].
Qed.

Lemma own_target child w w' : target tkey w' = target tkey w → own child w → own child w'.
Proof. unfold own. by intros ->. Qed.

(** A write under an owner's lock. *)
Lemma applyParentChanges_synced child u writes deletes :
  (∀ t, t ∈ writes → t = mkTuple u RelationName child None) →
  ∀ w o w', applyParentChanges h writes deletes w = (o, w') →
  (u = tname → writes = [] ∨ ∃ x uid, target tkey w = Some x ∧ holdOf (obj_Meta x) uid = holdHeld) →
  synced child w w'.
Proof.
  intros Hw w o w' (Hk & HA)%applyParentChanges_run Hu Hown.
  assert (target tkey w' = target tkey w) as Ht by (unfold target; by rewrite Hk).
  split; [|by apply (own_target child w)].
  assert (same_registrations w w') as HS by (unfold same_registrations; by rewrite Hk).
  destruct (decide (writes = [])) as [->|Hne].
  { apply passes_affects, passes_fga; [done|]. intros k _ [?|?%elem_of_nil]%HA; done. }
  destruct (decide (u = tname)) as [Eu|Hnu].
  { destruct (Hu Eu) as [?|(x & uid & Hx & Hh)]; [done|]. split; [|done]. by apply rtc_once, (eff_write _ _ _ _ _ x uid). }
  destruct (decide (child = tname)) as [Ec|Hnc].
  { destruct (Hown Ec) as (_ & x & Hx & Hd & Ho). split; [|done]. by apply rtc_once, (eff_sync _ _ _ _ _ x). }
  apply passes_affects, passes_fga; [done|]. intros k HN [?|(t & Ht' & ->)%elem_of_map]%HA; [done|].
  apply Hw in Ht' as ->. destruct HN as [?|[? _]]; done.
Qed.

Lemma syncParent_synced namespace ref child existing :
  (child = tname → parentUser ref ≠ tname) →
  runs (synced child) (syncParent h namespace ref (mkTuple (parentUser ref) RelationName child None) existing).
Proof.
  intros Hne w o w' E Hown. unfold syncParent in E. apply bind_inv in E as (oh & w1 & Hh & E).
  apply ownerHold_run in Hh as (Ha & _ & Htgt & Hheld).
  assert (own child w1) as Hown1.
  { intros Ec. destruct (Hown Ec) as (Ep & x & Hx). split; [done|]. exists x. by rewrite Htgt by auto. }
  assert (synced child w1 w' → affects w w' ∧ own child w') as Hdone.
  { intros HS. destruct (HS Hown1). split; [by etrans|done]. }
  apply Hdone. destruct E as [(hd & -> & E)|[_ ->]]; [|done].
  destruct (decide (hd = holdDeleting)) as [->|Hnd]; [by injection E as _ <-|].
  set (desired := match hd with holdHeld => {[ parentUser ref := mkTuple (parentUser ref) RelationName child None ]} | _ => ∅ end : tuples_by_user).
  set (D := computeTupleDifferences desired (tuplesOfUser existing (parentUser ref))).
  assert (applyParentChanges h D.1 D.2 w1 = (o, w')) as E' by (unfold D, desired; by destruct hd).
  assert (∀ t, t ∈ D.1 → hd = holdHeld ∧ t = mkTuple (parentUser ref) RelationName child None) as HD.
  { intros t (u & Hu & _)%differences_writes. unfold desired in Hu. destruct hd; try by rewrite lookup_empty in Hu.
    by apply lookup_singleton_Some in Hu as [_ <-]. }
  eapply (applyParentChanges_synced child (parentUser ref)); [by intros t [_ ?]%HD|exact E'|]. intros Eu.
  destruct (decide (hd = holdHeld)) as [->|Hnh]; [right; by apply Hheld|left].
  destruct D.1 as [|t l]; [done|]. destruct (HD t); [left|done].
Qed.

Abbreviation projectGVK := (mkGVK rm_Group rm_Version projectKind).
Abbreviation organizationGVK := (mkGVK rm_Group rm_Version organizationKind).

Lemma sync_affects x key w o w' :
  d_view (w_k8s w) !! (projectGVK, key) = Some x → om_DeletionTimestamp (obj_Meta x) = None →
  ContainsFinalizer (obj_Meta x) resourceOwnerHierarchyFinalizer = true →
  synchronizeFGAHierarchy h x projectGVK rm_Group (hr_validProjectParentGVKs h) w = (o, w') → affects w w'.
Proof.
  intros Hx Hlive Hc E. rewrite Hvalid in E. unfold synchronizeFGAHierarchy in E.
  set (child := buildChildFGAIdentifierForResource x projectGVK rm_Group) in *.
  assert (child = ObjectName rm_Group projectKind (om_Name (obj_Meta x))) as Echild
    by (unfold child, buildChildFGAIdentifierForResource, ObjectName; by rewrite !app_assoc).
  assert (child = tname → kind = projectKind) as Hk by (rewrite Echild; by intros (_ & <- & _)%ObjectName_inj).
  assert (own child w) as Hown.
  { intros Et. split; [by apply Hk|]. exists x. rewrite Echild in Et. apply ObjectName_inj in Et as (_ & <- & En); [|done..].
    destruct (held_served _ _ _ _ Hx) as [_ Ens]; [by apply (kind_held projectKind); left|].
    pose proof (d_view_keyed _ _ _ Hx) as [= _ Ekey]. split_and!; [|unfold deleting; rewrite Hlive; by intros Hx1|by apply str_in_elem].
    unfold target. rewrite <- Hx. f_equal. f_equal. rewrite <- Ekey in Ens |- *. unfold key_of in *. simpl in *. by rewrite Ens, En. }
  assert (runs (synced child) (synchronizeFGAHierarchy h x projectGVK rm_Group projectParentGVKs)) as HR.
  { unfold synchronizeFGAHierarchy. fold child. apply runs_bind; [apply _|apply runs_reads; [apply _|apply reads_on_fga, fetch_reads]|].
    intros existing. cbv zeta. apply runs_bind; [apply _| |].
    { intros w1 o1 w1' E1. eapply (applyParentChanges_synced child ""); [by intros t ?%elem_of_nil|exact E1|by left]. }
    intros _. apply runs_bind; [apply _| |intros _; by apply runs_reads; [apply _|]].
    apply runs_for_each; [apply _|]. intros ref _. destruct (_ !! parentUser ref) as [t|] eqn:Ed; [|by apply runs_reads; [apply _|]].
    apply desired_lookup in Ed as [(ref' & _ & Hv & Hu) ->]. apply syncParent_synced. intros Ec. rewrite <- Hu.
    unfold projectParentGVKs in Hv; apply elem_of_singleton in Hv. unfold parentUser. fold (ref_gvk_of ref'). rewrite Hv. apply other_kind; [done..|].
    by rewrite (Hk Ec). }
  by apply (HR w o w' E).
Qed.

Lemma own_key k key w x :
  d_view (w_k8s w) !! (k, key) = Some x → d_view (w_k8s w) !! obj_key x = Some x ∧ obj_GVK x = k.
Proof. intros Hx. pose proof (d_view_keyed _ _ _ Hx) as E. rewrite E. split; [done|]. by injection E. Qed.

Lemma project_affects req w o w' :
  nn_Name req ≠ "" → size (stored w) < ot_fuel (hr_tuples h) → not_found_is_end (w_fga w') storeID →
  children_registered tkey children w →
  project_Reconcile h projectGVK req w = (o, w') → affects w w'.
Proof.
  intros Hreq Hfuel Hnf Hreg E. unfold project_Reconcile in E.
  apply bind_reads_inv in E as [(got & Hg & E)|[-> _]]; [|done|apply reads_try; solve_reads].
  apply try_fst in Hg. rewrite on_k8s_fst in Hg. destruct got as [x|e]; [|by case_match; injection E as _ <-].
  apply d_Get_Ok in Hg. destruct (own_key _ _ _ _ Hg) as [Hx Ek]. rewrite scheme_kinds, Ek in E.
  assert (nn_Name req = om_Name (obj_Meta x)) as En by (pose proof (d_view_keyed _ _ _ Hg) as [= _ <-]; done).
  apply bind_reads_inv in E as [(gvks & Hgv & E)|[-> _]]; [|done|unfold wrapf; solve_reads].
  injection Hgv as <-. unfold reconcileProject in E. destruct (om_DeletionTimestamp (obj_Meta x)) as [t|] eqn:Ed.
  - unfold handleProjectDeletion in E. destruct (drained (obj_Meta x)) eqn:Hdr; [|by injection E as _ <-].
    cbn [negb] in E. apply bind_inv in E as (o1 & w1 & E1 & E).
    assert (w' = w1) as -> by (destruct E as [(y & _ & E)|[_ ->]]; [by case_match; injection E|done]).
    by apply (finalizeWhenClear_affects x w o1); [|rewrite <- En|rewrite Ed|..].
  - unfold ensureProjectFinalizer in E. destruct (ContainsFinalizer (obj_Meta x) resourceOwnerHierarchyFinalizer) eqn:Hc.
    + by apply (sync_affects x req w o).
    + cbn [negb] in E. apply bind_inv in E as (o1 & w1 & E1 & E). apply bind_inv in E1 as (o2 & w2 & E2 & E1).
      assert (w1 = w2) as -> by (destruct E1 as [(y & _ & E1)|[_ ->]]; [by injection E1|done]).
      assert (w' = w2) as ->.
      { destruct E as [(b & -> & E)|[_ ->]]; [|done]. destruct E1 as [(y & _ & E1)|[Hno _]]; [|by destruct (Hno b)].
        injection E1 as <-. by injection E. }
      by eapply adopt_affects.
Qed.

Lemma organization_affects req w o w' :
  nn_Name req ≠ "" → size (stored w) < ot_fuel (hr_tuples h) → not_found_is_end (w_fga w') storeID →
  children_registered tkey children w →
  organization_Reconcile h organizationGVK req w = (o, w') → affects w w'.
Proof.
  intros Hreq Hfuel Hnf Hreg E. unfold organization_Reconcile in E.
  apply bind_reads_inv in E as [(got & Hg & E)|[-> _]]; [|done|apply reads_try; solve_reads].
  apply try_fst in Hg. rewrite on_k8s_fst in Hg. destruct got as [x|e]; [|by case_match; injection E as _ <-].
  apply d_Get_Ok in Hg. destruct (own_key _ _ _ _ Hg) as [Hx Ek]. cbv zeta in E.
  assert (nn_Name req = om_Name (obj_Meta x)) as En by (pose proof (d_view_keyed _ _ _ Hg) as [= _ <-]; done).
  destruct (om_DeletionTimestamp (obj_Meta x)) as [t|] eqn:Ed.
  - destruct (drained (obj_Meta x)) eqn:Hdr; [|by injection E as _ <-]. cbn [negb] in E.
    apply bind_inv in E as (o1 & w1 & E1 & E).
    assert (w' = w1) as -> by (destruct E as [(y & _ & E)|[_ ->]]; [by injection E|done]).
    rewrite wrapf_run in E1. destruct (finalizeWhenClear (hr_tuples h) x w) as [o2 w2] eqn:Ef.
    assert (w2 = w1) as -> by (by destruct o2; injection E1).
    by apply (finalizeWhenClear_affects x w o2); [|rewrite <- En|rewrite Ed|..].
  - apply bind_inv in E as (o1 & w1 & E1 & E). rewrite wrapf_run in E1.
    destruct (ContainsFinalizer (obj_Meta x) resourceOwnerHierarchyFinalizer) eqn:Hc.
    + rewrite (Finalize_live _ _ _ _ w Ed Hc) in E1. injection E1 as <- <-.
      destruct E as [(y & [= <-] & E)|[_ ->]]; [by injection E as _ <-|done].
    + rewrite (Finalize_add _ _ _ _ w Ed Hc) in E1. injection E1 as <- <-.
      destruct E as [(y & [= <-] & E)|[_ ->]]; [|done]. apply bind_inv in E as (o2 & w2 & E2 & E).
      assert (w' = w2) as -> by (destruct E as [(y & _ & E)|[_ ->]]; [by injection E|done]).
      eapply (adopt_affects _ _ _ _ x); [done..|]. unfold add_finalizer. rewrite Hc. exact E2.
Qed.
End system.

(** ** Group memberships and the system group *)

(** Writing memberships leaves the other kinds alone. *)
Class SeparateMemberships (K : Type) `{KReadLaws K ProtectedResource} `{KDynamicLaws K} `{KWriter K GroupMembership} : Prop := {
  update_gm_objects (gm : GroupMembership) (k : K) : d_view (k_Update gm k).2 = d_view k;
  update_gm_registrations (gm : GroupMembership) (k : K) : k_view (T := ProtectedResource) (k_Update gm k).2 = k_view k;
  status_gm_objects (gm : GroupMembership) (k : K) : d_view (k_StatusUpdate gm k).2 = d_view k;
  status_gm_registrations (gm : GroupMembership) (k : K) :
    k_view (T := ProtectedResource) (k_StatusUpdate gm k).2 = k_view k
}.

(** Users and ServiceAccounts are not of a kind that is held. *)
Class SeparatePrincipals `{ResourceManager} `{IAMKinds} : Prop := {
  user_not_held : isHeldKind (gvk_Group UserGVK) (gvk_Kind UserGVK) = false;
  serviceaccount_not_held : isHeldKind (gvk_Group ServiceAccountGVK) (gvk_Kind ServiceAccountGVK) = false
}.

Section memberships.
Context {F K : Type} `{FgaLaws F} `{KReadLaws K Role} `{KReadLaws K PolicyBinding} `{KReadLaws K ProtectedResource}
  `{KWriter K PolicyBinding} `{!KStatusLaws K PolicyBinding} `{KDynamicLaws K} `{ApiErrors} `{RESTMapperLaws K}
  `{ResourceManager} `{IAMKinds} `{FinalizersLaws} `{StatusConditionsLaws} `{SemanticEqualityLaws PolicyBindingStatus}
  `{!SeparateKinds} `{Scheme} `{APIVersions} `{!HeldKindsLaws K}
  `{KReadLaws K GroupMembership} `{KWriter K GroupMembership} `{SemanticEquality GroupMembershipStatus} `{!SeparateMemberships K}.
Context (storeID kind name : string) (children : list string).
Hypothesis Hkind : kind = projectKind ∨ kind = organizationKind.
Hypothesis Hname : name ≠ "" ∧ has_byte "/"%char name = false ∧ has_byte ":"%char name = false.
Abbreviation Names := (names_target_object (mkGVK rm_Group rm_Version kind, mkNN "" name) children).
Abbreviation passes := (passes (F := F) (K := K) storeID kind name children).

(** A tuple of a user on a group. *)
Lemma group_tuple_names_no_target user relation group condition :
  ¬ Names (wc_of (mkTuple ("iam.miloapis.com/InternalUser:" +:+ user) relation
                          ("iam.miloapis.com/InternalUserGroup:" +:+ group) condition)).
Proof.
  assert (∀ k x, k ≠ kind → "iam.miloapis.com" +:+ "/" +:+ k +:+ ":" +:+ x ≠ ObjectName rm_Group kind name) as HN
    by (intros k x; by apply (other_kind kind name Hkind Hname "iam.miloapis.com" k x)).
  intros [E|[E _]]; revert E; [apply (HN "InternalUserGroup")|apply (HN "InternalUser")]; by destruct Hkind as [-> | ->].
Qed.

Lemma write_passes id request ds :
  (∀ t, t ∈ write_keys (mkWrite storeID id request ds) → ¬ Names (wc_of t)) →
  runs passes (on_fga (fga_Write (mkWrite storeID id request ds)) : M (World F K) unit).
Proof.
  intros Hw w o w' (f' & [HA _]%fga_Write_effect & ->)%on_fga_run. apply passes_fga; [done|]. intros k HN.
  intros [?|(t & Ht & ->)%elem_of_map]%HA; [done|]. by destruct (Hw t Ht).
Qed.

Lemma check_passes t : runs passes (checkIfTupleKeyExists (F := F) (K := K) storeID t).
Proof.
  apply runs_reads; [apply _|]. unfold checkIfTupleKeyExists, wrapf. apply reads_map_err, reads_on_fga.
  intros f. apply fga_Check_world.
Qed.
Lemma model_passes : runs passes (getModelID (F := F) (K := K)).
Proof. apply runs_reads; [apply _|done]. Qed.
#[local] Hint Resolve check_passes model_passes : runs.

Lemma membership_passes req : runs passes (membership_Reconcile (F := F) (K := K) storeID req).
Proof.
  assert (∀ request, runs passes (AddMemberToGroup (F := F) (K := K) storeID request)) as HAdd.
  { intros request. unfold AddMemberToGroup, wrapf. cbv zeta.
    assert (∀ id, runs passes (on_fga (fga_Write (mkWrite storeID id (Some (mkWrites [membership_tuple request] "")) None))
      : M (World F K) unit)) as HW by (intros id; apply write_passes; intros t ->%list_elem_of_singleton; apply group_tuple_names_no_target).
    solve_runs. }
  assert (∀ request, runs passes (RemoveMemberFromGroup (F := F) (K := K) storeID request)) as HRemove.
  { intros request. unfold RemoveMemberFromGroup, wrapf. cbv zeta.
    assert (∀ id ds, runs passes (on_fga (fga_Write (mkWrite storeID id None ds)) : M (World F K) unit)) as HW
      by (intros id ds; apply write_passes; by intros t ?%elem_of_nil).
    solve_runs. }
  assert (∀ gm, runs passes (on_k8s (k_Update gm) : M (World F K) GroupMembership)) as HU
    by (intros gm; apply runs_on_k8s; intros k; [apply update_gm_objects|apply update_gm_registrations]).
  assert (∀ gm old, runs passes (update_membership_status (F := F) (K := K) gm old)) as HS.
  { intros gm old. unfold update_membership_status. case_match; [|apply runs_reads; [apply _|done]].
    apply runs_bind; [apply _|apply runs_on_k8s; intros k; [apply status_gm_objects|apply status_gm_registrations]|].
    intros _. apply runs_reads; [apply _|done]. }
  assert (∀ gm, runs passes (Finalizers_Finalize groupMembershipFinalizerKey (membership_Finalize storeID gm) (gm_Meta gm) : M (World F K) _)) as HF.
  { intros gm w o w'. apply (Finalize_runs passes). intros o1 w1 E. split.
    - revert E. apply runs_at. unfold membership_Finalize, get_or_zero. solve_runs.
    - pose proof (membership_Finalize_fuel storeID gm w) as Hno. by rewrite E in Hno. }
  unfold membership_Reconcile, validateRef. solve_runs.
Qed.

(** *** The system group *)

(** An update leaves the objects of other keys alone. *)
Lemma d_Update_elsewhere x (k : K) key :
  key ≠ obj_key x → d_view (d_Update x k).2 !! key = d_view k !! key.
Proof.
  intros Hne. destruct (d_Update x k) as [o k'] eqn:E. simpl.
  assert (∀ y, d_stored x y (d_view k) !! key = d_view k !! key) as HS.
  { intros y. unfold d_stored. by repeat case_match; rewrite ?lookup_insert_ne, ?lookup_delete_ne by done. }
  destruct o as [y|e|].
  - apply d_Update_Ok in E as (old & _ & _ & ->). apply HS.
  - apply d_Update_Err in E as [->|(old & y & _ & _ & ->)]; [done|apply HS].
  - pose proof (d_Update_result x k) as HR. by rewrite E in HR.
Qed.

Lemma update_elsewhere_passes x :
  isHeldKind (gvk_Group (obj_GVK x)) (gvk_Kind (obj_GVK x)) = false →
  runs passes (on_k8s (d_Update x) : M (World F K) KObject).
Proof.
  intros Hx w o w' (k' & E & ->)%on_k8s_run.
  pose proof (update_object_registrations x (w_k8s w)) as HS.
  pose proof (d_Update_elsewhere x (w_k8s w) (mkGVK rm_Group rm_Version kind, mkNN "" name)) as HE.
  rewrite E in HS, HE. apply passes_k8s; [done| |exact HS]. apply HE. intros [= Eg _].
  rewrite <- Eg in Hx. simpl in Hx. by rewrite (kind_held kind Hkind) in Hx.
Qed.

Lemma reconcileObject_passes p :
  isHeldKind (gvk_Group (obj_GVK (principal_object p))) (gvk_Kind (obj_GVK (principal_object p))) = false →
  runs passes (reconcileObject (F := F) (K := K) storeID p).
Proof.
  intros Hp.
  assert (∀ m, runs passes (on_k8s (d_Update (obj_with_meta (principal_object p) m)) : M (World F K) KObject)) as HU
    by (intros m; by apply update_elsewhere_passes).
  assert (∀ id, runs passes (on_fga (fga_Write (mkWrite storeID id (Some (mkWrites [systemGroupTupleKey p] "")) None))
    : M (World F K) unit)) as HW by (intros id; apply write_passes; intros t ->%list_elem_of_singleton;
      apply group_tuple_names_no_target).
  assert (∀ id ds, runs passes (on_fga (fga_Write (mkWrite storeID id None ds)) : M (World F K) unit)) as HD
    by (intros id ds; apply write_passes; by intros t ?%elem_of_nil).
  assert (∀ t, runs passes (systemGroupTupleExists (F := F) (K := K) storeID t)) as HE
    by (intros t; apply runs_reads; [apply _|apply systemGroupTupleExists_reads]).
  unfold reconcileObject, system_handleDeletion, writeSystemGroupTuple, deleteSystemGroupTuple, wrapf. cbv zeta.
  solve_runs.
Qed.

Context `{!SeparatePrincipals}.

(** An object that was read has the kind it was read under. *)
Lemma got_passes gvk req (f : KObject → M (World F K) Result) :
  (∀ x, obj_GVK x = gvk → runs passes (f x)) →
  runs passes (got ← try (on_k8s (d_Get gvk req));
               match got with
               | inr err => if IsNotFound err then mret done_result else throw err
               | inl x => f x
               end).
Proof.
  intros Hf w o w' E.
  apply bind_reads_inv in E as [(got & Hg & E)|[-> _]]; [|done|apply reads_try; solve_reads].
  apply try_fst in Hg. rewrite on_k8s_fst in Hg. destruct got as [x|e]; [|by case_match; injection E as _ <-].
  apply d_Get_Ok, own_key in Hg as [_ Ek]. by apply (Hf x Ek w o).
Qed.

Lemma user_passes req : runs passes (reconcileUser (F := F) (K := K) storeID req).
Proof. apply got_passes. intros x Hx. apply reconcileObject_passes. simpl. rewrite Hx. apply user_not_held. Qed.

Lemma serviceaccount_passes req : runs passes (reconcileServiceAccount (F := F) (K := K) storeID req).
Proof. apply got_passes. intros x Hx. apply reconcileObject_passes. simpl. rewrite Hx. apply serviceaccount_not_held. Qed.
End memberships.

Section runs_of_the_system.
Context {F K : Type} `{FgaLaws F} `{KReadLaws K Role} `{KReadLaws K PolicyBinding} `{KReadLaws K ProtectedResource}
  `{KWriter K PolicyBinding} `{!KStatusLaws K PolicyBinding} `{KDynamicLaws K} `{ApiErrors} `{RESTMapperLaws K}
  `{ResourceManager} `{IAMKinds} `{FinalizersLaws} `{StatusConditionsLaws} `{SemanticEqualityLaws PolicyBindingStatus}
  `{!SeparateKinds} `{Scheme} `{APIVersions} `{!HeldKindsLaws K}
  `{KReadLaws K GroupMembership} `{KWriter K GroupMembership} `{SemanticEquality GroupMembershipStatus} `{!SeparateMemberships K}
  `{!SeparatePrincipals}.
Implicit Types w : World F K.

(** The object: a Project or an Organization of a name that Kubernetes accepts. *)
Context (storeID kind name : string) (children : list string).
Hypothesis Hkind : kind = projectKind ∨ kind = organizationKind.
Hypothesis Hname : name ≠ "" ∧ has_byte "/"%char name = false ∧ has_byte ":"%char name = false.

Abbreviation tkey := (mkGVK rm_Group rm_Version kind, mkNN "" name).
Abbreviation tname := (ObjectName rm_Group kind name).
Abbreviation stored w := (fga_tuples (w_fga w) storeID).
Abbreviation Names := (names_target_object tkey children).
Abbreviation pstep := (step Names).
Abbreviation registered := (children_registered tkey children).

(** A run of one of the controllers, with any answers, on any request of a name
    Kubernetes accepts (the fuel bounds the loops over pages of the store as it is
    then, and OpenFGA does not answer NotFound to a Read while tuples are left); or whatever others do that neither writes a tuple naming the object nor
    takes our finalizer off it, while the child types stay registered. *)
Inductive system_step w w' : Prop :=
| run_binding (r : PolicyBindingReconciler) req o :
  pbr_StoreID r = storeID → size (stored w) < pbr_fuel r →
  policybinding_Reconcile r req w = (o, w') → system_step w w'
| run_project (h : ResourceOwnerHierarchyReconciler F) req o :
  ot_storeID (hr_tuples h) = storeID → hr_validProjectParentGVKs h = projectParentGVKs →
  nn_Name req ≠ "" → size (stored w) < ot_fuel (hr_tuples h) → not_found_is_end (w_fga w') storeID →
  project_Reconcile h (mkGVK rm_Group rm_Version projectKind) req w = (o, w') → system_step w w'
| run_organization (h : ResourceOwnerHierarchyReconciler F) req o :
  ot_storeID (hr_tuples h) = storeID →
  nn_Name req ≠ "" → size (stored w) < ot_fuel (hr_tuples h) → not_found_is_end (w_fga w') storeID →
  organization_Reconcile h (mkGVK rm_Group rm_Version organizationKind) req w = (o, w') → system_step w w'
| run_membership req o : membership_Reconcile storeID req w = (o, w') → system_step w w'
| run_user req o : reconcileUser storeID req w = (o, w') → system_step w w'
| run_serviceaccount req o : reconcileServiceAccount storeID req w = (o, w') → system_step w w'
| others :
  target tkey w' = target tkey w ∨ object_change (target tkey w) (target tkey w') →
  no_new storeID tkey children w w' → registered w' → system_step w w'.

Lemma system_step_effects w w' :
  registered w → system_step w w' → rtc (effect storeID tkey children) w w' ∧ registered w'.
Proof.
  assert (affects storeID kind name children w w' → registered w →
    rtc (effect storeID tkey children) w w' ∧ registered w') as HA.
  { intros [He Hs] Hr. split; [done|]. intros c Hc. unfold same_registrations in Hs. rewrite Hs. by apply Hr. }
  intros Hr [r req o Es Hf E|h req o Es Hv Hn Hf Hnf E|h req o Es Hn Hf Hnf E|req o E|req o E|req o E|Ht Hn Hr'].
  - apply HA; [|done]. by apply (policybinding_affects storeID kind name children Hkind Hname r Es req w o).
  - apply HA; [|done]. by apply (project_affects storeID kind name children Hkind Hname h Es Hv req w o).
  - apply HA; [|done]. by apply (organization_affects storeID kind name children h Es req w o).
  - apply HA; [|done]. by apply passes_affects, (membership_passes storeID kind name children Hkind Hname req w o).
  - apply HA; [|done]. by apply passes_affects, (user_passes storeID kind name children Hkind Hname req w o).
  - apply HA; [|done]. by apply passes_affects, (serviceaccount_passes storeID kind name children Hkind Hname req w o).
  - split; [|done]. apply rtc_once. destruct Ht; [by apply eff_quiet|by apply eff_object].
Qed.

Lemma system_effects w w' :
  registered w → rtc system_step w w' → rtc (effect storeID tkey children) w w' ∧ registered w'.
Proof.
  intros Hr Hs. induction Hs as [w|w w1 w' H1' _ IH]; [by split; [apply rtc_refl|]|].
  apply system_step_effects in H1' as [HE Hr1]; [|done]. destruct (IH Hr1). split; [by etrans|done].
Qed.

(** C3: The handlers refine the hold protocol. From a world that a state the protocol
    reaches describes, whatever runs of the PolicyBinding, Project, Organization,
    GroupMembership and system-group controllers and changes by others follow, on whatever
    requests and with whatever answers from the servers, the protocol has steps to a state that describes the
    world they leave: the object the API server holds and the tuples naming it. *)
Theorem handlers_refine_protocol w w' s0 s
  (Hregistered : registered w) (Hinitial : initial Names s0) (Hreached : rtc pstep s0 s)
  (Hrelated : related storeID tkey children w s) (Hrun : rtc system_step w w') :
  ∃ s', rtc pstep s s' ∧ related storeID tkey children w' s'.
Proof.
  apply (effects_simulated _ _ _ w); [by apply (reachable_inv _ s0)|done|]. by apply system_effects.
Qed.

(** Before the object is created, and before any tuple names it. *)
Definition untouched w : Prop :=
  target tkey w = None ∧ (∀ k, k ∈ dom (stored w) → ¬ Names k) ∧ registered w.

Lemma untouched_related w : untouched w → initial Names (mkP None ∅ 0 0 0 ∅ Free Idle) ∧
  related storeID tkey children w (mkP None ∅ 0 0 0 ∅ Free Idle).
Proof.
  intros (Ht & Hn & _). split; [split_and!; done || set_solver|]. split; [by rewrite Ht| |done|done].
  intros k Hk. simpl. split; [set_solver|]. intros Hin. by destruct (Hn k Hin).
Qed.

(** C4: No tuple outlives the object it names, in the worlds the code leaves. After
    any runs of the controllers, from a world without the object and without tuples
    naming it, a tuple of the store on a Project or an Organization, or of it as a
    parent, means that the API server holds the object with our finalizer on it. *)
Theorem tuples_name_held_objects w0 w k
  (Hstart : untouched w0) (Hrun : rtc system_step w0 w) (Hin : k ∈ dom (stored w)) (Hnames : Names k) :
  ∃ x, target tkey w = Some x ∧ resourceOwnerHierarchyFinalizer ∈ om_Finalizers (obj_Meta x).
Proof.
  destruct (untouched_related w0 Hstart) as [Hi HR]. destruct (system_effects w0 w) as [HE _]; [by apply Hstart|done|].
  destruct (effects_simulated storeID tkey children w0 w _ (initial_inv _ _ Hi) HR HE) as (s & Hs & HR').
  destruct (inv_tuples _ s (reachable_inv _ _ _ Hi Hs) k) as (v & m & Ho & Hf); [by apply HR'|done|].
  pose proof (rel_object _ _ _ _ _ HR') as Hobj. rewrite Ho in Hobj.
  destruct (target tkey w) as [x|]; [|done]. exists x. split; [done|]. simpl in Hobj. by injection Hobj as ->.
Qed.
End runs_of_the_system.

(** ** An example: a Project is created, a binding grants on it, it is deleted *)

#[export] Instance ref_SeparateMemberships : SeparateMemberships RefK8s.
Proof.
  split; intros gm k; simpl.
  1-2: by destruct (rk_down k), (om_DeletionTimestamp (gm_Meta gm)), (om_Finalizers (gm_Meta gm)).
  1-2: by destruct (rk_down k), (rk_memberships k !! key_of (gm_Meta gm)).
Qed.

#[export] Instance ref_SeparatePrincipals : SeparatePrincipals.
Proof. by split. Qed.

#[export] Instance ref_HeldKindsLaws : HeldKindsLaws RefK8s.
Proof.
  split.
  - intros kind k m Hk. simpl. intros [= <-]. f_equal. unfold isHeldKind in Hk. rewrite String.eqb_refl in Hk.
    by apply orb_true_iff in Hk as [->%String.eqb_eq| ->%String.eqb_eq].
  - intros k gvk key x Hx%ref_objects_served Hk. unfold ref_served in Hx. simpl in Hx. rewrite Hk in Hx.
    by apply andb_true_iff in Hx as [->%String.eqb_eq ->%String.eqb_eq].
  - done.
  - done.
  - intros pb k. simpl. by destruct (rk_down k), (om_DeletionTimestamp (pb_Meta pb)), (om_Finalizers (pb_Meta pb)).
  - intros pb k. simpl. by destruct (rk_down k), (om_DeletionTimestamp (pb_Meta pb)), (om_Finalizers (pb_Meta pb)).
  - intros x k. simpl. destruct (rk_down k), (ref_objects k !! obj_key x); try done. by destruct (ref_acceptable _ _).
  - by split.
Qed.

Definition ex_sys_widget : ProtectedResource :=
  ex_hold_pr "Widget" [mkParentRef ex_pbc_group "Project"].
Definition ex_sys_alice : KObject := mkKObject UserGVK (mkObjectMeta "alice" "" "uid-alice" 1 None [] []) "1".
Definition ex_sys_p1 : KObject := mkKObject (ref_gvk "Project") (mkObjectMeta "p1" "" "uid-p1" 1 None [] []) "1".
Definition ex_sys_world (objects : list KObject) : World RefStore RefK8s :=
  mkWorld (mkRefStore ∅ [] 1 None)
    (mkRefK8s (by_key role_Meta [ex_role "viewer" [ex_pbc_perm]]) (by_key pb_Meta [ex_pbc_binding None])
       (by_key pr_Meta [ex_pbc_pr; ex_sys_widget]) ∅ (by_obj_key objects) None) None.
Definition ex_sys_children : list string := ["resourcemanager.miloapis.com/Widget"].
Abbreviation ex_sys_step := (system_step (F := RefStore) (K := RefK8s) "store" "Project" "p1" ex_sys_children).
Definition ex_sys_start : World RefStore RefK8s := ex_sys_world [ex_sys_alice].
Definition ex_sys_granted : World RefStore RefK8s := (ex_pbc_run (ex_sys_world [ex_sys_alice; ex_sys_p1])).2.

Lemma ex_sys_registered objects :
  children_registered (ref_gvk "Project", mkNN "" "p1") ex_sys_children (ex_sys_world objects).
Proof.
  intros c ->%list_elem_of_singleton. exists (mkNN "" "Widget"), ex_sys_widget. split_and!; [|done..].
  vm_compute. reflexivity.
Qed.

Lemma ex_sys_untouched : untouched "store" "Project" "p1" ex_sys_children ex_sys_start.
Proof. split_and!; [vm_compute; reflexivity|intros k Hk; simpl in Hk; set_solver|apply ex_sys_registered]. Qed.

(** The Project is created; the binding's run writes its tuple and takes the hold. *)
Lemma ex_sys_run : rtc ex_sys_step ex_sys_start ex_sys_granted.
Proof.
  eapply rtc_l; [|apply rtc_once].
  - apply (others _ _ _ _ _ (ex_sys_world [ex_sys_alice; ex_sys_p1])); [|intros k _ Hk; simpl in Hk; set_solver|apply ex_sys_registered].
    right. replace (target _ ex_sys_start) with (@None KObject) by (vm_compute; reflexivity).
    replace (target _ _) with (Some ex_sys_p1) by (vm_compute; reflexivity). intros Hd. by apply Hd.
  - eapply (run_binding _ _ _ _ _ _ ex_pbc_reconciler (mkNN "default" "b")); [done| |apply surjective_pairing].
    apply Nat.ltb_lt. vm_compute. reflexivity.
Qed.

Lemma ex_sys_kind : "Project" = projectKind ∨ "Project" = organizationKind.
Proof. by left. Qed.
Lemma ex_sys_name : "p1" ≠ "" ∧ has_byte "/"%char "p1" = false ∧ has_byte ":"%char "p1" = false.
Proof. by split_and!. Qed.

Lemma handlers_refine_protocol_witness :
  ∃ s', rtc (step (names_target_object (ref_gvk "Project", mkNN "" "p1") ex_sys_children)) (mkP None ∅ 0 0 0 ∅ Free Idle) s' ∧
    related "store" (ref_gvk "Project", mkNN "" "p1") ex_sys_children ex_sys_granted s'.
Proof.
  destruct (untouched_related "store" "Project" "p1" ex_sys_children ex_sys_kind ex_sys_name ex_sys_start ex_sys_untouched) as [Hi HR].
  apply (handlers_refine_protocol (F := RefStore) (K := RefK8s) "store" "Project" "p1" ex_sys_children ex_sys_kind
    ex_sys_name ex_sys_start ex_sys_granted (mkP None ∅ 0 0 0 ∅ Free Idle)).
  - apply ex_sys_registered.
  - exact Hi.
  - apply rtc_refl.
  - exact HR.
  - apply ex_sys_run.
Defined.

Lemma tuples_name_held_objects_witness :
  ∃ x, target (ref_gvk "Project", mkNN "" "p1") ex_sys_granted = Some x ∧
    resourceOwnerHierarchyFinalizer ∈ om_Finalizers (obj_Meta x).
Proof.
  apply (tuples_name_held_objects (F := RefStore) (K := RefK8s) "store" "Project" "p1" ex_sys_children ex_sys_kind
    ex_sys_name ex_sys_start ex_sys_granted ex_pbc_tuple).
  - apply ex_sys_untouched.
  - apply ex_sys_run.
  - apply (bool_decide_unpack _). vm_compute. exact I.
  - left. reflexivity.
Defined.
