(* ===== verification/WakeUps.v ===== *)
(** * Which reconciles a change wakes

    The controllers recompute nothing on their own: what one object's change
    makes stale in another is repaired only by the requests the watch handlers
    return. [enqueuePolicyBindingsForRoleChange] (policybinding_controller.go) and
    [enqueueRequestsForProtectedResourceChange] (role_controller.go) are shown to
    return enough of them. *)

From S2P Require Import Prelude GoStrings GoErr Types Constants Permissions World Fga Tuples Indexes RefK8s.
From S2P Require Import RoleGraph RoleGraphFacts RoleGraphSpec PolicyReconciler PolicyReconcilerFacts PolicyReconcilerSpec Hash ResourceGraph.
From S2P Require Import ControllerEnv RefObjects RoleController RoleControllerSpec PolicyBindingController.

(** The same role, up to the status of a live one. *)
Definition same_but_status (role1 role2 : Role) : Prop :=
  role_Meta role1 = role_Meta role2 ∧ role_Spec role1 = role_Spec role2 ∧
  (om_DeletionTimestamp (role_Meta role1) ≠ None → role1 = role2).

#[export] Instance same_but_status_equivalence : Equivalence same_but_status.
Proof.
  split; [done|..].
  - intros a b (Em & Es & E). split_and!; [done..|]. rewrite <- Em. intros Hd. by rewrite E.
  - intros a b c (Em1 & Es1 & E1) (Em2 & Es2 & E2). split_and!; [congruence..|].
    intros Hd. rewrite E1 by done. apply E2. congruence.
Qed.

Section roles.
Context {K : Type} `{KReadLaws K Role}.
Implicit Types (k : K) (role : Role).

(** Every role but [changed] is the same, up to the status of the live ones. *)
Definition role_edit (changed : NamespacedName) k1 k2 : Prop :=
  ∀ key, key ≠ changed → option_Forall2 same_but_status (k_view k1 !! key) (k_view k2 !! key).

(** The role controller has caught up: the status of every live role holds its
    effective permissions, as a successful [role_Reconcile] leaves it. *)
Definition roles_settled k : Prop :=
  ∀ key role, k_view k !! key = Some role → om_DeletionTimestamp (role_Meta role) = None →
    ∀ p, p ∈ rst_EffectivePermissions (role_Status role) ↔ included_in k (rtc (inherits k) key) p.

(** The API server answers: it finds a role or says that there is none. *)
Definition roles_answered k : Prop :=
  ∀ key e, (k_Get (T := Role) key k).1 = Err e → IsNotFound e = true.

#[local] Instance role_edit_sym changed : Symmetric (role_edit changed).
Proof. intros k1 k2 HE key Hne. symmetry. by apply HE. Qed.

Lemma role_edit_lookup changed k1 k2 key role2 :
  role_edit changed k1 k2 → key ≠ changed → k_view k2 !! key = Some role2 →
  ∃ role1, k_view k1 !! key = Some role1 ∧ same_but_status role1 role2.
Proof.
  intros HE Hne E2. specialize (HE key Hne). rewrite E2 in HE.
  inversion HE as [role1 r2 Hs E1|]; subst. eauto.
Qed.

Lemma inherits_edit changed k1 k2 x y :
  role_edit changed k1 k2 → x ≠ changed → inherits k1 x y ↔ inherits k2 x y.
Proof.
  intros HE Hx.
  assert (∀ k1 k2, role_edit changed k1 k2 → inherits k2 x y → inherits k1 x y) as Hdir.
  { intros k k' HE' (role & ref & Hr & Hin & <-).
    destruct (role_edit_lookup _ _ _ _ _ HE' Hx Hr) as (role1 & Hr1 & Em & Es & _).
    exists role1, ref. unfold inherited_key. by rewrite Em, Es. }
  split; apply Hdir; [by symmetry|done].
Qed.

(** What a role that does not reach [changed] includes is as it was. *)
Lemma included_edit changed k1 k2 x p :
  role_edit changed k1 k2 → ¬ rtc (inherits k2) x changed →
  included_in k1 (rtc (inherits k1) x) p ↔ included_in k2 (rtc (inherits k2) x) p.
Proof.
  intros HE Hn.
  assert (∀ y, rtc (inherits k1) x y ↔ rtc (inherits k2) x y) as HR
    by (intros y; apply (rtc_agree _ _ changed); [|done]; intros a b Ha; by apply (inherits_edit changed)).
  assert (∀ y, rtc (inherits k2) x y → y ≠ changed) as Hne by congruence.
  unfold included_in. split; intros (y & role & Hy & Hr & Hp).
  - apply HR in Hy. destruct (role_edit_lookup changed k2 k1 y role) as (role' & Hr' & _ & Es & _); [by symmetry|auto..].
    exists y, role'. rewrite Es. done.
  - destruct (role_edit_lookup changed k1 k2 y role) as (role' & Hr' & _ & Es & _); [auto..|].
    exists y, role'. rewrite HR, Es. done.
Qed.

(** In a settled role the fallback to the spec changes nothing. *)
Lemma settled_effective_perms k key role p :
  roles_settled k → k_view k !! key = Some role → om_DeletionTimestamp (role_Meta role) = None →
  p ∈ effective_perms role ↔ included_in k (rtc (inherits k) key) p.
Proof.
  intros HS Hr Hd. rewrite <- (HS key role Hr Hd p). unfold effective_perms.
  specialize (HS key role Hr Hd). destruct (rst_EffectivePermissions (role_Status role)) as [|q qs]; [|done].
  split; [|by intros ?%elem_of_nil]. intros Hp. apply HS. exists key, role. split; [apply rtc_refl|done].
Qed.

(** What a role outside the dependents of [changed] grants is as it was. *)
Lemma effective_perms_edit changed k1 k2 key role1 role2 p :
  role_edit changed k1 k2 → roles_settled k1 → roles_settled k2 → ¬ rtc (inherits k2) key changed →
  k_view k1 !! key = Some role1 → k_view k2 !! key = Some role2 →
  role_Meta role1 = role_Meta role2 ∧ (p ∈ effective_perms role1 ↔ p ∈ effective_perms role2).
Proof.
  intros HE HS1 HS2 Hn Hr1 Hr2.
  assert (key ≠ changed) as Hne by (intros ->; apply Hn, rtc_refl).
  destruct (role_edit_lookup _ _ _ _ _ HE Hne Hr2) as (r1 & Hr1' & Em & _ & Hdel).
  assert (r1 = role1) as -> by congruence. split; [done|].
  destruct (om_DeletionTimestamp (role_Meta role1)) eqn:Hd; [by rewrite Hdel|].
  rewrite (settled_effective_perms k1 key role1), (settled_effective_perms k2 key role2) by (rewrite <- ?Em; done).
  by apply (included_edit changed).
Qed.
End roles.

(** ** Roles and bindings *)

Section bindings.
Context {F K : Type} `{KReadLaws K Role} `{KReadLaws K PolicyBinding} `{ApiErrors}.
Context (r : PolicyReconciler F K).
Implicit Types (w : World F K) (binding : PolicyBinding).

Definition bound_key binding : NamespacedName :=
  mkNN (rr_Namespace (pbs_RoleRef (pb_Spec binding))) (rr_Name (pbs_RoleRef (pb_Spec binding))).

Lemma fetchRole_iff binding w role :
  roles_answered (w_k8s w) →
  (fetchRole r binding w).1 = Ok role ↔
  nn_Namespace (bound_key binding) ≠ "" ∧ k_view (w_k8s w) !! bound_key binding = Some role ∧
  (om_DeletionTimestamp (role_Meta role) ≠ None → pr_EnableSubresourceAuthorization r = false).
Proof.
  intros HA. unfold fetchRole, bound_key. simpl. destruct (String.eqb_spec (rr_Namespace (pbs_RoleRef (pb_Spec binding))) "").
  { split; [done|]. by intros []. }
  rewrite bind_fst_reads by (unfold wrapf; solve_reads). setoid_rewrite map_err_fst. setoid_rewrite on_k8s_fst.
  set (key := mkNN _ _). split.
  - intros (x & Hx%k_Get_Ok & E). destruct (om_DeletionTimestamp (role_Meta x)) eqn:Hd;
      [destruct (pr_EnableSubresourceAuthorization r); [done|]|]; simpl in E; injection E as <-; rewrite Hx; split_and!; try done; by rewrite Hd.
  - intros (_ & Hv & Hd). exists role. split.
    + destruct ((k_Get key (w_k8s w)).1) as [x|e|] eqn:E.
      * apply k_Get_Ok in E. congruence.
      * pose proof (k_Get_NotFound _ _ _ E (HA _ _ E)). congruence.
      * by apply k_Get_result in E.
    + destruct (om_DeletionTimestamp (role_Meta role)); [rewrite Hd by done|]; done.
Qed.

(** The binding's role grants it [t], as [reconcilePolicy] computes it. *)
Definition grants w binding (target : string) (validPerms : gset string) (t : TupleKey) : Prop :=
  ∃ role, (fetchRole r binding w).1 = Ok role ∧
    wanted (pr_EnableSubresourceAuthorization r) binding role target validPerms t.

Lemma grants_edit changed w1 w2 binding target validPerms t :
  roles_answered (w_k8s w1) → roles_answered (w_k8s w2) → role_edit changed (w_k8s w1) (w_k8s w2) →
  roles_settled (w_k8s w1) → roles_settled (w_k8s w2) → ¬ rtc (inherits (w_k8s w2)) (bound_key binding) changed →
  grants w1 binding target validPerms t ↔ grants w2 binding target validPerms t.
Proof.
  intros HA1 HA2 HE HS1 HS2 Hn. unfold grants. setoid_rewrite fetchRole_iff; [|done..].
  assert (bound_key binding ≠ changed) as Hne by (intros <-; apply Hn, rtc_refl).
  pose proof (HE _ Hne) as HB. inversion HB as [x1 x2 _ E1 E2|E1 E2]; [|naive_solver].
  symmetry in E1, E2.
  assert (role_Meta x1 = role_Meta x2 ∧ ∀ p, p ∈ effective_perms x1 ↔ p ∈ effective_perms x2) as [Em Ep].
  { split; [|intros p]; by apply (effective_perms_edit changed _ _ _ _ _ "" HE HS1 HS2 Hn E1 E2) ||
      apply (effective_perms_edit changed _ _ _ _ _ p HE HS1 HS2 Hn E1 E2). }
  unfold wanted. split; intros (role & (Hns & [= <-] & Hd) & Hw).
  - exists x2. rewrite <- Em. setoid_rewrite <- Ep. done.
  - exists x1. rewrite Em. setoid_rewrite Ep. done.
Qed.

(** The indexes are the ones the manager registers, and the lists the handler
    asks for are answered. *)
Definition role_indexed : Prop :=
  k_index (K := K) (T := PolicyBinding) RoleRefIndexField = PolicyBinding_index RoleRefIndexField.
Definition lists_answered (k : K) : Prop :=
  is_ok (k_List (T := Role) k).1 = true ∧ ∀ v, is_ok (k_ListField (T := PolicyBinding) RoleRefIndexField v k).1 = true.

Lemma reads_rolesDependentOnRole changed : reads (rolesDependentOnRole (K := K) changed).
Proof. unfold rolesDependentOnRole. solve_reads. Qed.

Lemma reads_role_requests changedRole : reads (enqueuePolicyBindingsForRoleChange (K := K) changedRole).
Proof. unfold enqueuePolicyBindingsForRoleChange, rolesDependentOnRole. solve_reads. Qed.

(** The requests are the bindings whose role the change concerns, and no others. *)
Lemma elem_of_role_requests changedRole k reqs req :
  roles_keyed k → role_indexed → lists_answered k →
  (enqueuePolicyBindingsForRoleChange changedRole k).1 = Ok reqs →
  req ∈ reqs ↔ ∃ key pb x, k_view k !! key = Some pb ∧ req = pb_request pb ∧
    rtc (inherits k) x (role_key changedRole) ∧
    RoleRefIndexKey (om_Namespace (pb_Meta pb)) (pbs_RoleRef (pb_Spec pb)) =
      RoleRefIndexKey (nn_Namespace x) (mkRoleRef (nn_Name x) (nn_Namespace x)).
Proof.
  intros Hk Hidx [HL HLF] (roles & Hroles%try_fst & E)%bind_fst_reads; [|apply reads_try, reads_rolesDependentOnRole].
  assert (∃ D, roles = inl D) as [D ->].
  { destruct roles as [D|e]; [eauto|]. apply rolesDependentOnRole_Err in Hroles. by rewrite Hroles in HL. }
  assert (∀ x, x ∈ D ↔ rtc (inherits k) x (role_key changedRole)) as HD.
  { destruct (dependents_aux k (role_key changedRole) Hk) as [(e & He)|(D' & HD' & HX)]; [by rewrite He in Hroles|].
    rewrite HD' in Hroles. by injection Hroles as ->. }
  apply append_loopM_reads in E as [_ HB]; [|solve_reads]. rewrite HB. clear HB. split.
  - intros (x & rx & Hx & E & Hin). apply elem_of_elements, HD in Hx.
    apply bind_fst_reads in E as (items & Hitems%try_fst & [= <-]); [|solve_reads].
    destruct items as [items|]; [|by apply elem_of_nil in Hin]. apply elem_of_map in Hin as (pb & Hpb & ->).
    apply (k_ListField_Ok _ _ _ _ Hitems) in Hpb as [[key Hpb] Hv].
    rewrite Hidx in Hv. apply list_elem_of_singleton in Hv. eauto 10.
  - intros (key & pb & x & Hpb & -> & Hx & Heq). specialize (HLF (RoleRefIndexKey (nn_Namespace x) (mkRoleRef (nn_Name x) (nn_Namespace x)))).
    destruct ((k_ListField RoleRefIndexField _ k).1) as [items|e|] eqn:Hitems; [|done..].
    exists x, (map pb_request items). split_and!.
    + by apply elem_of_elements, HD.
    + apply bind_fst_reads; [solve_reads|]. exists (inl items). split; [by apply try_fst|done].
    + apply elem_of_map. exists pb. split; [|done]. apply (k_ListField_Ok _ _ _ _ Hitems). split; [eauto|].
      rewrite Hidx. apply list_elem_of_singleton. by rewrite <- Heq.
Qed.

(** When the role controller has caught up with a role's change, a binding that is
    not requeued is granted what it was granted. *)
Lemma role_change_keeps_grants changedRole w1 w2 reqs key binding target validPerms t
  (Hkeyed : roles_keyed (w_k8s w2)) (Hindex : role_indexed) (Hlists : lists_answered (w_k8s w2))
  (Hanswered1 : roles_answered (w_k8s w1)) (Hanswered2 : roles_answered (w_k8s w2))
  (Hedit : role_edit (role_key changedRole) (w_k8s w1) (w_k8s w2))
  (Hsettled1 : roles_settled (w_k8s w1)) (Hsettled2 : roles_settled (w_k8s w2))
  (Hreqs : (enqueuePolicyBindingsForRoleChange changedRole (w_k8s w2)).1 = Ok reqs)
  (Hbinding : k_view (w_k8s w2) !! key = Some binding) (Hout : pb_request binding ∉ reqs) :
  grants w1 binding target validPerms t ↔ grants w2 binding target validPerms t.
Proof.
  destruct (decide (nn_Namespace (bound_key binding) = "")) as [Hns|Hns].
  - split; intros (role & (Hne & _)%fetchRole_iff & _); done.
  - apply (grants_edit (role_key changedRole)); try done. intros Hr. apply Hout.
    apply (elem_of_role_requests changedRole _ _ _ Hkeyed Hindex Hlists Hreqs).
    exists key, binding, (bound_key binding). split_and!; [done..|].
    unfold RoleRefIndexKey, bound_key in *. simpl in *. apply String.eqb_neq in Hns. by rewrite Hns.
Qed.
End bindings.

(** ** Registrations and roles *)

Section registrations.
Context {K : Type} `{KReadLaws K Role} `{KReadLaws K ProtectedResource} `{StatusConditions}.
Context (r : RoleReconciler).
Implicit Types (k : K) (role : Role) (pr : ProtectedResource).

Lemma reads_isRoleAffected role pr : reads (isRoleAffectedByProtectedResource (K := K) r role pr).
Proof.
  unfold isRoleAffectedByProtectedResource. apply reads_bind; [apply reads_getAll|].
  intros result. case_match; [apply reads_throw|apply reads_mret].
Qed.

(** Of a role that is not requeued, no permission is of the registration's
    resource. *)
Lemma not_requeued k pr role key reqs ps us V p :
  (enqueueRequestsForProtectedResourceChange r pr k).1 = Ok reqs → is_ok (k_List (T := Role) k).1 = true →
  k_view k !! key = Some role → role_key role ∉ reqs →
  (getAllEffectivePermissions (rr_fuel r) role ∅ k).1 = Ok (ps, us, V) → p ∈ ps → (Parse p).2 = true →
  permissions_Defined (pr_Spec pr) (Parse p).1 true = false.
Proof.
  intros E HL Hrole Hout HG Hp HP. destruct (permissions_Defined _ _ _) eqn:HD; [exfalso; apply Hout|done].
  apply permissions_Defined_iff in HD as (Eg & Er & _).
  assert (wf_permission (Parse p).1) as (Wg & _ & (Wr & _) & _).
  { apply (Parse_accepts_exactly p). by destruct (Parse p) as [q []]. }
  apply bind_fst_reads in E as (roles & Hroles%try_fst & E); [|solve_reads].
  destruct roles as [roles|e]; [|by rewrite Hroles in HL].
  apply append_loopM_reads in E as [HA HB].
  2: { intros x. apply reads_bind; [apply reads_try, reads_isRoleAffected|]. intros a. apply reads_mret. }
  apply HB. exists role, [role_key role].
  assert (role ∈ roles) as Hin.
  { rewrite (k_List_Ok _ _ Hroles), elem_of_map. exists (key, role). split; [by apply elem_of_map_to_list|done]. }
  split_and!; [done| |by apply list_elem_of_singleton].
  apply bind_fst_reads; [apply reads_try, reads_isRoleAffected|]. exists (inl true). split; [|done].
  apply try_fst. unfold isRoleAffectedByProtectedResource. apply bind_fst_reads; [apply reads_getAll|].
  exists (ps, us, V). split; [done|]. rewrite <- Eg, <- Er.
  apply String.eqb_neq in Wg, Wr. rewrite Wg, Wr. simpl. unfold mret, M_ret. simpl. do 2 f_equal.
  apply existsb_elem. exists p. rewrite elem_of_elements. split; [done|].
  destruct (Parse p) as [q b]. simpl in *. subst b. by rewrite Eg, Er, !String.eqb_refl.
Qed.

(** [validateRolePermissions] looks at each permission by itself. *)
Lemma validate_ext prs1 prs2 eff :
  (∀ p, p ∈ eff → (Parse p).2 = true → permission_defined prs1 (Parse p).1 = permission_defined prs2 (Parse p).1) →
  validateRolePermissions prs1 eff = validateRolePermissions prs2 eff.
Proof.
  intros HE. unfold validateRolePermissions. f_equal. apply list_omap_ext.
  induction eff as [|p eff IH]; constructor; [|apply IH; intros q Hq; apply HE; by right].
  specialize (HE p ltac:(left)). destruct (Parse p) as [q []]; [|done]. simpl in *. by rewrite HE.
Qed.

(** A registration's change leaves the validation of a role that it requeues for
    neither the old nor the new object. *)
Lemma registration_keeps_validation name k1 k2 key role ps us V prs1 prs2
  (Hedit : ∀ other, other ≠ name → k_view (T := ProtectedResource) k1 !! other = k_view k2 !! other)
  (Hlist : is_ok (k_List (T := Role) k2).1 = true) (Hrole : k_view k2 !! key = Some role)
  (Hout : ∀ pr, k_view k1 !! name = Some pr ∨ k_view k2 !! name = Some pr →
     ∃ reqs, (enqueueRequestsForProtectedResourceChange r pr k2).1 = Ok reqs ∧ role_key role ∉ reqs)
  (Heffective : (getAllEffectivePermissions (rr_fuel r) role ∅ k2).1 = Ok (ps, us, V))
  (Hbefore : (k_List k1).1 = Ok prs1) (Hafter : (k_List k2).1 = Ok prs2) :
  validateRolePermissions prs1 (sort_Strings (elements ps)) = validateRolePermissions prs2 (sort_Strings (elements ps)).
Proof.
  apply validate_ext. intros p Hp%elem_of_sort_Strings%elem_of_elements HP.
  assert (∀ pr, k_view k1 !! name = Some pr ∨ k_view k2 !! name = Some pr →
    permissions_Defined (pr_Spec pr) (Parse p).1 true = false) as HN.
  { intros pr Hpr. destruct (Hout pr Hpr) as (reqs & E & Hin). by eapply not_requeued. }
  assert (∀ k k' prs prs', (k_List k).1 = Ok prs → (k_List k').1 = Ok prs' →
    (∀ other, other ≠ name → k_view (T := ProtectedResource) k !! other = k_view k' !! other) →
    (∀ pr, k_view k !! name = Some pr → permissions_Defined (pr_Spec pr) (Parse p).1 true = false) →
    permission_defined prs (Parse p).1 = true → permission_defined prs' (Parse p).1 = true) as Hdir.
  { intros k k' prs prs' HL HL' HS HF. unfold permission_defined. rewrite !existsb_elem. intros (pr & Hpr & Hd).
    exists pr. split; [|done]. rewrite (k_List_Ok _ _ HL), elem_of_map in Hpr. destruct Hpr as ([other x] & Hx & ->).
    apply elem_of_map_to_list in Hx. rewrite (k_List_Ok _ _ HL'), elem_of_map. exists (other, x). split; [|done].
    apply elem_of_map_to_list. destruct (decide (other = name)) as [->|Hne]; [|by rewrite <- HS].
    simpl in Hd. rewrite (HF x Hx) in Hd. by case_match. }
  apply eq_true_iff_eq. split; [eapply (Hdir k1 k2)|eapply (Hdir k2 k1)]; eauto using eq_sym.
Qed.
End registrations.

(** ** Examples: an auditor's permissions change *)

Definition ex_settled (name : string) (perms parents effective : list string) : Role :=
  role_with_status (ex_inherits name perms parents) (mkRoleStatus effective 1 []).
Definition ex_wake_roles (verb : string) : list Role :=
  let p := "rm/projects." +:+ verb in
  [ex_settled "auditor" [p] [] [p]; ex_settled "editor" ["rm/projects.update"] ["auditor"] [p; "rm/projects.update"];
   ex_settled "viewer" ["rm/projects.watch"] [] ["rm/projects.watch"]].
Definition ex_wake_k8s (verb : string) : RefK8s :=
  mkRefK8s (by_key role_Meta (ex_wake_roles verb))
    (by_key pb_Meta [ex_binding "edits" "editor" [ex_alice]; ex_binding "views" "viewer" [ex_alice]])
    (by_key pr_Meta ex_prs) ∅ ∅ None.
Definition ex_wake_world (verb : string) : World RefStore RefK8s := mkWorld (mkRefStore ∅ [] 1 None) (ex_wake_k8s verb) None.

(** The status of each role, compared with the walk's result. *)
Definition settled_test (k : RefK8s) : bool :=
  forallb (λ kr, match (getAllEffectivePermissions 9 kr.2 ∅ k).1 with
    | Ok (ps, _, _) => bool_decide ((list_to_set (rst_EffectivePermissions (role_Status kr.2)) : gset string) = ps)
    | _ => false
    end) (map_to_list (rk_roles k)).

Lemma settled_test_ok k : roles_keyed k → settled_test k = true → roles_settled k.
Proof.
  intros Hk. unfold settled_test. rewrite forallb_forall. intros HT key role Hr _ p.
  specialize (HT (key, role) (proj1 (list_elem_of_In _ _) (proj2 (elem_of_map_to_list _ _ _) Hr))). cbn [fst snd] in HT.
  destruct (Hk _ _ Hr) as [<- _].
  destruct (getAllEffectivePermissions 9 role ∅ k) as [o k'] eqn:E. cbn [fst] in HT.
  destruct o as [[[ps us] V]| |]; [|discriminate HT..]. apply bool_decide_eq_true in HT.
  destruct (effective_aux k Hk _ _ _ _ _ _ Hr E) as (_ & HP & _). by rewrite <- HP, <- HT, elem_of_list_to_set.
Qed.

Lemma ref_roles_answered k : rk_down k = None → roles_answered k.
Proof.
  intros Hd key e. unfold k_Get, ref_Role_client, ref_client, ref_answer. simpl. rewrite Hd. simpl.
  case_match; [done|]. intros [= <-]. reflexivity.
Qed.

Lemma ref_lists_answered k : rk_down k = None → lists_answered k.
Proof.
  intros Hd. unfold lists_answered, k_List, k_ListField, ref_Role_client, ref_PB_client, ref_client, ref_answer. simpl.
  rewrite Hd. done.
Qed.

Definition ex_changed_role : Role := ex_settled "auditor" ["rm/projects.list"] [] ["rm/projects.list"].

Lemma ex_wake_edit : role_edit (role_key ex_changed_role) (ex_wake_k8s "get") (ex_wake_k8s "list").
Proof.
  intros key Hne. unfold k_view, ref_Role_laws, ref_laws. simpl. unfold by_key. simpl.
  rewrite !lookup_insert, lookup_empty. repeat case_decide; try constructor; by subst.
Qed.

(** ** Registrations and bindings

    With subresources, a changed registration requeues every binding. Without, it
    requeues those that name its kind alone, and a binding on a parent keeps what
    the registration no longer defines. *)

Definition ex_org_target : ResourceSelector := mkSelector (Some (mkResourceRef "rm" "Organization" "o1" "uid-o1" "")) None.
Definition ex_org_binding : PolicyBinding :=
  mkPB (ex_meta "default" "lists") (mkPBSpec (mkRoleRef "viewer" "iam") [ex_alice] ex_org_target) (mkPBStatus 0 []).
Definition ex_fewer_verbs : ProtectedResource :=
  mkPR (ex_meta "" "projects") (mkPRSpec "rm" "Project" "projects" ["get"] [] [mkParentRef "rm" "Organization"]) (mkPRStatus 0 []).
Definition ex_org_world (projects : ProtectedResource) : World RefStore RefK8s :=
  mkWorld (mkRefStore ∅ [] 1 None)
    (mkRefK8s (by_key role_Meta [ex_viewer]) (by_key pb_Meta [ex_org_binding])
       (by_key pr_Meta [List.hd projects ex_prs; projects]) ∅ ∅ None) None.

(** The relations the binding's tuples have. *)
Definition org_relations (w : World RefStore RefK8s) : outcome (list string) :=
  ((valid ← getHierarchicalPermissionsForSelector ex_reconciler ex_org_target;
   role ← fetchRole ex_reconciler ex_org_binding;
   ts ← lift (buildPermissionTuples false ex_org_binding role "rm/Organization:o1" valid);
   mret (map Relation ts)) w).1.

Lemma registration_change_misses_parents :
  let before := ex_org_world (List.nth 1 ex_prs ex_fewer_verbs) in
  let after := ex_org_world ex_fewer_verbs in
  (org_relations before = Ok [hashPermission "rm/projects.get"; hashPermission "rm/projects.list"]) ∧
  (org_relations after = Ok [hashPermission "rm/projects.get"]) ∧
  (enqueuePolicyBindingsForProtectedResourceChange (mkPBReconciler false "store" 10) ex_fewer_verbs (w_k8s after)).1 = Ok [] ∧
  (enqueuePolicyBindingsForProtectedResourceChange (mkPBReconciler true "store" 10) ex_fewer_verbs (w_k8s after)).1
    = Ok [pb_request ex_org_binding].
Proof. split_and!; vm_compute; reflexivity. Qed.
