(* ===== verification/Setup.v ===== *)
(** * What each controller is registered to watch

    The [SetupWithManager] methods of internal/controller: the indexes, finalizers,
    watches, predicates and options each reconciler registers with its manager. The
    informers' events, and the parts of controller-runtime's builder the code names,
    are data here; what the library does with them is the interface below. *)

From S2P Require Import Prelude GoStrings GoErr RateLimiter Types Constants World Fga Tuples Indexes RoleGraph ControllerEnv TargetHold.
From S2P Require Import ResourceOwnerHierarchy GroupMembership SystemGroup AuthModel AuthModelController RoleController.
From S2P Require Import PolicyBindingController.
Local Open Scope Z_scope.

(** ** Events *)

(** [client.Object], by its type; of the kinds known by their metadata, the
    metadata. *)
Inductive object :=
| ObjRole (x : Role) | ObjPolicyBinding (x : PolicyBinding) | ObjProtectedResource (x : ProtectedResource)
| ObjGroupMembership (x : GroupMembership)
| ObjUser (m : ObjectMeta) | ObjGroup (m : ObjectMeta) | ObjServiceAccount (m : ObjectMeta)
| ObjProject (m : ObjectMeta) | ObjOrganization (m : ObjectMeta).

Inductive kind :=
| KindRole | KindPolicyBinding | KindProtectedResource | KindGroupMembership
| KindUser | KindGroup | KindServiceAccount | KindProject | KindOrganization.

#[export] Instance kind_eq_dec : EqDecision kind.
Proof. solve_decision. Defined.

Definition object_kind (x : object) : kind :=
  match x with
  | ObjRole _ => KindRole | ObjPolicyBinding _ => KindPolicyBinding | ObjProtectedResource _ => KindProtectedResource
  | ObjGroupMembership _ => KindGroupMembership | ObjUser _ => KindUser | ObjGroup _ => KindGroup
  | ObjServiceAccount _ => KindServiceAccount | ObjProject _ => KindProject | ObjOrganization _ => KindOrganization
  end.

Definition object_meta (x : object) : ObjectMeta :=
  match x with
  | ObjRole x => role_Meta x | ObjPolicyBinding x => pb_Meta x | ObjProtectedResource x => pr_Meta x
  | ObjGroupMembership x => gm_Meta x
  | ObjUser m | ObjGroup m | ObjServiceAccount m | ObjProject m | ObjOrganization m => m
  end.

(** [event.CreateEvent] and the others; an informer's events have their objects. *)
Inductive event :=
| CreateEvent (Object : object) (IsInInitialList : bool)
| UpdateEvent (ObjectOld ObjectNew : object)
| DeleteEvent (Object : object) (DeleteStateUnknown : bool)
| GenericEvent (Object : object).

(** The objects a map function is run on: both of an update's. *)
Definition event_objects (e : event) : list object :=
  match e with
  | CreateEvent x _ | DeleteEvent x _ | GenericEvent x => [x]
  | UpdateEvent old new => [old; new]
  end.

Definition as_protected_resource (x : object) : option ProtectedResource :=
  match x with ObjProtectedResource pr => Some pr | _ => None end.

(** [protectedResourceEventPredicate]; the functions it leaves out admit. *)
Definition protectedResourceEventPredicate (e : event) : bool :=
  match e with
  | CreateEvent x initial => predicate_CreateFunc (as_protected_resource x) initial
  | UpdateEvent old new => predicate_UpdateFunc (as_protected_resource old) (as_protected_resource new)
  | _ => true
  end.

Definition projectPredicate (e : event) : bool :=
  match e with
  | CreateEvent _ _ | GenericEvent _ => true
  | UpdateEvent old new => projectUpdateMatters (Some (object_meta old)) (Some (object_meta new))
  | DeleteEvent x unknown => projectDeleteMatters (Some (object_meta x)) unknown
  end.

(** [predicate.GenerationChangedPredicate]: skips updates that leave the generation. *)
Class GenerationChanged := GenerationChangedPredicate : event → bool.
Class GenerationChangedLaws `{GenerationChanged} := {
  generation_update old new :
    GenerationChangedPredicate (UpdateEvent old new) =
      negb (om_Generation (object_meta new) =? om_Generation (object_meta old));
  generation_other e : (∀ old new, e ≠ UpdateEvent old new) → GenerationChangedPredicate e = true
}.

(** ** The builder *)

(** [controller.Options]. *)
Record Options := mkOptions {
  MaxConcurrentReconciles : Z;
  RateLimiter : option (TypedRateLimiter NamespacedName);
  UsePriorityQueue : option bool
}.
Definition no_options : Options := mkOptions 0 None None.

Section builder.
Context {K : Type}.

(** [Watches] with [EnqueueRequestsFromMapFunc]. *)
Record watch := mkWatch {
  w_kind : kind;
  w_map : object → M K (list NamespacedName);
  w_predicates : list (event → bool)
}.

(** What [NewControllerManagedBy] collects until [Complete]. *)
Record controller := mkController {
  c_For : kind;
  c_predicates : list (event → bool);
  c_watches : list watch;
  c_startup : list NamespacedName → list NamespacedName;
  c_options : Options;
  c_Named : string
}.
End builder.
Arguments watch : clear implicits.
Arguments controller : clear implicits.

Definition no_startup (queue : list NamespacedName) : list NamespacedName := queue.

(** ** The controllers *)

Section setup.
Context {K S : Type} `{KClient K Role} `{KClient K PolicyBinding} `{KClient K ProtectedResource}
  `{KClient K GroupMembership} `{Rand S} `{DefaultRateLimiter} `{GenerationChanged}
  `{StatusConditions}.

(** [newJitteredRateLimiter[ctrl.Request]()] with the other options of the busy
    controllers. *)
Definition busy_options (max : Z) : Options :=
  mkOptions max (Some (newJitteredRateLimiter (S := S) NamespacedName)) enablePriorityQueue.

(** *** PolicyBindings *)

Definition defaultPolicyBindingMaxConcurrentReconciles : Z := 8.
Definition policyBindingMaxConcurrentReconciles (MaxConcurrentReconciles : Z) : Z :=
  if 0 <? MaxConcurrentReconciles then MaxConcurrentReconciles else defaultPolicyBindingMaxConcurrentReconciles.

Definition of_policy_binding (f : PolicyBinding → list string) (x : object) : list string :=
  match x with ObjPolicyBinding pb => f pb | _ => [] end.
Definition of_protected_resource (f : ProtectedResource → list string) (x : object) : list string :=
  match x with ObjProtectedResource pr => f pr | _ => [] end.

(** The map functions' type assertions. *)
Definition map_ProtectedResource (f : ProtectedResource → M K (list NamespacedName)) (x : object) : M K (list NamespacedName) :=
  match x with ObjProtectedResource pr => f pr | _ => mret [] end.
Definition map_Role (f : Role → M K (list NamespacedName)) (x : object) : M K (list NamespacedName) :=
  match x with ObjRole role => f role | _ => mret [] end.

Definition policybinding_controller (r : PolicyBindingReconciler) (max : Z) : controller K :=
  mkController KindPolicyBinding [GenerationChangedPredicate]
    [mkWatch KindProtectedResource (map_ProtectedResource (enqueuePolicyBindingsForProtectedResourceChange r))
       [GenerationChangedPredicate];
     mkWatch KindRole (map_Role enqueuePolicyBindingsForRoleChange) []]
    no_startup (busy_options (policyBindingMaxConcurrentReconciles max)) "policybinding".

(** *** Roles *)

Definition defaultRoleMaxConcurrentReconciles : Z := 20.
Definition role_maxConcurrentReconciles (MaxConcurrentReconciles : Z) : Z :=
  if 0 <? MaxConcurrentReconciles then MaxConcurrentReconciles else defaultRoleMaxConcurrentReconciles.

(** The keys, in the order the Go map gives them. *)
Definition inherited_role_requests (role : Role) : M K (list NamespacedName) :=
  keys ← enqueueRequestsForInheritedRoleChange role;
  mret (elements keys).

Definition role_controller (r : RoleReconciler) (max : Z) : controller K :=
  mkController KindRole [GenerationChangedPredicate]
    [mkWatch KindProtectedResource (map_ProtectedResource (RoleController.enqueueRequestsForProtectedResourceChange r))
       [GenerationChangedPredicate];
     mkWatch KindRole (map_Role inherited_role_requests) [GenerationChangedPredicate]]
    no_startup (busy_options (role_maxConcurrentReconciles max)) "role".

(** *** Group memberships *)

Definition defaultGroupMembershipMaxConcurrentReconciles : Z := 20.
Definition membership_maxConcurrentReconciles (MaxConcurrentReconciles : Z) : Z :=
  if 0 <? MaxConcurrentReconciles then MaxConcurrentReconciles else defaultGroupMembershipMaxConcurrentReconciles.

Definition of_membership (f : GroupMembership → list string) (x : object) : list string :=
  match x with ObjGroupMembership gm => f gm | _ => [] end.
Definition map_User (f : ObjectMeta → M K (list NamespacedName)) (x : object) : M K (list NamespacedName) :=
  match x with ObjUser m => f m | _ => mret [] end.
Definition map_Group (f : ObjectMeta → M K (list NamespacedName)) (x : object) : M K (list NamespacedName) :=
  match x with ObjGroup m => f m | _ => mret [] end.

Definition membership_controller (max : Z) : controller K :=
  mkController KindGroupMembership [GenerationChangedPredicate]
    [mkWatch KindUser (map_User enqueueGroupMembershipsForUserChange) [GenerationChangedPredicate];
     mkWatch KindGroup (map_Group enqueueGroupMembershipsForGroupChange) [GenerationChangedPredicate]]
    no_startup (busy_options (membership_maxConcurrentReconciles max)) "groupmembership".

(** *** ProtectedResources *)

Definition authorizationmodel_controller : controller K :=
  mkController KindProtectedResource [protectedResourceEventPredicate] [] authorizationModelStartupSource
    (mkOptions 1 None None) "authorizationmodel_controller".

(** *** Projects and Organizations *)

Definition project_controller : controller K :=
  mkController KindProject [projectPredicate] [] no_startup no_options "resourceownerhierarchy-controller".

Definition organization_controller : controller K :=
  mkController KindOrganization [] [] no_startup no_options "organization-controller".

(** *** Users and service accounts *)

Definition systemGroupMaxConcurrentReconciles : Z := 1.

Definition systemgroup_user_controller : controller K :=
  mkController KindUser [GenerationChangedPredicate] [] no_startup (busy_options systemGroupMaxConcurrentReconciles) "systemgroup_user".
Definition systemgroup_serviceaccount_controller : controller K :=
  mkController KindServiceAccount [GenerationChangedPredicate] [] no_startup (busy_options systemGroupMaxConcurrentReconciles)
    "systemgroup_serviceaccount".
End setup.

