(* ===== verification/SetupSpec.v ===== *)
(** * Which reconciles an event wakes

    The controllers recompute nothing on their own: what one object's change makes
    stale in another is repaired only by the requests the watches registered in
    Setup.v turn the event into. Nothing an event makes stale is left asleep. *)

From S2P Require Import Prelude GoStrings GoErr RateLimiter Types Constants Permissions Hash ResourceGraph ResourceGraphSpec World Fga Tuples Indexes.
From S2P Require Import RoleGraph RoleGraphFacts RoleGraphSpec PolicyReconciler PolicyReconcilerFacts ControllerEnv.
From S2P Require Import TargetHold ResourceOwnerHierarchy ResourceOwnerHierarchySpec GroupMembership AuthModelController RoleController RoleControllerSpec.
From S2P Require Import PolicyBindingController WakeUps Setup RefK8s RefObjects PolicyReconcilerSpec GroupMembershipSpec.
Local Open Scope Z_scope.

(** ** Delivery *)

(** What controller-runtime does with a controller's watches: the requests an event
    adds to its queue, in the state [k] the map functions read. *)
Class Delivery (K : Type) := enqueued : controller K → event → K → list NamespacedName.

Definition admits (ps : list (event → bool)) (e : event) : bool := forallb (λ p, p e) ps.

Class DeliveryLaws (K : Type) `{Delivery K} := enqueued_iff c e k req :
  req ∈ enqueued c e k ↔
  (∃ x, last (event_objects e) = Some x ∧ object_kind x = c_For c ∧ admits (c_predicates c) e = true ∧
     req = key_of (object_meta x)) ∨
  (∃ w x reqs, w ∈ c_watches c ∧ x ∈ event_objects e ∧ object_kind x = w_kind w ∧ admits (w_predicates w) e = true ∧
     (w_map w x k).1 = Ok reqs ∧ req ∈ reqs).

(** What the event says of an object: it was [old] and is [new]. *)
Definition event_of (e : event) (old new : option object) : Prop :=
  match e with
  | CreateEvent x _ => old = None ∧ new = Some x
  | UpdateEvent x y => old = Some x ∧ new = Some y
  | DeleteEvent x _ => old = Some x ∧ new = None
  | GenericEvent _ => False
  end.

Lemma event_of_objects e old new x : event_of e old new → old = Some x ∨ new = Some x → x ∈ event_objects e.
Proof. destruct e; simpl; intros Hev; set_solver. Qed.

Lemma event_of_some e old new : event_of e old new → ∃ x, x ∈ event_objects e ∧ (old = Some x ∨ new = Some x).
Proof.
  destruct e as [x i|x y|x u|x]; simpl; [..|done]; intros [-> ->];
    [exists x|exists x|exists x]; (split; [set_solver|]); eauto.
Qed.

Section events.
Context {K S : Type} `{KReadLaws K Role} `{KReadLaws K PolicyBinding} `{KReadLaws K ProtectedResource}
  `{Rand S} `{DefaultRateLimiter} `{GenerationChangedLaws} `{DeliveryLaws K} `{StatusConditions}.
Implicit Types (k : K) (role : Role) (pr : ProtectedResource) (e : event).

(** One Role changed as the event says, and no other Role and no ProtectedResource.
    The API server counts a generation up with the spec. *)
Definition role_event e k1 k2 : Prop :=
  ∃ changed, event_of e (ObjRole <$> k_view k1 !! changed) (ObjRole <$> k_view k2 !! changed) ∧
    (∀ key, key ≠ changed → k_view (T := Role) k1 !! key = k_view k2 !! key) ∧
    k_view (T := ProtectedResource) k1 = k_view k2 ∧
    ∀ old new, k_view k1 !! changed = Some old → k_view k2 !! changed = Some new →
      om_Generation (role_Meta new) = om_Generation (role_Meta old) → role_Spec new = role_Spec old.

(** One ProtectedResource did. The generation goes up with the deletion too. *)
Definition registration_event e k1 k2 : Prop :=
  ∃ changed, event_of e (ObjProtectedResource <$> k_view k1 !! changed) (ObjProtectedResource <$> k_view k2 !! changed) ∧
    (∀ key, key ≠ changed → k_view (T := ProtectedResource) k1 !! key = k_view k2 !! key) ∧
    k_view (T := Role) k1 = k_view k2 ∧
    ∀ old new, k_view k1 !! changed = Some old → k_view k2 !! changed = Some new →
      om_Generation (pr_Meta new) = om_Generation (pr_Meta old) →
      pr_Spec new = pr_Spec old ∧ om_DeletionTimestamp (pr_Meta new) = om_DeletionTimestamp (pr_Meta old).

(** An update the predicate drops leaves the registration as the code sees it. *)
Definition registers_same pr1 pr2 : Prop :=
  pr_Spec pr1 = pr_Spec pr2 ∧ om_DeletionTimestamp (pr_Meta pr1) = om_DeletionTimestamp (pr_Meta pr2).

Lemma generation_dropped e : GenerationChangedPredicate e = false →
  ∃ old new, e = UpdateEvent old new ∧ om_Generation (object_meta new) = om_Generation (object_meta old).
Proof.
  intros E. destruct e as [| old new | |]; try (by rewrite generation_other in E).
  rewrite generation_update in E. exists old, new. split; [done|].
  by apply negb_false_iff, Z.eqb_eq in E.
Qed.

Lemma registration_dropped e k1 k2 :
  registration_event e k1 k2 → GenerationChangedPredicate e = false →
  map_relation (λ _, registers_same) (λ _ _, False) (λ _ _, False) (k_view (T := ProtectedResource) k1) (k_view k2).
Proof.
  intros (changed & Hev & Hother & _ & Hgen) (old & new & -> & Eg)%generation_dropped key. simpl in Hev.
  destruct Hev as [Ho Hn]. apply fmap_Some in Ho as (pr1 & Ho & ->). apply fmap_Some in Hn as (pr2 & Hn & ->).
  destruct (decide (key = changed)) as [->|Hne].
  - rewrite Ho, Hn. simpl. by destruct (Hgen pr1 pr2 Ho Hn Eg).
  - rewrite (Hother key Hne). by destruct (k_view k2 !! key).
Qed.

(** *** Registrations the code does not tell apart *)

(** The parts of a registration that the graph and the validation read. *)
Definition skeleton pr : ProtectedResource :=
  mkPR (mkObjectMeta "" "" "" 0 (om_DeletionTimestamp (pr_Meta pr)) [] []) (pr_Spec pr) (mkPRStatus 0 []).

Lemma getResourceGraph_skeleton prs en : getResourceGraph (map skeleton prs) en = getResourceGraph prs en.
Proof.
  assert (graph_tables (map skeleton prs) = graph_tables prs) as E.
  { unfold graph_tables. do 2 f_equal; [|f_equal|]; generalize (mkGraphState [] ∅ ∅); induction prs as [|pr prs IH];
      intros st; try done; simpl; apply IH. }
  unfold getResourceGraph. rewrite E. by destruct prs.
Qed.

Lemma permission_defined_skeleton prs p : permission_defined (map skeleton prs) p = permission_defined prs p.
Proof. unfold permission_defined. by induction prs as [|pr prs IH]; simpl; [|rewrite IH]. Qed.

Lemma live_types_skeleton prs : live_types (map skeleton prs) = live_types prs.
Proof. unfold live_types, live. induction prs as [|pr prs IH]; [done|]. simpl. case_match; simpl; by rewrite IH. Qed.

Lemma permission_defined_perm prs1 prs2 p :
  map skeleton prs1 ≡ₚ map skeleton prs2 → permission_defined prs1 p = permission_defined prs2 p.
Proof.
  rewrite <- (permission_defined_skeleton prs1), <- (permission_defined_skeleton prs2). intros HP.
  unfold permission_defined. apply eq_true_iff_eq. rewrite !existsb_elem. by setoid_rewrite HP.
Qed.

(** Registrations that are the same to the code, listed in any order. *)
Lemma lists_skeleton k1 k2 prs1 prs2 :
  map_relation (λ _, registers_same) (λ _ _, False) (λ _ _, False) (k_view (T := ProtectedResource) k1) (k_view k2) →
  (k_List k1).1 = Ok prs1 → (k_List k2).1 = Ok prs2 → map skeleton prs1 ≡ₚ map skeleton prs2.
Proof.
  intros HR ->%k_List_Ok%(fmap_Permutation skeleton) ->%k_List_Ok%(fmap_Permutation skeleton).
  assert (skeleton <$> k_view (T := ProtectedResource) k1 = skeleton <$> k_view k2) as E.
  { apply map_eq. intros key. specialize (HR key). rewrite !lookup_fmap.
    destruct (k_view k1 !! key) as [a|], (k_view k2 !! key) as [b|]; try done. simpl in HR |- *.
    destruct HR as [E1 E2]. unfold skeleton. by rewrite E1, E2. }
  change (map snd) with (fmap (M := list) (@snd NamespacedName ProtectedResource)).
  assert (∀ m : gmap NamespacedName ProtectedResource, skeleton <$> (snd <$> map_to_list m) = snd <$> map_to_list (skeleton <$> m)) as Em.
  { intros m. rewrite map_to_list_fmap, <- !list_fmap_compose. done. }
  by rewrite !Em, E.
Qed.

Lemma same_view k1 k2 :
  k_view (T := ProtectedResource) k1 = k_view k2 →
  map_relation (λ _, registers_same) (λ _ _, False) (λ _ _, False) (k_view (T := ProtectedResource) k1) (k_view k2).
Proof. intros -> key. by destruct (k_view k2 !! key). Qed.

(** *** Roles *)

(** The same roles, up to what inheritance does not read. *)
Definition roles_alike k1 k2 : Prop :=
  ∀ key, option_Forall2 (λ a b, role_key a = role_key b ∧ role_Spec a = role_Spec b) (k_view k1 !! key) (k_view k2 !! key).

#[local] Instance roles_alike_sym : Symmetric roles_alike.
Proof.
  intros k1 k2 HA key. specialize (HA key). destruct (k_view k1 !! key), (k_view k2 !! key); inversion HA as [? ? [E1 E2]|]; subst;
    constructor. by split.
Qed.

Lemma roles_alike_lookup k1 k2 key role2 :
  roles_alike k1 k2 → k_view k2 !! key = Some role2 →
  ∃ role1, k_view k1 !! key = Some role1 ∧ role_key role1 = role_key role2 ∧ role_Spec role1 = role_Spec role2.
Proof. intros HA E2. specialize (HA key). rewrite E2 in HA. inversion HA as [role1 r2 Hs E1|]; subst. eauto. Qed.

Lemma inherits_alike k1 k2 x y : roles_alike k1 k2 → inherits k1 x y ↔ inherits k2 x y.
Proof.
  assert (∀ k1 k2, roles_alike k1 k2 → inherits k2 x y → inherits k1 x y) as Hdir.
  { intros k k' HA (role & ref & Hr & Hin & <-).
    destruct (roles_alike_lookup _ _ _ _ HA Hr) as (role1 & Hr1 & Ek & Es). exists role1, ref.
    unfold inherited_key. unfold role_key, key_of in Ek. rewrite Es. injection Ek as -> _. done. }
  intros HA. split; apply Hdir; [by symmetry|done].
Qed.

Lemma reach_alike k1 k2 x y : roles_alike k1 k2 → rtc (inherits k1) x y ↔ rtc (inherits k2) x y.
Proof.
  intros HA. split; apply rtc_subrel; intros a b; by apply (inherits_alike _ _ a b HA).
Qed.

Lemma effective_alike k1 k2 fuel1 fuel2 role ps1 us1 V1 ps2 us2 V2 :
  roles_keyed k1 → roles_keyed k2 → roles_alike k1 k2 →
  k_view k1 !! role_key role = Some role → k_view k2 !! role_key role = Some role →
  (getAllEffectivePermissions fuel1 role ∅ k1).1 = Ok (ps1, us1, V1) →
  (getAllEffectivePermissions fuel2 role ∅ k2).1 = Ok (ps2, us2, V2) → ps1 = ps2 ∧ us1 ≡ₚ us2.
Proof.
  intros K1 K2 HA Hr1 Hr2 E1 E2.
  destruct (getAllEffectivePermissions fuel1 role ∅ k1) as [o1 k1'] eqn:G1. simpl in E1. subst o1.
  destruct (getAllEffectivePermissions fuel2 role ∅ k2) as [o2 k2'] eqn:G2. simpl in E2. subst o2.
  destruct (effective_aux k1 K1 _ _ _ _ _ _ Hr1 G1) as (_ & P1 & U1).
  destruct (effective_aux k2 K2 _ _ _ _ _ _ Hr2 G2) as (_ & P2 & U2).
  assert (∀ k k' p, roles_alike k k' → included_in k (rtc (inherits k) (role_key role)) p →
    included_in k' (rtc (inherits k') (role_key role)) p) as HI.
  { intros k k' p HA' (y & x & Hy & Hx & Hp). symmetry in HA'. destruct (roles_alike_lookup _ _ _ _ HA' Hx) as (x' & Hx' & _ & Es).
    exists y, x'. rewrite Es. split_and!; [|done..]. by apply (reach_alike _ _ _ _ HA'). }
  assert (∀ k k' u, roles_alike k k' → exists_role k u → exists_role k' u) as HX.
  { intros k k' u HA' [x Hx]. symmetry in HA'. destruct (roles_alike_lookup _ _ _ _ HA' Hx) as (x' & Hx' & _). by exists x'. }
  split.
  - apply set_eq. intros p. rewrite P1, P2. split; apply HI; [done|by symmetry].
  - apply NoDup_Permutation; [by eapply getAll_NoDup|by eapply getAll_NoDup|]. intros u. rewrite U1, U2, (reach_alike _ _ _ _ HA).
    split; intros [Hu Hn]; (split; [done|]); intros Hx; apply Hn; revert Hx; apply HX; [by symmetry|done].
Qed.

(** The map functions of a controller end on the event's objects, and find lists. *)
Definition maps_answer (c : controller K) e k : Prop :=
  ∀ w x, w ∈ c_watches c → x ∈ event_objects e → is_ok (w_map w x k).1 = true.

Lemma woken_by (c : controller K) e k w x reqs req :
  w ∈ c_watches c → x ∈ event_objects e → object_kind x = w_kind w → admits (w_predicates w) e = true →
  (w_map w x k).1 = Ok reqs → req ∈ reqs → req ∈ enqueued c e k.
Proof. intros. apply enqueued_iff. right. eauto 10. Qed.

Context (r : RoleReconciler) (max : Z).
Abbreviation role_c := (role_controller (S := S) r max : controller K).

Lemma role_event_permissions e k1 k2 role ps1 us1 V1 ps2 us2 V2 :
  roles_keyed k1 → roles_keyed k2 → role_event e k1 k2 → maps_answer role_c e k2 → is_ok (k_List (T := Role) k2).1 = true →
  k_view k1 !! role_key role = Some role → k_view k2 !! role_key role = Some role →
  role_key role ∉ enqueued role_c e k2 →
  (getAllEffectivePermissions (rr_fuel r) role ∅ k1).1 = Ok (ps1, us1, V1) →
  (getAllEffectivePermissions (rr_fuel r) role ∅ k2).1 = Ok (ps2, us2, V2) → ps1 = ps2 ∧ us1 ≡ₚ us2.
Proof.
  intros K1 K2 (changed & Hev & Hother & _ & Hgen) Hmaps HL Hr1 Hr2 Hout E1 E2.
  destruct (decide (role_key role = changed)) as [Ec|Hne].
  { assert (roles_alike k1 k2) as HA; [|by apply (effective_alike k1 k2 (rr_fuel r) (rr_fuel r) role ps1 us1 V1 ps2 us2 V2)].
    intros key. destruct (decide (key = changed)) as [->|Hn]; [rewrite <- Ec, Hr1, Hr2; by constructor|].
    rewrite Hother by done. destruct (k_view k2 !! key); by constructor. }
  destruct (GenerationChangedPredicate e) eqn:Eg.
  2: { apply generation_dropped in Eg as (old & new & -> & Eg). simpl in Hev. destruct Hev as [Ho Hn].
    apply fmap_Some in Ho as (a & Ha & ->). apply fmap_Some in Hn as (b & Hb & ->).
    apply (effective_alike k1 k2 (rr_fuel r) (rr_fuel r) role ps1 us1 V1 ps2 us2 V2); try done. intros key.
    destruct (decide (key = changed)) as [->|Hnk]; [|rewrite Hother by done; destruct (k_view k2 !! key); by constructor].
    rewrite Ha, Hb. constructor. destruct (K1 _ _ Ha) as [-> _], (K2 _ _ Hb) as [-> _]. split; [done|]. symmetry. by apply Hgen. }
  destruct (event_of_some _ _ _ Hev) as (x & Hx & Hobj).
  assert (∃ a, x = ObjRole a ∧ role_key a = changed) as (a & -> & Ea).
  { destruct Hobj as [Hobj|Hobj]; apply fmap_Some in Hobj as (a & Ha & ->); exists a; (split; [done|]);
      [by destruct (K1 _ _ Ha)|by destruct (K2 _ _ Ha)]. }
  set (w := mkWatch KindRole (map_Role inherited_role_requests) [GenerationChangedPredicate] : watch K).
  assert (w ∈ c_watches role_c) as Hw by (right; left).
  pose proof (Hmaps w _ Hw Hx) as Hok. destruct (w_map w (ObjRole a) k2).1 as [reqs|err|] eqn:Ew; [|done..].
  assert (role_key role ∉ reqs) as Hnr.
  { intros Hin. apply Hout. eapply (woken_by role_c e k2 w); try done. unfold admits. simpl. by rewrite Eg. }
  assert (∃ D, rolesDependentOnRole changed k2 = (Ok D, k2) ∧ role_key role ∉ D) as (D & HD & HnD).
  { destruct (dependents_aux k2 changed K2) as [(er & He)|(D & HD & HX)].
    { pose proof (rolesDependentOnRole_Err k2 changed er) as HE. rewrite He in HE. by rewrite HE in HL. }
    exists D. split; [done|]. simpl in Ew. unfold inherited_role_requests, enqueueRequestsForInheritedRoleChange in Ew.
    rewrite Ea in Ew. unfold mbind, M_bind, try in Ew. rewrite HD in Ew. simpl in Ew. injection Ew as <-.
    intros Hin. apply Hnr, elem_of_elements, elem_of_difference. split; [done|]. by rewrite elem_of_singleton. }
  by apply (unaffected_roles_keep_permissions k1 k2 changed D role (rr_fuel r) (rr_fuel r) ps1 us1 V1 ps2 us2 V2).
Qed.
(** A role that is not woken keeps its invalid permissions. *)
Lemma registration_event_validation e k1 k2 role prs1 prs2 ps us V :
  registration_event e k1 k2 → maps_answer role_c e k2 → is_ok (k_List (T := Role) k2).1 = true →
  k_view k2 !! role_key role = Some role → role_key role ∉ enqueued role_c e k2 →
  (getAllEffectivePermissions (rr_fuel r) role ∅ k2).1 = Ok (ps, us, V) →
  (k_List k1).1 = Ok prs1 → (k_List k2).1 = Ok prs2 →
  validateRolePermissions prs1 (sort_Strings (elements ps)) = validateRolePermissions prs2 (sort_Strings (elements ps)).
Proof.
  intros HE Hmaps HL Hr Hout HG L1 L2. destruct (GenerationChangedPredicate e) eqn:Eg.
  2: { pose proof (registration_dropped _ _ _ HE Eg) as HR. apply validate_ext. intros p _ _.
    by apply permission_defined_perm, (lists_skeleton k1 k2). }
  destruct HE as (changed & Hev & Hother & _).
  apply (registration_keeps_validation r changed k1 k2 (role_key role) role ps us V); try done.
  intros pr Hpr.
  assert (ObjProtectedResource pr ∈ event_objects e) as Hx
    by (apply (event_of_objects _ _ _ _ Hev); destruct Hpr as [->| ->]; simpl; auto).
  set (w := mkWatch KindProtectedResource (map_ProtectedResource (RoleController.enqueueRequestsForProtectedResourceChange r))
    [GenerationChangedPredicate] : watch K).
  assert (w ∈ c_watches role_c) as Hw by left.
  pose proof (Hmaps w _ Hw Hx) as Hok. simpl in Hok.
  destruct ((RoleController.enqueueRequestsForProtectedResourceChange r pr k2).1) as [reqs|err|] eqn:Ew; [|done..].
  exists reqs. split; [done|]. intros Hin. apply Hout. eapply (woken_by role_c e k2 w); try done.
  unfold admits. simpl. by rewrite Eg.
Qed.

(** C15: a role no event wakes needs no reconcile. When one Role or one
    ProtectedResource is created, edited or deleted, a Role the watches of
    [SetupWithManager] enqueue no request for, and that is itself as it was, would be
    given what it has: the same effective permissions, the same unresolved parents,
    the same invalid permissions. Events that the generation predicate drops are
    among them. *)
Theorem unwoken_role_unchanged e k1 k2 role ps1 us1 V1 ps2 us2 V2 prs1 prs2
  (Hkeyed1 : roles_keyed k1) (Hkeyed2 : roles_keyed k2) (Hevent : role_event e k1 k2 ∨ registration_event e k1 k2)
  (Hmaps : maps_answer role_c e k2) (Hlist : is_ok (k_List (T := Role) k2).1 = true)
  (Hrole1 : k_view k1 !! role_key role = Some role) (Hrole2 : k_view k2 !! role_key role = Some role)
  (Hasleep : role_key role ∉ enqueued role_c e k2)
  (Hbefore : (getAllEffectivePermissions (rr_fuel r) role ∅ k1).1 = Ok (ps1, us1, V1))
  (Hafter : (getAllEffectivePermissions (rr_fuel r) role ∅ k2).1 = Ok (ps2, us2, V2))
  (Hprs1 : (k_List k1).1 = Ok prs1) (Hprs2 : (k_List k2).1 = Ok prs2) :
  ps1 = ps2 ∧ us1 ≡ₚ us2 ∧
  validateRolePermissions prs1 (sort_Strings (elements ps1)) = validateRolePermissions prs2 (sort_Strings (elements ps2)).
Proof.
  assert (ps1 = ps2 ∧ us1 ≡ₚ us2) as [-> Hus].
  { destruct Hevent as [HE|HE]; [by apply (role_event_permissions e k1 k2 role ps1 us1 V1 ps2 us2 V2)|].
    destruct HE as (_ & _ & _ & Ev & _).
    apply (effective_alike k1 k2 (rr_fuel r) (rr_fuel r) role ps1 us1 V1 ps2 us2 V2); try done.
    intros key. rewrite Ev. destruct (k_view k2 !! key); by constructor. }
  split_and!; [done..|]. destruct Hevent as [(_ & _ & _ & Ev & _)|HE].
  - apply validate_ext. intros p _ _. by apply permission_defined_perm, (lists_skeleton k1 k2); [apply same_view|..].
  - by apply (registration_event_validation e k1 k2 role prs1 prs2 ps2 us2 V2).
Qed.
End events.

(** ** Bindings *)

Section bindings.
Context {F K S : Type} `{KReadLaws K Role} `{KReadLaws K PolicyBinding} `{KReadLaws K ProtectedResource}
  `{Rand S} `{DefaultRateLimiter} `{GenerationChangedLaws} `{DeliveryLaws K} `{ApiErrors} `{StatusConditions}.
Context (r : PolicyBindingReconciler) (max : Z) (p : PolicyReconciler F K).
Implicit Types (k : K) (w : World F K) (e : event) (binding : PolicyBinding).
Abbreviation binding_c := (policybinding_controller (S := S) r max : controller K).

(** One Role changed as the event says; the role controller may have settled the
    status of others since. *)
Definition settled_role_event e k1 k2 : Prop :=
  ∃ changed, event_of e (ObjRole <$> k_view k1 !! changed) (ObjRole <$> k_view k2 !! changed) ∧
    role_edit changed k1 k2 ∧ k_view (T := ProtectedResource) k1 = k_view k2.

(** The permissions a target's type has are those of the registrations' skeletons. *)
Lemma hierarchical_same w1 w2 sel valid1 valid2 prs :
  map_relation (λ _, registers_same) (λ _ _, False) (λ _ _, False)
    (k_view (T := ProtectedResource) (w_k8s w1)) (k_view (w_k8s w2)) →
  (k_List (w_k8s w1)).1 = Ok prs → NoDup (live_types prs) →
  (getHierarchicalPermissionsForSelector p sel w1).1 = Ok valid1 →
  (getHierarchicalPermissionsForSelector p sel w2).1 = Ok valid2 → valid1 = valid2.
Proof.
  intros HR HL HN E1 E2.
  assert (∀ w valid, (getHierarchicalPermissionsForSelector p sel w).1 = Ok valid →
    ∃ prs ak g, (k_List (w_k8s w)).1 = Ok prs ∧ selector_type sel = Ok ak ∧
      getResourceGraph prs (pr_EnableSubresourceAuthorization p) = Ok g ∧
      valid = permSetFor (calculateHierarchicalPermissions g) (ak.1 +:+ "/" +:+ ak.2)) as Hrun.
  { clear prs HL HN E1 E2. intros w valid E. unfold getHierarchicalPermissionsForSelector, wrapf in E.
    apply bind_fst_reads in E as (ak & Hak & E); [|solve_reads].
    apply bind_fst_reads in E as (prs & Hl & E); [|solve_reads]. apply map_err_fst in Hl. rewrite on_k8s_fst in Hl.
    apply bind_fst_reads in E as (g & Hg & E); [|solve_reads]. apply map_err_fst in Hg.
    injection E as <-. by exists prs, ak, g. }
  destruct (Hrun w1 _ E1) as (prs1 & ak & g1 & L1 & A & G1 & ->).
  destruct (Hrun w2 _ E2) as (prs2 & ak2 & g2 & L2 & A2 & G2 & ->).
  rewrite L1 in HL. injection HL as ->. rewrite A in A2. injection A2 as <-.
  enough (Ok g1 = Ok g2) as [= ->] by done. rewrite <- G1, <- G2.
  rewrite <- (getResourceGraph_skeleton prs), <- (getResourceGraph_skeleton prs2).
  apply getResourceGraph_perm; [by apply (lists_skeleton (w_k8s w1) (w_k8s w2))|by rewrite live_types_skeleton].
Qed.

(** With subresources, a registration's event wakes every binding, or is dropped. *)
Lemma registration_event_wakes e k1 k2 key binding :
  pbr_EnableSubresourceAuthorization r = true → registration_event e k1 k2 → is_ok (k_List (T := PolicyBinding) k2).1 = true →
  k_view k2 !! key = Some binding → pb_request binding ∉ enqueued binding_c e k2 → GenerationChangedPredicate e = false.
Proof.
  intros Hsub (changed & Hev & _) HL Hb Hout. destruct (GenerationChangedPredicate e) eqn:Eg; [exfalso; apply Hout|done].
  destruct (event_of_some _ _ _ Hev) as (x & Hx & Hobj).
  assert (∃ pr, x = ObjProtectedResource pr) as [pr ->]
    by (destruct Hobj as [Hobj|Hobj]; apply fmap_Some in Hobj as (pr & _ & ->); by exists pr).
  set (w := mkWatch KindProtectedResource (map_ProtectedResource (enqueuePolicyBindingsForProtectedResourceChange r))
    [GenerationChangedPredicate] : watch K).
  destruct ((k_List (T := PolicyBinding) k2).1) as [items|err|] eqn:El; [|done..].
  apply (woken_by binding_c e k2 w (ObjProtectedResource pr) (map pb_request items)); try done.
  - by left.
  - unfold admits. simpl. by rewrite Eg.
  - simpl. unfold enqueuePolicyBindingsForProtectedResourceChange. rewrite Hsub.
    apply bind_fst_reads; [solve_reads|]. exists (inl items). split; [by apply try_fst|done].
  - apply elem_of_map. exists binding. split; [|done]. rewrite (k_List_Ok _ _ El), elem_of_map.
    exists (key, binding). split; [by apply elem_of_map_to_list|done].
Qed.

(** A role's event wakes the bindings the map function names. *)
Lemma role_event_wakes e k1 k2 binding changed reqs a :
  event_of e (ObjRole <$> k_view k1 !! changed) (ObjRole <$> k_view k2 !! changed) →
  ObjRole a ∈ event_objects e → (enqueuePolicyBindingsForRoleChange a k2).1 = Ok reqs →
  pb_request binding ∉ enqueued binding_c e k2 → pb_request binding ∉ reqs.
Proof.
  intros Hev Hx Ew Hout Hin. apply Hout.
  apply (woken_by binding_c e k2 (mkWatch KindRole (map_Role enqueuePolicyBindingsForRoleChange) []) (ObjRole a) reqs); try done.
  by right; left.
Qed.

Lemma grants_same_views w1 w2 binding target valid t :
  roles_answered (w_k8s w1) → roles_answered (w_k8s w2) → k_view (T := Role) (w_k8s w1) = k_view (w_k8s w2) →
  grants p w1 binding target valid t ↔ grants p w2 binding target valid t.
Proof. intros A1 A2 E. unfold grants. setoid_rewrite fetchRole_iff; [|done..]. by rewrite E. Qed.

(** C14: a binding no event wakes needs no reconcile. When a Role is created, edited
    or deleted and the role controller has caught up, or when with subresources a
    ProtectedResource is, a binding that the watches of [SetupWithManager] enqueue no
    request for has the same valid permissions and is granted exactly the tuples it
    was granted before, inheritance included. *)
Theorem unwoken_binding_unchanged e w1 w2 key binding target prs1 valid1 valid2 t
  (Hevent : settled_role_event e (w_k8s w1) (w_k8s w2) ∧ roles_settled (w_k8s w1) ∧ roles_settled (w_k8s w2) ∨
            registration_event e (w_k8s w1) (w_k8s w2) ∧ pbr_EnableSubresourceAuthorization r = true)
  (Hkeyed1 : roles_keyed (w_k8s w1)) (Hkeyed2 : roles_keyed (w_k8s w2)) (Hindex : role_indexed (K := K))
  (Hlists : lists_answered (w_k8s w2)) (Hlist : is_ok (k_List (T := PolicyBinding) (w_k8s w2)).1 = true)
  (Hmaps : maps_answer binding_c e (w_k8s w2))
  (Hanswered1 : roles_answered (w_k8s w1)) (Hanswered2 : roles_answered (w_k8s w2))
  (Hbinding : k_view (w_k8s w2) !! key = Some binding) (Hasleep : pb_request binding ∉ enqueued binding_c e (w_k8s w2))
  (Hprs : (k_List (w_k8s w1)).1 = Ok prs1) (Htypes : NoDup (live_types prs1))
  (Hvalid1 : (getHierarchicalPermissionsForSelector p (pbs_ResourceSelector (pb_Spec binding)) w1).1 = Ok valid1)
  (Hvalid2 : (getHierarchicalPermissionsForSelector p (pbs_ResourceSelector (pb_Spec binding)) w2).1 = Ok valid2) :
  valid1 = valid2 ∧ (grants p w1 binding target valid1 t ↔ grants p w2 binding target valid2 t).
Proof.
  destruct Hevent as [((changed & Hev & Hedit & Eprs) & HS1 & HS2)|[Hreg Hsub]].
  - assert (valid1 = valid2) as <- by (eapply hierarchical_same; [by apply same_view|done..]). split; [done|].
    destruct (event_of_some _ _ _ Hev) as (x & Hx & Hobj).
    assert (∃ a, x = ObjRole a ∧ role_key a = changed) as (a & -> & <-).
    { destruct Hobj as [Hobj|Hobj]; apply fmap_Some in Hobj as (a & Ha & ->); exists a; (split; [done|]);
        [by destruct (Hkeyed1 _ _ Ha)|by destruct (Hkeyed2 _ _ Ha)]. }
    pose proof (Hmaps (mkWatch KindRole (map_Role enqueuePolicyBindingsForRoleChange) []) _ ltac:(by right; left) Hx) as Hok.
    simpl in Hok. destruct ((enqueuePolicyBindingsForRoleChange a (w_k8s w2)).1) as [reqs|err|] eqn:Ew; [|done..].
    apply (role_change_keeps_grants p a w1 w2 reqs key); try done. by eapply role_event_wakes.
  - pose proof (registration_event_wakes _ _ _ _ _ Hsub Hreg Hlist Hbinding Hasleep) as Eg.
    assert (valid1 = valid2) as <- by (eapply hierarchical_same; [by eapply registration_dropped|done..]). split; [done|].
    destruct Hreg as (_ & _ & _ & Ev & _). by apply grants_same_views.
Qed.
End bindings.

(** ** Memberships *)

Section memberships.
Context {K S : Type} `{KDynamicLaws K} `{IAMKinds} `{KReadLaws K GroupMembership}
  `{Rand S} `{DefaultRateLimiter} `{GenerationChangedLaws} `{DeliveryLaws K}.
Context (max : Z).
Implicit Types (k : K) (e : event) (gm : GroupMembership).
Abbreviation membership_c := (membership_controller (S := S) max : controller K).

(** One object of a kind changed as the event says. An update that leaves the
    generation is of the same object: it leaves the UID. *)
Definition reference_event (gvk : GroupVersionKind) (obj : ObjectMeta → object) e k1 k2 : Prop :=
  ∃ changed,
    event_of e ((λ x, obj (obj_Meta x)) <$> d_view k1 !! (gvk, changed)) ((λ x, obj (obj_Meta x)) <$> d_view k2 !! (gvk, changed)) ∧
    (∀ other, other ≠ (gvk, changed) → d_view k1 !! other = d_view k2 !! other) ∧
    ∀ old new, d_view k1 !! (gvk, changed) = Some old → d_view k2 !! (gvk, changed) = Some new →
      om_Generation (obj_Meta new) = om_Generation (obj_Meta old) → om_UID (obj_Meta new) = om_UID (obj_Meta old).

Definition membership_indexed : Prop := k_index (K := K) (T := GroupMembership) = GroupMembership_index.

(** The tuple the membership names, when its user and its group are there. *)
Definition named_tuple k gm : option TupleKey :=
  user ← d_view k !! (UserGVK, mkNN "" (gms_UserRef_Name (gm_Spec gm)));
  group ← d_view k !! (GroupGVK, groupKey (gm_Spec gm));
  Some (membership_tuple (membership_request user group)).

Lemma requests_for_elem field value k key gm :
  is_ok (k_ListField (T := GroupMembership) field value k).1 = true → membership_indexed →
  k_view k !! key = Some gm → value ∈ GroupMembership_index field gm →
  ∃ reqs, (requests_for (K := K) field value k).1 = Ok reqs ∧ key_of (gm_Meta gm) ∈ reqs.
Proof.
  intros HL HI Hv Hin. destruct ((k_ListField (T := GroupMembership) field value k).1) as [items|err|] eqn:El; [|done..].
  exists (map (λ gm, key_of (gm_Meta gm)) items). split.
  - apply bind_fst_reads; [solve_reads|]. exists (inl items). split; [by apply try_fst|done].
  - apply elem_of_map. exists gm. split; [|done]. apply (k_ListField_Ok _ _ _ _ El). rewrite HI. eauto.
Qed.

(** When an event wakes no membership that names an object, the object is as it was
    to them. *)
Definition identity (x : KObject) : string * string := (om_Name (obj_Meta x), om_UID (obj_Meta x)).

Lemma reference_asleep gvk obj field f (w : watch K) e k1 k2 key gm name :
  w ∈ c_watches membership_c → w_predicates w = [GenerationChangedPredicate] →
  (∀ m, object_kind (obj m) = w_kind w ∧ object_meta (obj m) = m ∧ w_map w (obj m) = requests_for field (f m)) →
  (∀ m, key_of m = name → f m ∈ GroupMembership_index field gm) → membership_indexed →
  (∀ v, is_ok (k_ListField (T := GroupMembership) field v k2).1 = true) → k_view k2 !! key = Some gm →
  reference_event gvk obj e k1 k2 → key_of (gm_Meta gm) ∉ enqueued membership_c e k2 →
  identity <$> d_view k1 !! (gvk, name) = identity <$> d_view k2 !! (gvk, name).
Proof.
  intros Hw Hpred Hmap Hf HI HL Hgm (changed & Hev & Hother & Hgen) Hout.
  destruct (decide (name = changed)) as [->|Hne]; [|by rewrite (Hother (gvk, name)) by congruence].
  assert (∀ k x, d_view k !! (gvk, changed) = Some x → key_of (obj_Meta x) = changed) as Hkey
    by (intros k x Hx; apply d_view_keyed in Hx; unfold obj_key in Hx; by injection Hx).
  destruct (GenerationChangedPredicate e) eqn:Eg.
  - destruct (event_of_some _ _ _ Hev) as (x & Hx & Hobj).
    assert (∃ m, x = obj m ∧ key_of m = changed) as (m & -> & Em)
      by (destruct Hobj as [Ho|Ho]; apply fmap_Some in Ho as (a & Ha & ->); eauto).
    destruct (requests_for_elem field (f m) k2 key gm) as (reqs & Er & Hin); [auto..|].
    destruct (Hmap m) as (Hkind & _ & Hwm). exfalso. apply Hout, (woken_by membership_c e k2 w (obj m) reqs); [done..| |by rewrite Hwm|done].
    unfold admits. rewrite Hpred. simpl. by rewrite Eg.
  - apply generation_dropped in Eg as (old & new & -> & Eg). destruct Hev as [Ho Hn].
    apply fmap_Some in Ho as (a & Ha & ->). apply fmap_Some in Hn as (b & Hb & ->).
    rewrite Ha, Hb. simpl. unfold identity. f_equal.
    pose proof (eq_trans (Hkey _ _ Ha) (eq_sym (Hkey _ _ Hb))) as Ek. unfold key_of in Ek. injection Ek as _ ->.
    f_equal. symmetry. apply (Hgen a b Ha Hb). by rewrite !(proj1 (proj2 (Hmap _))) in Eg.
Qed.

(** a membership no event wakes names what it named. When a User or a Group is
    created, edited or deleted, a GroupMembership in its group's own namespace that
    the watches of [SetupWithManager] enqueue no request for has its references as
    they were: to the same user and the same group, or to one that is missing still,
    so that its reconcile would write the same tuple. *)
Theorem unwoken_membership_unchanged e k1 k2 key gm
  (Hkinds : UserGVK ≠ GroupGVK) (Hindex : membership_indexed)
  (Hlists : ∀ field v, is_ok (k_ListField (T := GroupMembership) field v k2).1 = true)
  (Hevent : reference_event UserGVK ObjUser e k1 k2 ∨ reference_event GroupGVK ObjGroup e k1 k2)
  (Hgm : k_view k2 !! key = Some gm) (Hnamespace : om_Namespace (gm_Meta gm) = gms_GroupRef_Namespace (gm_Spec gm))
  (Hasleep : key_of (gm_Meta gm) ∉ enqueued membership_c e k2) :
  named_tuple k1 gm = named_tuple k2 gm.
Proof.
  assert (∀ k, named_tuple k gm =
    user ← identity <$> d_view k !! (UserGVK, mkNN "" (gms_UserRef_Name (gm_Spec gm)));
    group ← identity <$> d_view k !! (GroupGVK, groupKey (gm_Spec gm));
    Some (membership_tuple (mkMembershipRequest user.1 group.2))) as E
    by (intros k; unfold named_tuple; by destruct (d_view k !! _), (d_view k !! _)).
  rewrite !E. clear E. destruct Hevent as [HE|HE].
  - rewrite (reference_asleep UserGVK ObjUser groupMembershipUserRefIndexField om_Name
      (mkWatch KindUser (map_User enqueueGroupMembershipsForUserChange) [GenerationChangedPredicate]) e k1 k2 key gm
      (mkNN "" (gms_UserRef_Name (gm_Spec gm)))); try done.
    + destruct HE as (changed & _ & Ho & _). by rewrite (Ho (GroupGVK, groupKey (gm_Spec gm))) by congruence.
    + by left.
    + intros m Em. unfold key_of in Em. injection Em as _ ->. by left.
  - rewrite (reference_asleep GroupGVK ObjGroup groupMembershipGroupRefIndexField (λ m, om_Namespace m +:+ "/" +:+ om_Name m)
      (mkWatch KindGroup (map_Group enqueueGroupMembershipsForGroupChange) [GenerationChangedPredicate]) e k1 k2 key gm
      (groupKey (gm_Spec gm))); try done.
    + destruct HE as (changed & _ & Ho & _).
      by rewrite (Ho (UserGVK, mkNN "" (gms_UserRef_Name (gm_Spec gm)))) by congruence.
    + by right; left.
    + intros m Em. unfold key_of, groupKey in Em. injection Em as En ->. unfold GroupMembership_index.
      rewrite En, Hnamespace. simpl. rewrite String.eqb_refl. by left.
Qed.
End memberships.

(** ** Projects *)

Lemma NoDup_sub_perm {A} (l1 l2 : list A) : NoDup l1 → length l1 = length l2 → (∀ x, x ∈ l1 → x ∈ l2) → l1 ≡ₚ l2.
Proof.
  intros HN HL Hs. destruct (submseteq_Permutation l1 l2 (NoDup_submseteq _ _ HN Hs)) as [k Hk].
  assert (k = []) as -> by (apply length_zero_iff_nil; apply Permutation_length in Hk; rewrite length_app in Hk; lia).
  by rewrite (right_id_L [] (++)) in Hk.
Qed.

Lemma equalFinalizers_sound a b : NoDup b → equalFinalizers a b = true → a ≡ₚ b.
Proof.
  unfold equalFinalizers. rewrite andb_true_iff, Nat.eqb_eq, forallb_elem. intros HN [HL HA]. symmetry.
  apply NoDup_sub_perm; [done..|]. intros x Hx. specialize (HA x Hx). by apply bool_decide_eq_true, elem_of_list_to_set in HA.
Qed.

Lemma refs_by_uid_elem a u ref : refs_by_uid a !! u = Some ref → ref ∈ a ∧ or_UID ref = u.
Proof.
  unfold refs_by_uid. revert u ref.
  induction a as [|x a IH] using rev_ind; [by intros u ref|]. intros u ref. rewrite foldl_app. simpl.
  rewrite lookup_insert. case_decide as E; [intros [= ->]|intros HA%IH]; set_solver.
Qed.

Lemma equalOwnerReferences_sound a b : NoDup (map or_UID b) → equalOwnerReferences a b = true → a ≡ₚ b.
Proof.
  unfold equalOwnerReferences. rewrite andb_true_iff, Nat.eqb_eq, forallb_elem. intros HN [HL HA]. symmetry.
  apply NoDup_sub_perm; [by apply NoDup_fmap_1 in HN|done|]. intros x Hx. specialize (HA x Hx).
  destruct (refs_by_uid a !! or_UID x) as [y|] eqn:Ey; [|done]. apply refs_by_uid_elem in Ey as [Hy Eu].
  rewrite !andb_true_iff, !String.eqb_eq in HA. destruct HA as [[E1 E2] E3]. destruct x, y. simpl in *. by subst.
Qed.

Section projects.
Context {F K S : Type} `{ResourceManager} `{APIVersions} `{Rand S} `{DefaultRateLimiter} `{DeliveryLaws K}.
Implicit Types (k : K) (old new : ObjectMeta).

Lemma desired_perm resource1 resource2 valid child rel :
  om_OwnerReferences (obj_Meta resource1) ≡ₚ om_OwnerReferences (obj_Meta resource2) →
  determineDesiredParentTuplesForResource resource1 valid child rel =
  determineDesiredParentTuplesForResource resource2 valid child rel.
Proof.
  intros HP. apply map_eq. intros u. apply option_eq. intros t. rewrite !desired_lookup.
  unfold desired_parent. by setoid_rewrite HP.
Qed.

Lemma ContainsFinalizer_perm m1 m2 f :
  om_Finalizers m1 ≡ₚ om_Finalizers m2 → ContainsFinalizer m1 f = ContainsFinalizer m2 f.
Proof. intros HP. unfold ContainsFinalizer, str_in. apply eq_true_iff_eq. rewrite !existsb_elem. by setoid_rewrite HP. Qed.

(** A Project update the predicate does not admit. *)
Lemma projectUpdate_dropped old new :
  NoDup (map or_UID (om_OwnerReferences old)) → NoDup (om_Finalizers old) →
  projectUpdateMatters (Some old) (Some new) = false →
  om_Generation new = om_Generation old ∧ om_OwnerReferences new ≡ₚ om_OwnerReferences old ∧
  om_Finalizers new ≡ₚ om_Finalizers old ∧ (om_DeletionTimestamp new = None ↔ om_DeletionTimestamp old = None).
Proof.
  unfold projectUpdateMatters. rewrite !orb_false_iff, !negb_false_iff. intros HNo HNf [[[Eg Eo] Ef] Ed].
  split_and!; [by apply Z.eqb_eq|by apply equalOwnerReferences_sound|by apply equalFinalizers_sound|].
  by destruct (om_DeletionTimestamp new), (om_DeletionTimestamp old).
Qed.

(** A Project update that wakes no reconcile changes nothing the reconcile reads.
    The owners of the old object have distinct UIDs and its finalizers are distinct;
    then the new one has the same parents to be given, is being deleted or not as
    before, and has our finalizer and the other held ones or not as before. *)
Theorem unwoken_project_unchanged k project1 project2 valid child rel
  (Howners : NoDup (map or_UID (om_OwnerReferences (obj_Meta project1)))) (Hfinalizers : NoDup (om_Finalizers (obj_Meta project1)))
  (Hasleep : key_of (obj_Meta project2) ∉
     enqueued (project_controller : controller K) (UpdateEvent (ObjProject (obj_Meta project1)) (ObjProject (obj_Meta project2))) k) :
  determineDesiredParentTuplesForResource project1 valid child rel =
    determineDesiredParentTuplesForResource project2 valid child rel ∧
  (om_DeletionTimestamp (obj_Meta project1) = None ↔ om_DeletionTimestamp (obj_Meta project2) = None) ∧
  (∀ f, ContainsFinalizer (obj_Meta project1) f = ContainsFinalizer (obj_Meta project2) f) ∧
  drained (obj_Meta project1) = drained (obj_Meta project2).
Proof.
  destruct (projectUpdateMatters (Some (obj_Meta project1)) (Some (obj_Meta project2))) eqn:E.
  { exfalso. apply Hasleep, enqueued_iff. left. exists (ObjProject (obj_Meta project2)). split_and!; try done.
    unfold admits. cbn [c_predicates project_controller forallb projectPredicate object_meta]. by rewrite E. }
  destruct (projectUpdate_dropped _ _ Howners Hfinalizers E) as (_ & HO & HF & HD).
  assert (∀ f, ContainsFinalizer (obj_Meta project1) f = ContainsFinalizer (obj_Meta project2) f) as HC
    by (intros f; by apply ContainsFinalizer_perm).
  split_and!; [by apply desired_perm|by symmetry|done|].
  unfold drained. f_equal. apply eq_true_iff_eq. rewrite !existsb_elem. by setoid_rewrite HC.
Qed.
End projects.

(** ** Reference instances and examples *)

#[export] Instance ref_GenerationChanged : GenerationChanged := λ e,
  match e with
  | UpdateEvent old new => negb (om_Generation (object_meta new) =? om_Generation (object_meta old))
  | _ => true
  end.
#[export] Instance ref_GenerationChangedLaws : GenerationChangedLaws.
Proof. split; [done|]. intros [] Hn; try done. by destruct (Hn ObjectOld ObjectNew). Qed.

#[export] Instance ref_Delivery {K} : Delivery K := λ c e k,
  match last (event_objects e) with
  | Some x => if bool_decide (object_kind x = c_For c) && admits (c_predicates c) e then [key_of (object_meta x)] else []
  | None => []
  end ++
  flat_map (λ w, flat_map (λ x,
    if bool_decide (object_kind x = w_kind w) && admits (w_predicates w) e
    then match (w_map w x k).1 with Ok reqs => reqs | _ => [] end else []) (event_objects e)) (c_watches c).

#[export] Instance ref_DeliveryLaws {K} : DeliveryLaws K.
Proof.
  intros c e k req. unfold enqueued, ref_Delivery. rewrite elem_of_app. f_equiv.
  - destruct (last (event_objects e)) as [x|]; [|split; [by intros ?%elem_of_nil|naive_solver]].
    case_bool_decide; destruct (admits (c_predicates c) e); simpl; rewrite ?list_elem_of_singleton, ?elem_of_nil; naive_solver.
  - rewrite elem_of_flat_map. setoid_rewrite elem_of_flat_map. split.
    + intros (w & Hw & x & Hx & Hin). exists w, x. case_bool_decide; [|by apply elem_of_nil in Hin].
      destruct (admits (w_predicates w) e); [|by apply elem_of_nil in Hin]. simpl in Hin.
      destruct ((w_map w x k).1) as [reqs| |]; [|by apply elem_of_nil in Hin..]. eauto 8.
    + intros (w & x & reqs & Hw & Hx & Hk & Hp & Hm & Hin). exists w. split; [done|]. exists x. split; [done|].
      rewrite bool_decide_true, Hp, Hm by done. done.
Qed.

Definition ex_old_role : Role := ex_settled "auditor" ["rm/projects.get"] [] ["rm/projects.get"].
Definition ex_role_event : event := UpdateEvent (ObjRole ex_old_role) (ObjRole ex_changed_role).
Definition ex_pbr : PolicyBindingReconciler := mkPBReconciler false "store" 10.
Definition ex_views : PolicyBinding := ex_binding "views" "viewer" [ex_alice].

Lemma ex_settled_event : settled_role_event ex_role_event (ex_wake_k8s "get") (ex_wake_k8s "list").
Proof.
  exists (role_key ex_changed_role). split; [|split]; [|apply ex_wake_edit|reflexivity].
  split; vm_compute; reflexivity.
Qed.

Lemma maps_answer_test {K} (c : controller K) e k :
  forallb (λ w, forallb (λ x, is_ok (w_map w x k).1) (event_objects e)) (c_watches c) = true → maps_answer c e k.
Proof. rewrite forallb_elem. intros HA w x Hw Hx. specialize (HA w Hw). rewrite forallb_elem in HA. by apply HA. Qed.

Definition ex_valid : gset string :=
  match (getHierarchicalPermissionsForSelector ex_reconciler (pbs_ResourceSelector (pb_Spec ex_views)) (ex_wake_world "get")).1 with
  | Ok valid => valid
  | _ => ∅
  end.

Lemma unwoken_binding_unchanged_witness :
  enqueued (policybinding_controller (S := unit) ex_pbr 0) ex_role_event (ex_wake_k8s "list") = [mkNN "default" "edits"; mkNN "default" "edits"] ∧
  ∀ t, grants (F := RefStore) ex_reconciler (ex_wake_world "get") ex_views "rm/Project:p1" ex_valid t ↔
       grants ex_reconciler (ex_wake_world "list") ex_views "rm/Project:p1" ex_valid t.
Proof.
  split; [vm_compute; reflexivity|]. intros t.
  apply (unwoken_binding_unchanged (F := RefStore) (K := RefK8s) (S := unit) ex_pbr 0 ex_reconciler ex_role_event
    (ex_wake_world "get") (ex_wake_world "list") (mkNN "default" "views") ex_views "rm/Project:p1" ex_prs).
  - left. split; [exact ex_settled_event|].
    split; (apply settled_test_ok; [apply keyed_test_ok|]; vm_compute; reflexivity).
  - apply keyed_test_ok. vm_compute. reflexivity.
  - apply keyed_test_ok. vm_compute. reflexivity.
  - reflexivity.
  - by apply ref_lists_answered.
  - vm_compute. reflexivity.
  - apply maps_answer_test. vm_compute. reflexivity.
  - by apply ref_roles_answered.
  - by apply ref_roles_answered.
  - vm_compute. reflexivity.
  - apply (bool_decide_unpack _). vm_compute. exact I.
  - vm_compute. reflexivity.
  - apply (bool_decide_unpack _). vm_compute. exact I.
  - vm_compute. reflexivity.
  - vm_compute. reflexivity.
Defined.

(** The registration of the organizations is deleted: a role on projects stays
    asleep. *)
Definition ex_less : RefK8s :=
  let k := ex_wake_k8s "get" in mkRefK8s (rk_roles k) (rk_bindings k) (by_key pr_Meta (tail ex_prs)) ∅ ∅ None.
Definition ex_organizations : ProtectedResource :=
  mkPR (ex_meta "" "organizations") (mkPRSpec "rm" "Organization" "organizations" ["get"] [] []) (mkPRStatus 0 []).
Definition ex_deletion : event := DeleteEvent (ObjProtectedResource ex_organizations) false.
Definition ex_watcher : Role := ex_settled "viewer" ["rm/projects.watch"] [] ["rm/projects.watch"].
Definition ex_watch_perms : gset string := {[ "rm/projects.watch" ]}.

Lemma ex_deletion_event : registration_event ex_deletion (ex_wake_k8s "get") ex_less.
Proof.
  exists (mkNN "" "organizations"). split; [split; vm_compute; reflexivity|]. split; [|split; [reflexivity|]].
  - intros key Hne. unfold k_view, ref_PR_laws, ref_laws. simpl. unfold by_key. simpl.
    rewrite !lookup_insert, lookup_empty. repeat case_decide; by subst.
  - intros old new _ Hn. vm_compute in Hn. discriminate Hn.
Qed.

Lemma unwoken_role_unchanged_witness :
  validateRolePermissions ex_prs (sort_Strings (elements ex_watch_perms)) =
  validateRolePermissions (tail ex_prs) (sort_Strings (elements ex_watch_perms)).
Proof.
  apply (unwoken_role_unchanged (K := RefK8s) (S := unit) ex_role_r 0 ex_deletion (ex_wake_k8s "get") ex_less ex_watcher
    ex_watch_perms [] {[ "iam/viewer" ]} ex_watch_perms [] {[ "iam/viewer" ]}).
  - apply keyed_test_ok. vm_compute. reflexivity.
  - apply keyed_test_ok. vm_compute. reflexivity.
  - right. exact ex_deletion_event.
  - apply maps_answer_test. vm_compute. reflexivity.
  - vm_compute. reflexivity.
  - vm_compute. reflexivity.
  - vm_compute. reflexivity.
  - apply (bool_decide_unpack _). vm_compute. exact I.
  - vm_compute. reflexivity.
  - vm_compute. reflexivity.
  - vm_compute. reflexivity.
  - vm_compute. reflexivity.
Defined.

(** Another user is created: the membership of [alice] stays asleep, and what it
    names stays missing. *)
Definition ex_bob : KObject := mkKObject UserGVK (mkObjectMeta "bob" "" "uid-bob" 1 None [] []) "1".
Definition ex_member : GroupMembership := ex_gm "m" None.
Definition ex_members (objects : list KObject) : RefK8s := w_k8s (ex_gm_world ∅ [ex_member] objects).
Definition ex_created : event := CreateEvent (ObjUser (obj_Meta ex_bob)) false.

Lemma ex_created_event : reference_event UserGVK ObjUser ex_created (ex_members [ex_gm_group]) (ex_members [ex_gm_group; ex_bob]).
Proof.
  exists (mkNN "" "bob"). split; [split; vm_compute; reflexivity|]. split.
  - intros other Hne. change (ref_objects (ex_members [ex_gm_group]) !! other = ref_objects (ex_members [ex_gm_group; ex_bob]) !! other).
    unfold ref_objects. rewrite !map_lookup_filter. f_equal. unfold ex_members, ex_gm_world, by_obj_key. simpl.
    rewrite !lookup_insert, lookup_empty. repeat case_decide; by subst.
  - intros old new Ho. vm_compute in Ho. discriminate Ho.
Qed.

Lemma unwoken_membership_unchanged_witness :
  named_tuple (ex_members [ex_gm_group]) ex_member = named_tuple (ex_members [ex_gm_group; ex_bob]) ex_member.
Proof.
  apply (unwoken_membership_unchanged (K := RefK8s) (S := unit) 0 ex_created (ex_members [ex_gm_group])
    (ex_members [ex_gm_group; ex_bob]) (mkNN "iam" "m")).
  - discriminate.
  - reflexivity.
  - intros field v. reflexivity.
  - left. exact ex_created_event.
  - vm_compute. reflexivity.
  - reflexivity.
  - apply (bool_decide_unpack _). vm_compute. exact I.
Defined.

(** The creation of the user it names wakes it; that of its group does not wake a
    membership in another namespace, which the index leaves out. *)
Definition ex_alice_created : event := CreateEvent (ObjUser (obj_Meta (ex_gm_user "uid-alice"))) false.
Definition ex_group_created : event := CreateEvent (ObjGroup (obj_Meta ex_gm_group)) false.
Definition ex_elsewhere : GroupMembership :=
  mkGM (mkObjectMeta "m" "elsewhere" "m" 1 None [groupMembershipFinalizerKey] []) (mkGMSpec "alice" "admins" "iam") (mkGMStatus []).
Definition ex_elsewhere_k8s : RefK8s :=
  w_k8s (ex_gm_world ∅ [ex_elsewhere] [ex_gm_user "uid-alice"; ex_gm_group]).

Example members_woken :
  enqueued (membership_controller (S := unit) 0) ex_alice_created (ex_members [ex_gm_user "uid-alice"]) = [mkNN "iam" "m"] ∧
  enqueued (membership_controller (S := unit) 0) ex_alice_created ex_elsewhere_k8s = [mkNN "elsewhere" "m"] ∧
  enqueued (membership_controller (S := unit) 0) ex_group_created ex_elsewhere_k8s = [].
Proof. split_and!; vm_compute; reflexivity. Qed.

(** A Project whose finalizers are reordered, and one that has its owner replaced. *)
Definition ex_project (finalizers : list string) (owner : string) : KObject :=
  mkKObject (ref_gvk projectKind) (mkObjectMeta "p1" "" "uid-p1" 1 None finalizers
    [mkOwnerReference "resourcemanager.miloapis.com/v1alpha1" "Organization" owner owner]) "1".
Definition ex_project_update (x y : KObject) : event := UpdateEvent (ObjProject (obj_Meta x)) (ObjProject (obj_Meta y)).

Lemma unwoken_project_unchanged_witness :
  let project1 := ex_project [resourceOwnerHierarchyFinalizer; "f"] "acme" in
  let project2 := ex_project ["f"; resourceOwnerHierarchyFinalizer] "acme" in
  drained (obj_Meta project1) = drained (obj_Meta project2) ∧
  enqueued project_controller (ex_project_update project1 (ex_project ["f"; resourceOwnerHierarchyFinalizer] "other")) ex_less
    = [mkNN "" "p1"].
Proof.
  split; [|vm_compute; reflexivity].
  apply (unwoken_project_unchanged (K := RefK8s) ex_less (ex_project [resourceOwnerHierarchyFinalizer; "f"] "acme")
    (ex_project ["f"; resourceOwnerHierarchyFinalizer] "acme") projectParentGVKs "child" "parent").
  - apply (bool_decide_unpack _). vm_compute. exact I.
  - apply (bool_decide_unpack _). vm_compute. exact I.
  - apply (bool_decide_unpack _). vm_compute. exact I.
Defined.
