(* ===== verification/Libraries.v ===== *)
(** * The library calls of the commands

    What cmd/ and the [SetupWithManager] methods hold and call: configurations,
    connections, clusters, managers, and the values of the provider's own that are
    handed over to them. The libraries are not modelled: a program branches on every
    answer they may give. *)

From S2P Require Import Prelude GoStrings GoErr Program Types ModelIDWatcher Setup.
From S2P Require Import PRCache.
Local Open Scope Z_scope.

(** [context.Context]: its deadline, and the request ID stored in it. *)
Record Context := mkContext { ctx_Deadline : option Z; ctx_requestID : option string }.
Definition Background : Context := mkContext None None.

(** The types of the libraries' values, and of the numbers [rest.Config] has. *)
Class Libraries := {
  RestBase : Type;             (* host, credentials and transport of a rest.Config *)
  DialFunc : Type;
  Float32 : Type;
  float32 : Z → Float32;
  FlowRateLimiter : Type;
  Conn : Type;                 (* *grpc.ClientConn, and the OpenFGA client on it *)
  Cluster : Type;
  Manager : Type;
  MCManager : Type;
  MiloProvider : Type;
  Clientset : Type;
  InformerFactory : Type;
  Informer : Type;
  DirectClient : Type;         (* client.New *)
  LockPool : Type;             (* *ObjectLocks *)
  DiscoveryClient : Type;
  TracerResource : Type;
  Exporter : Type;
  TracerProvider : Type
}.

(** The groups [AddToScheme] registers. *)
Inductive api_group := ClientGo | ResourceManagerV1Alpha1 | IAMV1Alpha1 | ProviderConfig | CoreV1 | AuthenticationV1Beta1.
#[export] Instance api_group_eq_dec : EqDecision api_group.
Proof. solve_decision. Defined.

(** config.go. *)
Record DiscoveryConfig := mkDiscoveryConfig {
  dc_Mode : string;
  dc_InternalServiceDiscovery : bool;
  dc_DiscoveryKubeconfigPath : string;
  dc_ProjectKubeconfigPath : string
}.
Record AuthProviderOpenFGA := mkAuthProviderOpenFGA { ap_Discovery : DiscoveryConfig }.

(** [grpc.DialOption]s; an interceptor gives the invoker its context, at a time. *)
Inductive TransportCredentials := TLS12 | Insecure.
Record KeepaliveParameters := mkKeepalive { ka_Time : Z; ka_Timeout : Z; ka_PermitWithoutStream : bool }.
Record DialOptions := mkDialOptions {
  do_credentials : TransportCredentials;
  do_keepalive : option KeepaliveParameters;
  do_interceptor : option (Z → Context → Context);
  do_statsHandler : bool
}.

(** [ctrlwebhook.Options]. *)
Record ServerOptions := mkServerOptions { so_CertDir : string; so_CertName : string; so_KeyName : string; so_Port : Z }.

Section values.
Context `{Libraries}.

(** [rest.Config]; [rest_Dial] is [Some (inr ...)] for a [net.Dialer]'s. *)
Record RestConfig := mkRestConfig {
  rest_base : RestBase;
  rest_RateLimiter : option FlowRateLimiter;
  rest_QPS : Float32;
  rest_Burst : Z;
  rest_Dial : option (DialFunc + (Z * Z))
}.

(** [ctrl.Options]: the fields the commands set. *)
Record ManagerOptions := mkManagerOptions {
  mo_Scheme : list api_group;
  mo_Metrics : string;
  mo_HealthProbeBindAddress : string;
  mo_LeaderElection : bool;
  mo_LeaderElectionID : string;
  mo_LeaderElectionNamespace : string;
  mo_LeaderElectionResourceLock : string;
  mo_LeaseDuration : option Z;
  mo_RenewDeadline : option Z;
  mo_RetryPeriod : option Z;
  mo_LeaderElectionConfig : option RestConfig;
  mo_LeaderElectionReleaseOnCancel : bool;
  mo_CacheUnstructured : bool;
  mo_WebhookServer : option ServerOptions
}.
Definition zero_options : ManagerOptions :=
  mkManagerOptions [] "" "" false "" "" "" None None None None false false None.

(** [multicluster.Provider]. *)
Inductive provider := SingleProvider (name : string) (c : Cluster) | MiloProviderOf (p : MiloProvider).

(** [manager.Runnable]; [LocalManager] is a [localManagerRunnable]. *)
Inductive runnable := ClusterRunnable (c : Cluster) | ManagerRunnable (m : Manager)
  | LocalManager (mcMgr : MCManager) (localMgr : Manager).

(** What [runManager] runs beside the manager. *)
Inductive worker := StartRunnable (r : runnable) | StartProvider (p : provider) (mcMgr : MCManager).

(** A pointer to a watcher: its contents before any event, and the informer that
    feeds it. *)
Inductive informer_source := ManagerInformer (i : Informer) | FactoryInformer (f : InformerFactory) (namespace name : string).
Record watcher_ref := mkWatcherRef { wr_contents : AuthorizationModelIDWatcher; wr_source : informer_source }.

(** The fields the commands set in a reconciler's struct, and what its methods read
    of them. Two pointers to the lock pool are equal when they are the same pool. *)
Record Reconciler := mkReconciler {
  rec_EnableSubresourceAuthorization : bool;
  rec_Client : Manager;
  rec_FgaClient : option Conn;
  rec_StoreID : string;
  rec_ModelIDProvider : option watcher_ref;
  rec_MaxConcurrentReconciles : Z;
  rec_Locks : option LockPool;
  rec_ConfigMapNamespace : string;
  rec_ConfigMapName : string;
  rec_ConfigMapClient : option DirectClient
}.

(** [webhook.Config]; the cache is fed by the informer. *)
Record WebhookConfig := mkWebhookConfig {
  wc_EnableSubresourceAuthorization : bool;
  wc_FGAClient : Conn;
  wc_FGAStoreID : string;
  wc_ModelIDWatcher : watcher_ref;
  wc_ProtectedResourceCache : Informer;
  wc_DiscoveryClient : DiscoveryClient;
  wc_discoveryTTL : Z
}.

(** [healthz.Checker], reading the webhook's [cacheReady] flag. *)
Definition checker : Type := bool → option goerr.
Definition Ping : checker := λ _, None.

(** What runs in a goroutine of its own. *)
Inductive goroutine := StartFactory (f : InformerFactory) | StopFactoryWhenDone (f : InformerFactory)
  | AwaitCacheSync (m : Manager).
End values.

(** ** The calls *)

Section calls.
Context `{Libraries} {K : Type}.

Inductive Call :=
  (* files and configurations *)
| CReadFile (name : string)
| CDecodeInto (data : string)
| CBuildConfigFromFlags (path : string)
| CGetConfig
| CGetConfigOrDie
| CInClusterConfig
| CAddToScheme (group : api_group)
  (* connections, clusters and managers *)
| CNewConn (target : string) (options : DialOptions)
| CCloseConn (c : Conn)
| CNewCluster (cfg : RestConfig) (scheme : list api_group)
| CNewManager (cfg : RestConfig) (options : ManagerOptions)
| CNewMCManager (cfg : RestConfig) (p : provider) (options : ManagerOptions)
| CNewMiloProvider (m : Manager) (scheme : list api_group) (internal : bool) (projects : RestConfig)
| CNewDirectClient (cfg : RestConfig) (scheme : list api_group)
| CNewDiscoveryClient (cfg : RestConfig)
| CNewObjectLocks (n : Z)
  (* informers *)
| CNewClientset (cfg : RestConfig)
| CNewInformerFactory (c : Clientset) (resync : Z) (namespace name : string)
| CGetInformer (m : Manager) (kind : string)
| CWatchConfigMaps (source : informer_source)
    (handle : AuthorizationModelIDWatcher → informer_event ConfigMap → AuthorizationModelIDWatcher)
| CWatchProtectedResources (i : Informer)
    (handle : ProtectedResourceCache → informer_event ProtectedResource → ProtectedResourceCache)
| CSpawn (g : goroutine)
  (* controllers *)
| CIndexField (m : Manager) (k : kind) (field : string) (f : object → list string)
| CRegisterFinalizer (key : string)
| CComplete (m : Manager) (c : controller K) (r : Reconciler)
| CCompleteMC (m : MCManager) (c : controller K) (r : Reconciler)
  (* the managers' own *)
| CRegisterWebhook (m : Manager) (path : string) (config : WebhookConfig)
| CAddHealthzCheck (m : Manager + MCManager) (name : string) (check : checker)
| CAddReadyzCheck (m : Manager + MCManager) (name : string) (check : checker)
| CAddRunnable (m : MCManager) (r : runnable)
| CSetupSignalHandler
| CStartManager (m : Manager)
| CRunUntilManagerStops (m : MCManager) (workers : list worker)
  (* telemetry *)
| CSetTracerProvider (tp : option TracerProvider)
| CSetTextMapPropagator
| CNewTracerResource (name version : string)
| CNewExporter (endpointURL : string)
| CNewTracerProvider (e : Exporter) (r : TracerResource)
| CShutdownTracer (tp : TracerProvider).

(** What a call answers. [GetConfigOrDie] ends the process instead of failing. *)
Definition answer (c : Call) : Type :=
  match c with
  | CReadFile _ => string + goerr
  | CDecodeInto _ => AuthProviderOpenFGA + goerr
  | CBuildConfigFromFlags _ | CGetConfig | CInClusterConfig => RestConfig + goerr
  | CGetConfigOrDie => option RestConfig
  | CNewConn _ _ => Conn + goerr
  | CNewCluster _ _ => Cluster + goerr
  | CNewManager _ _ => Manager + goerr
  | CNewMCManager _ _ _ => MCManager + goerr
  | CNewMiloProvider _ _ _ _ => MiloProvider + goerr
  | CNewDirectClient _ _ => DirectClient + goerr
  | CNewDiscoveryClient _ => DiscoveryClient + goerr
  | CNewObjectLocks _ => LockPool
  | CNewClientset _ => Clientset + goerr
  | CNewInformerFactory _ _ _ _ => InformerFactory
  | CGetInformer _ _ => Informer + goerr
  | CNewTracerResource _ _ => TracerResource + goerr
  | CNewExporter _ => Exporter + goerr
  | CNewTracerProvider _ _ => TracerProvider
  | CSpawn _ | CRegisterWebhook _ _ _ | CSetupSignalHandler | CSetTracerProvider _ | CSetTextMapPropagator => unit
  | _ => option goerr
  end.
End calls.
Arguments Call {_} _.

(** The programs of the commands; [K] is the state the controllers read. *)
Abbreviation Go K := (go (Call K) answer).
