(* ===== verification/Managers.v ===== *)
(** * [cmd/manager.go]: the controller manager

    The controllers' [SetupWithManager] methods, [internal/config], and the command
    that connects to OpenFGA, builds the managers, registers every controller and
    runs them. *)

From S2P Require Import Prelude GoStrings GoErr RateLimiter Program Types Constants World Fga Tuples Indexes RoleGraph ControllerEnv TargetHold.
From S2P Require Import ResourceOwnerHierarchy GroupMembership SystemGroup AuthModel AuthModelController RoleController.
From S2P Require Import PolicyBindingController ModelIDWatcher Setup Libraries.
Local Open Scope Z_scope.

Definition errNoLocks : goerr := ErrText "the reconciler needs the object locks it shares with the other reconcilers".

(** [milomulticluster.ProviderSingle] and [ProviderMilo]. *)
Class DiscoveryModes := { ProviderSingle : string; ProviderMilo : string }.

Section setup.
Context `{Libraries} {K S : Type} `{KClient K Role} `{KClient K PolicyBinding} `{KClient K ProtectedResource}
  `{KClient K GroupMembership} `{Rand S} `{DefaultRateLimiter} `{GenerationChanged} `{StatusConditions}.
Context (fuel : nat).
Implicit Types (r : Reconciler) (mgr : Manager).

Definition IndexField mgr (k : kind) (field : string) (f : object → list string) : Go K unit :=
  err ← perform (CIndexField mgr k field f); of_error err.
Definition Register (key : string) : Go K unit := err ← perform (CRegisterFinalizer key); of_error err.
Definition Complete mgr (c : controller K) r : Go K unit := err ← perform (CComplete mgr c r); of_error err.
Definition CompleteMC (m : MCManager) (c : controller K) r : Go K unit := err ← perform (CCompleteMC m c r); of_error err.

(** ** SetupWithManager *)

Definition setupPolicyBindingIndexes mgr : Go K unit :=
  returning "index PolicyBinding target object: " (IndexField mgr KindPolicyBinding TargetObjectIndexField
    (of_policy_binding (λ pb, index_values (TargetObjectFromResourceSelector (pbs_ResourceSelector (pb_Spec pb)))))) ;;
  returning "index PolicyBinding target kind: " (IndexField mgr KindPolicyBinding TargetKindIndexField
    (of_policy_binding (λ pb, index_values (TargetKindFromResourceSelector (pbs_ResourceSelector (pb_Spec pb)))))) ;;
  returning "index PolicyBinding roleRef: " (IndexField mgr KindPolicyBinding RoleRefIndexField
    (of_policy_binding (λ pb, [RoleRefIndexKey (om_Namespace (pb_Meta pb)) (pbs_RoleRef (pb_Spec pb))]))) ;;
  returning "index ProtectedResource service/kind: " (IndexField mgr KindProtectedResource protectedResourceServiceKindIndexField
    (of_protected_resource (λ pr,
       let spec := pr_Spec pr in
       if String.eqb (prs_ServiceRef_Name spec) "" || String.eqb (prs_Kind spec) "" then []
       else [prs_ServiceRef_Name spec +:+ "/" +:+ prs_Kind spec]))).

Definition policybinding_SetupWithManager r mgr : Go K unit :=
  match rec_Locks r with
  | None => fail errNoLocks
  | Some _ =>
    setupPolicyBindingIndexes mgr ;;
    returning "failed to register policy binding finalizer: " (Register policyBindingFinalizerKey) ;;
    Complete mgr (policybinding_controller (S := S)
      (mkPBReconciler (rec_EnableSubresourceAuthorization r) (rec_StoreID r) fuel) (rec_MaxConcurrentReconciles r)) r
  end.

Definition role_SetupWithManager r mgr : Go K unit :=
  returning "failed to register role finalizer: " (Register roleFinalizerKey) ;;
  Complete mgr (role_controller (S := S)
    (mkRoleReconciler (rec_EnableSubresourceAuthorization r) (rec_StoreID r) fuel) (rec_MaxConcurrentReconciles r)) r.

Definition membership_SetupWithManager r mgr : Go K unit :=
  returning "failed to register group membership finalizer: " (Register groupMembershipFinalizerKey) ;;
  returning "index GroupMembership userRef: " (IndexField mgr KindGroupMembership groupMembershipUserRefIndexField
    (of_membership (λ gm, [gms_UserRef_Name (gm_Spec gm)]))) ;;
  returning "index GroupMembership groupRef: " (IndexField mgr KindGroupMembership groupMembershipGroupRefIndexField
    (of_membership (λ gm,
       if negb (String.eqb (om_Namespace (gm_Meta gm)) (gms_GroupRef_Namespace (gm_Spec gm))) then []
       else [gms_GroupRef_Namespace (gm_Spec gm) +:+ "/" +:+ gms_GroupRef_Name (gm_Spec gm)]))) ;;
  Complete mgr (membership_controller (S := S) (rec_MaxConcurrentReconciles r)) r.

(** The [modelBuilder]; the client it writes the ConfigMap with is the reconciler's
    own when no other is set, so there is always one. *)
Definition modelBuilder r : AuthorizationModelReconciler :=
  mkAMReconciler (rec_EnableSubresourceAuthorization r) (rec_StoreID r) true (rec_ConfigMapNamespace r) (rec_ConfigMapName r).

Definition authorizationmodel_SetupWithManager r mgr : Go K unit :=
  match rec_FgaClient r with
  | None => fail (ErrText "FGAClient is not set on AuthorizationModelReconciler")
  | Some _ =>
    if String.eqb (rec_StoreID r) "" then fail (ErrText "FGAStoreID is not set on AuthorizationModelReconciler")
    else
      returning "failed to register protected resource finalizer: " (Register protectedResourceFinalizerKey) ;;
      Complete mgr authorizationmodel_controller r
  end.

Definition DefaultOpenFGAStoreID : string := "default_store_id".

Definition rec_with_StoreID r (storeID : string) : Reconciler :=
  mkReconciler (rec_EnableSubresourceAuthorization r) (rec_Client r) (rec_FgaClient r) storeID (rec_ModelIDProvider r)
    (rec_MaxConcurrentReconciles r) (rec_Locks r) (rec_ConfigMapNamespace r) (rec_ConfigMapName r) (rec_ConfigMapClient r).

(** [AuthzModelReconciler] is set by no caller. *)
Definition project_SetupWithManager r mgr : Go K unit :=
  match rec_Locks r with
  | None => fail errNoLocks
  | Some _ =>
    let r := if String.eqb (rec_StoreID r) "" then rec_with_StoreID r DefaultOpenFGAStoreID else r in
    returning "failed to register finalizer: " (Register resourceOwnerHierarchyFinalizer) ;;
    Complete mgr project_controller r
  end.

Definition organization_SetupWithManager r mgr : Go K unit :=
  match rec_Locks r with
  | None => fail errNoLocks
  | Some _ =>
    returning "failed to register finalizer: " (Register resourceOwnerHierarchyFinalizer) ;;
    Complete mgr organization_controller r
  end.

Definition systemgroup_SetupWithManagerMultiCluster r mgr (mcMgr : MCManager) : Go K unit :=
  returning "failed to register user systemgroup reconciler: "
    (Complete mgr (systemgroup_user_controller (S := S)) r) ;;
  returning "failed to register serviceaccount systemgroup reconciler: "
    (CompleteMC mcMgr (systemgroup_serviceaccount_controller (S := S)) r).

Definition systemgroup_SetupWithManager r mgr : Go K unit :=
  returning "failed to register user systemgroup reconciler: "
    (Complete mgr (systemgroup_user_controller (S := S)) r).
End setup.

(** ** Configuration *)

Section config.
Context `{Libraries} `{DiscoveryModes} {K : Type}.

Definition GetConfig : Go K RestConfig := x ← perform CGetConfig; of_result x.
Definition BuildConfigFromFlags (path : string) : Go K RestConfig := x ← perform (CBuildConfigFromFlags path); of_result x.
Definition GetConfigOrDie : Go K RestConfig :=
  cfg ← perform CGetConfigOrDie;
  match cfg with Some cfg => mret cfg | None => exit end.

Definition DiscoveryRestConfig (c : DiscoveryConfig) : Go K RestConfig :=
  if String.eqb (dc_DiscoveryKubeconfigPath c) "" then GetConfig else BuildConfigFromFlags (dc_DiscoveryKubeconfigPath c).

Definition ProjectRestConfig (c : DiscoveryConfig) : Go K RestConfig :=
  if String.eqb (dc_ProjectKubeconfigPath c) "" then GetConfig else BuildConfigFromFlags (dc_ProjectKubeconfigPath c).

(** The zero configuration in the single-cluster mode, or the file's. *)
Definition loadServerConfig (serverConfigFile : string) : Go K AuthProviderOpenFGA :=
  if String.eqb serverConfigFile "" then mret (mkAuthProviderOpenFGA (mkDiscoveryConfig ProviderSingle false "" ""))
  else
    data ← on_error (λ _, ErrText ("unable to read server config from " +:+ quoted serverConfigFile))
      (x ← perform (CReadFile serverConfigFile); of_result x);
    returning "unable to decode server config: " (x ← perform (CDecodeInto data); of_result x).

(** The named kubeconfig, or the default one. *)
Definition loadKubeconfig (what path : string) : Go K RestConfig :=
  if negb (String.eqb path "") then returning ("unable to load " +:+ what +:+ " kubeconfig: ") (BuildConfigFromFlags path)
  else GetConfigOrDie.

(** [init] of main.go: what is registered with the commands' scheme. *)
Definition scheme : list api_group := [ClientGo; ResourceManagerV1Alpha1; IAMV1Alpha1; ProviderConfig].

(** The answer's runnables and provider. *)
Definition initializeClusterDiscovery (serverConfig : AuthProviderOpenFGA) (deploymentCluster : Cluster)
    (scheme : list api_group) : Go K (list runnable * provider) :=
  let discovery := ap_Discovery serverConfig in
  let runnables := [ClusterRunnable deploymentCluster] in
  if String.eqb (dc_Mode discovery) ProviderSingle then mret (runnables, SingleProvider "single" deploymentCluster)
  else if String.eqb (dc_Mode discovery) ProviderMilo then
    discoveryRestConfig ← returning "unable to get discovery rest config: " (DiscoveryRestConfig discovery);
    projectRestConfig ← returning "unable to get project rest config: " (ProjectRestConfig discovery);
    discoveryManager ← returning "unable to set up overall controller manager: "
      (x ← perform (CNewManager discoveryRestConfig
         (mkManagerOptions [] "0" "0" false "" "" "" None None None None false true None)); of_result x);
    p ← returning "unable to create datum project provider: "
      (x ← perform (CNewMiloProvider discoveryManager scheme (dc_InternalServiceDiscovery discovery) projectRestConfig); of_result x);
    mret (runnables ++ [ManagerRunnable discoveryManager], MiloProviderOf p)
  else fail (ErrText ("unsupported cluster discovery mode " +:+ dc_Mode discovery)).

(** *** Leader election *)

Definition second : Z := 1000000000.
Definition leaderElectionQPS : Z := 5.
Definition leaderElectionBurst : Z := 10.

Definition leaderElectionRestConfig (base : RestConfig) : RestConfig :=
  mkRestConfig (rest_base base) None (float32 leaderElectionQPS) leaderElectionBurst (Some (inr (30 * second, 30 * second))).

Definition electionOptions (cfg : RestConfig) (enabled : bool) (id namespace lock : string) (lease renew retry : Z) : ManagerOptions :=
  mkManagerOptions [] "" "" enabled id namespace lock (Some lease) (Some renew) (Some retry)
    (Some (leaderElectionRestConfig cfg)) true false None.

(** *** Calls to OpenFGA *)

Definition transportCredentials (openfgaScheme : string) : TransportCredentials :=
  if String.eqb (ToLower openfgaScheme) "https" then TLS12 else Insecure.

(** [context.WithTimeout], at the time [now]. *)
Definition WithTimeout (now : Z) (ctx : Context) (timeout : Z) : Context :=
  mkContext (Some (match ctx_Deadline ctx with Some d => d `min` (now + timeout) | None => now + timeout end)) (ctx_requestID ctx).

(** The context the invoker is given. *)
Definition timeoutUnaryInterceptor (timeout now : Z) (ctx : Context) : Context :=
  match ctx_Deadline ctx with
  | None => WithTimeout now ctx timeout
  | Some _ => ctx
  end.
End config.

(** ** The model ID watcher *)

Section watcher.
Context `{Libraries} {K : Type}.

Definition new_watcher (configMapName seedModelID : string) : AuthorizationModelIDWatcher :=
  let w := mkWatcher None configMapName in
  if negb (String.eqb seedModelID "") then Store_modelID w seedModelID else w.

(** [addEventHandler]: its error is ignored. *)
Definition addEventHandler (w : watcher_ref) : Go K unit :=
  _ ← perform (CWatchConfigMaps (wr_source w) watcher_handle); mret tt.

(** [NewAuthorizationModelIDWatcher]; the informer is the manager's, for every
    namespace. *)
Definition managerModelIDWatcher (mgr : Manager) (namespace configMapName seedModelID : string) : Go K watcher_ref :=
  if String.eqb configMapName "" then fail (ErrText "configMapName is required")
  else
    informer ← returning "failed to get ConfigMap informer: " (x ← perform (CGetInformer mgr "ConfigMap"); of_result x);
    let w := mkWatcherRef (new_watcher configMapName seedModelID) (ManagerInformer informer) in
    addEventHandler w ;; mret w.

(** [NewAuthorizationModelIDWatcherWithConfig]. *)
Definition configModelIDWatcher (cfg : RestConfig) (namespace configMapName seedModelID : string) : Go K watcher_ref :=
  if String.eqb configMapName "" then fail (ErrText "configMapName is required")
  else
    clientset ← returning "failed to create kubernetes clientset for ConfigMap watcher: "
      (x ← perform (CNewClientset cfg); of_result x);
    factory ← perform (CNewInformerFactory clientset (30 * second) namespace configMapName);
    let w := mkWatcherRef (new_watcher configMapName seedModelID) (FactoryInformer factory namespace configMapName) in
    addEventHandler w ;;
    _ ← perform (CSpawn (StartFactory factory));
    _ ← perform (CSpawn (StopFactoryWhenDone factory));
    mret w.

(** The in-cluster informer when there is one, the manager's otherwise. *)
Definition watchModelID (mgr : Manager) (configmapNamespace configmapName : string) : Go K watcher_ref :=
  inCluster ← perform CInClusterConfig;
  returning "failed to create authorization model ID watcher: "
    match inCluster with
    | inl cfg => configModelIDWatcher cfg configmapNamespace configmapName ""
    | inr _ => managerModelIDWatcher mgr configmapNamespace configmapName ""
    end.
End watcher.

(** ** The command *)

Record ManagerFlags := mkManagerFlags {
  mf_enableSubresourceAuthorization : bool;
  mf_metricsAddr : string;
  mf_enableLeaderElection : bool;
  mf_probeAddr : string;
  mf_openfgaAPIURL : string;
  mf_openfgaStoreID : string;
  mf_openfgaScheme : string;
  mf_leaderElectionID : string;
  mf_leaderElectionNamespace : string;
  mf_leaderElectionResourceLock : string;
  mf_leaseDuration : Z;
  mf_renewDeadline : Z;
  mf_retryPeriod : Z;
  mf_configmapNamespace : string;
  mf_configmapName : string;
  mf_serverConfigFile : string;
  mf_upstreamClusterKubeconfig : string;
  mf_coreControlPlaneKubeconfig : string;
  mf_policyBindingMaxConcurrentReconciles : Z;
  mf_openfgaTimeout : Z;
  mf_openfgaKeepaliveTime : Z;
  mf_openfgaKeepaliveTimeout : Z
}.

Section manager.
Context `{Libraries} `{DiscoveryModes} {K S : Type} `{KClient K Role} `{KClient K PolicyBinding} `{KClient K ProtectedResource}
  `{KClient K GroupMembership} `{Rand S} `{DefaultRateLimiter} `{GenerationChanged} `{StatusConditions}.
Context (fuel : nat) (flags : ManagerFlags).
Abbreviation G := (Go K).

(** A reconciler of the local manager's client, the connection and the store of the
    flags, with the zero value in its other fields. *)
Definition plain_rec (localMgr : Manager) (conn : Conn) (watcher : option watcher_ref) : Reconciler :=
  mkReconciler false localMgr (Some conn) (mf_openfgaStoreID flags) watcher 0 None "" "" None.

Definition RoleReconciler_of (localMgr : Manager) (conn : Conn) (watcher : watcher_ref) : Reconciler :=
  mkReconciler (mf_enableSubresourceAuthorization flags) localMgr (Some conn) (mf_openfgaStoreID flags) (Some watcher) 0
    None "" "" None.
Definition PolicyBindingReconciler_of (localMgr : Manager) (conn : Conn) (watcher : watcher_ref) (locks : LockPool) : Reconciler :=
  mkReconciler (mf_enableSubresourceAuthorization flags) localMgr (Some conn) (mf_openfgaStoreID flags) (Some watcher)
    (mf_policyBindingMaxConcurrentReconciles flags) (Some locks) "" "" None.
Definition HierarchyReconciler_of (localMgr : Manager) (conn : Conn) (locks : LockPool) : Reconciler :=
  mkReconciler false localMgr (Some conn) (mf_openfgaStoreID flags) None 0 (Some locks) "" "" None.
Definition AuthorizationModelReconciler_of (localMgr : Manager) (conn : Conn) (configMapClient : option DirectClient) : Reconciler :=
  mkReconciler (mf_enableSubresourceAuthorization flags) localMgr (Some conn) (mf_openfgaStoreID flags) None 0 None
    (mf_configmapNamespace flags) (mf_configmapName flags) configMapClient.

Definition setupHierarchyControllers (mgr : Manager) (conn : Conn) (locks : LockPool) : G unit :=
  returning "unable to create controller ResourceOwnerHierarchy: "
    (project_SetupWithManager (HierarchyReconciler_of mgr conn locks) mgr) ;;
  returning "unable to create controller Organization: "
    (organization_SetupWithManager (HierarchyReconciler_of mgr conn locks) mgr).

(** The client of the cluster the manager runs in, when it runs in one. *)
Definition newConfigMapClient : G (option DirectClient) :=
  inCluster ← perform CInClusterConfig;
  match inCluster with
  | inl cfg =>
    c ← returning "unable to create in-cluster client for ConfigMap: "
      (x ← perform (CNewDirectClient cfg scheme); of_result x);
    mret (Some c)
  | inr _ => mret None
  end.

Definition setupControllers (localMgr : Manager) (mcMgr : MCManager) (conn : Conn) (watcher : watcher_ref) : G unit :=
  returning "unable to create controller Role: "
    (role_SetupWithManager (S := S) fuel (RoleReconciler_of localMgr conn watcher) localMgr) ;;
  locks ← perform (CNewObjectLocks 0);
  returning "unable to create controller PolicyBinding: "
    (policybinding_SetupWithManager (S := S) fuel (PolicyBindingReconciler_of localMgr conn watcher locks) localMgr) ;;
  setupHierarchyControllers localMgr conn locks ;;
  configMapClient ← newConfigMapClient;
  returning "unable to create controller AuthorizationModel: "
    (authorizationmodel_SetupWithManager (AuthorizationModelReconciler_of localMgr conn configMapClient) localMgr) ;;
  returning "unable to create controller GroupMembership: "
    (membership_SetupWithManager (S := S) (plain_rec localMgr conn (Some watcher)) localMgr) ;;
  returning "unable to create controller SystemGroup: "
    (systemgroup_SetupWithManagerMultiCluster (S := S) (plain_rec localMgr conn (Some watcher)) localMgr mcMgr).

(** The probes, the local manager behind the primary one's election, and the run;
    its end is the manager's, the provider's and every runnable's. *)
Definition runManagers (localMgr : Manager) (mcMgr : MCManager) (p : provider) (runnables : list runnable) : G unit :=
  returning "unable to set up health check: " (x ← perform (CAddHealthzCheck (inr mcMgr) "healthz" Ping); of_error x) ;;
  returning "unable to set up ready check: " (x ← perform (CAddReadyzCheck (inr mcMgr) "readyz" Ping); of_error x) ;;
  returning "unable to add local manager runnable: "
    (x ← perform (CAddRunnable mcMgr (LocalManager mcMgr localMgr)); of_error x) ;;
  _ ← perform CSetupSignalHandler;
  returning "manager error: "
    (x ← perform (CRunUntilManagerStops mcMgr (map StartRunnable runnables ++ [StartProvider p mcMgr])); of_error x).

(** What follows the connection. *)
Definition managerBody (serverConfig : AuthProviderOpenFGA) (upstream core : RestConfig) (conn : Conn) : G unit :=
  deploymentClusterConfig ← GetConfigOrDie;
  deploymentCluster ← returning "failed to construct downstream cluster: "
    (x ← perform (CNewCluster deploymentClusterConfig scheme); of_result x);
  discovered ← returning "unable to initialize cluster discovery: "
    (initializeClusterDiscovery serverConfig deploymentCluster scheme);
  let (runnables, p) := (discovered : list runnable * provider) in
  coreControlPlaneCluster ← returning "failed to construct core control plane cluster: "
    (x ← perform (CNewCluster core scheme); of_result x);
  let runnables := runnables ++ [ClusterRunnable coreControlPlaneCluster] in
  let election := electionOptions upstream (mf_enableLeaderElection flags) (mf_leaderElectionID flags)
    (mf_leaderElectionNamespace flags) (mf_leaderElectionResourceLock flags) (mf_leaseDuration flags)
    (mf_renewDeadline flags) (mf_retryPeriod flags) in
  let mcMgrOpts := mkManagerOptions scheme (mf_metricsAddr flags) (mf_probeAddr flags) (mo_LeaderElection election)
    (mo_LeaderElectionID election) (mo_LeaderElectionNamespace election) (mo_LeaderElectionResourceLock election)
    (mo_LeaseDuration election) (mo_RenewDeadline election) (mo_RetryPeriod election) (mo_LeaderElectionConfig election)
    (mo_LeaderElectionReleaseOnCancel election) false None in
  mcMgr ← returning "unable to start multicluster manager: "
    (x ← perform (CNewMCManager upstream p mcMgrOpts); of_result x);
  localMgr ← returning "unable to create local manager: "
    (x ← perform (CNewManager core (mkManagerOptions scheme "0" "0" false "" "" "" None None None None false false None));
     of_result x);
  watcher ← watchModelID localMgr (mf_configmapNamespace flags) (mf_configmapName flags);
  setupControllers localMgr mcMgr conn watcher ;;
  runManagers localMgr mcMgr p runnables.

Definition runManager : G unit :=
  serverConfig ← loadServerConfig (mf_serverConfigFile flags);
  upstream ← loadKubeconfig "upstream" (mf_upstreamClusterKubeconfig flags);
  core ← loadKubeconfig "core control plane" (mf_coreControlPlaneKubeconfig flags);
  if String.eqb (mf_openfgaAPIURL flags) "" then fail (ErrText "OpenFGA API URL must be provided via --openfga-api-url")
  else if String.eqb (mf_openfgaStoreID flags) "" then
    fail (ErrText "OpenFGA Store ID must be provided via --openfga-store-id")
  else
    conn ← returning "unable to create gRPC connection to OpenFGA: "
      (x ← perform (CNewConn (mf_openfgaAPIURL flags)
         (mkDialOptions (transportCredentials (mf_openfgaScheme flags))
            (Some (mkKeepalive (mf_openfgaKeepaliveTime flags) (mf_openfgaKeepaliveTimeout flags) true))
            (Some (timeoutUnaryInterceptor (mf_openfgaTimeout flags))) false)); of_result x);
    deferred (ignoring (CCloseConn conn)) (managerBody serverConfig upstream core conn).
End manager.
