(* ===== verification/WebhookServer.v ===== *)
(** * [cmd/webhook.go]: the authorization webhook's server

    The command that connects to OpenFGA, builds the cache and the model ID watcher,
    registers the webhook and serves it, with [internal/telemetry] and the request IDs
    of [internal/webhook/context.go]. *)

From S2P Require Import Prelude GoStrings GoErr Program Hash Types World Fga Tuples ModelIDWatcher PRCache Setup Libraries Managers.
Local Open Scope Z_scope.

(** ** Request IDs *)

Definition requestIDFromContext (ctx : Context) : string :=
  match ctx_requestID ctx with Some v => v | None => "" end.

Definition contextWithRequestID (ctx : Context) (requestID : string) : Context :=
  mkContext (ctx_Deadline ctx) (Some requestID).

(** [%016x]: the high and the low 32 bits, eight lower-case digits each. *)
Definition hex16 (n : Z) : string :=
  hex_EncodeToString (big_endian (n / 2 ^ 32) ++ big_endian (n mod 2 ^ 32)).

(** [random] is what [rand.Uint64] draws. *)
Definition generateRequestID (headerValue : string) (random : Z) : string :=
  if negb (String.eqb headerValue "") then headerValue else hex16 random.

(** ** Telemetry *)

(** [net/url]: the path of a URL, and [JoinPath]. *)
Class URLs := { url_Path : string → string + goerr; JoinPath : string → string → string + goerr }.

Section telemetry.
Context `{Libraries} `{URLs} {K : Type}.

Definition tracesEndpointURL (endpoint : string) : Go K string :=
  path ← returning ("failed to parse OTLP endpoint " +:+ quoted endpoint +:+ ": ") (of_result (url_Path endpoint));
  if negb (String.eqb path "") && negb (String.eqb path "/") then mret endpoint
  else of_result (JoinPath endpoint "/v1/traces").

(** The provider to shut down: none for the no-op one. *)
Definition SetupTracer (serviceName serviceVersion otlpEndpoint : string) : Go K (option TracerProvider) :=
  if String.eqb otlpEndpoint "" then
    _ ← perform (CSetTracerProvider None); mret None
  else
    res ← returning "failed to create OTEL resource: "
      (x ← perform (CNewTracerResource serviceName serviceVersion); of_result x);
    endpointURL ← tracesEndpointURL otlpEndpoint;
    exporter ← returning "failed to create OTLP HTTP exporter: " (x ← perform (CNewExporter endpointURL); of_result x);
    tp ← perform (CNewTracerProvider exporter res);
    _ ← perform (CSetTracerProvider (Some tp));
    _ ← perform CSetTextMapPropagator;
    mret (Some tp).

(** [ShutdownFunc]; its error is logged. *)
Definition shutdownTracer (tp : option TracerProvider) : program (Call K) answer unit :=
  match tp with
  | None => Ret tt
  | Some tp => ignoring (CShutdownTracer tp)
  end.
End telemetry.

(** ** The command *)

Record WebhookFlags := mkWebhookFlags {
  wf_enableSubresourceAuthorization : bool;
  wf_certDir : string;
  wf_certFile : string;
  wf_keyFile : string;
  wf_openfgaAPIURL : string;
  wf_openfgaStoreID : string;
  wf_openfgaScheme : string;
  wf_webhookPort : Z;
  wf_metricsBindAddress : string;
  wf_probeAddr : string;
  wf_discoveryCacheTTL : Z;
  wf_otlpEndpoint : string;
  wf_configmapNamespace : string;
  wf_configmapName : string
}.

Definition SubjectAccessReviewWebhookPath : string := "/apis/authorization.k8s.io/v1/subjectaccessreviews".

(** The readiness probe, from the flag the goroutine below sets. *)
Definition cacheReadyCheck : checker := λ cacheReady,
  if negb cacheReady then Some (ErrText "informer caches have not yet synced") else None.

(** The goroutine that waits: what [WaitForCacheSync] answers, and the flag after. *)
Definition awaitCacheSync (synced cacheReady : bool) : bool := if synced then true else cacheReady.

Section webhook.
Context `{Libraries} `{URLs} {K : Type} (flags : WebhookFlags).
Abbreviation G := (Go K).

(** [NewProtectedResourceCache]: the informer that feeds the empty cache. *)
Definition NewProtectedResourceCache (mgr : Manager) : G Informer :=
  informer ← returning "failed to get ProtectedResource informer: "
    (x ← perform (CGetInformer mgr "ProtectedResource"); of_result x);
  returning "failed to add event handler to ProtectedResource informer: "
    (x ← perform (CWatchProtectedResources informer cache_handle); of_error x) ;;
  mret informer.

Definition RegisterSubjectAccessReviewWebhook (server : Manager) (config : WebhookConfig) : G unit :=
  _ ← perform (CRegisterWebhook server SubjectAccessReviewWebhookPath config); mret tt.

(** [runtimeScheme]: each group, or the error of the first that is refused. *)
Definition addToScheme (what : string) (group : api_group) : G unit :=
  returning ("failed to add " +:+ what +:+ " to scheme: ") (x ← perform (CAddToScheme group); of_error x).

(** What follows the connection. *)
Definition webhookBody (conn : Conn) : G unit :=
  restConfig ← returning "failed to get rest config: " GetConfig;
  addToScheme "corev1" CoreV1 ;;
  addToScheme "v1beta1" AuthenticationV1Beta1 ;;
  addToScheme "resourcemanagerv1alpha1" ResourceManagerV1Alpha1 ;;
  addToScheme "iamv1alpha1" IAMV1Alpha1 ;;
  let runtimeScheme := [CoreV1; AuthenticationV1Beta1; ResourceManagerV1Alpha1; IAMV1Alpha1] in
  liveDiscovery ← returning "failed to create discovery client: "
    (x ← perform (CNewDiscoveryClient restConfig); of_result x);
  mgr ← returning "failed to setup manager: "
    (x ← perform (CNewManager restConfig
       (mkManagerOptions runtimeScheme (wf_metricsBindAddress flags) (wf_probeAddr flags) false "" "" "" None None None None
          false false
          (Some (mkServerOptions (wf_certDir flags) (wf_certFile flags) (wf_keyFile flags) (wf_webhookPort flags)))));
     of_result x);
  prCache ← returning "failed to create ProtectedResource cache: " (NewProtectedResourceCache mgr);
  modelIDWatcher ← watchModelID mgr (wf_configmapNamespace flags) (wf_configmapName flags);
  RegisterSubjectAccessReviewWebhook mgr
    (mkWebhookConfig (wf_enableSubresourceAuthorization flags) conn (wf_openfgaStoreID flags) modelIDWatcher prCache
       liveDiscovery (wf_discoveryCacheTTL flags)) ;;
  returning "unable to set up health check: " (x ← perform (CAddHealthzCheck (inl mgr) "healthz" Ping); of_error x) ;;
  _ ← perform (CSpawn (AwaitCacheSync mgr));
  returning "unable to set up ready check: " (x ← perform (CAddReadyzCheck (inl mgr) "readyz" cacheReadyCheck); of_error x) ;;
  x ← perform (CStartManager mgr); of_error x.

Definition runWebhookServer : G unit :=
  tracerShutdown ← returning "failed to setup tracer: "
    (SetupTracer "auth-provider-openfga-webhook" "dev" (wf_otlpEndpoint flags));
  deferred (shutdownTracer tracerShutdown)
    (conn ← returning "unable to create gRPC connection to OpenFGA: "
       (x ← perform (CNewConn (wf_openfgaAPIURL flags)
          (mkDialOptions (transportCredentials (wf_openfgaScheme flags)) None None true)); of_result x);
     deferred (ignoring (CCloseConn conn)) (webhookBody conn)).
End webhook.
