(* ===== verification/Commands.v ===== *)
(** * The commands' flags

    [createManagerCommand] and [createWebhookCommand]: the flags of each command, with
    their defaults, the ones that must be given, and what is run with their values;
    cmd/main.go has the two commands. Parsing is the command library's. *)

From S2P Require Import Prelude GoStrings GoErr RateLimiter Program Types World Fga ControllerEnv Setup Libraries Managers WebhookServer.
Local Open Scope Z_scope.

Inductive flag_value := StringFlag (s : string) | BoolFlag (b : bool) | IntFlag (z : Z) | DurationFlag (ns : Z).

#[export] Instance flag_value_eq_dec : EqDecision flag_value.
Proof. solve_decision. Defined.

(** The variable a flag is bound to. *)
Definition string_of (v : flag_value) : string := match v with StringFlag s => s | _ => "" end.
Definition bool_of (v : flag_value) : bool := match v with BoolFlag b => b | _ => false end.
Definition int_of (v : flag_value) : Z := match v with IntFlag z | DurationFlag z => z | _ => 0 end.

(** [cobra.Command]; [RunE] is given the value of each flag. *)
Record command (A : Type) := mkCommand {
  cmd_Use : string;
  cmd_Flags : list (string * flag_value);
  cmd_required : list string;
  cmd_RunE : (string → flag_value) → A
}.
Arguments mkCommand {_} _ _ _ _.
Arguments cmd_Use {_} _.
Arguments cmd_Flags {_} _.
Arguments cmd_required {_} _.
Arguments cmd_RunE {_} _ _.

Definition minute : Z := 60 * second.

(** [getenv] is [os.Getenv]. *)
Definition manager_flags (getenv : string → string) : list (string * flag_value) :=
  [("metrics-bind-address", StringFlag ":8080");
   ("health-probe-bind-address", StringFlag ":8081");
   ("leader-elect", BoolFlag false);
   ("leader-election-id", StringFlag "4b85f171.miloapis.com");
   ("leader-election-namespace", StringFlag "");
   ("leader-election-resource-lock", StringFlag "leases");
   ("leader-election-lease-duration", DurationFlag (15 * second));
   ("leader-election-renew-deadline", DurationFlag (10 * second));
   ("leader-election-retry-period", DurationFlag (2 * second));
   ("openfga-api-url", StringFlag "");
   ("openfga-store-id", StringFlag "");
   ("openfga-scheme", StringFlag "http");
   ("configmap-namespace", StringFlag (getenv "POD_NAMESPACE"));
   ("configmap-name", StringFlag "openfga-authorization-model");
   ("server-config", StringFlag "");
   ("upstream-kubeconfig", StringFlag "");
   ("core-control-plane-kubeconfig", StringFlag "");
   ("policybinding-max-concurrent-reconciles", IntFlag 8);
   ("openfga-timeout", DurationFlag (15 * second));
   ("openfga-keepalive-time", DurationFlag (30 * second));
   ("openfga-keepalive-timeout", DurationFlag (10 * second));
   ("enable-subresource-authorization", BoolFlag false)].

Definition manager_flag_values (v : string → flag_value) : ManagerFlags :=
  mkManagerFlags (bool_of (v "enable-subresource-authorization")) (string_of (v "metrics-bind-address"))
    (bool_of (v "leader-elect")) (string_of (v "health-probe-bind-address")) (string_of (v "openfga-api-url"))
    (string_of (v "openfga-store-id")) (string_of (v "openfga-scheme")) (string_of (v "leader-election-id"))
    (string_of (v "leader-election-namespace")) (string_of (v "leader-election-resource-lock"))
    (int_of (v "leader-election-lease-duration")) (int_of (v "leader-election-renew-deadline"))
    (int_of (v "leader-election-retry-period")) (string_of (v "configmap-namespace")) (string_of (v "configmap-name"))
    (string_of (v "server-config")) (string_of (v "upstream-kubeconfig")) (string_of (v "core-control-plane-kubeconfig"))
    (int_of (v "policybinding-max-concurrent-reconciles")) (int_of (v "openfga-timeout"))
    (int_of (v "openfga-keepalive-time")) (int_of (v "openfga-keepalive-timeout")).

Definition webhook_flags (getenv : string → string) : list (string * flag_value) :=
  [("cert-dir", StringFlag "/etc/certs");
   ("cert-file", StringFlag "tls.crt");
   ("key-file", StringFlag "tls.key");
   ("openfga-api-url", StringFlag "");
   ("openfga-store-id", StringFlag "");
   ("openfga-scheme", StringFlag "http");
   ("webhook-port", IntFlag 9443);
   ("metrics-bind-address", StringFlag ":8080");
   ("health-probe-bind-address", StringFlag ":8081");
   ("discovery-cache-ttl", DurationFlag (5 * minute));
   ("otlp-endpoint", StringFlag (getenv "OTEL_EXPORTER_OTLP_ENDPOINT"));
   ("configmap-namespace", StringFlag (getenv "POD_NAMESPACE"));
   ("configmap-name", StringFlag "openfga-authorization-model");
   ("enable-subresource-authorization", BoolFlag false)].

Definition webhook_flag_values (v : string → flag_value) : WebhookFlags :=
  mkWebhookFlags (bool_of (v "enable-subresource-authorization")) (string_of (v "cert-dir")) (string_of (v "cert-file"))
    (string_of (v "key-file")) (string_of (v "openfga-api-url")) (string_of (v "openfga-store-id"))
    (string_of (v "openfga-scheme")) (int_of (v "webhook-port")) (string_of (v "metrics-bind-address"))
    (string_of (v "health-probe-bind-address")) (int_of (v "discovery-cache-ttl")) (string_of (v "otlp-endpoint"))
    (string_of (v "configmap-namespace")) (string_of (v "configmap-name")).

Section commands.
Context `{Libraries} `{DiscoveryModes} `{URLs} {K S : Type} `{KClient K Role} `{KClient K PolicyBinding}
  `{KClient K ProtectedResource} `{KClient K GroupMembership} `{Rand S} `{DefaultRateLimiter} `{GenerationChanged}
  `{StatusConditions}.
Context (fuel : nat) (getenv : string → string).

Definition createManagerCommand : command (Go K unit) :=
  mkCommand "manager" (manager_flags getenv) ["openfga-api-url"; "openfga-store-id"]
    (λ v, runManager (S := S) fuel (manager_flag_values v)).

Definition createWebhookCommand : command (Go K unit) :=
  mkCommand "authz-webhook" (webhook_flags getenv) ["openfga-api-url"; "openfga-store-id"]
    (λ v, runWebhookServer (webhook_flag_values v)).

(** [MarkFlagRequired] of a flag the command has; the commands panic otherwise. *)
Definition required_flags_exist {A} (c : command A) : bool :=
  forallb (λ name, bool_decide (name ∈ map fst (cmd_Flags c))) (cmd_required c).

Lemma commands_do_not_panic :
  required_flags_exist createManagerCommand = true ∧ required_flags_exist createWebhookCommand = true.
Proof. split; vm_compute; reflexivity. Qed.

(** No flag is defined twice, and a flag of both commands has one default: with no
    flags, the manager publishes the model where the webhook looks for it, and both
    treat subresources alike. *)
Lemma shared_flags_agree :
  NoDup (map fst (manager_flags getenv)) ∧ NoDup (map fst (webhook_flags getenv)) ∧
  Forall (λ kv, from_option (λ v, v = kv.2) True ((list_to_map (manager_flags getenv) : gmap string flag_value) !! kv.1))
    (webhook_flags getenv).
Proof.
  split_and!; [apply (bool_decide_unpack _); vm_compute; exact I..|].
  repeat (apply Forall_cons_2; [vm_compute; first [reflexivity|exact I]|]). apply Forall_nil_2.
Qed.
End commands.
