(* ===== verification/CommandsSpec.v ===== *)
(** * What every run of the commands does

    Whatever the libraries answer: the connections that are opened are closed, no
    manager runs before every controller is registered with what it needs, and no
    webhook is served that does not read the cache, the watcher and the store the
    command set up. *)

From S2P Require Import Prelude GoStrings GoErr RateLimiter Program Types Constants World Fga Tuples Indexes RoleGraph ControllerEnv TargetHold.
From S2P Require Import ResourceOwnerHierarchy GroupMembership SystemGroup AuthModel AuthModelController RoleController.
From S2P Require Import Hash PolicyBindingController ModelIDWatcher PRCache Setup Libraries Managers WebhookServer RefK8s RefObjects GroupMembershipSpec SetupSpec.
Local Open Scope Z_scope.

Section commands.
Context `{Libraries} `{DiscoveryModes} `{URLs} {K S : Type} `{KClient K Role} `{KClient K PolicyBinding}
  `{KClient K ProtectedResource} `{KClient K GroupMembership} `{Rand S} `{DefaultRateLimiter} `{GenerationChanged}
  `{StatusConditions}.

(** The calls the properties are about, when they succeed. *)
Inductive note :=
| Opened (target : string) (options : DialOptions) (c : Conn)
| Closed (c : Conn)
| TracerUp (tp : option TracerProvider)
| TracerDown (tp : TracerProvider)
| Registered (m : Manager + MCManager) (c : controller K) (r : Reconciler)
| Added (m : MCManager) (r : runnable)
| Running (m : MCManager) (workers : list worker)
| Informs (m : Manager) (kind : string) (i : Informer)
| Fed (i : Informer) (handle : ProtectedResourceCache → informer_event ProtectedResource → ProtectedResourceCache)
| Watched (source : informer_source)
    (handle : AuthorizationModelIDWatcher → informer_event ConfigMap → AuthorizationModelIDWatcher)
| Spawned (g : goroutine)
| Hooked (m : Manager) (path : string) (config : WebhookConfig)
| Probed (m : Manager) (ready : checker)
| Started (m : Manager).

Definition note_of (c : called (Call K) answer) : option note :=
  match the_call c as c0 return answer c0 → option note with
  | CNewConn target options => λ x, match x with inl conn => Some (Opened target options conn) | inr _ => None end
  | CCloseConn conn => λ _, Some (Closed conn)
  | CSetTracerProvider tp => λ _, Some (TracerUp tp)
  | CShutdownTracer tp => λ _, Some (TracerDown tp)
  | CComplete m ct r => λ x, match x with None => Some (Registered (inl m) ct r) | Some _ => None end
  | CCompleteMC m ct r => λ x, match x with None => Some (Registered (inr m) ct r) | Some _ => None end
  | CAddRunnable m r => λ x, match x with None => Some (Added m r) | Some _ => None end
  | CRunUntilManagerStops m ws => λ _, Some (Running m ws)
  | CRegisterWebhook m path config => λ _, Some (Hooked m path config)
  | CAddReadyzCheck (inl m) _ check => λ x, match x with None => Some (Probed m check) | Some _ => None end
  | CStartManager m => λ _, Some (Started m)
  | _ => λ _, None
  end (got c).

(** The credentials are TLS's when the scheme is https, and only then. *)
Definition secured (scheme : string) (options : DialOptions) : Prop :=
  do_credentials options = TLS12 ↔ ToLower scheme = "https".

(** No call over the connection is without a deadline. *)
Definition bounded (options : DialOptions) : Prop :=
  ∃ interceptor, do_interceptor options = Some interceptor ∧ ∀ now ctx, is_Some (ctx_Deadline (interceptor now ctx)).

Lemma transportCredentials_secured scheme keepalive interceptor handler :
  secured scheme (mkDialOptions (transportCredentials scheme) keepalive interceptor handler).
Proof. unfold secured, transportCredentials. simpl. by destruct (String.eqb_spec (ToLower scheme) "https"). Qed.

Abbreviation quiet := (Program.quiet note_of).
Abbreviation noting := (Program.noting note_of).

(** ** The manager *)

Context (fuel : nat) (flags : ManagerFlags).

Definition is_registered (n : note) : Prop := match n with Registered _ _ _ => True | _ => False end.

(** Only registrations, as [P] says on success. *)
Definition registering (P : list note → Prop) (n : list note) (o : ended unit) : Prop :=
  Forall is_registered n ∧ (o = Returned tt → P n).
Abbreviation registers l := (registering (λ n, n = l)).

Lemma registering_failed P e : registering P [] (Failed e).
Proof. by split. Qed.
Lemma registering_exited P : registering P [] Exited.
Proof. by split. Qed.
Hint Resolve registering_failed registering_exited : core.

Lemma registering_returning (m : Go K unit) prefix P : noting m (registering P) → noting (returning prefix m) (registering P).
Proof.
  intros Hm. apply noting_on_error. eapply noting_mono; [exact Hm|]. intros n [[]|e|] [HF HR]; (split; [done|]); [done|..]; done.
Qed.

Lemma registering_seq (m1 m2 : Go K unit) P1 P2 :
  noting m1 (registering P1) → noting m2 (registering P2) →
  noting (m1 ;; m2) (registering (λ n, ∃ n1 n2, n = n1 ++ n2 ∧ P1 n1 ∧ P2 n2)).
Proof.
  intros HP1 HP2. eapply noting_bind; [exact HP1|..].
  - intros n [] [HF HR]. eapply noting_mono; [exact HP2|]. intros n' o [HF' HR']. split; [by apply Forall_app|].
    intros E. exists n, n'. auto.
  - intros n e [HF _]. done.
  - intros n [HF _]. done.
Qed.

Lemma registers_quiet {A} (m : Go K A) f P : quiet m → (∀ a, noting (f a) (registering P)) → noting (m ≫= f) (registering P).
Proof. intros Hm Hf. by apply noting_quiet. Qed.

Lemma registers_failing e l : noting (fail e) (registers l).
Proof. by split. Qed.

Lemma Complete_registers mgr c r : noting (Complete mgr c r) (registers [Registered (inl mgr) c r]).
Proof. intros [e|]; split; try done; by constructor. Qed.
Lemma CompleteMC_registers m c r : noting (CompleteMC m c r) (registers [Registered (inr m) c r]).
Proof. intros [e|]; split; try done; by constructor. Qed.

Lemma quiet_IndexField mgr k field f : quiet (IndexField (K := K) mgr k field f).
Proof. unfold IndexField. solve_quiet. Qed.
Lemma quiet_Register key : quiet (Register (K := K) key).
Proof. unfold Register. solve_quiet. Qed.
Lemma quiet_indexes mgr : quiet (setupPolicyBindingIndexes (K := K) mgr).
Proof. unfold setupPolicyBindingIndexes. repeat (apply quiet_bind; [|intros _]); apply quiet_on_error, quiet_IndexField. Qed.
Hint Resolve quiet_IndexField quiet_Register quiet_indexes : quiet.

Ltac solve_registers :=
  repeat first
    [ apply Complete_registers | apply CompleteMC_registers | apply registers_failing
    | apply registers_quiet; [solve_quiet|intros ?] ].

Lemma role_registers r mgr :
  noting (role_SetupWithManager (K := K) (S := S) fuel r mgr) (registers [Registered (inl mgr) (role_controller (S := S)
    (mkRoleReconciler (rec_EnableSubresourceAuthorization r) (rec_StoreID r) fuel) (rec_MaxConcurrentReconciles r)) r]).
Proof. unfold role_SetupWithManager. solve_registers. Qed.

Lemma policybinding_registers r mgr :
  noting (policybinding_SetupWithManager (K := K) (S := S) fuel r mgr) (registers [Registered (inl mgr)
    (policybinding_controller (S := S) (mkPBReconciler (rec_EnableSubresourceAuthorization r) (rec_StoreID r) fuel)
      (rec_MaxConcurrentReconciles r)) r]).
Proof. unfold policybinding_SetupWithManager. destruct (rec_Locks r); solve_registers. Qed.

Lemma project_registers r mgr :
  rec_StoreID r ≠ "" →
  noting (project_SetupWithManager (K := K) r mgr) (registers [Registered (inl mgr) project_controller r]).
Proof.
  intros Hs%String.eqb_neq. unfold project_SetupWithManager. rewrite Hs. destruct (rec_Locks r); solve_registers.
Qed.

Lemma organization_registers r mgr :
  noting (organization_SetupWithManager (K := K) r mgr) (registers [Registered (inl mgr) organization_controller r]).
Proof. unfold organization_SetupWithManager. destruct (rec_Locks r); solve_registers. Qed.

Lemma authorizationmodel_registers r mgr :
  noting (authorizationmodel_SetupWithManager (K := K) r mgr) (registers [Registered (inl mgr) authorizationmodel_controller r]).
Proof.
  unfold authorizationmodel_SetupWithManager. destruct (rec_FgaClient r), (String.eqb (rec_StoreID r) ""); solve_registers.
Qed.

Lemma membership_registers r mgr :
  noting (membership_SetupWithManager (K := K) (S := S) r mgr)
    (registers [Registered (inl mgr) (membership_controller (S := S) (rec_MaxConcurrentReconciles r)) r]).
Proof. unfold membership_SetupWithManager. solve_registers. Qed.

Lemma systemgroup_registers r mgr mcMgr :
  noting (systemgroup_SetupWithManagerMultiCluster (K := K) (S := S) r mgr mcMgr)
    (registers [Registered (inl mgr) (systemgroup_user_controller (S := S)) r;
                Registered (inr mcMgr) (systemgroup_serviceaccount_controller (S := S)) r]).
Proof. 
  eapply noting_mono; [apply registering_seq; apply registering_returning; [apply Complete_registers|apply CompleteMC_registers]|].
  intros n o [HF HR]. split; [done|]. intros E. by destruct (HR E) as (n1 & n2 & -> & -> & ->).
Qed.

(** Every controller, with the fields the command gives its reconciler: all have the
    local manager's client, the connection and the store of the flags; the roles', the
    bindings' and the models' the flag that enables subresources; the ones that write
    tuples the watcher, but for the hierarchies'; the bindings' and the hierarchies' the
    locks; and the models' the ConfigMap. *)
Definition registrations (localMgr : Manager) (mcMgr : MCManager) (conn : Conn) (watcher : watcher_ref) (locks : LockPool)
    (configMapClient : option DirectClient) : list note :=
  let enabled := mf_enableSubresourceAuthorization flags in
  let store := mf_openfgaStoreID flags in
  let workers := mf_policyBindingMaxConcurrentReconciles flags in
  let role := {|
    rec_Client := localMgr; rec_FgaClient := Some conn; rec_StoreID := store; rec_EnableSubresourceAuthorization := enabled;
    rec_ModelIDProvider := Some watcher; rec_MaxConcurrentReconciles := 0; rec_Locks := None;
    rec_ConfigMapNamespace := ""; rec_ConfigMapName := ""; rec_ConfigMapClient := None |} in
  let binding := {|
    rec_Client := localMgr; rec_FgaClient := Some conn; rec_StoreID := store; rec_EnableSubresourceAuthorization := enabled;
    rec_ModelIDProvider := Some watcher; rec_MaxConcurrentReconciles := workers; rec_Locks := Some locks;
    rec_ConfigMapNamespace := ""; rec_ConfigMapName := ""; rec_ConfigMapClient := None |} in
  let hierarchy := {|
    rec_Client := localMgr; rec_FgaClient := Some conn; rec_StoreID := store; rec_EnableSubresourceAuthorization := false;
    rec_ModelIDProvider := None; rec_MaxConcurrentReconciles := 0; rec_Locks := Some locks;
    rec_ConfigMapNamespace := ""; rec_ConfigMapName := ""; rec_ConfigMapClient := None |} in
  let model := {|
    rec_Client := localMgr; rec_FgaClient := Some conn; rec_StoreID := store; rec_EnableSubresourceAuthorization := enabled;
    rec_ModelIDProvider := None; rec_MaxConcurrentReconciles := 0; rec_Locks := None;
    rec_ConfigMapNamespace := mf_configmapNamespace flags; rec_ConfigMapName := mf_configmapName flags;
    rec_ConfigMapClient := configMapClient |} in
  let group := {|
    rec_Client := localMgr; rec_FgaClient := Some conn; rec_StoreID := store; rec_EnableSubresourceAuthorization := false;
    rec_ModelIDProvider := Some watcher; rec_MaxConcurrentReconciles := 0; rec_Locks := None;
    rec_ConfigMapNamespace := ""; rec_ConfigMapName := ""; rec_ConfigMapClient := None |} in
  [Registered (inl localMgr) (role_controller (S := S) (mkRoleReconciler enabled store fuel) 0) role;
   Registered (inl localMgr) (policybinding_controller (S := S) (mkPBReconciler enabled store fuel) workers) binding;
   Registered (inl localMgr) project_controller hierarchy;
   Registered (inl localMgr) organization_controller hierarchy;
   Registered (inl localMgr) authorizationmodel_controller model;
   Registered (inl localMgr) (membership_controller (S := S) 0) group;
   Registered (inl localMgr) (systemgroup_user_controller (S := S)) group;
   Registered (inr mcMgr) (systemgroup_serviceaccount_controller (S := S)) group].

Lemma registering_mono (m : Go K unit) (P Q : list note → Prop) :
  noting m (registering P) → (∀ n, P n → Q n) → noting m (registering Q).
Proof. intros Hm HPQ. eapply noting_mono; [exact Hm|]. intros n o [HF HR]. split; [done|]. auto. Qed.

(** A sequence of two, the first's notes known. *)
Lemma registers_then (m1 m2 : Go K unit) l P :
  noting m1 (registers l) → noting m2 (registering P) → noting (m1 ;; m2) (registering (λ n, ∃ n2, n = l ++ n2 ∧ P n2)).
Proof.
  intros HP1 HP2. eapply registering_mono; [by apply registering_seq|]. intros n (n1 & n2 & -> & -> & HP). eauto.
Qed.

Lemma hierarchy_registers mgr conn locks :
  mf_openfgaStoreID flags ≠ "" →
  noting (setupHierarchyControllers (K := K) flags mgr conn locks)
    (registers [Registered (inl mgr) project_controller (HierarchyReconciler_of flags mgr conn locks);
                Registered (inl mgr) organization_controller (HierarchyReconciler_of flags mgr conn locks)]).
Proof.
  intros Hs. eapply registering_mono; [apply registering_seq; apply registering_returning;
    [by apply project_registers|apply organization_registers]|].
  by intros n (n1 & n2 & -> & -> & ->).
Qed.

Lemma setupControllers_registers localMgr mcMgr conn watcher :
  mf_openfgaStoreID flags ≠ "" →
  noting (setupControllers (K := K) (S := S) fuel flags localMgr mcMgr conn watcher)
    (registering (λ n, ∃ locks configMapClient, n = registrations localMgr mcMgr conn watcher locks configMapClient)).
Proof.
  intros Hstore. eapply registering_mono.
  { apply registers_then; [apply registering_returning, role_registers|].
    apply (registers_quiet _ _ (λ n, ∃ locks cm, n = skipn 1 (registrations localMgr mcMgr conn watcher locks cm))); [solve_quiet|].
    intros locks. eapply registering_mono.
    { apply registers_then; [apply registering_returning, policybinding_registers|].
      apply registers_then; [by apply hierarchy_registers|].
      apply (registers_quiet _ _ (λ n, ∃ cm, n = skipn 4 (registrations localMgr mcMgr conn watcher locks cm)));
        [unfold newConfigMapClient; solve_quiet|].
      intros cm. eapply registering_mono.
      { apply registers_then; [apply registering_returning, authorizationmodel_registers|].
        apply registers_then; [apply registering_returning, membership_registers|].
        apply registering_returning, systemgroup_registers. }
      intros n (n1 & -> & n2 & -> & ->). by exists cm. }
    intros n (n1 & -> & n2 & -> & cm & ->). by exists locks, cm. }
  intros n (n1 & -> & locks & cm & ->). by exists locks, cm.
Qed.

Lemma watchModelID_watcher mgr namespace name :
  noting (watchModelID (K := K) mgr namespace name) (λ n o, n = [] ∧ ∀ w, o = Returned w → wr_contents w = new_watcher name "").
Proof.
  assert (∀ w : watcher_ref, wr_contents w = new_watcher name "" → noting (addEventHandler (K := K) w ;; mret w)
    (λ n o, n = [] ∧ ∀ w', o = Returned w' → wr_contents w' = new_watcher name "")) as Hadd.
  { intros w Hw. apply noting_quiet; [unfold addEventHandler; solve_quiet|intros _|done..]. split; [done|]. by intros w' [= <-]. }
  unfold watchModelID. apply noting_quiet; [solve_quiet|intros inCluster|done..].
  apply noting_on_error. eapply (noting_mono _ _ (λ n o, n = [] ∧ ∀ w, o = Returned w → wr_contents w = new_watcher name "")).
  2: { intros n [w|e|]; naive_solver. }
  destruct inCluster as [cfg|e]; unfold configModelIDWatcher, managerModelIDWatcher; destruct (String.eqb name ""); try done.
  - apply noting_quiet; [solve_quiet|intros clientset|done..]. apply noting_quiet; [solve_quiet|intros factory|done..].
    apply noting_quiet; [unfold addEventHandler; solve_quiet|intros _|done..].
    do 2 (apply noting_quiet; [solve_quiet|intros ?|done..]). split; [done|]. by intros w [= <-].
  - apply noting_quiet; [solve_quiet|intros informer|done..]. by apply Hadd.
Qed.

(** Either no manager runs and the command fails, or it has run after everything was
    registered, with the connection and the store. *)
Definition body_ran (conn : Conn) (n : list note) (o : ended unit) : Prop :=
  (Forall is_registered n ∧ o ≠ Returned tt) ∨
  (∃ localMgr mcMgr watcher locks configMapClient p runnables,
     wr_contents watcher = new_watcher (mf_configmapName flags) "" ∧
     n = registrations localMgr mcMgr conn watcher locks configMapClient ++
       [Added mcMgr (LocalManager mcMgr localMgr); Running mcMgr (map StartRunnable runnables ++ [StartProvider p mcMgr])] ∧
     o ≠ Exited).

Lemma body_ran_failed conn n e : Forall is_registered n → body_ran conn n (Failed e).
Proof. by left. Qed.
Lemma body_ran_exited conn n : Forall is_registered n → body_ran conn n Exited.
Proof. by left. Qed.
Hint Resolve body_ran_failed body_ran_exited : core.

Lemma runManagers_ran conn localMgr mcMgr watcher locks cm p runnables :
  wr_contents watcher = new_watcher (mf_configmapName flags) "" →
  noting (runManagers (K := K) localMgr mcMgr p runnables)
    (λ n, body_ran conn (registrations localMgr mcMgr conn watcher locks cm ++ n)).
Proof.
  intros Hw. assert (Forall is_registered (registrations localMgr mcMgr conn watcher locks cm)) as HF by by repeat constructor.
  unfold runManagers. do 2 (apply noting_quiet; [solve_quiet|intros _|intros; rewrite (right_id_L [] (++)); auto..]).
  eapply (noting_bind _ _ _ (λ n o, match o with
    | Returned _ => n = [Added mcMgr (LocalManager mcMgr localMgr)] | _ => n = [] end)).
  { apply noting_on_error. by intros [e|]. }
  2,3: intros; subst; rewrite (right_id_L [] (++)); auto.
  intros n [] ->. apply noting_perform. intros x.
  apply noting_on_error. unfold Program.noting. intros y. destruct y; right; by exists localMgr, mcMgr, watcher, locks, cm, p, runnables.
Qed.

Lemma managerBody_ran serverConfig upstream core conn :
  mf_openfgaStoreID flags ≠ "" →
  noting (managerBody (K := K) (S := S) fuel flags serverConfig upstream core conn) (body_ran conn).
Proof.
  intros Hstore. unfold managerBody, GetConfigOrDie, initializeClusterDiscovery, DiscoveryRestConfig, ProjectRestConfig.
  apply noting_quiet; [solve_quiet|intros cfg|auto..].
  apply noting_quiet; [solve_quiet|intros deployment|auto..].
  apply noting_quiet; [unfold GetConfig, BuildConfigFromFlags; solve_quiet|intros [runnables p]|auto..].
  apply noting_quiet; [solve_quiet|intros cluster|auto..].
  apply noting_quiet; [solve_quiet|intros mcMgr|auto..].
  apply noting_quiet; [solve_quiet|intros localMgr|auto..].
  eapply noting_bind; [apply watchModelID_watcher|..]; [|by intros n e [-> _]; auto|by intros n [-> _]; auto].
  intros n watcher [-> Hw].
  eapply noting_bind; [by apply setupControllers_registers|..].
  - intros n [] [_ HR]. destruct (HR eq_refl) as (locks & cm & ->). by apply runManagers_ran, Hw.
  - intros n e [HF _]. auto.
  - intros n [HF _]. auto.
Qed.

(** What the process closes: nothing when it exits in the middle. *)
Definition closing {A} (conn : Conn) (o : ended A) : list note :=
  match o with Exited => [] | _ => [Closed conn] end.

(** C17: The manager runs only when everything is registered. Whatever the libraries
    answer, a run of the command either fails before it connects, or has both a URL
    and a store, opens one connection - to that URL, over TLS if and only if the scheme
    is https, every call of it with a deadline - and closes it last, unless the process
    exits. In between it either fails, having registered some controllers, or registers
    all eight and only then runs, the local manager behind the primary one's election:
    every reconciler with that connection and the store of the flags, those that watch
    the model with a watcher of the ConfigMap the flags name that has seen no model yet,
    and the three that write or clear tuples naming Projects and Organizations with one
    and the same lock pool. *)
Theorem runManager_registers_before_running tr res
  (Hrun : runs (runManager (K := K) (S := S) fuel flags) tr res) :
  (notes note_of tr = [] ∧ res ≠ Returned tt) ∨
  (mf_openfgaAPIURL flags ≠ "" ∧ mf_openfgaStoreID flags ≠ "" ∧
   ∃ options conn middle,
     notes note_of tr = Opened (mf_openfgaAPIURL flags) options conn :: middle ++ closing conn res ∧
     secured (mf_openfgaScheme flags) options ∧ bounded options ∧ body_ran conn middle res).
Proof.
  assert (noting (runManager (K := K) (S := S) fuel flags) (λ n o, (n = [] ∧ o ≠ Returned tt) ∨
    (mf_openfgaAPIURL flags ≠ "" ∧ mf_openfgaStoreID flags ≠ "" ∧
     ∃ options conn middle, n = Opened (mf_openfgaAPIURL flags) options conn :: middle ++ closing conn o ∧
       secured (mf_openfgaScheme flags) options ∧ bounded options ∧ body_ran conn middle o))) as HN;
    [|by apply (proj1 (noting_runs _ _ _) HN)].
  unfold runManager, loadServerConfig, loadKubeconfig, GetConfigOrDie, BuildConfigFromFlags.
  do 3 (apply noting_quiet; [solve_quiet|intros ?|by left..]).
  destruct (String.eqb_spec (mf_openfgaAPIURL flags) "") as [|Hurl]; [by left|].
  destruct (String.eqb_spec (mf_openfgaStoreID flags) "") as [|Hstore]; [by left|].
  set (P := λ options, secured (mf_openfgaScheme flags) options ∧ bounded options).
  eapply (noting_bind _ _ _ (λ n o, match o with
    | Returned conn => ∃ options, n = [Opened (mf_openfgaAPIURL flags) options conn] ∧ P options
    | _ => n = [] end)).
  { apply noting_on_error. intros [conn|e]; [|done]. eexists. split; [reflexivity|]. split; [apply transportCredentials_secured|].
    eexists. split; [reflexivity|]. intros now ctx. unfold timeoutUnaryInterceptor, WithTimeout. by destruct (ctx_Deadline ctx) eqn:E; rewrite ?E. }
  2,3: intros; subst; by left.
  intros n conn (options & -> & Hsec & Hbound).
  eapply (noting_deferred _ _ _ _ (λ n _, n = [Closed conn])); [by apply managerBody_ran|by intros x|..].
  - intros n HB. right. split_and!; [done..|]. exists options, conn, n. simpl. by rewrite (right_id_L [] (++)).
  - intros n o n' Ho HB ->. right. split_and!; [done..|]. exists options, conn, n. split; [|done]. by destruct o.
Qed.

(** ** The webhook *)

Context (wflags : WebhookFlags).

(** The webhook's properties are about its informers and goroutines too. *)
Definition hook_note (c : called (Call K) answer) : option note :=
  match the_call c as c0 return answer c0 → option note with
  | CGetInformer m kind => λ x, match x with inl i => Some (Informs m kind i) | inr _ => None end
  | CWatchProtectedResources i handle => λ x, match x with None => Some (Fed i handle) | Some _ => None end
  | CWatchConfigMaps source handle => λ _, Some (Watched source handle)
  | CSpawn g => λ _, Some (Spawned g)
  | c0 => λ x, note_of (mkCalled c0 x)
  end (got c).

Abbreviation hooking := (Program.noting hook_note).

(** What feeds the watcher: an informer of its own, which is started, or the manager's. *)
Definition watching (mgr : Manager) (w : watcher_ref) : list note :=
  match wr_source w with
  | FactoryInformer factory _ _ =>
    [Watched (wr_source w) watcher_handle; Spawned (StartFactory factory); Spawned (StopFactoryWhenDone factory)]
  | ManagerInformer informer => [Informs mgr "ConfigMap" informer; Watched (wr_source w) watcher_handle]
  end.

(** The watcher of the ConfigMap that is named, which has seen no model yet; its own
    informer is restricted to that ConfigMap. *)
Definition watcher_of (namespace name : string) (w : watcher_ref) : Prop :=
  wr_contents w = new_watcher name "" ∧
  match wr_source w with FactoryInformer _ ns n => ns = namespace ∧ n = name | ManagerInformer _ => True end.

(** The probe passes once the wait for the caches has succeeded, and not before. *)
Definition waits (ready : checker) : Prop := ∀ synced, ready (awaitCacheSync synced false) = None ↔ synced = true.

(** Served: the cache is fed by the manager's informer, the watcher by its own; then
    the webhook is registered, then the wait for the caches started and the probe
    added; then the server. *)
Definition serving (mgr : Manager) (config : WebhookConfig) (ready : checker) : list note :=
  [Informs mgr "ProtectedResource" (wc_ProtectedResourceCache config); Fed (wc_ProtectedResourceCache config) cache_handle] ++
  watching mgr (wc_ModelIDWatcher config) ++
  [Hooked mgr SubjectAccessReviewWebhookPath config; Spawned (AwaitCacheSync mgr); Probed mgr ready; Started mgr].

(** The webhook's configuration is the flags', with the connection. *)
Definition configured (conn : Conn) (config : WebhookConfig) : Prop :=
  wc_FGAClient config = conn ∧ wc_FGAStoreID config = wf_openfgaStoreID wflags ∧
  wc_EnableSubresourceAuthorization config = wf_enableSubresourceAuthorization wflags ∧
  wc_discoveryTTL config = wf_discoveryCacheTTL wflags ∧
  watcher_of (wf_configmapNamespace wflags) (wf_configmapName wflags) (wc_ModelIDWatcher config).

Definition served (conn : Conn) (n : list note) (o : ended unit) : Prop :=
  (n = [] ∧ o ≠ Returned tt) ∨
  ∃ mgr config ready, configured conn config ∧ waits ready ∧
    n `prefix_of` serving mgr config ready ∧ (o = Returned tt → n = serving mgr config ready).

Lemma watchModelID_watching mgr namespace name :
  hooking (watchModelID (K := K) mgr namespace name)
    (λ n o, match o with Returned w => n = watching mgr w ∧ watcher_of namespace name w | _ => n = [] end).
Proof.
  unfold watchModelID. apply noting_quiet; [solve_quiet|intros inCluster|done..]. apply noting_on_error.
  destruct inCluster as [cfg|e]; unfold configModelIDWatcher, managerModelIDWatcher, addEventHandler; destruct (String.eqb name ""); try done.
  - apply noting_quiet; [solve_quiet|intros clientset|done..]. by intros factory ? [] [].
  - eapply (noting_bind _ _ _ (λ n o, match o with Returned i => n = [Informs mgr "ConfigMap" i] | _ => n = [] end)).
    { apply noting_on_error. by intros [i|e']. }
    2,3: by intros; subst.
    by intros n i -> ?.
Qed.

(** A part of what is served that a failure ends. *)
Lemma served_failing conn mgr config ready n n' o :
  configured conn config → waits ready → serving mgr config ready = n ++ n' → o ≠ Returned tt → served conn n o.
Proof. intros HC HW HS Ho. right. exists mgr, config, ready. split_and!; [done..| |done]. rewrite HS. by exists n'. Qed.

(** The webhook, the probes and the server, in this order. *)
Lemma hooks_serve mgr config :
  hooking
    (RegisterSubjectAccessReviewWebhook (K := K) mgr config ;;
     returning "unable to set up health check: " (x ← perform (CAddHealthzCheck (inl mgr) "healthz" Ping); of_error x) ;;
     _ ← perform (CSpawn (AwaitCacheSync mgr));
     returning "unable to set up ready check: " (x ← perform (CAddReadyzCheck (inl mgr) "readyz" cacheReadyCheck); of_error x) ;;
     x ← perform (CStartManager mgr); of_error x)
    (λ n o, ∃ n', [Hooked mgr SubjectAccessReviewWebhookPath config; Spawned (AwaitCacheSync mgr);
       Probed mgr cacheReadyCheck; Started mgr] = n ++ n' ∧ (o = Returned tt → n' = [])).
Proof.
  intros [] [e|]; [by eexists|]. intros [] [e|]; [by eexists|]. intros [e|]; by exists [].
Qed.

Lemma webhookBody_serves conn : hooking (webhookBody (K := K) wflags conn) (served conn).
Proof.
  unfold webhookBody, GetConfig, NewProtectedResourceCache.
  do 5 (apply noting_quiet; [unfold addToScheme; solve_quiet|intros ?|by left..]).
  apply noting_quiet; [solve_quiet|intros discovery|by left..]. apply noting_quiet; [solve_quiet|intros mgr|by left..].
  assert (waits cacheReadyCheck) as HW by by intros [].
  set (config := λ informer w, mkWebhookConfig (wf_enableSubresourceAuthorization wflags) conn (wf_openfgaStoreID wflags) w informer
    discovery (wf_discoveryCacheTTL wflags)).
  set (some_watcher := λ informer, mkWatcherRef (new_watcher (wf_configmapName wflags) "") (ManagerInformer informer)).
  assert (∀ informer w, watcher_of (wf_configmapNamespace wflags) (wf_configmapName wflags) w → configured conn (config informer w))
    as HC by by intros.
  assert (∀ informer, configured conn (config informer (some_watcher informer))) as HC' by by intros.
  eapply (noting_bind _ _ _ (λ n o, match o with
    | Returned i => n = [Informs mgr "ProtectedResource" i; Fed i cache_handle]
    | _ => n = [] ∨ ∃ i, n = [Informs mgr "ProtectedResource" i] end)).
  { apply noting_on_error. eapply (noting_bind _ _ _ (λ n o, match o with
      | Returned i => n = [Informs mgr "ProtectedResource" i] | _ => n = [] end)).
    { apply noting_on_error. by intros [i|e]. }
    2,3: by intros; subst; left.
    intros n i ->. eapply (noting_bind _ _ _ (λ n o, match o with Returned _ => n = [Fed i cache_handle] | _ => n = [] end)).
    { apply noting_on_error. by intros [e|]. }
    2,3: by intros; subst; right; exists i.
    by intros n [] ->. }
  2: intros n e [->|[i ->]]; [by left|by eapply (served_failing conn mgr (config _ (some_watcher _)) _ _ _ _ (HC' _) HW)].
  2: intros n [->|[i ->]]; [by left|by eapply (served_failing conn mgr (config _ (some_watcher _)) _ _ _ _ (HC' _) HW)].
  intros n i ->. eapply noting_bind; [apply watchModelID_watching|..].
  2: intros n e ->; eapply (served_failing conn mgr (config i (some_watcher i)) _ _ _ _ (HC' _) HW); [reflexivity|done].
  2: intros n ->; eapply (served_failing conn mgr (config i (some_watcher i)) _ _ _ _ (HC' _) HW); [reflexivity|done].
  intros n w [-> Hw]. specialize (HC i w Hw).
  eapply noting_mono; [apply (hooks_serve mgr (config i w))|]. intros n o (n' & E & Ho).
  right. exists mgr, (config i w), cacheReadyCheck. unfold serving. rewrite E.
  split_and!; [done..|exists n'; by rewrite <- !(assoc_L (++))|].
  intros ->%Ho. by rewrite (right_id_L [] (++)).
Qed.

(** The connection to the flags' URL, opened first and closed last. *)
Definition connected (n : list note) (o : ended unit) : Prop :=
  (n = [] ∧ o ≠ Returned tt) ∨
  ∃ options conn middle, n = Opened (wf_openfgaAPIURL wflags) options conn :: middle ++ closing conn o ∧
    secured (wf_openfgaScheme wflags) options ∧ served conn middle o.

(** C20: The webhook is served by what the command set up. Whatever the libraries answer,
    the tracer is set before anything else and shut down last, the connection to the
    flags' URL, over TLS if and only if the scheme is https, is opened next and closed
    before it, unless the process exits. In between the run gets some way through, and
    only when it gets to the end has served: the manager's informer of
    ProtectedResources feeds the cache; an informer of ConfigMaps, the manager's or one
    that is started for the ConfigMap the flags name, feeds the watcher; the webhook is
    registered at its path for that cache, that watcher, the connection and the store;
    the goroutine that waits for the caches is started, and a readiness probe added that
    passes when and only when the wait has succeeded; and last the server starts. *)
Theorem runWebhookServer_serves tr res (Hrun : runs (runWebhookServer (K := K) wflags) tr res) :
  (notes hook_note tr = [] ∧ res ≠ Returned tt) ∨
  ∃ tp conn_notes, notes hook_note tr = TracerUp tp :: conn_notes ++ match res, tp with
      | Exited, _ | _, None => []
      | _, Some tp => [TracerDown tp]
      end ∧
    (tp = None ↔ wf_otlpEndpoint wflags = "") ∧
    connected conn_notes res.
Proof.
  assert (hooking (runWebhookServer (K := K) wflags) (λ n o, (n = [] ∧ o ≠ Returned tt) ∨
    ∃ tp conn_notes, n = TracerUp tp :: conn_notes ++ match o, tp with
      | Exited, _ | _, None => []
      | _, Some tp => [TracerDown tp]
      end ∧ (tp = None ↔ wf_otlpEndpoint wflags = "") ∧ connected conn_notes o)) as HN;
    [|by apply (proj1 (noting_runs _ _ _) HN)].
  unfold runWebhookServer.
  eapply (noting_bind _ _ _ (λ n o, match o with
    | Returned tp => n = [TracerUp tp] ∧ (tp = None ↔ wf_otlpEndpoint wflags = "")
    | _ => n = []
    end)).
  { apply noting_on_error. unfold SetupTracer. destruct (String.eqb_spec (wf_otlpEndpoint wflags) "") as [Ee|Ee]; [by intros []|].
    apply noting_quiet; [solve_quiet|intros ?|done..].
    apply noting_quiet; [unfold tracesEndpointURL; solve_quiet|intros ?|done..].
    do 2 (apply noting_quiet; [solve_quiet|intros ?|done..]). by intros [] []. }
  2,3: intros; subst; by left.
  intros n tp [-> Htp].
  eapply (noting_deferred _ _ _ connected (λ n _, n = match tp with Some tp => [TracerDown tp] | None => [] end)).
  - eapply (noting_bind _ _ _ (λ n o, match o with
      | Returned conn => ∃ options, n = [Opened (wf_openfgaAPIURL wflags) options conn] ∧ secured (wf_openfgaScheme wflags) options
      | _ => n = [] end)).
    { apply noting_on_error. intros [conn|e]; [|done]. eexists. split; [reflexivity|apply transportCredentials_secured]. }
    2,3: intros; subst; by left.
    intros n conn (options & -> & Hsec). eapply (noting_deferred _ _ _ _ (λ n _, n = [Closed conn])); [apply webhookBody_serves|by intros x|..].
    + intros n HB. right. exists options, conn, n. simpl. by rewrite (right_id_L [] (++)).
    + intros n o n' Ho HB ->. right. exists options, conn, n. split; [|done]. by destruct o.
  - destruct tp as [tp|]; [by intros x|done].
  - intros n HC. right. exists tp, n. simpl. by rewrite (right_id_L [] (++)).
  - intros n o n' Ho HC ->. right. exists tp, n. split_and!; [|done..]. by destruct o.
Qed.
End commands.

(** ** Indexes *)

Section indexes.
Context `{Libraries} {K S : Type} `{KClient K Role} `{KClient K PolicyBinding} `{KClient K ProtectedResource}
  `{KClient K GroupMembership} `{Rand S} `{DefaultRateLimiter} `{GenerationChanged} `{StatusConditions}.

(** The indexes that are registered. *)
Definition note_index (c : called (Call K) answer) : option (kind * string * (object → list string)) :=
  match the_call c as c0 return answer c0 → option (kind * string * (object → list string)) with
  | CIndexField _ k field f => λ x, match x with None => Some (k, field, f) | Some _ => None end
  | _ => λ _, None
  end (got c).

Lemma IndexField_noted mgr k field f prefix :
  noting note_index (returning prefix (IndexField (K := K) mgr k field f))
    (λ n o, o = Returned tt → n = [(k, field, f)]).
Proof. apply noting_on_error. by intros [e|]. Qed.

Lemma indexes_seq (m1 m2 : Go K unit) l1 l2 :
  noting note_index m1 (λ n o, o = Returned tt → n = l1) → noting note_index m2 (λ n o, o = Returned tt → n = l2) →
  noting note_index (m1 ;; m2) (λ n o, o = Returned tt → n = l1 ++ l2).
Proof.
  intros HP1 HP2. eapply noting_bind; [exact HP1|..]; [|done..]. intros n [] HR. rewrite (HR eq_refl).
  eapply noting_mono; [exact HP2|]. intros n' o HR' E. by rewrite HR'.
Qed.

Lemma quiet_indexes_noted (m : Go K unit) : Program.quiet note_index m → noting note_index m (λ n o, o = Returned tt → n = []).
Proof. intros Hm. eapply noting_mono; [exact Hm|]. by intros n o ->. Qed.

Ltac step_indexes := eapply (indexes_seq _ _ [_]); [apply IndexField_noted|].

Lemma policybinding_indexes fuel r mgr :
  noting note_index (policybinding_SetupWithManager (K := K) (S := S) fuel r mgr) (λ n o, o = Returned tt → n =
    [(KindPolicyBinding, TargetObjectIndexField,
      of_policy_binding (λ pb, index_values (TargetObjectFromResourceSelector (pbs_ResourceSelector (pb_Spec pb)))));
     (KindPolicyBinding, TargetKindIndexField,
      of_policy_binding (λ pb, index_values (TargetKindFromResourceSelector (pbs_ResourceSelector (pb_Spec pb)))));
     (KindPolicyBinding, RoleRefIndexField,
      of_policy_binding (λ pb, [RoleRefIndexKey (om_Namespace (pb_Meta pb)) (pbs_RoleRef (pb_Spec pb))]));
     (KindProtectedResource, protectedResourceServiceKindIndexField,
      of_protected_resource (ProtectedResource_index protectedResourceServiceKindIndexField))]).
Proof.
  unfold policybinding_SetupWithManager. destruct (rec_Locks r); [|done].
  apply (indexes_seq _ _ [_; _; _; _] []).
  - unfold setupPolicyBindingIndexes. do 3 step_indexes. apply IndexField_noted.
  - apply quiet_indexes_noted. unfold Register, Complete. solve_quiet.
Qed.

Lemma membership_indexes r mgr :
  noting note_index (membership_SetupWithManager (K := K) (S := S) r mgr) (λ n o, o = Returned tt → n =
    [(KindGroupMembership, groupMembershipUserRefIndexField,
      of_membership (GroupMembership_index groupMembershipUserRefIndexField));
     (KindGroupMembership, groupMembershipGroupRefIndexField,
      of_membership (GroupMembership_index groupMembershipGroupRefIndexField))]).
Proof.
  unfold membership_SetupWithManager. apply (indexes_seq _ _ [] [_; _]).
  { apply quiet_indexes_noted. unfold Register. solve_quiet. }
  do 2 step_indexes. apply quiet_indexes_noted. unfold Complete. solve_quiet.
Qed.

(** The indexes the controllers list by are the ones their managers keep: the keys a
    set-up registers for its objects are those the listings are modelled with. *)
Lemma setup_registers_indexes fuel r mgr tr1 tr2 :
  runs (policybinding_SetupWithManager (K := K) (S := S) fuel r mgr) tr1 (Returned tt) →
  runs (membership_SetupWithManager (K := K) (S := S) r mgr) tr2 (Returned tt) →
  (∀ field f, (KindPolicyBinding, field, f) ∈ notes note_index tr1 → ∀ pb, f (ObjPolicyBinding pb) = PolicyBinding_index field pb) ∧
  (∀ field f, (KindProtectedResource, field, f) ∈ notes note_index tr1 → ∀ pr, f (ObjProtectedResource pr) = ProtectedResource_index field pr) ∧
  (∀ field f, (KindGroupMembership, field, f) ∈ notes note_index tr2 → ∀ gm, f (ObjGroupMembership gm) = GroupMembership_index field gm) ∧
  map fst (notes note_index tr1) = [(KindPolicyBinding, TargetObjectIndexField); (KindPolicyBinding, TargetKindIndexField);
    (KindPolicyBinding, RoleRefIndexField); (KindProtectedResource, protectedResourceServiceKindIndexField)] ∧
  map fst (notes note_index tr2) = [(KindGroupMembership, groupMembershipUserRefIndexField);
    (KindGroupMembership, groupMembershipGroupRefIndexField)].
Proof.
  intros R1 R2. rewrite (proj1 (noting_runs _ _ _) (policybinding_indexes fuel r mgr) _ _ R1 eq_refl).
  rewrite (proj1 (noting_runs _ _ _) (membership_indexes r mgr) _ _ R2 eq_refl).
  split_and!; [..|reflexivity|reflexivity]; intros field f Hin x;
    repeat (apply elem_of_cons in Hin as [Hin|Hin]; [by simplify_eq|]); by apply elem_of_nil in Hin.
Qed.
End indexes.

(** ** Calls, probes and watchers *)

(** Every call to OpenFGA has a deadline: the caller's, or the timeout's. *)
Lemma intercepted_deadline timeout now ctx :
  ctx_Deadline (timeoutUnaryInterceptor timeout now ctx) = Some (default (now + timeout) (ctx_Deadline ctx)) ∧
  requestIDFromContext (timeoutUnaryInterceptor timeout now ctx) = requestIDFromContext ctx.
Proof. unfold timeoutUnaryInterceptor, WithTimeout. by destruct (ctx_Deadline ctx) eqn:E; rewrite ?E. Qed.

(** Request IDs are found where they were stored, and never empty. *)
Lemma requestID_roundtrip ctx requestID : requestIDFromContext (contextWithRequestID ctx requestID) = requestID.
Proof. done. Qed.

Lemma generateRequestID_nonempty headerValue random : generateRequestID headerValue random ≠ "".
Proof. unfold generateRequestID. by destruct (String.eqb_spec headerValue ""). Qed.

Lemma generateRequestID_distinct m n :
  0 ≤ m < 2 ^ 64 → 0 ≤ n < 2 ^ 64 → generateRequestID "" m = generateRequestID "" n → m = n.
Proof.
  intros Hm Hn E. unfold generateRequestID, hex16 in E. cbn [negb String.eqb] in E.
  apply hex_inj in E; [|apply Forall_app; split; apply big_endian_bytes..].
  apply app_inj_1 in E as [E1 E2]; [|done].
  apply big_endian_inj in E1; [|split; [apply Z.div_pos|apply Z.div_lt_upper_bound]; lia..].
  apply big_endian_inj in E2; [|apply Z.mod_pos_bound; lia..].
  rewrite (Z.div_mod m (2 ^ 32)), (Z.div_mod n (2 ^ 32)) by lia. by rewrite E1, E2.
Qed.

(** The probe passes only when the cache has synced. *)
Lemma ready_iff_synced synced : cacheReadyCheck (awaitCacheSync synced false) = None ↔ synced = true.
Proof. by destruct synced. Qed.

(** The manager's ConfigMap informer is not of the namespace the watcher is given: a
    ConfigMap of that name in any namespace sets the model ID. *)
Lemma manager_watcher_any_namespace `{Libraries} {K} mgr name seed :
  (∀ namespace1 namespace2, managerModelIDWatcher (K := K) mgr namespace1 name seed = managerModelIDWatcher mgr namespace2 name seed) ∧
  ∀ namespace modelID, modelID ≠ "" →
    GetModelID (watcher_handle (new_watcher name "")
      (EvAdd (IObj (mkConfigMap (mkObjectMeta name namespace "" 0 None [] []) {[ AuthorizationModelIDKey := modelID ]})))) = modelID.
Proof.
  split; [done|]. intros namespace modelID Hne. unfold watcher_handle, handleConfigMap, new_watcher. simpl.
  rewrite String.eqb_refl. simpl. rewrite lookup_singleton_eq. by destruct modelID.
Qed.

(** ** Examples: runs in which every call succeeds *)

Definition ex_libraries : Libraries := {|
  RestBase := unit; DialFunc := unit; Float32 := Z; float32 := λ z, z; FlowRateLimiter := unit; Conn := nat; Cluster := unit;
  Manager := string; MCManager := unit; MiloProvider := unit; Clientset := unit; InformerFactory := unit; Informer := unit;
  DirectClient := unit; LockPool := nat; DiscoveryClient := unit; TracerResource := unit; Exporter := unit; TracerProvider := unit
|}.
Definition ex_modes : DiscoveryModes := {| ProviderSingle := "single"; ProviderMilo := "milo" |}.
Definition ex_urls : URLs := {| url_Path := λ _, inl ""; JoinPath := λ s p, inl (s +:+ p) |}.
#[local] Existing Instances ex_libraries ex_modes ex_urls.

Definition ex_rest : RestConfig := mkRestConfig tt None 20 30 None.

(** Every call succeeds. *)
Definition ex_answer (c : Call RefK8s) : answer c :=
  match c with
  | CReadFile _ => inl ""
  | CDecodeInto _ => inl (mkAuthProviderOpenFGA (mkDiscoveryConfig "milo" false "" ""))
  | CBuildConfigFromFlags _ | CGetConfig | CInClusterConfig => inl ex_rest
  | CGetConfigOrDie => Some ex_rest
  | CNewConn _ _ => inl 7%nat
  | CNewManager _ _ => inl "local"
  | CNewCluster _ _ | CNewMCManager _ _ _ | CNewMiloProvider _ _ _ _ | CNewDirectClient _ _ | CNewDiscoveryClient _
  | CNewClientset _ | CGetInformer _ _ | CNewTracerResource _ _ | CNewExporter _ => inl tt
  | CNewObjectLocks _ => 1%nat
  | CNewInformerFactory _ _ _ _ | CNewTracerProvider _ _ | CSpawn _ | CRegisterWebhook _ _ _ | CSetupSignalHandler
  | CSetTracerProvider _ | CSetTextMapPropagator => tt
  | _ => None
  end.

Definition ex_flags : ManagerFlags :=
  mkManagerFlags false ":8080" true ":8081" "openfga:8081" "store" "https" "id" "" "leases" 15 10 2 "ns" "model" "config.yaml" ""
    "" 8 15 30 10.
Definition ex_manager_run : list (called (Call RefK8s) answer) * ended unit :=
  run_with ex_answer (runManager (K := RefK8s) (S := unit) 9 ex_flags).

(** Opened, eight controllers registered, the local manager added, run and closed. *)
Lemma runManager_registers_before_running_witness :
  length (notes (note_of (K := RefK8s)) ex_manager_run.1) = 12%nat ∧
  ∃ options conn middle,
    notes note_of ex_manager_run.1 = Opened "openfga:8081" options conn :: middle ++ closing conn ex_manager_run.2 ∧
    secured "https" options ∧ bounded options ∧
    body_ran (S := unit) 9 ex_flags conn middle ex_manager_run.2.
Proof.
  assert (length (notes (note_of (K := RefK8s)) ex_manager_run.1) = 12%nat) as E by (vm_compute; reflexivity).
  split; [exact E|].
  destruct (runManager_registers_before_running (K := RefK8s) (S := unit) 9 ex_flags ex_manager_run.1 ex_manager_run.2)
    as [[En _]|(_ & _ & HE)]; [apply run_with_runs|by rewrite En in E|exact HE].
Defined.

Definition ex_wflags : WebhookFlags :=
  mkWebhookFlags false "/etc/certs" "tls.crt" "tls.key" "openfga:8081" "store" "http" 9443 ":8080" ":8081" 300 "tempo:4318" "ns" "model".
Definition ex_webhook_run : list (called (Call RefK8s) answer) * ended unit :=
  run_with ex_answer (runWebhookServer (K := RefK8s) ex_wflags).

Lemma runWebhookServer_serves_witness :
  length (notes (hook_note (K := RefK8s)) ex_webhook_run.1) = 13%nat ∧
  ∃ tp conn_notes, notes hook_note ex_webhook_run.1 = TracerUp tp :: conn_notes ++ match tp with
      | None => [] | Some tp => [TracerDown tp] end ∧
    connected ex_wflags conn_notes (Returned tt).
Proof.
  split; [vm_compute; reflexivity|].
  assert (ex_webhook_run.2 = Returned tt) as E by (vm_compute; reflexivity).
  destruct (runWebhookServer_serves (K := RefK8s) ex_wflags ex_webhook_run.1 ex_webhook_run.2) as [[_ []]|(tp & l & El & _ & Hc)];
    [apply run_with_runs|exact E|]. exists tp, l. rewrite E in El, Hc. split; [exact El|exact Hc].
Defined.
